(* ===== verification/_CoqProject ===== *)
-Q . S2P
Prelude.v
Utils.v
Bitmap.v
DynArray.v
Serializer.v
Tags.v
Header.v
Layout.v
HeaderSpec.v
HeaderOps.v
Allocation.v
IndexUpdate.v
Payload.v
HeaderCodec.v
Codec.v
HeaderRoundtrip.v
RpmFile.v
FileRoundtrip.v
Extent.v
FileTheorems.v
ParseTotal.v
Signing.v
SigningTheorems.v
Frame.v
Files.v
FilesTheorems.v
Keys.v
Http.v
Server.v
AccessLog.v
ServerTheorems.v
Remote.v
RemoteTheorems.v
Config.v
ConfigTheorems.v
Dump.v
DumpTheorems.v
Log.v
Client.v
ClientTheorems.v
ClientInput.v
ClientVerify.v
ClientSign.v
ClientInPlace.v
ServerMain.v
Termination.v
ClientTotal.v
