(* ===== verification/Prelude.v ===== *)
(** * rpm-signing: signing RPM packages without their payload

    This library models [rpm-signing], a Go program that signs the signature header
    of RPM files on a command line client, alone or with the help of a signing server,
    and proves it correct. The sources are under [src/]; modelled is the code of
    [src/common/], [src/client/] and [src/server/].

    ** The program

    An RPM file is a lead of 96 bytes, a signature header, padding to 8 bytes, a
    main header and a compressed payload. Both headers have an index of entries,
    sorted by tag, and a data store with the payloads of the entries, each at an
    aligned offset. A distinguished entry, the region trailer (tag 62 in the
    signature header, 63 in the main header), lies at the very end of the store
    and names the size of the index.

    [ParseRPM] reads the lead and the headers through a serializer over some
    reader, hashing the main header on the way, and validates the digests of the
    signature header. [SignRpm] signs the digest of the main header with an
    OpenPGP key and replaces the signatures in the signature header:
    [DeleteIndexEntryIfExists] and [SetOrAddIndexEntry] keep the index sorted, the
    store packed ([syncDataStoreLayout]) and the trailer current
    ([updateSignedRegionTrailer]); space is taken from an entry of reserved space
    ([allocateSpaceInDatastore]). [RpmFile.Write] writes the file back, assembling
    every data store in a dynamic array that refuses overlapping writes and tracks
    the bytes written in a bitmap. A [SignatureVerifier] checks the signatures.

    The client parses its options, opens a file or a URL and prints, verifies or
    signs. To sign remotely it captures the headers while the parser reads them,
    posts them to the server, and writes the reply and the payload to the output
    ([signRpmRemotely]). The server loads its configuration, checks the token of a
    request, signs what is posted with its own key ([handleSignRpmHeader],
    [handleSignDetached]), and writes an access log that all requests share.

    ** The files

    - [Prelude]: machine integers with their wrap-around, the outcome of a Go call
      (value, error, panic, or a loop that does not end), a state monad that keeps
      the state on failure, and the lemmas and tactics shared by all files.
    - [Utils] ([common/utils.go]): alignment, slices with capacity and the identity
      of their array, the generic set.
    - [Bitmap], [DynArray] ([common/bitmap.go], [common/dynamicarray.go]).
    - [Serializer] ([common/serializer.go], [FillBuffer] of [common/utils.go]): readers
      and writers as classes. The contract of a lawful reader is that of [io.Reader]
      over bytes that all arrive, the one of a fallible reader allows that a read fails
      at any time. What is read may change when the reader's file is written
      ([Shares], in [RpmFile]).
    - [Tags] ([common/mainheadertags.go], [common/signatureheadertags.go]).
    - [Header] ([common/rpmparser.go]): the data model and the operations on a header
      in memory. [Layout]: the reference layout of a store. [HeaderSpec]: the abstract
      header, a finite map from tags to items, and the invariant. [HeaderOps],
      [Allocation], [IndexUpdate]: the operations refine those of the map.
    - [Payload]: reading and printing the payload of an entry.
    - [HeaderCodec]: parsing and writing of leads and headers. [Codec],
      [HeaderRoundtrip]: statements about encodings, and the round trip of headers.
    - [RpmFile]: [ParseRPM], [validateDigests], [RpmFile.Write]. [FileRoundtrip],
      [Extent], [FileTheorems]: the theorems about files; [Extent] has how many bytes
      the parsers of a lead and of a header take. [ParseTotal]: the parser on
      arbitrary input. [Frame]: parsers look only at the
      bytes they consume, and what is written does not depend on the writer.
    - [Signing] ([common/signing.go], [common/openpgp.go]): [SignRpm], [SignDigest]
      and the verifier. [SigningTheorems]: the theorems about them.
    - [Files] ([common/utils.go], [common/signing.go], [WriteToFile]): a file system
      whose calls can fail, open files, and the operations over them. [FilesTheorems].
    - [Keys] ([common/openpgp.go]): key files and detached signatures.
    - [Http]: queries, requests and response writers. [Server] ([server/server.go],
      [common/endpoints.go]): the handlers, the routes and the middleware.
      [AccessLog]: [writeAccessLog], also one access to the shared variables at a
      time. [ServerTheorems]. [ServerMain]: a request up to its line in the log, and
      the process.
    - [Remote] ([client/remotesign.go]): signing with the server over a connection that
      may break off. [RemoteTheorems]: client and server composed.
    - [Config] ([server/server.go]): the configuration. [ConfigTheorems].
    - [Dump] ([common/rpmparser.go], [common/utils.go]): the table of a header and the
      other printed forms. [DumpTheorems]. [Log] ([common/log.go]).
    - [Client] ([client/client.go]): the command line and [main]. [ClientTheorems]:
      the command lines it accepts. [ClientInput]: its input, an open file or a reply
      of the network. [ClientVerify]: what [--verify] reports.
      [ClientSign]: from the command line to the output, with a key and with a server.
      [ClientInPlace]: an output that is the input.
    - [Termination], [ClientTotal]: the server ends on every request, the client on
      every command line that does not sign in place.

    ** State and operations

    A method that changes its receiver is a program of the monad [M] over the
    record of the receiver; a reader or writer is the state of the programs that
    use it. A program over several of them runs each part on its component
    ([on_world], [on_body], [in_log] and the like). A pointer to an index entry is
    its index, and where the source keeps the pointer across an operation that may
    move the array ([SetOrAddIndexEntry]), the address of the element: array and
    index. Numbers are [Z]; the wrap-around of fixed-width arithmetic is written out.
    Errors and panics carry the constant part of their message. The files are a finite
    map from names to bytes together with the history of that map after every system
    call, which is what a crash would leave. A file that is open for reading is its name,
    what the file has now and a position in it ([FileReader], [LawfulFile]); whoever
    writes a file while a reader may have it open brings the reader up to date after
    every write ([refresh]), so that a payload that is read from the file being written
    is seen as it is. A file has one name. The goroutines that write the access log
    are a list of program points and a step relation.

    ** What the theorems show

    - Files: what is written parses back on every writer and reader, also through a
      file, and a signed file verifies after writing and parsing; a successful parse
      has checked every digest against exactly the bytes of the main header; its
      outcome does not depend on how the reader delivers the bytes, unless it validates
      the payload. On arbitrary bytes, also if reading them fails, the parser ends, and
      panics with nothing but the messages it gives to [panic].
    - Signing: which entries [SignRpm] adds, removes and keeps, and that it
      changes nothing for other key types; exactly when [VerifySignatures] accepts;
      what is left in the destination on success and on failure, whichever calls fail.
    - Headers: the operations on the index store or delete exactly one item,
      keep the header well formed and its store packed, aligned and free of
      overlaps, with the trailer at its end; the allocator terminates and hands out
      unused bytes. One theorem describes an update that is lost.
    - Writing atomically: after every single system call the file has its old or its
      whole new contents.
    - The server: that every request ends, in a reply or, with the right token only, a
      panic; which requests are answered with which signature, that none changes a file,
      that refused requests cannot be told apart by their queries; that the
      configuration is the finite map its file denotes. The access log is complete
      if requests come one after the other, two can lose a line, and every request
      gets its turn under every interleaving.
    - Client and server: signing remotely succeeds exactly if signing locally with the
      key of the server does, if the reply arrives whole, and writes the same file; a
      failure leaves no partial file, but can cost the file that was to be overwritten.
    - The client: which command lines are accepted, what [--verify] reports, the
      tables it prints; that what one command line signs the next one
      verifies, for an output that is not the input; that signing a file in place
      loses its payload or never ends; that every other command line ends.
    - Encodings: round trips of integers, payloads, leads and queries; the termination
      of the reading loops; the dynamic array refines a partial map, the bitmap a set.
    - Tags: lookups do not depend on earlier lookups; [IsUnknown] is inverted.

    ** Fuel

    A loop that is not structural takes fuel and returns [Diverge] when it runs
    out. The theorems give the fuel that is enough: the allocator recurses at most
    once ([allocation_fuel]); the loops of the parser take at most one step per
    byte of the data store, which is the fuel [parseHeaderBody] gives them;
    [io.Copy] and [io.ReadAll] take at most one step per byte left in the reader; a
    search for a private key takes one step per byte of the key file; the server copies
    a file with one step per read. [main_ends] and
    [requests_end] put these bounds together: with fuel above what there is to read
    nothing in the program diverges, on malformed input and on broken connections
    neither. The exception is a payload that grows while it is read, because it is read
    from the file that is written: no fuel is enough for it.

    ** Parameters

    Not part of the repository, and parameters of the model: the growth of slices
    ([Runtime]), what readers and writers of the operating system deliver
    ([LawfulIOReader], [FallibleIOReader], [LawfulWriter], [FileReader], [LawfulFile]),
    which system calls fail and how the names of temporary files are picked ([OS];
    [Reliable] says that none fails),
    the hash functions ([Hashes]: a hash is the bytes written to it), the OpenPGP
    library ([OpenPGP], [KeyFormat]), parsing and printing of URLs ([NetURL]), the
    HTTP transport ([Do], [http_Get]) and the events that end the server, the order in
    which Go ranges over a map, the [%q] of [fmt], the time, the environment and the
    version of the build. Theorems that say that the program ends assume that calls of
    these libraries and of the network return ([Responsive], [responding]).
    The theorems assume of them what they name and nothing else,
    and every theorem with such an assumption has a witness with concrete instances.

    ** Not modelled

    Accepting connections, delivering signals and the time a shutdown may take, which
    are the HTTP library and the runtime; links, modes and directories, and with them
    [IsFile], [IsDirectory] and [ListMatchingFiles]; [RandomString] and
    [Members], which only tests or nothing call; closing of readers, whose result the
    program ignores; the text of the client's help; what the
    handlers say in the server's own log, which nothing reads. *)
From stdpp Require Export base option list numbers strings gmap sorting.

(** ** Scopes, notations and automation databases *)

Declare Scope go_scope.
Delimit Scope go_scope with go.

(** [rpm] holds the range facts the components share, the rewrite database
    [zlen] the lengths of lists. *)
Create HintDb rpm.
Create Rewrite HintDb zlen.

#[global] Open Scope Z_scope.

(** ** Machine integers

    A Go integer of width [w] is a [Z]; the wrap-around of its arithmetic is
    written where the source computes with it. *)

Definition wrap (w x : Z) : Z := x mod 2 ^ w.
Abbreviation u8 := (wrap 8).
Abbreviation u16 := (wrap 16).
Abbreviation u32 := (wrap 32).
Abbreviation u64 := (wrap 64).

(** Conversion to a signed integer of width [w] (Go's [int32(x)]). *)
Definition signed (w x : Z) : Z :=
  let y := wrap w x in if y <? 2 ^ (w - 1) then y else y - 2 ^ w.
Abbreviation i32 := (signed 32).

Definition in_width (w x : Z) : Prop := 0 <= x < 2 ^ w.
Abbreviation is_byte := (in_width 8).
Abbreviation bytes_ok := (Forall is_byte).

#[export] Instance in_width_dec w x : Decision (in_width w x).
Proof. unfold in_width. apply _. Defined.

(** The length of a Go slice, as an integer. *)
Definition Zlen {A} (l : list A) : Z := Z.of_nat (length l).

(** [make([]byte, n)]: a byte slice of [n] zero bytes. *)
Definition zeros (n : nat) : list Z := replicate n 0.

Lemma wrap_range w x : 0 <= w -> in_width w (wrap w x).
Proof. intros Hw. apply Z.mod_pos_bound. lia. Qed.

Lemma wrap_small w x : in_width w x -> wrap w x = x.
Proof. apply Z.mod_small. Qed.

Lemma wrap_add_l w x y : 0 <= w -> wrap w (wrap w x + y) = wrap w (x + y).
Proof. intros. unfold wrap. apply Zplus_mod_idemp_l. Qed.

Lemma wrap_idemp w x : 0 <= w -> wrap w (wrap w x) = wrap w x.
Proof. intros. apply wrap_small, wrap_range. done. Qed.

Lemma Zlen_nonneg {A} (l : list A) : 0 <= Zlen l.
Proof. unfold Zlen. lia. Qed.

Lemma Zlen_nil {A} : Zlen (@nil A) = 0.
Proof. done. Qed.

Lemma Zlen_cons {A} (x : A) l : Zlen (x :: l) = 1 + Zlen l.
Proof. unfold Zlen. simpl. lia. Qed.

Lemma Zlen_app {A} (l k : list A) : Zlen (l ++ k) = Zlen l + Zlen k.
Proof. unfold Zlen. rewrite length_app. lia. Qed.

Lemma Zlen_pos {A} (l : list A) : l <> [] -> 0 < Zlen l.
Proof. destruct l; [done|]. intros _. unfold Zlen. simpl. lia. Qed.

Lemma length_zeros n : length (zeros n) = n.
Proof. apply length_replicate. Qed.

Lemma Zlen_zeros n : Zlen (zeros n) = Z.of_nat n.
Proof. unfold Zlen. by rewrite length_zeros. Qed.

Lemma zeros_bytes_ok n : bytes_ok (zeros n).
Proof. apply Forall_replicate. unfold in_width. lia. Qed.

#[export] Hint Rewrite @Zlen_nil @Zlen_cons @Zlen_app Zlen_zeros : zlen.
#[export] Hint Resolve Zlen_nonneg zeros_bytes_ok wrap_range : rpm.

(** [zlen] normalises lengths and closes the linear goal that is left. *)
Ltac zlen :=
  autorewrite with zlen in *; unfold Zlen in *; simpl length in *; lia.

(** [u32_small] removes the wrap-arounds that cannot happen. *)
Ltac wrap_small_tac :=
  repeat match goal with
         | |- context [wrap ?w ?x] =>
             rewrite (wrap_small w x) by (unfold in_width; lia)
         | H : context [wrap ?w ?x] |- _ =>
             rewrite (wrap_small w x) in H by (unfold in_width; lia)
         end.

(** [wrap_sum] drops the inner wrap-arounds of a nested sum. *)
Ltac wrap_sum := repeat first [rewrite wrap_add_l by lia | rewrite <- Z.add_assoc].

(** ** Errors, panics and the outcome of a Go call

    An error or a panic carries the constant part of the message the source
    builds; the numbers a message quotes are left out. [Diverge] is the result
    of a loop whose fuel is used up, which stands for a loop that does not
    end. *)

Inductive outcome (A : Type) : Type :=
| Ok (a : A)
| Err (msg : string)
| Panic (msg : string)
| Diverge.
Arguments Ok {A} a.
Arguments Err {A} msg.
Arguments Panic {A} msg.
Arguments Diverge {A}.

#[export] Instance outcome_ret : MRet outcome := fun A a => Ok a.
#[export] Instance outcome_bind : MBind outcome := fun A B f m =>
  match m with
  | Ok a => f a
  | Err e => Err e
  | Panic p => Panic p
  | Diverge => Diverge
  end.

(** A Go statement sequence over a state [S]: the state survives a failure. *)
Definition M (S A : Type) : Type := S -> outcome A * S.

#[export] Instance M_ret S : MRet (M S) := fun A a s => (Ok a, s).
#[export] Instance M_bind S : MBind (M S) := fun A B f m s =>
  match m s with
  | (Ok a, s') => f a s'
  | (Err e, s') => (Err e, s')
  | (Panic p, s') => (Panic p, s')
  | (Diverge, s') => (Diverge, s')
  end.

(** A computation that does not touch the state. *)
Definition lift {S A} (o : outcome A) : M S A := fun s => (o, s).
Definition raise {S A} (msg : string) : M S A := lift (Err msg).
Definition panic {S A} (msg : string) : M S A := lift (Panic msg).

(** A write to the state, and a computation that reads it. *)
Definition modify {S} (f : S -> S) : M S unit := fun s => (Ok tt, f s).
Definition gets {S A} (f : S -> outcome A) : M S A := fun s => (f s, s).

(** Run a computation of another state, starting in [s0], and drop its state. *)
Definition run_local {S T A} (s0 : T) (m : M T A) : M S A := lift (m s0).1.

Lemma outcome_bind_Ok {A B} (f : A -> outcome B) m b :
  m ≫= f = Ok b <-> exists a, m = Ok a /\ f a = Ok b.
Proof.
  destruct m; simpl; split; try done; [by eauto|by intros (? & [= ->] & ?)|by intros (? & ? & ?)..].
Qed.

Lemma M_bind_ok {S A B} (f : A -> M S B) (m : M S A) s a s' :
  m s = (Ok a, s') -> (m ≫= f) s = f a s'.
Proof. intros H. unfold mbind, M_bind. by rewrite H. Qed.

Lemma M_bind_assoc {S A B C} (m : M S A) (f : A -> M S B) (g : B -> M S C) s :
  ((m ≫= f) ≫= g) s = (m ≫= (fun x => f x ≫= g)) s.
Proof. unfold mbind, M_bind. by destruct (m s) as [[x|x|x|] s']. Qed.

Lemma M_bind_err {S A B} (f : A -> M S B) (m : M S A) s e s' :
  m s = (Err e, s') -> (m ≫= f) s = (Err e, s').
Proof. intros H. unfold mbind, M_bind. by rewrite H. Qed.

Lemma M_bind_inv {S A B} (f : A -> M S B) (m : M S A) s b s' :
  (m ≫= f) s = (Ok b, s') -> exists a s1, m s = (Ok a, s1) /\ f a s1 = (Ok b, s').
Proof.
  unfold mbind, M_bind. destruct (m s) as [[a|e|p|] s1]; naive_solver.
Qed.

(** [ok_inv] takes apart every hypothesis that says a sequence of statements
    succeeded. *)
Ltac ok_inv_step :=
  match goal with
  | H : mbind _ _ = Ok _ |- _ =>
      apply outcome_bind_Ok in H;
      let a := fresh "a" in let H1 := fresh "Hm" in
      destruct H as (a & H1 & H)
  | H : mbind _ _ _ = (Ok _, _) |- _ =>
      apply M_bind_inv in H;
      let a := fresh "a" in let s := fresh "s" in let H1 := fresh "Hm" in
      destruct H as (a & s & H1 & H)
  | H : Ok _ = Ok _ |- _ => apply (inj Ok) in H
  | H : mret _ = Ok _ |- _ => injection H as H
  | H : mret _ _ = (Ok _, _) |- _ => injection H as H
  | H : (Ok _, _) = (Ok _, _) |- _ => injection H as H
  | H : Err _ = Ok _ |- _ => discriminate H
  | H : Panic _ = Ok _ |- _ => discriminate H
  end.

#[export] Instance Ok_inj {A} : Inj (=) (=) (@Ok A).
Proof. intros x y H. by injection H. Qed.

Ltac ok_inv := repeat ok_inv_step; simplify_eq.

(** ** List facts shared by the components *)

Lemma take_app_length' {A} (l k : list A) n : length l = n -> take n (l ++ k) = l.
Proof. intros <-. apply take_app_length. Qed.

Lemma drop_app_length' {A} (l k : list A) n : length l = n -> drop n (l ++ k) = k.
Proof. intros <-. apply drop_app_length. Qed.

Lemma forallb_Forall {A} (f : A -> bool) l : forallb f l = true <-> Forall (fun x => f x = true) l.
Proof.
  rewrite forallb_forall, Forall_forall. split; intros H x Hx; apply H; by apply list_elem_of_In.
Qed.

Lemma alter_to_insert {A} (f : A -> A) (l : list A) i x :
  l !! i = Some x -> alter f i l = <[i := f x]> l.
Proof.
  intros Hx. rewrite list_insert_alter. apply list_alter_ext; [|done].
  intros y Hy. by simplify_eq.
Qed.

Lemma bytes_ok_app l k : bytes_ok (l ++ k) <-> bytes_ok l /\ bytes_ok k.
Proof. apply Forall_app. Qed.

