(* ===== verification/Utils.v ===== *)
(** Utility functions of [src/common/utils.go]: alignment arithmetic, the growth
    of Go slices, removal from and insertion into a slice (with the identity of
    its backing array, which decides whether an element pointer taken earlier
    still points into the slice) and the generic [Set]. *)
From S2P Require Import Prelude.

(** ** Alignment *)

Definition IsPowerOfTwo (value : Z) : bool :=
  Z.land value (u64 (value - 1)) =? 0.

Definition CalcAlignmentByteCount (address alignment : Z) : outcome Z :=
  if alignment =? 1 then Ok 0
  else if (alignment =? 0) || negb (IsPowerOfTwo alignment)
  then Panic "Invalid alignment: "
  else
    let v1 := alignment in
    let v2 := u8 (alignment - 1) in
    let paddingNeeded := Z.land (u64 (v1 - Z.land address v2)) v2 in
    Ok (u8 paddingNeeded).

(** ** Growing slices *)

Section Grow.
Context {A : Type} (zero : A).

Definition growLen (s : list A) (targetLen : nat) : list A :=
  if (targetLen <=? length s)%nat then s
  else s ++ replicate (targetLen - length s) zero.

Definition GrowSliceIfNecessary (index : Z) (arrayToGrow : list A) : list A :=
  let currentLen := u32 (Zlen arrayToGrow) in
  if currentLen <=? index then
    let newLen := u32 (1 + u32 (Zlen arrayToGrow * 2)) in
    let newLen := if newLen <=? index then u32 (index + 1) else newLen in
    growLen arrayToGrow (Z.to_nat newLen)
  else arrayToGrow.
End Grow.

(** ** Slices with a backing array

    [backing] identifies the array the slice points to: appending or inserting
    beyond the capacity moves the elements to a new array. The capacity the
    runtime picks is the parameter [growcap]. *)

Class Runtime := {
  growcap : nat -> nat;
  growcap_ge n : (n <= growcap n)%nat;
}.

Record slice (A : Type) := mkSlice {
  elems : list A;
  cap : nat;
  backing : nat;
}.
Arguments mkSlice {A} elems cap backing.
Arguments elems {A} s.
Arguments cap {A} s.
Arguments backing {A} s.

(** A pointer to an element: the array it points into, and the index. *)
Record pointer := mkPointer { p_backing : nat; p_index : nat }.

Section Slices.
Context {A : Type} `{Runtime}.
Implicit Types s : slice A.

Definition nil_slice : slice A := mkSlice [] 0 0.

Definition with_elems (l : list A) s : slice A := mkSlice l (cap s) (backing s).

(** [slices.Insert(s, i, x)]; [append(s, x)] is the case [i = len(s)]. *)
Definition Insert (s : slice A) (i : nat) (x : A) : slice A :=
  let l := take i (elems s) ++ x :: drop i (elems s) in
  if (length (elems s) + 1 <=? cap s)%nat then mkSlice l (cap s) (backing s)
  else mkSlice l (growcap (length (elems s) + 1)) (S (backing s)).

Definition append (s : slice A) (x : A) : slice A := Insert s (length (elems s)) x.

(** [append(s[:index], s[index+1:]...)] never exceeds the capacity: the
    elements behind [index] move down inside the same array. *)
Definition RemoveAtIndex (s : slice A) (index : nat) : slice A :=
  with_elems (take index (elems s) ++ drop (S index) (elems s)) s.

Definition address_of (s : slice A) (i : nat) : pointer := mkPointer (backing s) i.

(** A store through an element pointer reaches the slice only while the slice
    still uses the array the pointer points into. *)
Definition store_through (p : pointer) (f : A -> A) (s : slice A) : slice A :=
  if (p_backing p =? backing s)%nat then with_elems (alter f (p_index p) (elems s)) s
  else s.
End Slices.

(** ** The generic set

    [SetImpl] is a Go map with empty values; its elements are a finite set. *)
Module GoSet.
Section WithElem.
Context {T : Type} `{Countable T}.

Definition NewSet : gset T := ∅.
Definition Contains (element : T) (s : gset T) : bool := bool_decide (element ∈ s).
Definition Size (s : gset T) : Z := Z.of_nat (size s).
Definition IsEmpty (s : gset T) : bool := Size s =? 0.
Definition Add (element : T) (s : gset T) : bool * gset T :=
  if Contains element s then (false, s) else (true, {[element]} ∪ s).
End WithElem.
End GoSet.

(** ** Facts *)

(** The alignments [CalcAlignmentByteCount] accepts: the powers of two a byte
    can hold. *)
Definition alignments : list Z := [1; 2; 4; 8; 16; 32; 64; 128].

(** A property of all bytes, decided by evaluation. *)
Lemma byte_forall (P : Z -> bool) :
  forallb P (seqZ 0 256) = true -> forall a, is_byte a -> P a = true.
Proof.
  intros HP a Ha. rewrite forallb_forall in HP. apply HP.
  apply list_elem_of_In, elem_of_seqZ. unfold in_width in Ha. lia.
Qed.

Lemma elem_of_alignments a : a ∈ alignments -> exists k, 0 <= k <= 7 /\ a = 2 ^ k.
Proof.
  unfold alignments. rewrite !elem_of_cons. intros Ha. destruct_or! Ha; subst.
  all: first [by exists 0|by exists 1|by exists 2|by exists 3|by exists 4|by exists 5
             |by exists 6|by exists 7|by apply elem_of_nil in Ha].
Qed.

Lemma IsPowerOfTwo_byte a :
  is_byte a -> a <> 0 -> IsPowerOfTwo a = bool_decide (a ∈ alignments).
Proof.
  intros Ha Hn.
  pose proof (byte_forall (fun a => (a =? 0) ||
    Bool.eqb (IsPowerOfTwo a) (bool_decide (a ∈ alignments))) eq_refl a Ha) as H.
  apply orb_true_iff in H as [H|H]; [lia|by apply eqb_prop].
Qed.

Lemma CalcAlignmentByteCount_pow2 address a :
  in_width 64 address -> a ∈ alignments ->
  CalcAlignmentByteCount address a = Ok ((- address) mod a).
Proof.
  intros Haddr Ha. pose proof Ha as (k & Hk & Hak)%elem_of_alignments.
  assert (1 <= a <= 128) as Hb.
  { subst a. split; [pose proof (Z.pow_pos_nonneg 2 k); lia|].
    apply (Z.pow_le_mono_r 2 k 7); lia. }
  unfold CalcAlignmentByteCount. case_match eqn:E1.
  { assert (a = 1) as -> by lia. by rewrite Z.mod_1_r. }
  rewrite IsPowerOfTwo_byte, bool_decide_eq_true_2 by (done || unfold in_width; lia).
  replace (a =? 0) with false by lia. simpl. wrap_small_tac.
  assert (forall x, 0 <= x -> Z.land x (a - 1) = x mod a) as Hland.
  { intros x Hx. subst a. replace (2 ^ k - 1) with (Z.ones k) by (rewrite Z.ones_equiv; lia).
    apply Z.land_ones. lia. }
  unfold in_width in Haddr. rewrite (Hland address) by lia.
  pose proof (Z.mod_pos_bound address a). wrap_small_tac.
  rewrite Hland by lia. rewrite Zminus_mod_idemp_r.
  replace (a - address) with (- address + 1 * a) by lia.
  rewrite Z.mod_add by lia. f_equal. apply wrap_small.
  pose proof (Z.mod_pos_bound (- address) a). unfold in_width. lia.
Qed.

Lemma CalcAlignmentByteCount_fail address a :
  is_byte a -> a ∉ alignments ->
  CalcAlignmentByteCount address a = Panic "Invalid alignment: ".
Proof.
  intros Hb Ha. unfold CalcAlignmentByteCount. case_match eqn:E1.
  { destruct Ha. replace a with 1 by lia. set_solver. }
  destruct (Z.eqb_spec a 0); [done|].
  rewrite IsPowerOfTwo_byte, bool_decide_eq_false_2 by done. done.
Qed.

(** [pad_to a x] is the padding that moves [x] up to a multiple of [a]. *)
Definition pad_to (a x : Z) : Z := (- x) mod a.

Lemma pad_to_range a x : 0 < a -> 0 <= pad_to a x < a.
Proof. apply Z.mod_pos_bound. Qed.

Lemma pad_to_aligned a x : 0 < a -> (x + pad_to a x) mod a = 0.
Proof.
  intros Ha. unfold pad_to. rewrite Zplus_mod_idemp_r.
  rewrite Z.add_opp_diag_r. apply Z.mod_0_l. lia.
Qed.

Lemma pad_to_least a x r : 0 < a -> 0 <= r -> (x + r) mod a = 0 -> pad_to a x <= r.
Proof.
  intros Ha Hr Hx. unfold pad_to.
  replace (- x) with (r - (x + r)) by lia.
  rewrite <- Zminus_mod_idemp_r, Hx, Z.sub_0_r. apply Z.mod_le; lia.
Qed.

(** ** Growing *)

Section GrowFacts.
Context {A : Type} (zero : A).

Lemma growLen_prefix (s : list A) n :
  growLen zero s n = s ++ replicate (n - length s) zero.
Proof.
  unfold growLen. case_match eqn:E; [|done]. apply Nat.leb_le in E.
  replace (n - length s)%nat with 0%nat by lia. by rewrite app_nil_r.
Qed.

(** The grown slice keeps the old elements in front and has room for [index]. *)
Lemma GrowSliceIfNecessary_spec index (s : list A) :
  0 <= index < 2 ^ 32 - 1 -> Zlen s < 2 ^ 32 ->
  exists n, GrowSliceIfNecessary zero index s = s ++ replicate n zero /\
            index < Zlen s + Z.of_nat n < 2 ^ 32.
Proof.
  intros Hi Hs. pose proof (Zlen_nonneg s).
  unfold GrowSliceIfNecessary. wrap_small_tac. case_match eqn:E.
  - rewrite growLen_prefix. eexists. split; [done|].
    set (n2 := u32 (1 + _)).
    assert (in_width 32 n2) as Hn2 by (apply wrap_range; lia).
    unfold in_width in Hn2. unfold Zlen in *.
    case_match; wrap_small_tac; lia.
  - exists 0%nat. simpl. rewrite app_nil_r. split; [done|lia].
Qed.
End GrowFacts.

(** ** Slices *)

Section SliceFacts.
Context {A : Type} `{Runtime}.
Implicit Types s : slice A.

Lemma elems_append s x : elems (append s x) = elems s ++ [x].
Proof.
  unfold append, Insert. rewrite drop_all, firstn_all. by case_match.
Qed.

Lemma elems_Insert s i x : elems (Insert s i x) = take i (elems s) ++ x :: drop i (elems s).
Proof. unfold Insert. by case_match. Qed.

(** A pointer taken before an insertion still reaches the slice if the capacity
    sufficed. *)
Lemma store_through_same s l i (f : A -> A) c :
  elems (store_through (address_of s i) f (mkSlice l c (backing s))) = alter f i l.
Proof. unfold store_through, address_of. simpl. by rewrite Nat.eqb_refl. Qed.
End SliceFacts.

(** ** Sets *)

Lemma GoSet_IsEmpty {T} `{Countable T} (s : gset T) : GoSet.IsEmpty s = true <-> s = ∅.
Proof.
  unfold GoSet.IsEmpty, GoSet.Size. rewrite Z.eqb_eq.
  split; [|by intros ->]. intros Hs. apply leibniz_equiv, size_empty_inv. lia.
Qed.

(** For every address and every alignment byte, [CalcAlignmentByteCount]
    returns the least increment that makes the address a multiple of the
    alignment when the alignment is a power of two, and panics otherwise. *)
Theorem CalcAlignmentByteCount_correct address alignment :
  in_width 64 address -> is_byte alignment ->
  match CalcAlignmentByteCount address alignment with
  | Ok r => alignment ∈ alignments /\ 0 <= r < alignment /\
            (address + r) mod alignment = 0 /\
            (forall r', 0 <= r' -> (address + r') mod alignment = 0 -> r <= r')
  | Panic _ => alignment ∉ alignments
  | _ => False
  end.
Proof.
  intros Haddr Hb. destruct (decide (alignment ∈ alignments)) as [Ha|Ha].
  - rewrite CalcAlignmentByteCount_pow2 by done.
    assert (0 < alignment) as Hpos by (apply elem_of_alignments in Ha as (k & ? & ->); lia).
    split_and!; [done|apply (pad_to_range _ _ Hpos)..|by apply pad_to_aligned|].
    intros r'. by apply pad_to_least.
  - by rewrite CalcAlignmentByteCount_fail.
Qed.

Lemma CalcAlignmentByteCount_correct_witness :
  CalcAlignmentByteCount 13 8 = Ok 3 /\
  match CalcAlignmentByteCount 13 8 with
  | Ok r => 8 ∈ alignments /\ 0 <= r < 8 /\ (13 + r) mod 8 = 0 /\
            (forall r', 0 <= r' -> (13 + r') mod 8 = 0 -> r <= r')
  | Panic _ => 8 ∉ alignments
  | _ => False
  end.
Proof.
  split; [reflexivity|].
  apply (CalcAlignmentByteCount_correct 13 8); vm_compute; split; congruence.
Defined.
