(* ===== verification/Bitmap.v ===== *)
(** The bitmap of [src/common/bitmap.go]: a growable array of 64-bit words whose
    bit [i] is bit [63 - i mod 64] of word [i / 64]. [Set] is modelled word by
    word as the source does it and proved against the set of bits it stands
    for. *)
From S2P Require Import Prelude Utils.

Definition bitsPerElement : Z := 64.

(** [BitmapImpl] *)
Abbreviation BitmapImpl := (list Z).

Definition NewBitmap : BitmapImpl := [].

Definition simpleWrite (bitOffset bitCount : Z) : M BitmapImpl bool := fun data =>
  let startIndexInclusive := bitOffset / bitsPerElement in
  let endIndexInclusive := u32 (u32 (bitOffset + bitCount) - 1) / bitsPerElement in
  if negb (startIndexInclusive =? endIndexInclusive)
  then (Panic "simpleWrite() called with wrong arguments", data)
  else
    let maskLen := bitCount in
    let mask := if maskLen >? 1 then u64 (u64 (Z.shiftl 1 maskLen) - 1) else 1 in
    let bitoffsetInLongWord := bitOffset mod bitsPerElement in
    let leftShift := u32 (u32 (64 - maskLen) - bitoffsetInLongWord) in
    let mask := u64 (Z.shiftl mask leftShift) in
    let data := GrowSliceIfNecessary 0 startIndexInclusive data in
    match data !! Z.to_nat startIndexInclusive with
    | None => (Panic "index out of range", data)
    | Some word =>
        if negb (Z.land word mask =? 0) then (Ok false, data)
        else (Ok true, <[Z.to_nat startIndexInclusive := Z.lor word mask]> data)
    end.

(** The loop over the words that are written completely; [None] is the early
    [return false]. *)
Fixpoint setIntermediate (fuel : nat) (currentIndex bitsRemaining : Z)
    : M BitmapImpl (option Z) := fun data =>
  match fuel with
  | O => (Diverge, data)
  | S fuel =>
      if bitsRemaining >? bitsPerElement then
        let mask := 0xffffffffffffffff in
        let data := GrowSliceIfNecessary 0 currentIndex data in
        match data !! Z.to_nat currentIndex with
        | None => (Panic "index out of range", data)
        | Some word =>
            if negb (Z.land word mask =? 0) then (Ok None, data)
            else setIntermediate fuel (u32 (currentIndex + 1))
                   (u32 (bitsRemaining - bitsPerElement))
                   (<[Z.to_nat currentIndex := Z.lor word mask]> data)
        end
      else (Ok (Some bitsRemaining), data)
  end.

Definition Set_ (bitOffset bitCount : Z) : M BitmapImpl bool :=
  if bitCount =? 0 then mret true
  else
    let startIndexInclusive := bitOffset / bitsPerElement in
    let endIndexInclusive := u32 (u32 (bitOffset + bitCount) - 1) / bitsPerElement in
    if startIndexInclusive =? endIndexInclusive then simpleWrite bitOffset bitCount
    else
      let bitsRemaining := bitCount in
      let bitOffsetAtStartSegment := u32 (startIndexInclusive * bitsPerElement) in
      let cnt := u32 (64 - u32 (bitOffset - bitOffsetAtStartSegment)) in
      ok ← simpleWrite bitOffset cnt;
      if negb ok then mret false
      else
        let bitsRemaining := u32 (bitsRemaining - cnt) in
        if bitsRemaining =? 0 then mret true
        else
          rest ← setIntermediate (S (Z.to_nat (bitsRemaining / 64)))
                   (u32 (startIndexInclusive + 1)) bitsRemaining;
          match rest with
          | None => mret false
          | Some bitsRemaining =>
              if bitsRemaining >? 0
              then simpleWrite (u32 (endIndexInclusive * bitsPerElement)) bitsRemaining
              else mret true
          end.

(** ** The abstraction: which bits are set *)

Definition bit_at (data : BitmapImpl) (i : Z) : bool :=
  Z.testbit (default 0 (data !! Z.to_nat (i / 64))) (63 - i mod 64).

Definition in_range (off cnt i : Z) : bool := (off <=? i) && (i <? off + cnt).

Definition words_ok (data : BitmapImpl) : Prop :=
  Forall (in_width 64) data /\ Zlen data < 2 ^ 32.

Example Set_ex1 : Set_ 1 2 NewBitmap = (Ok true, [0x6000000000000000]).
Proof. reflexivity. Qed.
Example Set_ex2 : (Set_ 32 200 NewBitmap).1 = Ok true.
Proof. reflexivity. Qed.

(** ** Bit-level lemmas *)

Lemma land_eq_0 a b :
  Z.land a b = 0 <-> forall j, 0 <= j -> Z.testbit a j && Z.testbit b j = false.
Proof.
  split.
  - intros H j Hj. by rewrite <- Z.land_spec, H, Z.bits_0.
  - intros H. apply Z.bits_inj'. intros j Hj. by rewrite Z.land_spec, Z.bits_0, H.
Qed.

Lemma lor_in_width w a b : 0 <= w -> in_width w a -> in_width w b -> in_width w (Z.lor a b).
Proof.
  intros Hw Ha Hb. replace (Z.lor a b) with (wrap w (Z.lor a b)); [by apply wrap_range|].
  unfold wrap. rewrite <- !Z.land_ones, Z.land_lor_distr_l by done.
  by rewrite !Z.land_ones, !Z.mod_small.
Qed.

(** The mask of [simpleWrite] before and after the shift. *)
Lemma write_mask n :
  0 < n <= 64 ->
  (if n >? 1 then u64 (u64 (Z.shiftl 1 n) - 1) else 1) = Z.ones n.
Proof.
  intros Hn. destruct (Z.gtb_spec n 1); [|by assert (n = 1) as -> by lia].
  rewrite Z.shiftl_1_l, Z.ones_equiv.
  destruct (decide (n = 64)) as [->|]; [done|].
  assert (2 ^ n < 2 ^ 64) by (apply Z.pow_lt_mono_r; lia).
  pose proof (Z.pow_pos_nonneg 2 n). wrap_small_tac. lia.
Qed.

Lemma shifted_mask n k :
  0 < n -> 0 <= k -> n + k <= 64 -> in_width 64 (Z.shiftl (Z.ones n) k).
Proof.
  intros. unfold in_width. rewrite Z.shiftl_mul_pow2, Z.ones_equiv by lia.
  assert (2 ^ n * 2 ^ k = 2 ^ (n + k)) as Hp by (rewrite Z.pow_add_r; lia).
  assert (2 ^ (n + k) <= 2 ^ 64) by (apply Z.pow_le_mono_r; lia).
  pose proof (Z.pow_pos_nonneg 2 n). pose proof (Z.pow_pos_nonneg 2 k). nia.
Qed.

Lemma shifted_mask_bit n k j :
  0 <= n -> 0 <= k -> 0 <= j ->
  Z.testbit (Z.shiftl (Z.ones n) k) j = (k <=? j) && (j <? k + n).
Proof.
  intros. rewrite Z.shiftl_spec by done. destruct (decide (j < k)).
  - rewrite Z.testbit_neg_r by lia. lia.
  - rewrite Z.testbit_ones_nonneg by lia. lia.
Qed.

Lemma bit_at_grown data n i : 0 <= i -> bit_at (data ++ replicate n 0) i = bit_at data i.
Proof.
  intros Hi. unfold bit_at. f_equal.
  destruct (decide (Z.to_nat (i / 64) < length data)%nat).
  - by rewrite lookup_app_l.
  - rewrite lookup_app_r, (lookup_ge_None_2 data) by lia.
    destruct (replicate n 0 !! _) eqn:E; [|done].
    apply lookup_replicate in E as [-> _]. done.
Qed.

Lemma words_ok_grown data n :
  words_ok data -> Zlen data + Z.of_nat n < 2 ^ 32 -> words_ok (data ++ replicate n 0).
Proof.
  intros [Hd Hl] Hn. split.
  - apply Forall_app. split; [done|]. apply Forall_replicate. done.
  - rewrite Zlen_app. unfold Zlen at 2. rewrite length_replicate. lia.
Qed.

(** Writing one word: what reading the grown array, testing it against the mask
    and merging the mask in mean for the set of bits. *)
Lemma write_word data k mask off cnt :
  0 <= k < 2 ^ 32 - 1 -> words_ok data -> in_width 64 mask ->
  (forall i, 0 <= i -> in_range off cnt i = (i / 64 =? k) && Z.testbit mask (63 - i mod 64)) ->
  let data1 := GrowSliceIfNecessary 0 k data in
  exists word, data1 !! Z.to_nat k = Some word /\ words_ok data1 /\
    (forall i, 0 <= i -> bit_at data1 i = bit_at data i) /\
    (Z.land word mask = 0 <->
       forall i, 0 <= i -> in_range off cnt i = true -> bit_at data i = false) /\
    words_ok (<[Z.to_nat k := Z.lor word mask]> data1) /\
    (forall i, 0 <= i -> bit_at (<[Z.to_nat k := Z.lor word mask]> data1) i =
                         bit_at data i || in_range off cnt i).
Proof.
  intros Hk Hok Hmask Hrange data1.
  destruct (GrowSliceIfNecessary_spec 0 k data) as (n & Hg & Hn); [done|apply Hok|].
  assert (words_ok data1) as Hok1 by (unfold data1; rewrite Hg; apply words_ok_grown; [done|lia]).
  assert (forall i, 0 <= i -> bit_at data1 i = bit_at data i) as Hb1.
  { intros. unfold data1. rewrite Hg. by apply bit_at_grown. }
  destruct (lookup_lt_is_Some_2 data1 (Z.to_nat k)) as [word Hw].
  { unfold data1. rewrite Hg, length_app, length_replicate. unfold Zlen in Hn. lia. }
  assert (in_width 64 word) as Hword by (eapply Forall_lookup_1, Hw; apply Hok1).
  assert (forall i, i / 64 = k -> bit_at data1 i = Z.testbit word (63 - i mod 64)) as Hbk.
  { intros i Hi. unfold bit_at. by rewrite Hi, Hw. }
  exists word. split_and!; [done|done|done| | |].
  - rewrite land_eq_0. split.
    + intros H i Hi Hin. rewrite Hrange in Hin by done.
      apply andb_true_iff in Hin as [Hik Hm]. rewrite <- Hb1, Hbk by lia.
      pose proof (Z.mod_pos_bound i 64).
      specialize (H (63 - i mod 64)). rewrite Hm, andb_true_r in H. apply H. lia.
    + intros H j Hj. destruct (decide (j < 64)); cycle 1.
      { rewrite <- (wrap_small 64 mask) by done. unfold wrap.
        rewrite Z.mod_pow2_bits_high, andb_false_r by lia. done. }
      assert ((64 * k + (63 - j)) / 64 = k) as Hd by (symmetry; apply (Z.div_unique _ _ _ (63 - j)); lia).
      assert ((64 * k + (63 - j)) mod 64 = 63 - j) as Hmd by (symmetry; apply (Z.mod_unique _ _ k); lia).
      specialize (H (64 * k + (63 - j))).
      rewrite Hrange, <- Hb1, Hbk, Hd, Hmd, Z.eqb_refl in H by lia.
      replace (63 - (63 - j)) with j in H by lia. simpl in H.
      destruct (Z.testbit mask j); [|by rewrite andb_false_r]. rewrite H by (done || lia). done.
  - split; [|unfold Zlen; rewrite length_insert; apply Hok1].
    apply Forall_insert; [apply Hok1|]. apply lor_in_width; [lia|done..].
  - intros i Hi. rewrite Hrange by done. rewrite <- Hb1 by done. unfold bit_at.
    destruct (Z.eqb_spec (i / 64) k) as [->|Hne].
    + rewrite list_lookup_insert_eq, Hw by (by eapply lookup_lt_Some). simpl. by rewrite Z.lor_spec.
    + rewrite list_lookup_insert_ne, orb_false_r; [done|].
      pose proof (Z.div_pos i 64). lia.
Qed.

(** What a write of the range may do to the set of bits: report success exactly
    when the range was free, and then have added exactly the range; a write that
    fails has added at most bits of the range. *)
Definition write_result (off cnt : Z) (data : BitmapImpl) (b : bool) (data' : BitmapImpl) : Prop :=
  words_ok data' /\
  (b = true <-> forall i, 0 <= i -> in_range off cnt i = true -> bit_at data i = false) /\
  (b = true -> forall i, 0 <= i -> bit_at data' i = bit_at data i || in_range off cnt i) /\
  (forall i, 0 <= i -> bit_at data i = true -> bit_at data' i = true) /\
  (forall i, 0 <= i -> in_range off cnt i = false -> bit_at data' i = bit_at data i).

Lemma write_result_whole off cnt data b data' :
  words_ok data' ->
  (b = true <-> forall i, 0 <= i -> in_range off cnt i = true -> bit_at data i = false) ->
  (forall i, 0 <= i -> bit_at data' i = bit_at data i || (b && in_range off cnt i)) ->
  write_result off cnt data b data'.
Proof.
  intros Hok Hb Hd. split_and!; [done|done|..].
  - intros ->. done.
  - intros i Hi H. by rewrite Hd, H.
  - intros i Hi H. by rewrite Hd, H, andb_false_r, orb_false_r.
Qed.

(** Two adjacent writes, the second one made only if the first succeeded. *)
Lemma write_result_seq off c1 c2 data d1 b2 d2 :
  0 <= c1 -> 0 <= c2 ->
  write_result off c1 data true d1 ->
  write_result (off + c1) c2 d1 b2 d2 ->
  write_result off (c1 + c2) data b2 d2.
Proof.
  intros Hc1 Hc2 (Hok1 & H1 & Hd1 & _ & _) (Hok2 & H2 & Hd2 & Hm2 & Ho2).
  specialize (Hd1 eq_refl). pose proof (proj1 H1 eq_refl) as Hfree1.
  assert (forall i, in_range off (c1 + c2) i = in_range off c1 i || in_range (off + c1) c2 i) as Hr.
  { intros i. unfold in_range. lia. }
  split_and!; [done|..].
  - rewrite H2. split; intros H i Hi.
    + rewrite Hr, orb_true_iff. intros [?|Hin]; [by apply Hfree1|].
      specialize (H i Hi Hin). rewrite Hd1 in H by done. by apply orb_false_iff in H as [??].
    + intros Hin. rewrite Hd1, H by (done || by rewrite Hr, Hin, orb_true_r). simpl.
      unfold in_range in *. lia.
  - intros -> i Hi. rewrite Hd2, Hd1, Hr by done. by rewrite orb_assoc.
  - intros i Hi Hb. apply Hm2; [done|]. by rewrite Hd1, Hb.
  - intros i Hi. rewrite Hr. intros [Ha Hb]%orb_false_iff.
    by rewrite Ho2, Hd1, Ha, orb_false_r.
Qed.

Lemma write_result_fail off c1 c2 data d1 :
  0 <= c1 -> 0 <= c2 ->
  write_result off c1 data false d1 -> write_result off (c1 + c2) data false d1.
Proof.
  intros Hc1 Hc2 (Hok1 & H1 & Hd1 & Hm1 & Ho1). split_and!; [done|..|done|done|].
  - split; [done|]. intros H. apply H1. intros i Hi Hin. apply H; [done|].
    unfold in_range in *. lia.
  - intros i Hi Hin. apply Ho1; [done|]. unfold in_range in *. lia.
Qed.

Lemma simpleWrite_spec off cnt data :
  0 <= off -> 0 < cnt -> off + cnt < 2 ^ 32 -> off / 64 = (off + cnt - 1) / 64 ->
  words_ok data ->
  exists b data', simpleWrite off cnt data = (Ok b, data') /\ write_result off cnt data b data'.
Proof.
  intros Hoff Hcnt Hend Hword Hok.
  pose proof (Z.div_mod off 64). pose proof (Z.mod_pos_bound off 64).
  pose proof (Z.div_mod (off + cnt - 1) 64). pose proof (Z.mod_pos_bound (off + cnt - 1) 64).
  assert (off mod 64 + cnt <= 64) as Hfit by lia.
  unfold simpleWrite, bitsPerElement. wrap_small_tac.
  rewrite Hword, Z.eqb_refl. simpl. rewrite <- Hword.
  rewrite write_mask by lia. wrap_small_tac.
  rewrite (wrap_small 64) by (apply shifted_mask; lia).
  set (mask := Z.shiftl _ _).
  destruct (write_word data (off / 64) mask off cnt)
    as (word & Hw & Hok1 & Hb1 & Hfree & Hok2 & Hb2); [lia|done|apply shifted_mask; lia| |].
  { intros i Hi. pose proof (Z.div_mod i 64). pose proof (Z.mod_pos_bound i 64).
    unfold mask. rewrite shifted_mask_bit by lia. unfold in_range.
    destruct (Z.eqb_spec (i / 64) (off / 64)); lia. }
  rewrite Hw. destruct (Z.eqb_spec (Z.land word mask) 0) as [Hz|Hz]; simpl.
  - eexists true, _. split; [done|]. apply write_result_whole; [done|by rewrite <- Hfree|done].
  - eexists false, _. split; [done|]. apply write_result_whole; [done|by rewrite <- Hfree|].
    intros i Hi. by rewrite Hb1, orb_false_r.
Qed.

(** The loop writes whole words while more than one word's worth of bits is
    left. *)
Lemma setIntermediate_spec fuel k rem data :
  0 <= k -> 0 < rem -> 64 * k + rem < 2 ^ 32 -> rem < 64 * Z.of_nat fuel -> words_ok data ->
  exists r data', setIntermediate fuel k rem data = (Ok r, data') /\
    match r with
    | None => exists c, 0 <= c <= rem /\ write_result (64 * k) c data false data'
    | Some rem' => exists n, 0 <= n /\ rem = 64 * n + rem' /\ 0 < rem' <= 64 /\
                             write_result (64 * k) (64 * n) data true data'
    end.
Proof.
  revert k rem data. induction fuel as [|fuel IH]; intros k rem data Hk Hrem Hend Hfuel Hok; [lia|].
  simpl. unfold bitsPerElement. destruct (Z.gtb_spec rem 64) as [Hgt|Hle]; cycle 1.
  { eexists (Some rem), _. split; [done|]. exists 0. split_and!; [lia..|].
    apply write_result_whole; [done| |].
    - split; [|done]. intros _ i Hi. unfold in_range. lia.
    - intros i Hi. unfold in_range. destruct (bit_at data i); simpl; lia. }
  destruct (write_word data k (Z.ones 64) (64 * k) 64)
    as (word & Hw & Hok1 & Hb1 & Hfree & Hok2 & Hb2); [lia|done|done| |].
  { intros i Hi. pose proof (Z.div_mod i 64). pose proof (Z.mod_pos_bound i 64).
    rewrite Z.testbit_ones_nonneg by lia. unfold in_range. lia. }
  change 0xffffffffffffffff with (Z.ones 64). rewrite Hw.
  destruct (Z.eqb_spec (Z.land word (Z.ones 64)) 0) as [Hz|Hz]; simpl.
  - wrap_small_tac. edestruct (IH (k + 1) (rem - 64)) as (r & data' & Hrun & Hr); [lia..|exact Hok2|].
    exists r, data'. split; [exact Hrun|].
    assert (write_result (64 * k) 64 data true (<[Z.to_nat k:=Z.lor word (Z.ones 64)]>
      (GrowSliceIfNecessary 0 k data))) as H1.
    { apply write_result_whole; [done|by rewrite <- Hfree|done]. }
    replace (64 * (k + 1)) with (64 * k + 64) in Hr by lia.
    destruct r as [rem'|].
    + destruct Hr as (n & Hn & Heq & Hrem' & Hres). exists (1 + n). split_and!; [lia..|].
      replace (64 * (1 + n)) with (64 + 64 * n) by lia. eapply write_result_seq; [lia..|done|done].
    + destruct Hr as (c & Hc & Hres). exists (64 + c). split; [lia|].
      eapply write_result_seq; [lia..|done|done].
  - eexists None, _. split; [done|]. exists 64. split; [lia|].
    apply write_result_whole; [done|by rewrite <- Hfree|].
    intros i Hi. by rewrite Hb1, orb_false_r.
Qed.

Lemma Set_run off cnt data :
  0 <= off -> 0 <= cnt -> off + cnt < 2 ^ 32 -> words_ok data ->
  exists b data', Set_ off cnt data = (Ok b, data') /\ write_result off cnt data b data'.
Proof.
  intros Hoff Hcnt Hend Hok. unfold Set_.
  destruct (Z.eqb_spec cnt 0) as [->|Hne].
  { exists true, data. split; [done|]. apply write_result_whole; [done| |].
    - split; [|done]. intros _ i Hi. unfold in_range. lia.
    - intros i Hi. unfold in_range. destruct (bit_at data i); simpl; lia. }
  unfold bitsPerElement. wrap_small_tac.
  destruct (Z.eqb_spec (off / 64) ((off + cnt - 1) / 64)) as [Heq|Hdiff].
  { apply simpleWrite_spec; lia || done. }
  pose proof (Z.div_mod off 64). pose proof (Z.mod_pos_bound off 64).
  pose proof (Z.div_mod (off + cnt - 1) 64). pose proof (Z.mod_pos_bound (off + cnt - 1) 64).
  assert (off / 64 < (off + cnt - 1) / 64) as Hlt.
  { pose proof (Z.div_le_mono off (off + cnt - 1) 64). lia. }
  wrap_small_tac. set (c1 := 64 - (off - off / 64 * 64)).
  assert (c1 = 64 - off mod 64) as Hc1 by lia. clearbody c1.
  destruct (simpleWrite_spec off c1 data) as (b1 & d1 & Hrun1 & Hw1); [lia..| |done|].
  { apply (Z.div_unique _ _ _ 63); lia. }
  erewrite M_bind_ok by exact Hrun1. destruct b1; cbn [negb]; cycle 1.
  { exists false, d1. split; [done|]. replace cnt with (c1 + (cnt - c1)) by lia.
    apply write_result_fail; [lia..|done]. }
  wrap_small_tac. destruct (Z.eqb_spec (cnt - c1) 0) as [Hz|Hnz]; [lia|].
  destruct (setIntermediate_spec (S (Z.to_nat ((cnt - c1) / 64))) (off / 64 + 1) (cnt - c1) d1)
    as (r & d2 & Hrun2 & Hr); [lia..| |apply Hw1|].
  { pose proof (Z.div_mod (cnt - c1) 64). pose proof (Z.mod_pos_bound (cnt - c1) 64).
    pose proof (Z.div_pos (cnt - c1) 64). lia. }
  erewrite M_bind_ok by exact Hrun2. replace (64 * (off / 64 + 1)) with (off + c1) in Hr by lia.
  destruct r as [rem'|]; cycle 1.
  { destruct Hr as (c & Hc & Hres). exists false, d2. split; [done|].
    replace cnt with (c1 + c + (cnt - c1 - c)) by lia. apply write_result_fail; [lia..|].
    eapply write_result_seq; [lia..|done|done]. }
  destruct Hr as (n & Hn & Hrem & Hrem' & Hres).
  destruct (Z.gtb_spec rem' 0); [|lia].
  assert (write_result off (c1 + 64 * n) data true d2) as Hw2.
  { eapply write_result_seq; [lia..|done|done]. }
  assert ((off + cnt - 1) / 64 * 64 = off + (c1 + 64 * n)) as Hpos by lia.
  wrap_small_tac. rewrite Hpos.
  destruct (simpleWrite_spec (off + (c1 + 64 * n)) rem' d2) as (b3 & d3 & Hrun3 & Hw3);
    [lia..| |apply Hw2|].
  { rewrite <- Hpos, Z.div_mul by lia.
    apply (Z.div_unique _ _ _ (rem' - 1)); lia. }
  exists b3, d3. split; [done|]. replace cnt with (c1 + 64 * n + rem') by lia.
  eapply write_result_seq; [lia..|done|done].
Qed.

Lemma NewBitmap_ok : words_ok NewBitmap.
Proof. split; [constructor|done]. Qed.

Lemma bit_at_NewBitmap i : bit_at NewBitmap i = false.
Proof. unfold bit_at, NewBitmap. rewrite lookup_nil. apply Z.bits_0. Qed.

(** C40. [Set] reports [true] exactly when no bit of the range was set before; it
    then has set exactly the bits of the range and no other one, for ranges
    inside one word as well as for ranges that span several words. A [Set] that
    reports [false] clears no bit and sets none outside the range. *)
Theorem Set_correct off cnt data :
  0 <= off -> 0 <= cnt -> off + cnt < 2 ^ 32 -> words_ok data ->
  exists b data', Set_ off cnt data = (Ok b, data') /\
    (b = true <-> forall i, off <= i < off + cnt -> bit_at data i = false) /\
    (b = true -> forall i, 0 <= i ->
       bit_at data' i = bit_at data i || ((off <=? i) && (i <? off + cnt))) /\
    (forall i, 0 <= i -> bit_at data i = true -> bit_at data' i = true) /\
    (forall i, 0 <= i -> ~ (off <= i < off + cnt) -> bit_at data' i = bit_at data i) /\
    words_ok data'.
Proof.
  intros Hoff Hcnt Hend Hok.
  destruct (Set_run off cnt data) as (b & data' & Hrun & Hok' & Hb & Hd & Hm & Ho); [done..|].
  exists b, data'. split_and!; try done.
  - rewrite Hb. unfold in_range. split; intros H i Hi; [|intros Hin]; apply H; lia.
  - intros i Hi Hout. apply Ho; [done|]. unfold in_range. lia.
Qed.

Lemma Set_correct_witness :
  exists b data', Set_ 32 200 NewBitmap = (Ok b, data') /\
    (b = true <-> forall i, 32 <= i < 32 + 200 -> bit_at NewBitmap i = false) /\
    (b = true -> forall i, 0 <= i ->
       bit_at data' i = bit_at NewBitmap i || ((32 <=? i) && (i <? 32 + 200))) /\
    (forall i, 0 <= i -> bit_at NewBitmap i = true -> bit_at data' i = true) /\
    (forall i, 0 <= i -> ~ (32 <= i < 32 + 200) -> bit_at data' i = bit_at NewBitmap i) /\
    words_ok data'.
Proof. apply (Set_correct 32 200 NewBitmap); [lia..|exact NewBitmap_ok]. Defined.
