(* ===== verification/DynArray.v ===== *)
(** The growable byte array of [src/common/dynamicarray.go], which the header
    writer assembles a data store in. It is specified as a partial map from
    offsets to bytes: a write extends the map, and is refused when it would
    write an offset twice. *)
From S2P Require Import Prelude Utils Bitmap.

Record dynamicArrayImpl := mkDynamicArray {
  bitmap : BitmapImpl;
  data : list Z;
  lastUsedOffsetExclusive : Z;
}.

Definition NewDynamicArray : dynamicArrayImpl := mkDynamicArray NewBitmap [] 0.

(** A call of a method of the [bitmap] field. *)
Definition on_bitmap {A} (m : M BitmapImpl A) : M dynamicArrayImpl A := fun da =>
  let '(o, b) := m (bitmap da) in
  (o, mkDynamicArray b (data da) (lastUsedOffsetExclusive da)).

(** [copy(dst[off:], src)] *)
Definition copy_at (dst : list Z) (off : nat) (src : list Z) : list Z :=
  take off dst ++ take (length dst - off) src ++ drop (off + length src) dst.

Definition Write (p : list Z) (offset : Z) : M dynamicArrayImpl unit :=
  if Zlen p =? 0 then mret tt
  else
    ok ← on_bitmap (Set_ offset (u32 (Zlen p)));
    if negb ok then raise "write to overlapping range"
    else fun da =>
      let maxOffsetExclusive := u32 (offset + u32 (Zlen p)) in
      let grown := GrowSliceIfNecessary 0 maxOffsetExclusive (data da) in
      if Zlen grown <? offset then (Panic "slice bounds out of range", da)
      else
        (Ok tt, mkDynamicArray (bitmap da) (copy_at grown (Z.to_nat offset) p)
                  (if maxOffsetExclusive >? lastUsedOffsetExclusive da
                   then maxOffsetExclusive else lastUsedOffsetExclusive da)).

Definition GetData (da : dynamicArrayImpl) : list Z :=
  let last := Z.to_nat (lastUsedOffsetExclusive da) in
  copy_at (zeros last) 0 (take last (data da)).

Example Write_ex : forall da, Write [7; 8] 3 NewDynamicArray = (Ok tt, da) ->
  GetData da = [0; 0; 0; 7; 8] /\ (Write [1] 4 da).1 = Err "write to overlapping range".
Proof. intros da [= <-]. done. Qed.

(** ** The specification: a partial map from offsets to bytes *)

Abbreviation sparse := (gmap Z Z).

Fixpoint store_bytes (off : Z) (p : list Z) (m : sparse) : sparse :=
  match p with
  | [] => m
  | b :: p => <[off := b]> (store_bytes (off + 1) p m)
  end.

Definition range_free (off len : Z) (m : sparse) : bool :=
  forallb (fun i => bool_decide (m !! i = None)) (seqZ off len).

Definition sparse_write (p : list Z) (off : Z) (m : sparse) : option sparse :=
  if range_free off (Zlen p) m then Some (store_bytes off p m) else None.

(** The bytes [0 .. last): a gap reads as zero. *)
Definition contents (last : Z) (m : sparse) : list Z :=
  (fun i => default 0 (m !! i)) <$> seqZ 0 last.

(** [last] is one more than the largest offset written. *)
Definition is_end (m : sparse) (last : Z) : Prop :=
  (forall i, is_Some (m !! i) -> 0 <= i < last) /\ (last = 0 \/ is_Some (m !! (last - 1))).

Record da_rep (da : dynamicArrayImpl) (m : sparse) : Prop := {
  rep_words : words_ok (bitmap da);
  rep_bits i : 0 <= i -> bit_at (bitmap da) i = bool_decide (is_Some (m !! i));
  rep_data i : 0 <= i < Zlen (data da) -> data da !! Z.to_nat i = Some (default 0 (m !! i));
  rep_len : Zlen (data da) < 2 ^ 32;
  rep_last : 0 <= lastUsedOffsetExclusive da <= Zlen (data da);
  rep_end : is_end m (lastUsedOffsetExclusive da);
}.

Lemma lookup_store_bytes off p m i :
  store_bytes off p m !! i =
    if decide (off <= i < off + Zlen p) then p !! Z.to_nat (i - off) else m !! i.
Proof.
  revert off. induction p as [|b p IH]; intros off; simpl.
  - rewrite Zlen_nil. case_decide; [lia|done].
  - rewrite lookup_insert, IH, Zlen_cons. pose proof (Zlen_nonneg p).
    destruct (decide (off = i)) as [->|Hne].
    + rewrite decide_True by lia. by rewrite Z.sub_diag.
    + destruct (decide (off + 1 <= i < off + 1 + Zlen p)).
      * rewrite decide_True by lia.
        replace (Z.to_nat (i - off)) with (S (Z.to_nat (i - (off + 1)))) by lia. done.
      * by rewrite decide_False by lia.
Qed.

Lemma range_free_spec off len m :
  range_free off len m = true <-> forall i, off <= i < off + len -> m !! i = None.
Proof.
  unfold range_free. rewrite forallb_forall. split.
  - intros H i Hi. eapply bool_decide_eq_true_1, H, list_elem_of_In, elem_of_seqZ. done.
  - intros H i Hi%list_elem_of_In%elem_of_seqZ. by apply bool_decide_eq_true_2, H.
Qed.

Lemma length_copy_at dst off src :
  (off <= length dst)%nat -> length (copy_at dst off src) = length dst.
Proof.
  intros Hoff. unfold copy_at. rewrite !length_app, !length_take, length_drop. lia.
Qed.

Lemma lookup_copy_at dst off src i :
  (off + length src <= length dst)%nat ->
  copy_at dst off src !! i =
    if decide (off <= i < off + length src)%nat then src !! (i - off)%nat else dst !! i.
Proof.
  intros Hle. unfold copy_at. rewrite (take_ge src) by lia. case_decide as Hi.
  - rewrite lookup_app_r; rewrite length_take, Nat.min_l by lia; [|lia].
    by rewrite lookup_app_l by lia.
  - destruct (decide (i < off)%nat).
    + rewrite lookup_app_l by (rewrite length_take; lia). by apply lookup_take_lt.
    + rewrite lookup_app_r; rewrite length_take, Nat.min_l by lia; [|lia].
      rewrite lookup_app_r, lookup_drop by lia. f_equal. lia.
Qed.

Lemma contents_lookup last m i :
  0 <= i < last -> contents last m !! Z.to_nat i = Some (default 0 (m !! i)).
Proof.
  intros Hi. unfold contents. rewrite list_lookup_fmap.
  rewrite lookup_seqZ_lt by lia. simpl. repeat f_equal. lia.
Qed.

Lemma Zlen_contents last m : 0 <= last -> Zlen (contents last m) = last.
Proof. intros. unfold Zlen, contents. rewrite length_fmap, length_seqZ. lia. Qed.

Lemma da_rep_empty : da_rep NewDynamicArray ∅.
Proof.
  constructor; try done.
  - intros i Hi. rewrite lookup_empty. apply bit_at_NewBitmap.
  - intros i Hi. unfold Zlen in Hi. simpl in Hi. lia.
  - split; [|by left]. intros i. rewrite lookup_empty. by intros [??].
Qed.

Lemma GetData_contents da m :
  da_rep da m -> GetData da = contents (lastUsedOffsetExclusive da) m.
Proof.
  intros [_ _ Hdata _ Hlast Hend]. unfold GetData.
  set (last := lastUsedOffsetExclusive da) in *. unfold Zlen in *.
  assert (length (take (Z.to_nat last) (data da)) = Z.to_nat last) as Htake.
  { rewrite length_take. lia. }
  apply list_eq. intros i. destruct (decide (i < Z.to_nat last)%nat) as [Hi|Hi].
  - rewrite lookup_copy_at by (rewrite length_zeros; lia).
    rewrite decide_True by lia. rewrite Nat.sub_0_r, lookup_take_lt by done.
    replace i with (Z.to_nat (Z.of_nat i)) by lia.
    by rewrite Hdata, contents_lookup by lia.
  - rewrite !lookup_ge_None_2; [done|..].
    + pose proof (Zlen_contents last m). unfold Zlen in *. lia.
    + rewrite length_copy_at, length_zeros; rewrite ?length_zeros; lia.
Qed.

Lemma is_end_store off p m last :
  0 <= off -> p <> [] -> 0 <= last -> is_end m last ->
  is_end (store_bytes off p m) (Z.max last (off + Zlen p)).
Proof.
  intros Hoff Hp Hlast [Hb He]. pose proof (Zlen_pos _ Hp). split.
  - intros i. rewrite lookup_store_bytes. case_decide as Hi; [lia|].
    intros Hm. apply Hb in Hm. lia.
  - right. rewrite lookup_store_bytes. case_decide as Hi.
    + apply lookup_lt_is_Some. unfold Zlen in *. lia.
    + destruct He as [->|He]; [lia|].
      rewrite Z.max_l in Hi |- * by lia. done.
Qed.

(** A write of a non-empty slice that the bitmap admits. *)
Lemma da_rep_write da m p off bm' :
  0 <= off -> p <> [] -> off + Zlen p < 2 ^ 32 - 1 -> da_rep da m ->
  words_ok bm' ->
  (forall i, 0 <= i ->
     bit_at bm' i = bit_at (bitmap da) i || in_range off (Zlen p) i) ->
  da_rep (mkDynamicArray bm'
            (copy_at (GrowSliceIfNecessary 0 (off + Zlen p) (data da)) (Z.to_nat off) p)
            (Z.max (lastUsedOffsetExclusive da) (off + Zlen p)))
         (store_bytes off p m).
Proof.
  intros Hoff Hp Hend [Hbm Hbits Hdata Hlen Hlast Hi] Hbm' Hbits'.
  pose proof (Zlen_pos _ Hp).
  destruct (GrowSliceIfNecessary_spec 0 (off + Zlen p) (data da)) as (n & -> & Hn); [lia|done|].
  assert (length (copy_at (data da ++ replicate n 0) (Z.to_nat off) p) =
          (length (data da) + n)%nat) as Hl.
  { rewrite length_copy_at; rewrite length_app, length_replicate; unfold Zlen in *; lia. }
  constructor; simpl.
  - done.
  - intros i H0. rewrite Hbits', Hbits, lookup_store_bytes by done. unfold in_range.
    case_decide as Hin.
    + replace ((off <=? i) && (i <? off + Zlen p)) with true by lia. rewrite orb_true_r.
      symmetry. apply bool_decide_eq_true, lookup_lt_is_Some. unfold Zlen in *. lia.
    + replace ((off <=? i) && (i <? off + Zlen p)) with false by lia. by rewrite orb_false_r.
  - intros i Hir. unfold Zlen in Hir. rewrite Hl in Hir.
    rewrite lookup_copy_at by (rewrite length_app, length_replicate; unfold Zlen in *; lia).
    rewrite lookup_store_bytes. unfold Zlen in *.
    destruct (decide (Z.to_nat off <= Z.to_nat i < Z.to_nat off + length p)%nat).
    + rewrite decide_True by lia. replace (Z.to_nat i - Z.to_nat off)%nat with (Z.to_nat (i - off)) by lia.
      destruct (lookup_lt_is_Some_2 p (Z.to_nat (i - off))) as [b Hb]; [lia|]. by rewrite Hb.
    + rewrite decide_False by lia. destruct (decide (Z.to_nat i < length (data da))%nat).
      * rewrite lookup_app_l by lia. apply Hdata. lia.
      * rewrite lookup_app_r, lookup_replicate_2 by lia.
        destruct (m !! i) eqn:E; [|done]. destruct Hi as [Hi _].
        assert (0 <= i < lastUsedOffsetExclusive da) by (apply Hi; eauto). lia.
  - unfold Zlen in *. lia.
  - unfold Zlen in *. lia.
  - apply is_end_store; done || lia.
Qed.

Lemma Write_run p off da m :
  0 <= off -> off + Zlen p < 2 ^ 32 - 1 -> da_rep da m ->
  match sparse_write p off m with
  | Some m' => exists da', Write p off da = (Ok tt, da') /\ da_rep da' m'
  | None => exists da', Write p off da = (Err "write to overlapping range", da')
  end.
Proof.
  intros Hoff Hend Hrep. unfold sparse_write, Write.
  destruct (Z.eqb_spec (Zlen p) 0) as [Hz|Hnz].
  { destruct p; [|rewrite Zlen_cons in Hz; pose proof (Zlen_nonneg p); lia].
    simpl. by exists da. }
  assert (p <> []) as Hp by (by intros ->).
  pose proof (Zlen_nonneg p). wrap_small_tac.
  destruct (Set_run off (Zlen p) (bitmap da)) as (b & bm' & Hrun & Hok' & Hb & Hd & Hm & Ho);
    [lia..|apply Hrep|].
  assert (b = range_free off (Zlen p) m) as ->.
  { apply eq_bool_prop_intro. rewrite !Is_true_true, Hb, range_free_spec.
    pose proof (rep_bits _ _ Hrep) as Hbits. unfold in_range.
    split; intros H1 i; [intros Hi|intros Hi Hin]; specialize (H1 i).
    - rewrite Hbits in H1 by lia. apply eq_None_not_Some. intros Hs.
      rewrite bool_decide_eq_true_2 in H1 by done. lia.
    - rewrite Hbits, H1 by lia. done. }
  erewrite M_bind_ok by (unfold on_bitmap; by rewrite Hrun).
  destruct (range_free off (Zlen p) m) eqn:Hfree; simpl; cycle 1.
  { eexists. done. }
  destruct (GrowSliceIfNecessary_spec 0 (off + Zlen p) (data da)) as (n & Hg & Hn); [lia|apply Hrep|].
  wrap_small_tac.
  rewrite (proj2 (Z.ltb_ge _ _)); cycle 1.
  { rewrite Hg, Zlen_app. unfold Zlen in *. rewrite length_replicate. lia. }
  eexists. split; [done|].
  replace (if off + Zlen p >? lastUsedOffsetExclusive da then _ else _)
    with (Z.max (lastUsedOffsetExclusive da) (off + Zlen p))
    by (destruct (Z.gtb_spec (off + Zlen p) (lastUsedOffsetExclusive da)); lia).
  apply da_rep_write; try done. by apply Hd.
Qed.

(** C39. [Write] refines the partial-map specification: it succeeds exactly when
    none of the offsets was written before, the new array then represents the
    map extended by the bytes written, and [GetData] is that map read from zero
    to the largest offset written, with the gaps as zeroes. *)
Theorem Write_refines p off da m :
  0 <= off -> off + Zlen p < 2 ^ 32 - 1 -> da_rep da m ->
  match sparse_write p off m with
  | Some m' => exists da', Write p off da = (Ok tt, da') /\ da_rep da' m' /\
                           GetData da' = contents (lastUsedOffsetExclusive da') m'
  | None => exists da', Write p off da = (Err "write to overlapping range", da')
  end.
Proof.
  intros Hoff Hend Hrep. pose proof (Write_run p off da m Hoff Hend Hrep) as Hw.
  destruct (sparse_write p off m) as [m'|]; [|done].
  destruct Hw as (da' & Hw & Hrep'). exists da'. split_and!; [done..|].
  by apply GetData_contents.
Qed.

Lemma Write_refines_witness :
  sparse_write [7; 8] 3 ∅ = Some (store_bytes 3 [7; 8] ∅) /\
  match sparse_write [7; 8] 3 ∅ with
  | Some m' => exists da', Write [7; 8] 3 NewDynamicArray = (Ok tt, da') /\ da_rep da' m' /\
                           GetData da' = contents (lastUsedOffsetExclusive da') m'
  | None => exists da', Write [7; 8] 3 NewDynamicArray = (Err "write to overlapping range", da')
  end.
Proof.
  split; [reflexivity|].
  apply (Write_refines [7; 8] 3 NewDynamicArray ∅); [lia|vm_compute; congruence|exact da_rep_empty].
Defined.
