(* ===== verification/Serializer.v ===== *)
(** Readers, writers and the binary serializer of [src/common/serializer.go],
    with [FillBuffer] of [src/common/utils.go].

    A reader or writer is an interface in the source and a type class here; the
    array reader and writer, the offset tracking wrappers and the digest reader
    are its instances. What the operating system or the network provides (an
    [io.Reader], an [*os.File]) stays abstract: a class whose laws are the
    documented contract of [io.Reader]. *)
From S2P Require Import Prelude Utils.

(** ** Interfaces *)

Inductive io_error := EOF | IOError (msg : string).

(** [Read(p)] with [len(p) = n]: the bytes stored at the front of [p], and the
    error. *)
Class IOReader (R : Type) := ioRead : nat -> R -> (list Z * option io_error) * R.

Class ReaderWithOffset (R : Type) := {
  Read : nat -> R -> (list Z * option io_error) * R;
  Offset : R -> Z;
}.

(** [Write(p)]: the number of bytes written, and the error. *)
Class IOWriter (W : Type) := ioWrite : list Z -> W -> (Z * option string) * W.

Class WriterWithOffset (W : Type) := {
  wWrite : list Z -> W -> (Z * option string) * W;
  wOffset : W -> Z;
}.

(** Every [WriterWithOffset] is an [io.Writer], every [ReaderWithOffset] an
    [io.Reader]. *)
#[export] Instance writer_as_iowriter {W} `{WriterWithOffset W} : IOWriter W := wWrite.
#[export] Instance reader_as_ioreader {R} `{ReaderWithOffset R} : IOReader R := Read.

Definition ErrShortWrite : string := "short write".

(** A [hash.Hash] is the bytes written to it so far; [Sum] is a function of
    them. *)
Abbreviation hash := (list Z) (only parsing).

(** ** Readers *)

Record arrayReader := mkArrayReader { src : list Z; ar_currentOffset : nat }.

Definition NewArrayReader (data : list Z) : arrayReader := mkArrayReader data 0.

Definition Rewind (arr : arrayReader) : arrayReader := mkArrayReader (src arr) 0.

Definition arrayReader_Read (n : nat) (arr : arrayReader)
    : (list Z * option io_error) * arrayReader :=
  if (n =? 0)%nat then (([], None), arr)
  else
    let remaining := (length (src arr) - ar_currentOffset arr)%nat in
    let cntToCopy := if (remaining <? n)%nat then remaining else n in
    let copied := take cntToCopy (drop (ar_currentOffset arr) (src arr)) in
    let arr' := mkArrayReader (src arr) (ar_currentOffset arr + cntToCopy) in
    ((copied, if (cntToCopy <? n)%nat then Some EOF else None), arr').

#[export] Instance arrayReader_reader : ReaderWithOffset arrayReader := {
  Read := arrayReader_Read;
  Offset arr := u64 (Z.of_nat (ar_currentOffset arr));
}.

Record IOReaderWithOffset (F : Type) := mkIOReader { ior_file : F; ior_currentOffset : Z }.
Arguments mkIOReader {F} ior_file ior_currentOffset.
Arguments ior_file {F} i.
Arguments ior_currentOffset {F} i.

Definition NewIOReaderWithOffset {F} (file : F) : IOReaderWithOffset F := mkIOReader file 0.

Definition IOReaderWithOffset_Read {F} `{IOReader F} (n : nat) (r : IOReaderWithOffset F)
    : (list Z * option io_error) * IOReaderWithOffset F :=
  let '((bs, err), file') := ioRead n (ior_file r) in
  ((bs, err),
   mkIOReader file' (if Zlen bs >? 0 then u64 (ior_currentOffset r + Zlen bs)
                     else ior_currentOffset r)).

#[export] Instance IOReaderWithOffset_reader {F} `{IOReader F}
    : ReaderWithOffset (IOReaderWithOffset F) := {
  Read := IOReaderWithOffset_Read;
  Offset := ior_currentOffset;
}.

(** The digest object is shared with the header that is being parsed: what the
    reader has hashed is read off its state. *)
Record DigestReaderImpl (R : Type) := mkDigestReader { source : R; digest : hash }.
Arguments mkDigestReader {R} source digest.
Arguments source {R} d.
Arguments digest {R} d.

Definition DigestReaderImpl_Read {R} `{ReaderWithOffset R} (n : nat) (d : DigestReaderImpl R)
    : (list Z * option io_error) * DigestReaderImpl R :=
  let '((bs, err), source') := Read n (source d) in
  ((bs, err), mkDigestReader source' (digest d ++ bs)).

#[export] Instance DigestReaderImpl_reader {R} `{ReaderWithOffset R}
    : ReaderWithOffset (DigestReaderImpl R) := {
  Read := DigestReaderImpl_Read;
  Offset d := Offset (source d);
}.

(** ** Reading *)

Section Reading.
Context {R : Type} `{ReaderWithOffset R}.

Definition read_ (n : nat) : M R (list Z * option io_error) := fun r =>
  let '(res, r') := Read n r in (Ok res, r').

Definition offset_ : M R Z := fun r => (Ok (Offset r), r).

Fixpoint fillLoop (fuel remaining : nat) (buf : list Z) : M R (list Z) :=
  match fuel with
  | O => lift Diverge
  | S fuel =>
      if (remaining =? 0)%nat then mret buf
      else
        x ← read_ remaining;
        let '(bs, err) := (x : list Z * option io_error) in
        match err with
        | Some EOF =>
            if (0 <? remaining - length bs)%nat
            then raise "expected %d bytes but only got %d"
            else mret (buf ++ bs)
        | Some (IOError e) => raise e
        | None => fillLoop fuel (remaining - length bs) (buf ++ bs)
        end
  end.

(** [FillBuffer(buf, reader)] for a buffer of [n] bytes: its new contents. *)
Definition FillBuffer (n : nat) : M R (list Z) := fillLoop (S n) n [].

Definition readBytes (n : nat) : M R (list Z) := FillBuffer n.

Definition readByteArray (len : Z) : M R (list Z) := FillBuffer (Z.to_nat len).

Definition at_index (buf : list Z) (i : nat) : outcome Z :=
  match buf !! i with Some b => Ok b | None => Panic "index out of range" end.

Definition readByte : M R Z :=
  buf ← readBytes 1;
  lift (at_index buf 0).

Definition readShort : M R Z :=
  buf ← readBytes 2;
  b0 ← lift (at_index buf 0);
  b1 ← lift (at_index buf 1);
  mret (Z.lor (u16 (Z.shiftl b0 8)) b1).

Definition readWord : M R Z :=
  high ← readShort;
  low ← readShort;
  mret (Z.lor (u32 (Z.shiftl high 16)) low).

Definition readLongWord : M R Z :=
  high ← readWord;
  low ← readWord;
  mret (Z.lor (u64 (Z.shiftl high 32)) low).

(** The [for] loop has no bound of its own: [fuel] bounds the bytes read. *)
Fixpoint readNullTerminatedString (fuel : nat) (result : list Z) : M R (list Z) :=
  match fuel with
  | O => lift Diverge
  | S fuel =>
      b ← readByte;
      if b =? 0 then mret (result ++ [b])
      else readNullTerminatedString fuel (result ++ [b])
  end.

Definition scratchSize : Z := 100 * 1024.

Fixpoint readAheadLoop (fuel : nat) (remaining scratchCap : Z) : M R Z :=
  match fuel with
  | O => lift Diverge
  | S fuel =>
      if remaining >? 0 then
        let scratchCap := if remaining <? scratchCap then remaining else scratchCap in
        x ← read_ (Z.to_nat scratchCap);
        let '(bs, err) := (x : list Z * option io_error) in
        match err with
        | Some (IOError e) => raise e
        | _ =>
            let remaining := u32 (remaining - Zlen bs) in
            if Zlen bs <? scratchCap then mret remaining
            else readAheadLoop fuel remaining scratchCap
        end
      else mret remaining
  end.

Definition readAhead (n : Z) : M R unit :=
  if n =? 0 then mret tt
  else if n <=? scratchSize then _ ← FillBuffer (Z.to_nat n); mret tt
  else
    remaining ← readAheadLoop (S (S (Z.to_nat (n / scratchSize)))) n scratchSize;
    if remaining >? 0
    then raise "input data truncated ? Tried to read %d bytes, expected %d more bytes"
    else mret tt.

Definition advanceToNext8ByteBoundary : M R unit :=
  off ← offset_;
  numBytesToSkip ← lift (CalcAlignmentByteCount off 8);
  if negb (numBytesToSkip =? 0) then readAhead numBytesToSkip else mret tt.
End Reading.

(** Splitting at the null bytes; an unterminated rest is dropped. *)
Fixpoint parseNullTerminatedLoop (data builder : list Z) (result : list (list Z))
    : list (list Z) :=
  match data with
  | [] => result
  | value :: data =>
      if value =? 0 then parseNullTerminatedLoop data [] (result ++ [builder])
      else parseNullTerminatedLoop data (builder ++ [value]) result
  end.

Definition parseNullTerminatedStrings (data : list Z) : list (list Z) :=
  parseNullTerminatedLoop data [] [].

(** ** Writers *)

Record ArrayWriter := mkArrayWriter { aw_Data : list Z; aw_currentOffset : Z }.

Definition NewArrayWriter : ArrayWriter := mkArrayWriter [] 0.

Definition ArrayWriter_Write (p : list Z) (arr : ArrayWriter)
    : (Z * option string) * ArrayWriter :=
  ((Zlen p, None),
   mkArrayWriter (aw_Data arr ++ p) (u64 (aw_currentOffset arr + Zlen p))).

#[export] Instance ArrayWriter_writer : WriterWithOffset ArrayWriter := {
  wWrite := ArrayWriter_Write;
  wOffset := aw_currentOffset;
}.

Record FileWriterWithOffset (F : Type) := mkFileWriter { fw_file : F; fw_currentOffset : Z }.
Arguments mkFileWriter {F} fw_file fw_currentOffset.
Arguments fw_file {F} f.
Arguments fw_currentOffset {F} f.

Definition FileWriterWithOffset_Write {F} `{IOWriter F} (p : list Z)
    (w : FileWriterWithOffset F) : (Z * option string) * FileWriterWithOffset F :=
  let '((cnt, err), file') := ioWrite p (fw_file w) in
  match err with
  | Some e => ((cnt, Some e), mkFileWriter file' (fw_currentOffset w))
  | None =>
      let w' := mkFileWriter file' (u64 (fw_currentOffset w + u64 cnt)) in
      if negb (cnt =? Zlen p) then ((cnt, Some ErrShortWrite), w')
      else ((Zlen p, None), w')
  end.

#[export] Instance FileWriterWithOffset_writer {F} `{IOWriter F}
    : WriterWithOffset (FileWriterWithOffset F) := {
  wWrite := FileWriterWithOffset_Write;
  wOffset := fw_currentOffset;
}.

Record offsetTrackingWriter (W : Type) := mkOffsetTracking { otw_writer : W; otw_currentOffset : Z }.
Arguments mkOffsetTracking {W} otw_writer otw_currentOffset.
Arguments otw_writer {W} o.
Arguments otw_currentOffset {W} o.

Definition NewOffsetTrackingWriter {W} (writer : W) : offsetTrackingWriter W :=
  mkOffsetTracking writer 0.

Definition offsetTrackingWriter_Write {W} `{IOWriter W} (p : list Z)
    (ow : offsetTrackingWriter W) : (Z * option string) * offsetTrackingWriter W :=
  let '((n, err), w') := ioWrite p (otw_writer ow) in
  ((n, err), mkOffsetTracking w' (u64 (otw_currentOffset ow + u64 n))).

#[export] Instance offsetTrackingWriter_writer {W} `{IOWriter W}
    : WriterWithOffset (offsetTrackingWriter W) := {
  wWrite := offsetTrackingWriter_Write;
  wOffset := otw_currentOffset;
}.

(** ** Writing *)

Section Writing.
Context {W : Type} `{WriterWithOffset W}.

Definition write_ (p : list Z) : M W (Z * option string) := fun w =>
  let '(res, w') := wWrite p w in (Ok res, w').

Definition woffset_ : M W Z := fun w => (Ok (wOffset w), w).

Definition writeBytes (data : list Z) : M W unit :=
  x ← write_ data;
  let '(written, err) := (x : Z * option string) in
  match err with
  | Some e => raise e
  | None => if negb (written =? Zlen data) then raise ErrShortWrite else mret tt
  end.

Definition writeByte (d : Z) : M W unit :=
  x ← write_ [d];
  let '(n, err) := (x : Z * option string) in
  match err with
  | Some e => raise e
  | None => if negb (u32 n =? 1) then raise ErrShortWrite else mret tt
  end.

Definition writeShort (d : Z) : M W unit :=
  _ ← writeByte (u8 (Z.shiftr d 8));
  writeByte (u8 d).

Definition writeWord (d : Z) : M W unit :=
  _ ← writeShort (u16 (Z.shiftr d 16));
  writeShort (u16 d).

Definition writeLongWord (d : Z) : M W unit :=
  _ ← writeWord (u32 (Z.shiftr d 32));
  writeWord (u32 d).

Definition writeAlignTo (alignment : Z) : M W unit :=
  off ← woffset_;
  numBytesToWrite ← lift (CalcAlignmentByteCount off alignment);
  if negb (numBytesToWrite =? 0) then
    let paddingBytes := zeros (Z.to_nat numBytesToWrite) in
    x ← write_ paddingBytes;
    let '(bytesWritten, err) := (x : Z * option string) in
    match err with
    | Some e => raise e
    | None => if negb (bytesWritten =? Zlen paddingBytes) then raise ErrShortWrite else mret tt
    end
  else mret tt.
End Writing.

(** ** The serializer object

    It holds a reader or a writer; which of the two decides what [offset]
    returns. *)
Record SerializerImpl (R W : Type) := mkSerializer { s_reader : option R; s_writer : option W }.
Arguments mkSerializer {R W} s_reader s_writer.
Arguments s_reader {R W} s.
Arguments s_writer {R W} s.

Definition offset {R W} `{ReaderWithOffset R} `{WriterWithOffset W}
    (s : SerializerImpl R W) : outcome Z :=
  match s_reader s, s_writer s with
  | Some _, Some _ =>
      Panic "Both reader and writer are set - don't know which offset to return"
  | Some r, None => Ok (Offset r)
  | None, Some w => Ok (wOffset w)
  | None, None => Panic "Neither reader nor writer are set ?"
  end.

(** ** Lawful readers

    [rest] is what the reader still delivers. A read returns a prefix of it of at
    most the length asked for; without an error it makes progress; the end of
    the input is reported only when nothing is left. How many bytes one call
    returns is left open. *)
Class LawfulReader (R : Type) `{ReaderWithOffset R} := {
  rest : R -> list Z;
  valid : R -> Prop;
  read_law n r : valid r -> exists bs err r', Read n r = ((bs, err), r') /\
    valid r' /\ rest r = bs ++ rest r' /\ (length bs <= n)%nat /\
    Offset r' = u64 (Offset r + Zlen bs) /\
    (err = None /\ (n = 0%nat \/ bs <> []) \/ err = Some EOF /\ rest r' = []);
  offset_law r : valid r -> in_width 64 (Offset r);
}.

(** The documented contract of [io.Reader] for an input without I/O errors. *)
Class LawfulIOReader (F : Type) `{IOReader F} := {
  io_rest : F -> list Z;
  io_read_law n f : exists bs err f', ioRead n f = ((bs, err), f') /\
    io_rest f = bs ++ io_rest f' /\ (length bs <= n)%nat /\
    (err = None /\ (n = 0%nat \/ bs <> []) \/ err = Some EOF /\ io_rest f' = []);
}.

#[export, refine] Instance arrayReader_lawful : LawfulReader arrayReader := {
  rest arr := drop (ar_currentOffset arr) (src arr);
  valid arr := (ar_currentOffset arr <= length (src arr))%nat;
}.
Proof.
  - intros n [l o] Hv. simpl in *. unfold arrayReader_Read. simpl.
    destruct (Nat.eqb_spec n 0) as [->|Hn].
    { do 3 eexists. split_and!; [done|done|done|simpl; lia| |by left; auto].
      rewrite Zlen_nil, Z.add_0_r, wrap_idemp; [done|lia]. }
    set (c := if (length l - o <? n)%nat then _ else n).
    assert (c <= length l - o)%nat as Hc by (unfold c; destruct (Nat.ltb_spec (length l - o) n); lia).
    assert (c <= n)%nat as Hcn by (unfold c; destruct (Nat.ltb_spec (length l - o) n); lia).
    assert (c < n -> c = length l - o)%nat as Hshort
      by (unfold c; destruct (Nat.ltb_spec (length l - o) n); lia).
    clearbody c.
    assert (length (take c (drop o l)) = c) as Hlen by (rewrite length_take, length_drop; lia).
    do 3 eexists. split_and!; [done|simpl; lia|simpl|lia| |].
    + by rewrite <- drop_drop, take_drop.
    + unfold Zlen. rewrite Hlen, wrap_add_l by lia. simpl. f_equal. lia.
    + simpl. destruct (Nat.ltb_spec c n).
      * right. split; [done|]. apply drop_ge. lia.
      * left. split; [done|]. right. intros Hnil. rewrite Hnil in Hlen. simpl in Hlen. lia.
  - intros r _. simpl. apply wrap_range. lia.
Defined.

#[export, refine] Instance IOReaderWithOffset_lawful {F} `{LawfulIOReader F}
    : LawfulReader (IOReaderWithOffset F) := {
  rest r := io_rest (ior_file r);
  valid r := in_width 64 (ior_currentOffset r);
}.
Proof.
  - intros n [f o] Hv. simpl in *. unfold IOReaderWithOffset_Read. simpl.
    destruct (io_read_law n f) as (bs & err & f' & Hr & Hrest & Hlen & He).
    rewrite Hr. do 3 eexists. split_and!; [done|..|done|done| |done]; simpl.
    + case_match; [apply wrap_range; lia|done].
    + destruct (Z.gtb_spec (Zlen bs) 0) as [|Hz]; [done|].
      pose proof (Zlen_nonneg bs). replace (Zlen bs) with 0 by lia.
      rewrite Z.add_0_r, wrap_small; done.
  - done.
Defined.

#[export, refine] Instance DigestReaderImpl_lawful {R} `{LawfulReader R}
    : LawfulReader (DigestReaderImpl R) := {
  rest d := rest (source d);
  valid d := valid (source d);
}.
Proof.
  - intros n [r h] Hv. simpl in *. unfold DigestReaderImpl_Read. simpl.
    destruct (read_law n r Hv) as (bs & err & r' & Hr & Hrest).
    rewrite Hr. do 3 eexists. split; [done|]. exact Hrest.
  - intros [r h] Hv. simpl in *. by apply offset_law.
Defined.

(** ** Readers that may fail

    The full contract of [io.Reader]: a read may also report an error of the disk or
    of the network, with or without bytes. [may_fail] says that some read may still
    do so; where it does not hold the reader behaves as a lawful one. *)
Class FallibleReader (R : Type) `{ReaderWithOffset R} := {
  pending : R -> list Z;
  usable : R -> Prop;
  may_fail : R -> Prop;
  fallible_law n r : usable r -> exists bs err r', Read n r = ((bs, err), r') /\
    usable r' /\ pending r = bs ++ pending r' /\ (length bs <= n)%nat /\
    Offset r' = u64 (Offset r + Zlen bs) /\ (may_fail r' -> may_fail r) /\
    (err = None /\ (n = 0%nat \/ bs <> []) \/ err = Some EOF /\ pending r' = [] \/
     (exists e, err = Some (IOError e)) /\ may_fail r);
  fallible_offset r : usable r -> in_width 64 (Offset r);
}.

Class FallibleIOReader (F : Type) `{IOReader F} := {
  io_pending : F -> list Z;
  io_may_fail : F -> Prop;
  io_fallible_law n f : exists bs err f', ioRead n f = ((bs, err), f') /\
    io_pending f = bs ++ io_pending f' /\ (length bs <= n)%nat /\ (io_may_fail f' -> io_may_fail f) /\
    (err = None /\ (n = 0%nat \/ bs <> []) \/ err = Some EOF /\ io_pending f' = [] \/
     (exists e, err = Some (IOError e)) /\ io_may_fail f);
}.

(** Lawful readers are those that never fail. *)
#[export, refine] Instance lawful_fallible {R} `{LawfulReader R} : FallibleReader R := {
  pending := rest;
  usable := valid;
  may_fail _ := False;
}.
Proof.
  - intros n r Hr. destruct (read_law n r Hr) as (bs & err & r' & Hrd & Hv & Hrest & Hl & Ho & He).
    exists bs, err, r'. tauto.
  - apply offset_law.
Defined.

#[export, refine] Instance lawful_io_fallible {F} `{LawfulIOReader F} : FallibleIOReader F := {
  io_pending := io_rest;
  io_may_fail _ := False;
}.
Proof.
  intros n f. destruct (io_read_law n f) as (bs & err & f' & Hrd & Hrest & Hl & He). exists bs, err, f'. tauto.
Defined.

#[export, refine] Instance IOReaderWithOffset_fallible {F} `{FallibleIOReader F}
    : FallibleReader (IOReaderWithOffset F) := {
  pending r := io_pending (ior_file r);
  usable r := in_width 64 (ior_currentOffset r);
  may_fail r := io_may_fail (ior_file r);
}.
Proof.
  - intros n [f o] Hv. simpl in *. unfold IOReaderWithOffset_Read. simpl.
    destruct (io_fallible_law n f) as (bs & err & f' & Hr & Hrest & Hlen & He).
    rewrite Hr. do 3 eexists. split_and!; [done|..|done|done| |apply He|apply He]; simpl.
    + case_match; [apply wrap_range; lia|done].
    + destruct (Z.gtb_spec (Zlen bs) 0) as [|Hz]; [done|].
      pose proof (Zlen_nonneg bs). replace (Zlen bs) with 0 by lia.
      rewrite Z.add_0_r, wrap_small; done.
  - done.
Defined.

#[export, refine] Instance DigestReaderImpl_fallible {R} `{FallibleReader R}
    : FallibleReader (DigestReaderImpl R) := {
  pending d := pending (source d);
  usable d := usable (source d);
  may_fail d := may_fail (source d);
}.
Proof.
  - intros n [r h] Hv. simpl in *. unfold DigestReaderImpl_Read. simpl.
    destruct (fallible_law n r Hv) as (bs & err & r' & Hr & Hrest).
    rewrite Hr. do 3 eexists. split; [done|]. exact Hrest.
  - intros [r h] Hv. simpl in *. by apply fallible_offset.
Defined.

(** ** The reference reader: a byte stream at an offset *)

Record stream := mkStream { st_rest : list Z; st_off : Z }.

#[export] Instance stream_reader : ReaderWithOffset stream := {
  Read n s :=
    ((take n (st_rest s), if (length (st_rest s) <? n)%nat then Some EOF else None),
     mkStream (drop n (st_rest s)) (u64 (st_off s + Zlen (take n (st_rest s)))));
  Offset := st_off;
}.

#[export, refine] Instance stream_lawful : LawfulReader stream := {
  rest := st_rest;
  valid s := in_width 64 (st_off s);
}.
Proof.
  - intros n [l o] Hv. simpl. do 3 eexists. split_and!; simpl.
    + done.
    + apply wrap_range. lia.
    + symmetry. apply take_drop.
    + rewrite length_take. lia.
    + done.
    + destruct (Nat.ltb_spec (length l) n).
      * right. split; [done|]. apply drop_ge. lia.
      * left. split; [done|]. destruct (decide (n = 0%nat)); [by left|right].
        destruct l, n; simpl in *; try done; lia.
  - done.
Defined.

Definition view {R} `{LawfulReader R} (r : R) : stream := mkStream (rest r) (Offset r).

(** ** Refinement of a reader program by the same program on a stream

    [refines m p]: from every valid state, [m] returns what [p] returns on the
    stream that is left, and ends where [p] ends. It is closed under sequencing,
    so a program that reads only through the operations below inherits it. *)
Definition refines {R} `{LawfulReader R} {A} (m : M R A) (p : M stream A) : Prop :=
  forall r, valid r -> valid (m r).2 /\ p (view r) = ((m r).1, view (m r).2).

Create HintDb refines.

Section Refines.
Context {R : Type} `{LawfulReader R}.

Lemma refines_ret {A} (a : A) : refines (mret a) (mret a).
Proof. by intros r Hr. Qed.

Lemma refines_lift {A} (o : outcome A) : refines (lift o) (lift o).
Proof. by intros r Hr. Qed.

Lemma refines_bind {A B} (m : M R A) p (f : A -> M R B) g :
  refines m p -> (forall a, refines (f a) (g a)) -> refines (m ≫= f) (p ≫= g).
Proof.
  intros Hm Hf r Hr. destruct (Hm r Hr) as [Hv Hp].
  unfold mbind, M_bind. rewrite Hp. destruct (m r) as [[a|e|s|] r'] eqn:E; simpl in *; try done.
  by apply Hf.
Qed.

(** The continuation only has to refine for the values [m] can return. *)
Lemma refines_bind_dep {A B} (m : M R A) p (f : A -> M R B) g :
  refines m p -> (forall a, (exists r, valid r /\ (m r).1 = Ok a) -> refines (f a) (g a)) ->
  refines (m ≫= f) (p ≫= g).
Proof.
  intros Hm Hf r Hr. destruct (Hm r Hr) as [Hv Hp].
  unfold mbind, M_bind. rewrite Hp. destruct (m r) as [[a|e|s|] r'] eqn:E; simpl in *; try done.
  apply Hf; [|done]. exists r. by rewrite E.
Qed.

Lemma refines_offset : refines offset_ offset_.
Proof. by intros r Hr. Qed.

(** What [FillBuffer] does with the bytes that are left. *)
Definition fill_result (n : nat) (s : stream) : outcome (list Z) * stream :=
  if (n <=? length (st_rest s))%nat
  then (Ok (take n (st_rest s)), mkStream (drop n (st_rest s)) (u64 (st_off s + Z.of_nat n)))
  else (Err "expected %d bytes but only got %d",
        mkStream [] (u64 (st_off s + Zlen (st_rest s)))).

Lemma fillLoop_spec fuel n buf r :
  (n < fuel)%nat -> valid r ->
  valid (fillLoop fuel n buf r).2 /\
  (fillLoop fuel n buf r).1 = (fill_result n (view r)).1 ≫= (fun l => Ok (buf ++ l)) /\
  view (fillLoop fuel n buf r).2 = (fill_result n (view r)).2.
Proof.
  revert n buf r. induction fuel as [|fuel IH]; intros n buf r Hn Hr; [lia|].
  simpl. destruct (Nat.eqb_spec n 0) as [->|Hn0].
  { unfold fill_result. simpl. rewrite take_0, drop_0, app_nil_r, Z.add_0_r.
    rewrite wrap_small by (by apply offset_law). done. }
  destruct (read_law n r Hr) as (bs & err & r' & Hrd & Hv & Hrest & Hlen & Hoff & He).
  erewrite M_bind_ok by (unfold read_; by rewrite Hrd).
  assert (fill_result n (view r) = match fill_result (n - length bs) (view r') with
    | (Ok l, s) => (Ok (bs ++ l), s) | res => res end) as Hfill.
  { unfold fill_result. simpl. rewrite Hrest, Hoff, length_app, Zlen_app.
    destruct (Nat.leb_spec n (length bs + length (rest r'))).
    - rewrite (proj2 (Nat.leb_le _ _)) by lia. rewrite take_app, drop_app, take_ge, drop_ge by lia.
      simpl. rewrite wrap_add_l by lia. unfold Zlen.
      replace (Offset r + Z.of_nat n)
        with (Offset r + Z.of_nat (length bs) + Z.of_nat (n - length bs)) by lia. done.
    - rewrite (proj2 (Nat.leb_gt _ _)) by lia. rewrite wrap_add_l by lia.
      by rewrite Z.add_assoc. }
  destruct He as [[-> Hprog]|[-> Hend]].
  - assert (bs <> []) as Hbs by (destruct Hprog; [lia|done]).
    assert (0 < length bs)%nat by (destruct bs; simpl; [done|lia]).
    destruct (IH (n - length bs)%nat (buf ++ bs) r') as (Hv' & Ho & Hs); [lia|done|].
    split; [done|]. rewrite Ho, Hs, Hfill.
    destruct (fill_result _ (view r')) as [[l|e|p|] s]; simpl; [by rewrite app_assoc|done..].
  - rewrite Hfill. unfold fill_result. simpl. rewrite Hend. simpl.
    destruct (Nat.ltb_spec 0 (n - length bs)) as [Hlt|Hge].
    + rewrite (proj2 (Nat.leb_gt _ _)) by lia. simpl. split_and!; [done..|].
      unfold view. rewrite Hend, Zlen_nil, Z.add_0_r, wrap_small by (by apply offset_law). done.
    + replace (n - length bs)%nat with 0%nat by lia. simpl. rewrite app_nil_r. split_and!; [done..|].
      unfold view. rewrite Hend, Z.add_0_r, wrap_small by (by apply offset_law). done.
Qed.

Lemma FillBuffer_view n r :
  valid r -> valid (FillBuffer n r).2 /\
  (FillBuffer n r).1 = (fill_result n (view r)).1 /\
  view (FillBuffer n r).2 = (fill_result n (view r)).2.
Proof.
  intros Hr. destruct (fillLoop_spec (S n) n [] r) as (Hv & Ho & Hs); [lia|done|].
  split_and!; [done| |done]. unfold FillBuffer. rewrite Ho.
  by destruct (fill_result n (view r)) as [[]].
Qed.
End Refines.

(** On a stream, [FillBuffer] is [fill_result]. *)
Lemma FillBuffer_stream n s :
  in_width 64 (st_off s) -> FillBuffer n s = fill_result n s.
Proof.
  intros Hs. assert (valid (R:=stream) s) as Hv by exact Hs.
  destruct (FillBuffer_view n s Hv) as (_ & H1 & H2).
  assert (forall t : stream, view t = t) as Hview by (by intros []).
  rewrite !Hview in H1. rewrite !Hview in H2.
  destruct (FillBuffer n s), (fill_result n s); simpl in *; congruence.
Qed.

Lemma refines_fill {R} `{LawfulReader R} n : refines (FillBuffer n) (FillBuffer n).
Proof.
  intros r Hr. destruct (FillBuffer_view n r Hr) as (Hv & H1 & H2). split; [done|].
  rewrite FillBuffer_stream by (simpl; by apply offset_law).
  rewrite H1, H2. by destruct (fill_result _ _).
Qed.

#[export] Hint Resolve refines_ret refines_lift refines_bind refines_offset refines_fill : refines.

(** ** The operations that read through [FillBuffer] *)

Section ReadRefines.
Context {R : Type} `{LawfulReader R}.

Lemma refines_readByte : refines readByte readByte.
Proof. unfold readByte, readBytes. eauto 6 with refines. Qed.

Lemma refines_readShort : refines readShort readShort.
Proof. unfold readShort, readBytes. eauto 8 with refines. Qed.
#[local] Hint Resolve refines_readByte refines_readShort : refines.

Lemma refines_readWord : refines readWord readWord.
Proof. unfold readWord. eauto 8 with refines. Qed.
#[local] Hint Resolve refines_readWord : refines.

Lemma refines_readLongWord : refines readLongWord readLongWord.
Proof. unfold readLongWord. eauto 8 with refines. Qed.

Lemma refines_nts fuel res :
  refines (readNullTerminatedString fuel res) (readNullTerminatedString fuel res).
Proof.
  revert res. induction fuel as [|fuel IH]; intros res; simpl; [apply refines_lift|].
  apply refines_bind; [apply refines_readByte|]. intros b. case_match; [apply refines_ret|apply IH].
Qed.

Lemma refines_readAhead_small n : n <= scratchSize -> refines (readAhead n) (readAhead n).
Proof.
  intros Hn. unfold readAhead. destruct (n =? 0); [apply refines_ret|].
  rewrite (proj2 (Z.leb_le _ _)) by done.
  apply refines_bind; [apply refines_fill|]. intros. apply refines_ret.
Qed.

Lemma refines_advance : refines advanceToNext8ByteBoundary advanceToNext8ByteBoundary.
Proof.
  unfold advanceToNext8ByteBoundary.
  apply refines_bind_dep; [apply refines_offset|]. intros off (r & Hr & [= <-]).
  apply refines_bind_dep; [apply refines_lift|]. intros k (r' & Hr' & Hk).
  simpl in Hk. rewrite CalcAlignmentByteCount_pow2 in Hk by (by apply offset_law || set_solver).
  injection Hk as <-. case_match; [|apply refines_ret].
  apply refines_readAhead_small. pose proof (Z.mod_pos_bound (- Offset r) 8).
  unfold scratchSize. lia.
Qed.
End ReadRefines.
#[export] Hint Resolve refines_readByte refines_readShort refines_readWord refines_readLongWord
  refines_nts refines_advance : refines.

(** ** Reading on a stream *)

Lemma FillBuffer_app n l tl off :
  length l = n -> in_width 64 off ->
  FillBuffer n (mkStream (l ++ tl) off) = (Ok l, mkStream tl (u64 (off + Z.of_nat n))).
Proof.
  intros Hl Hoff. rewrite FillBuffer_stream by done. unfold fill_result. simpl.
  rewrite length_app, (proj2 (Nat.leb_le _ _)) by lia.
  by rewrite take_app_length', drop_app_length'.
Qed.

Lemma FillBuffer_short n l off :
  (length l < n)%nat -> in_width 64 off ->
  FillBuffer n (mkStream l off) =
    (Err "expected %d bytes but only got %d", mkStream [] (u64 (off + Zlen l))).
Proof.
  intros Hl Hoff. rewrite FillBuffer_stream by done. unfold fill_result. simpl.
  by rewrite (proj2 (Nat.leb_gt _ _)).
Qed.

(** Two half words put together with a shift and a bitwise or. *)
Lemma join_halves k w hi lo :
  0 <= k -> w = 2 * k -> in_width k hi -> in_width k lo ->
  Z.lor (wrap w (Z.shiftl hi k)) lo = hi * 2 ^ k + lo.
Proof.
  unfold in_width. intros Hk -> Hhi Hlo.
  assert (2 ^ (2 * k) = 2 ^ k * 2 ^ k) as Hp by (rewrite <- Z.pow_add_r by lia; f_equal; lia).
  rewrite Z.shiftl_mul_pow2 by done. rewrite wrap_small by (unfold in_width; nia).
  symmetry. apply Z.add_nocarry_lor, Z.bits_inj'. intros j Hj.
  rewrite Z.land_spec, Z.bits_0, <- Z.shiftl_mul_pow2 by done.
  destruct (decide (j < k)).
  - rewrite Z.shiftl_spec_low by done. done.
  - replace lo with (lo mod 2 ^ k) by (by apply Z.mod_small).
    rewrite Z.mod_pow2_bits_high by lia. by rewrite andb_false_r.
Qed.

(** Big-endian encodings. *)
Definition be16 (d : Z) : list Z := [u8 (Z.shiftr d 8); u8 d].
Definition be32 (d : Z) : list Z := be16 (u16 (Z.shiftr d 16)) ++ be16 (u16 d).
Definition be64 (d : Z) : list Z := be32 (u32 (Z.shiftr d 32)) ++ be32 (u32 d).

Lemma wrap_hi k d : 0 <= k -> in_width (2 * k) d ->
  wrap k (Z.shiftr d k) * 2 ^ k + wrap k d = d.
Proof.
  unfold in_width. intros Hk Hd.
  assert (2 ^ (2 * k) = 2 ^ k * 2 ^ k) as Hp by (rewrite <- Z.pow_add_r by lia; f_equal; lia).
  rewrite Z.shiftr_div_pow2 by done. pose proof (Z.pow_pos_nonneg 2 k).
  rewrite (wrap_small k (d / 2 ^ k)).
  - unfold wrap. pose proof (Z.div_mod d (2 ^ k)). lia.
  - split; [apply Z.div_pos; lia|]. apply Z.div_lt_upper_bound; lia.
Qed.

Lemma readByte_stream b tl off :
  in_width 64 off -> readByte (mkStream (b :: tl) off) = (Ok b, mkStream tl (u64 (off + 1))).
Proof.
  intros Hoff. unfold readByte, readBytes.
  erewrite M_bind_ok by (apply (FillBuffer_app 1 [b] tl off); done). done.
Qed.

Lemma readShort_stream d tl off :
  in_width 64 off -> in_width 16 d ->
  readShort (mkStream (be16 d ++ tl) off) = (Ok d, mkStream tl (u64 (off + 2))).
Proof.
  intros Hoff Hd. unfold readShort, readBytes.
  erewrite M_bind_ok by (apply (FillBuffer_app 2 (be16 d) tl off); done).
  cbv [mbind M_bind lift at_index be16 lookup list_lookup mret M_ret]. do 2 f_equal.
  rewrite (join_halves 8) by (lia || apply wrap_range; lia). by apply (wrap_hi 8).
Qed.

Lemma readWord_stream d tl off :
  in_width 64 off -> in_width 32 d ->
  readWord (mkStream (be32 d ++ tl) off) = (Ok d, mkStream tl (u64 (off + 4))).
Proof.
  intros Hoff Hd. unfold readWord, be32. rewrite <- app_assoc.
  erewrite M_bind_ok by (apply readShort_stream; [done|apply wrap_range; lia]).
  erewrite M_bind_ok by (apply readShort_stream; apply wrap_range; lia).
  unfold mret, M_ret. rewrite wrap_add_l, <- Z.add_assoc by lia. do 2 f_equal.
  rewrite (join_halves 16) by (lia || apply wrap_range; lia). by apply (wrap_hi 16).
Qed.

Lemma readLongWord_stream d tl off :
  in_width 64 off -> in_width 64 d ->
  readLongWord (mkStream (be64 d ++ tl) off) = (Ok d, mkStream tl (u64 (off + 8))).
Proof.
  intros Hoff Hd. unfold readLongWord, be64. rewrite <- app_assoc.
  erewrite M_bind_ok by (apply readWord_stream; [done|apply wrap_range; lia]).
  erewrite M_bind_ok by (apply readWord_stream; apply wrap_range; lia).
  unfold mret, M_ret. rewrite wrap_add_l, <- Z.add_assoc by lia. do 2 f_equal.
  rewrite (join_halves 32) by (lia || apply wrap_range; lia). by apply (wrap_hi 32).
Qed.

Lemma length_be32 d : length (be32 d) = 4%nat.
Proof. done. Qed.

Lemma be16_ok d : bytes_ok (be16 d).
Proof. repeat constructor; apply wrap_range; lia. Qed.
Lemma be32_ok d : bytes_ok (be32 d).
Proof. apply Forall_app; split; apply be16_ok. Qed.
#[export] Hint Resolve be16_ok be32_ok : rpm.

(** ** Null-terminated strings *)

Lemma nts_stream fuel s res tl off :
  (length s < fuel)%nat -> Forall (fun b => b <> 0) s -> in_width 64 off ->
  readNullTerminatedString fuel res (mkStream (s ++ 0 :: tl) off) =
    (Ok (res ++ s ++ [0]), mkStream tl (u64 (off + Zlen s + 1))).
Proof.
  revert s res off. induction fuel as [|fuel IH]; intros s res off Hf Hs Hoff; [lia|].
  destruct s as [|b s]; simpl.
  - rewrite (M_bind_ok _ _ _ _ _ (readByte_stream 0 tl off Hoff)). simpl. unfold mret, M_ret.
    do 2 f_equal. f_equal. zlen.
  - apply Forall_cons in Hs as [Hb Hs].
    rewrite (M_bind_ok _ _ _ _ _ (readByte_stream b (s ++ 0 :: tl) off Hoff)).
    rewrite (proj2 (Z.eqb_neq _ _)) by done.
    rewrite IH; [|simpl in Hf; lia|done|apply wrap_range; lia].
    rewrite <- app_assoc, Zlen_cons, <- !Z.add_assoc, wrap_add_l by lia. do 2 f_equal. f_equal. lia.
Qed.

Lemma readByte_result (s : stream) : in_width 64 (st_off s) ->
  (exists b, st_rest s = b :: st_rest (readByte s).2 /\ (readByte s).1 = Ok b /\
             in_width 64 (st_off (readByte s).2)) \/
  (exists e, st_rest s = [] /\ (readByte s).1 = Err e).
Proof.
  destruct s as [[|b l] off]; intros Hoff; [right|left].
  - eexists. split; [done|]. unfold readByte, readBytes.
    erewrite M_bind_err; [done|]. apply FillBuffer_short; [simpl; lia|done].
  - exists b. rewrite readByte_stream by done. simpl.
    split_and!; [done|done|apply wrap_range; lia].
Qed.

(** With more fuel than bytes left the loop ends, one way or the other. *)
Lemma nts_stream_ends fuel res s :
  (length (st_rest s) < fuel)%nat -> in_width 64 (st_off s) ->
  (readNullTerminatedString fuel res s).1 <> Diverge.
Proof.
  revert res s. induction fuel as [|fuel IH]; intros res s Hf Hs; [lia|].
  simpl. destruct (readByte_result s Hs) as [(b & Hb & Hr & Hv)|(e & Hb & Hr)].
  - destruct (readByte s) as [o s'] eqn:E. simpl in *. subst o.
    erewrite M_bind_ok by exact E. case_match; [done|]. apply IH; [|done].
    rewrite Hb in Hf. simpl in Hf. lia.
  - destruct (readByte s) as [o s'] eqn:E. simpl in *. subst o.
    by erewrite M_bind_err by exact E.
Qed.

(** ** What a program that only reads cannot break *)

Definition maintains {R A} (I : R -> Prop) (m : M R A) : Prop :=
  forall r, I r -> I (m r).2.

Create HintDb maintains.

Section Maintains.
Context {R : Type} `{ReaderWithOffset R} (I : R -> Prop).
Hypothesis Read_maintains : forall n r, I r -> I (Read n r).2.

Lemma maintains_ret {A} (a : A) : maintains I (mret a).
Proof. by intros r Hr. Qed.

Lemma maintains_lift {A} (o : outcome A) : maintains I (lift o).
Proof. by intros r Hr. Qed.

Lemma maintains_bind {A B} (m : M R A) (f : A -> M R B) :
  maintains I m -> (forall a, maintains I (f a)) -> maintains I (m ≫= f).
Proof.
  intros Hm Hf r Hr. specialize (Hm r Hr). unfold mbind, M_bind.
  destruct (m r) as [[a|e|p|] r']; simpl in *; [by apply Hf|done..].
Qed.

Lemma maintains_offset : maintains I offset_.
Proof. by intros r Hr. Qed.

Lemma maintains_read n : maintains I (read_ n).
Proof.
  intros r Hr. unfold read_. specialize (Read_maintains n r Hr).
  by destruct (Read n r).
Qed.

Lemma maintains_fillLoop fuel n buf : maintains I (fillLoop fuel n buf).
Proof.
  revert n buf. induction fuel as [|fuel IH]; intros n buf; simpl; [apply maintains_lift|].
  case_match; [apply maintains_ret|].
  apply maintains_bind; [apply maintains_read|].
  intros [bs [[|e]|]]; [case_match; [apply maintains_lift|apply maintains_ret]
    |apply maintains_lift|apply IH].
Qed.

Lemma maintains_fill n : maintains I (FillBuffer n).
Proof. apply maintains_fillLoop. Qed.

Lemma maintains_readByte : maintains I readByte.
Proof. unfold readByte, readBytes. apply maintains_bind; intros; [apply maintains_fill|apply maintains_lift]. Qed.

Lemma maintains_readShort : maintains I readShort.
Proof.
  unfold readShort, readBytes. apply maintains_bind; [apply maintains_fill|intros].
  repeat (apply maintains_bind; [apply maintains_lift|intros]). apply maintains_ret.
Qed.

Lemma maintains_readWord : maintains I readWord.
Proof.
  unfold readWord. repeat (apply maintains_bind; [apply maintains_readShort|intros]).
  apply maintains_ret.
Qed.

Lemma maintains_readAheadLoop fuel n c : maintains I (readAheadLoop fuel n c).
Proof.
  revert n c. induction fuel as [|fuel IH]; intros n c; simpl; [apply maintains_lift|].
  case_match; [|apply maintains_ret].
  apply maintains_bind; [apply maintains_read|].
  intros [bs [[|e]|]]; cbv zeta; [|apply maintains_lift|]; case_match;
    first [apply maintains_ret|apply IH].
Qed.

Lemma maintains_readAhead n : maintains I (readAhead n).
Proof.
  unfold readAhead. case_match; [apply maintains_ret|]. case_match.
  - apply maintains_bind; [apply maintains_fill|intros; apply maintains_ret].
  - apply maintains_bind; [apply maintains_readAheadLoop|intros].
    case_match; [apply maintains_lift|apply maintains_ret].
Qed.

Lemma maintains_advance : maintains I advanceToNext8ByteBoundary.
Proof.
  unfold advanceToNext8ByteBoundary.
  apply maintains_bind; [apply maintains_offset|intros].
  apply maintains_bind; [apply maintains_lift|intros].
  case_match; [apply maintains_readAhead|apply maintains_ret].
Qed.
End Maintains.

(** What a digest reader has hashed, followed by what it still delivers, does
    not change: a program that reads hashes exactly the bytes it consumes. *)
Definition hashed_and_rest {R} `{LawfulReader R} (all : list Z) (d : DigestReaderImpl R) : Prop :=
  valid (source d) /\ digest d ++ rest (source d) = all.

Lemma DigestReader_maintains {R} `{LawfulReader R} all n (d : DigestReaderImpl R) :
  hashed_and_rest all d -> hashed_and_rest all (Read n d).2.
Proof.
  destruct d as [r h]. intros [Hv Hall]. simpl in *. unfold DigestReaderImpl_Read. simpl.
  destruct (read_law n r Hv) as (bs & err & r' & -> & Hv' & Hrest & _).
  split; [done|]. simpl. rewrite <- app_assoc, <- Hrest. done.
Qed.

(** ** Writers that do not fail *)

Class LawfulWriter (W : Type) `{WriterWithOffset W} := {
  written : W -> list Z;
  wvalid : W -> Prop;
  write_law p w : wvalid w -> exists w', wWrite p w = ((Zlen p, None), w') /\
    wvalid w' /\ written w' = written w ++ p /\ wOffset w' = u64 (wOffset w + Zlen p);
  woffset_law w : wvalid w -> in_width 64 (wOffset w);
}.

#[export, refine] Instance ArrayWriter_lawful : LawfulWriter ArrayWriter := {
  written := aw_Data;
  wvalid w := in_width 64 (aw_currentOffset w);
}.
Proof.
  - intros p w Hw. eexists. split_and!; [done| |done..]. apply wrap_range. lia.
  - done.
Defined.

(** ** Writers that may fail

    A write stores all of its bytes, or reports an error; what it has stored then is
    left open. [may_fail_write] says that some write may still fail. *)
Class FallibleWriter (W : Type) `{WriterWithOffset W} := {
  stored : W -> list Z;
  wusable : W -> Prop;
  may_fail_write : W -> Prop;
  fallible_write p w : wusable w -> exists n err w', wWrite p w = ((n, err), w') /\ wusable w' /\
    (may_fail_write w' -> may_fail_write w) /\
    (n = Zlen p /\ err = None /\ stored w' = stored w ++ p /\ wOffset w' = u64 (wOffset w + Zlen p) \/
     (exists e, err = Some e) /\ may_fail_write w);
  fallible_woffset w : wusable w -> in_width 64 (wOffset w);
}.

#[export, refine] Instance lawful_fallible_writer {W} `{LawfulWriter W} : FallibleWriter W := {
  stored := written;
  wusable := wvalid;
  may_fail_write _ := False;
}.
Proof.
  - intros p w Hw. destruct (write_law p w Hw) as (w' & Hwr & Hv & Hs & Ho). exists (Zlen p), None, w'. tauto.
  - apply woffset_law.
Defined.

(** [appends m bs]: [m] succeeds and appends exactly [bs]. *)
Definition appends {W} `{LawfulWriter W} (m : M W unit) (bs : list Z) : Prop :=
  forall w, wvalid w -> exists w', m w = (Ok tt, w') /\ wvalid w' /\
    written w' = written w ++ bs /\ wOffset w' = u64 (wOffset w + Zlen bs).

Section Appends.
Context {W : Type} `{LawfulWriter W}.

Lemma appends_bind m1 m2 a b :
  appends m1 a -> appends m2 b -> appends (m1 ≫= (fun _ => m2)) (a ++ b).
Proof.
  intros H1 H2 w Hw. destruct (H1 w Hw) as (w1 & E1 & Hv1 & Hr1 & Ho1).
  destruct (H2 w1 Hv1) as (w2 & E2 & Hv2 & Hr2 & Ho2).
  exists w2. erewrite M_bind_ok by exact E1. split_and!; [done..| |].
  - by rewrite Hr2, Hr1, app_assoc.
  - rewrite Ho2, Ho1, wrap_add_l, Zlen_app by lia. by rewrite Z.add_assoc.
Qed.

Lemma appends_writeBytes data : appends (writeBytes data) data.
Proof.
  intros w Hw. destruct (write_law data w Hw) as (w' & E & Hv & Hr & Ho).
  exists w'. unfold writeBytes. erewrite M_bind_ok by (unfold write_; by rewrite E).
  cbn. by rewrite Z.eqb_refl.
Qed.

Lemma appends_writeByte d : appends (writeByte d) [d].
Proof.
  intros w Hw. destruct (write_law [d] w Hw) as (w' & E & Hv & Hr & Ho).
  exists w'. unfold writeByte. by erewrite M_bind_ok by (unfold write_; by rewrite E).
Qed.

Lemma appends_writeShort d : appends (writeShort d) (be16 d).
Proof. apply (appends_bind _ _ [_] [_]); apply appends_writeByte. Qed.

Lemma appends_writeWord d : appends (writeWord d) (be32 d).
Proof. apply appends_bind; apply appends_writeShort. Qed.

Lemma appends_writeLongWord d : appends (writeLongWord d) (be64 d).
Proof. apply appends_bind; apply appends_writeWord. Qed.
End Appends.

(** ** [readAhead] *)

Lemma read_stream n s :
  read_ n s = (Ok (take n (st_rest s),
                   if (length (st_rest s) <? n)%nat then Some EOF else None),
               mkStream (drop n (st_rest s)) (u64 (st_off s + Zlen (take n (st_rest s))))).
Proof. done. Qed.

(** The loop of the large case, on a reader that fills the buffer it is given
    whenever it can. *)
Lemma readAheadLoop_stream fuel rem c l off :
  0 <= rem < 2 ^ 32 -> 0 < c -> rem <= c * (Z.of_nat fuel - 1) -> in_width 64 off ->
  exists r s', readAheadLoop fuel rem c (mkStream l off) = (Ok r, s') /\
    (if rem <=? Zlen l then r = 0 /\ s' = mkStream (drop (Z.to_nat rem) l) (u64 (off + rem))
     else 0 < r).
Proof.
  revert rem c l off. induction fuel as [|fuel IH]; intros rem c l off Hrem Hc Hfuel Hoff; [lia|].
  simpl. destruct (Z.gtb_spec rem 0) as [Hpos|Hz]; cycle 1.
  { assert (rem = 0) as -> by lia. do 2 eexists. split; [done|].
    pose proof (Zlen_nonneg l). rewrite (proj2 (Z.leb_le _ _)) by done.
    by rewrite drop_0, Z.add_0_r, wrap_small. }
  set (c' := if rem <? c then rem else c).
  assert (0 < c' <= rem /\ (c' = rem \/ c' = c)) as [Hc' Hc''].
  { unfold c'. destruct (Z.ltb_spec rem c); lia. }
  assert (rem - c' <= c' * (Z.of_nat fuel - 1)) as Hfuel'.
  { destruct (Z.eq_dec c' rem) as [->|]; [|assert (c' = c) as -> by lia; lia].
    assert (1 <= Z.of_nat fuel) by nia. nia. }
  clearbody c'. unfold mbind, M_bind. rewrite read_stream. cbn -[Z.leb Nat.ltb].
  assert (Zlen (take (Z.to_nat c') l) = Z.min c' (Zlen l)) as Hlen.
  { unfold Zlen. rewrite length_take. lia. }
  rewrite Hlen. pose proof (Zlen_nonneg l). wrap_small_tac.
  destruct (Z.ltb_spec (Z.min c' (Zlen l)) c') as [Hs|Hs].
  - destruct (Nat.ltb_spec (length l) (Z.to_nat c')); [|unfold Zlen in *; lia].
    do 2 eexists. split; [done|]. rewrite (proj2 (Z.leb_gt _ _)) by lia. lia.
  - destruct (Nat.ltb_spec (length l) (Z.to_nat c')) as [Hlt|Hge]; [unfold Zlen in *; lia|].
    rewrite Z.min_l by lia.
    destruct (IH (rem - c') c' (drop (Z.to_nat c') l) (u64 (off + c'))) as (r & s' & Hrun & Hr);
      [lia|lia|done|apply wrap_range; lia|].
    exists r, s'. split; [done|].
    assert (Zlen (drop (Z.to_nat c') l) = Zlen l - c') as Hdrop.
    { unfold Zlen in *. rewrite length_drop. lia. }
    rewrite Hdrop in Hr.
    destruct (Z.leb_spec rem (Zlen l)), (Z.leb_spec (rem - c') (Zlen l - c')); try lia. destruct Hr as [-> ->]. split; [done|].
    rewrite drop_drop, wrap_add_l by lia. f_equal; [f_equal; lia|f_equal; lia].
Qed.

Lemma readAhead_stream n l off :
  0 <= n < 2 ^ 32 -> in_width 64 off ->
  if n <=? Zlen l
  then readAhead n (mkStream l off) = (Ok tt, mkStream (drop (Z.to_nat n) l) (u64 (off + n)))
  else exists e, (readAhead n (mkStream l off)).1 = Err e.
Proof.
  intros Hn Hoff. unfold readAhead. destruct (Z.eqb_spec n 0) as [->|Hn0].
  { pose proof (Zlen_nonneg l). rewrite (proj2 (Z.leb_le _ _)) by done.
    by rewrite drop_0, Z.add_0_r, wrap_small. }
  destruct (Z.leb_spec n scratchSize) as [Hsmall|Hbig].
  - unfold mbind, M_bind. rewrite FillBuffer_stream by done. unfold fill_result. simpl.
    destruct (Z.leb_spec n (Zlen l)); unfold Zlen in *.
    + rewrite (proj2 (Nat.leb_le _ _)), Z2Nat.id by lia. done.
    + rewrite (proj2 (Nat.leb_gt _ _)) by lia. by eexists.
  - destruct (readAheadLoop_stream (S (S (Z.to_nat (n / scratchSize)))) n scratchSize l off)
      as (r & s' & Hrun & Hr); [lia|done| |done|].
    { unfold scratchSize in *. pose proof (Z.div_mod n (100 * 1024)).
      pose proof (Z.mod_pos_bound n (100 * 1024)). pose proof (Z.div_pos n (100 * 1024)). lia. }
    destruct (n <=? Zlen l).
    + destruct Hr as [-> ->]. by rewrite (M_bind_ok _ _ _ _ _ Hrun).
    + rewrite (M_bind_ok _ _ _ _ _ Hrun), (proj2 (Z.gtb_lt _ _)) by done. by eexists.
Qed.

(** *** A reader that returns short reads

    At most [ck_max] bytes per call, as the body of an HTTP response does: a
    lawful [io.Reader]. *)
Record chunkedReader := mkChunked { ck_max : nat; ck_rest : list Z }.

#[export] Instance chunkedReader_reader : IOReader chunkedReader := fun n f =>
  let k := Nat.min n (S (ck_max f)) in
  ((take k (ck_rest f), if bool_decide (ck_rest f = []) && (0 <? n)%nat then Some EOF else None),
   mkChunked (ck_max f) (drop k (ck_rest f))).

#[export, refine] Instance chunkedReader_lawful : LawfulIOReader chunkedReader := {
  io_rest := ck_rest;
}.
Proof.
  intros n [m l]. simpl. do 3 eexists. split_and!; [done| | |]; simpl.
  - symmetry. apply take_drop.
  - rewrite length_take. lia.
  - case_bool_decide as Hl; simpl.
    + subst. destruct (Nat.ltb_spec 0 n).
      * right. rewrite drop_nil. done.
      * left. split; [done|]. left. lia.
    + left. split; [done|]. destruct n; [by left|right]. destruct l; [done|]. done.
Defined.

Lemma readAheadLoop_short fuel n c m l off :
  0 < n < 2 ^ 32 -> Z.of_nat (S m) < c -> Z.of_nat (S m) < n ->
  (readAheadLoop (S fuel) n c (mkIOReader (mkChunked m l) off)).1 =
    Ok (n - Z.min (Z.of_nat (S m)) (Zlen l)).
Proof.
  intros Hn Hc Hm. simpl. rewrite (proj2 (Z.gtb_lt _ _)) by lia.
  set (c' := if n <? c then n else c).
  assert (Z.of_nat (S m) < c') as Hc' by (unfold c'; destruct (Z.ltb_spec n c); lia).
  clearbody c'. unfold mbind, M_bind, read_. simpl.
  assert (Zlen (take (Z.to_nat c' `min` S m) l) = Z.min (Z.of_nat (S m)) (Zlen l)) as Hlen.
  { unfold Zlen. rewrite length_take. lia. }
  pose proof (Zlen_nonneg l).
  destruct (bool_decide (l = []) && (0 <? Z.to_nat c')%nat); rewrite Hlen; wrap_small_tac;
    rewrite (proj2 (Z.ltb_lt _ _)) by lia; done.
Qed.

(** ** Properties *)

(** C37. [FillBuffer] terminates on every lawful reader, whatever number of bytes
    the single reads return: it fills the buffer with the next bytes of the
    input and consumes exactly those, or, when fewer are left, fails after
    having consumed them all. *)
Theorem FillBuffer_correct {R} `{LawfulReader R} (n : nat) (r : R) :
  valid r ->
  exists r', valid r' /\
    if decide (n <= length (rest r))%nat
    then FillBuffer n r = (Ok (take n (rest r)), r') /\
         rest r' = drop n (rest r) /\ Offset r' = u64 (Offset r + Z.of_nat n)
    else FillBuffer n r = (Err "expected %d bytes but only got %d", r') /\ rest r' = [].
Proof.
  intros Hr. destruct (FillBuffer_view n r Hr) as (Hv & Ho & Hs).
  exists (FillBuffer n r).2. split; [done|]. unfold fill_result, view in *. simpl in *.
  destruct (FillBuffer n r) as [o r'] eqn:E. simpl in *.
  case_decide as Hn.
  - rewrite (proj2 (Nat.leb_le _ _)) in Ho, Hs by done. simpl in *.
    injection Hs as H1 H2. by subst o.
  - rewrite (proj2 (Nat.leb_gt _ _)) in Ho, Hs by lia. simpl in *.
    injection Hs as H1 H2. by subst o.
Qed.

(** Six bytes, delivered two at a time. *)
Definition sample_reader : IOReaderWithOffset chunkedReader :=
  NewIOReaderWithOffset (mkChunked 1 [1; 2; 3; 4; 5; 6]).

Lemma FillBuffer_correct_witness :
  exists r', valid r' /\
    if decide (5 <= length (rest sample_reader))%nat
    then FillBuffer 5 sample_reader = (Ok (take 5 (rest sample_reader)), r') /\
         rest r' = drop 5 (rest sample_reader) /\
         Offset r' = u64 (Offset sample_reader + Z.of_nat 5)
    else FillBuffer 5 sample_reader = (Err "expected %d bytes but only got %d", r') /\ rest r' = [].
Proof. apply (FillBuffer_correct 5 sample_reader). done. Defined.

(** Integers of every width survive the serializer: the bytes [writeShort],
    [writeWord] and [writeLongWord] append to any writer read back as the same
    number from any reader that delivers them, and nothing else is consumed. *)
Theorem integers_roundtrip {W} `{LawfulWriter W} {R} `{LawfulReader R} (w : W) d :
  wvalid w ->
  (in_width 16 d -> exists w', writeShort d w = (Ok tt, w') /\
     forall (r : R) tl, valid r -> written w ++ rest r = written w' ++ tl ->
       exists r', readShort r = (Ok d, r') /\ rest r' = tl) /\
  (in_width 32 d -> exists w', writeWord d w = (Ok tt, w') /\
     forall (r : R) tl, valid r -> written w ++ rest r = written w' ++ tl ->
       exists r', readWord r = (Ok d, r') /\ rest r' = tl) /\
  (in_width 64 d -> exists w', writeLongWord d w = (Ok tt, w') /\
     forall (r : R) tl, valid r -> written w ++ rest r = written w' ++ tl ->
       exists r', readLongWord r = (Ok d, r') /\ rest r' = tl).
Proof.
  intros Hw.
  assert (forall (wr : M W unit) enc (rd : M R Z) (rds : M stream Z) k,
    appends wr enc -> refines rd rds ->
    (forall tl off, in_width 64 off ->
       rds (mkStream (enc ++ tl) off) = (Ok d, mkStream tl (u64 (off + k)))) ->
    exists w', wr w = (Ok tt, w') /\
      forall (r : R) tl, valid r -> written w ++ rest r = written w' ++ tl ->
        exists r', rd r = (Ok d, r') /\ rest r' = tl) as Hgen.
  { intros wr enc rd rds k Ha Hrd Hs. destruct (Ha w Hw) as (w' & E & _ & Hwr & _).
    exists w'. split; [done|]. intros r tl Hr. rewrite Hwr, <- app_assoc.
    intros Hrest%app_inv_head. destruct (Hrd r Hr) as [_ Hp].
    unfold view in Hp. rewrite Hrest, Hs in Hp by (by apply offset_law).
    destruct (rd r) as [o r']. simpl in Hp. injection Hp as -> ->. by exists r'. }
  split_and!; intros Hd.
  - eapply Hgen; [apply appends_writeShort|apply refines_readShort|]. intros. by apply readShort_stream.
  - eapply Hgen; [apply appends_writeWord|apply refines_readWord|]. intros. by apply readWord_stream.
  - eapply Hgen; [apply appends_writeLongWord|apply refines_readLongWord|]. intros.
    by apply readLongWord_stream.
Qed.

Lemma integers_roundtrip_witness :
  exists w', writeWord 0xdeadbeef NewArrayWriter = (Ok tt, w') /\
     forall (r : arrayReader) tl, valid r -> written NewArrayWriter ++ rest r = written w' ++ tl ->
       exists r', readWord r = (Ok 0xdeadbeef, r') /\ rest r' = tl.
Proof.
  apply (integers_roundtrip (W:=ArrayWriter) (R:=arrayReader) NewArrayWriter 0xdeadbeef); done.
Defined.

(** C38. [readNullTerminatedString] terminates on every lawful reader and returns
    the bytes up to and including the first null byte, leaving the rest of the
    input unread. *)
Theorem readNullTerminatedString_correct {R} `{LawfulReader R} (r : R) fuel :
  valid r -> (length (rest r) < fuel)%nat ->
  (readNullTerminatedString fuel [] r).1 <> Diverge /\
  forall s tl, rest r = s ++ 0 :: tl -> Forall (fun b => b <> 0) s ->
    exists r', readNullTerminatedString fuel [] r = (Ok (s ++ [0]), r') /\ rest r' = tl.
Proof.
  intros Hr Hf. destruct (refines_nts fuel [] r Hr) as [_ Hp]. split.
  - intros Hd. apply (nts_stream_ends fuel [] (view r)); [done|by apply offset_law|].
    by rewrite Hp.
  - intros s tl Hrest Hs. unfold view in Hp at 1. rewrite Hrest in Hp, Hf.
    rewrite length_app in Hf. rewrite nts_stream in Hp; [|lia|done|by apply offset_law].
    destruct (readNullTerminatedString fuel [] r) as [o r']. simpl in Hp.
    injection Hp as -> ->. by exists r'.
Qed.

Lemma readNullTerminatedString_correct_witness :
  (readNullTerminatedString 9 [] (NewArrayReader [97; 98; 0; 99; 0])).1 <> Diverge /\
  exists r', readNullTerminatedString 9 [] (NewArrayReader [97; 98; 0; 99; 0]) =
               (Ok ([97; 98] ++ [0]), r') /\ rest r' = [99; 0].
Proof.
  destruct (readNullTerminatedString_correct (R:=arrayReader)
              (NewArrayReader [97; 98; 0; 99; 0]) 9) as [H1 H2]; [simpl; lia..|].
  split; [exact H1|]. apply H2; [reflexivity|]. repeat constructor; lia.
Defined.

(** [readAhead] of more than 100 KiB gives up on the first short read: on an
    input that delivers fewer bytes per call than the scratch buffer holds, as
    the body of an HTTP response does, it reports truncated input although all
    the bytes are there. *)
Theorem readAhead_rejects_short_reads m n l off :
  Z.of_nat (S m) < scratchSize -> scratchSize < n < 2 ^ 32 -> n <= Zlen l ->
  (readAhead n (mkIOReader (mkChunked m l) off)).1 =
    Err "input data truncated ? Tried to read %d bytes, expected %d more bytes".
Proof.
  intros Hm Hn Hl. unfold readAhead, scratchSize in *.
  rewrite (proj2 (Z.eqb_neq _ _)), (proj2 (Z.leb_gt _ _)) by lia.
  pose proof (readAheadLoop_short (S (Z.to_nat (n / (100 * 1024)))) n (100 * 1024) m l off) as Ho.
  unfold mbind, M_bind. destruct (readAheadLoop _ _ _ (mkIOReader _ _)) as [o s].
  simpl in Ho. rewrite Ho by lia. rewrite (proj2 (Z.gtb_lt _ _)) by lia. done.
Qed.

Lemma readAhead_rejects_short_reads_witness :
  (readAhead 200000 (mkIOReader (mkChunked 4095 (zeros (Z.to_nat 200000))) 0)).1 =
    Err "input data truncated ? Tried to read %d bytes, expected %d more bytes".
Proof.
  apply readAhead_rejects_short_reads;
    [vm_compute; reflexivity|vm_compute; split; reflexivity|].
  rewrite Zlen_zeros. rewrite Z2Nat.id; [apply Z.le_refl|vm_compute; discriminate].
Defined.
