(* ===== verification/Tags.v ===== *)
(** The tag registries of [src/common/signatureheadertags.go] and
    [src/common/mainheadertags.go]: the tags of both header structures, the
    lookup tables built from them, and the lookups, which remember the label they
    make up for an unknown tag. *)
From S2P Require Import Prelude.
From stdpp Require Import pretty.

(** ** Tag values *)

Class TagValue (T : Type) := { ID : T -> Z; Label : T -> string }.

Record SignatureTagValue := mkSigTag { sig_id : Z; sig_label : string }.
Record MainTagValue := mkMainTag { main_id : Z; main_label : string }.

#[export] Instance SignatureTagValue_tag : TagValue SignatureTagValue :=
  { ID := sig_id; Label := sig_label }.
#[export] Instance MainTagValue_tag : TagValue MainTagValue :=
  { ID := main_id; Label := main_label }.

(** [fmt.Sprintf("%08x", id)] and [fmt.Sprintf("%d", id)] for a [uint32]. *)
Definition hex_digit (d : Z) : string :=
  match String.get (Z.to_nat d) "0123456789abcdef" with
  | Some c => String c ""
  | None => ""
  end.

Fixpoint hex_padded (width : nat) (x : Z) : string :=
  match width with
  | O => ""
  | S w => hex_padded w (x / 16) +:+ hex_digit (x mod 16)
  end.

Definition unknownLabel (id : Z) : string :=
  "Unknown (" +:+ pretty id +:+ " / 0x" +:+ hex_padded 8 id +:+ ")".

(** ** Signature header tags *)

Definition SigTagSize := mkSigTag 1000 "SIG_SIZE".
Definition SigTagLEMD5_1 := mkSigTag 1001 "SIG_LEMD5_1".
Definition SigTagPGP := mkSigTag 1002 "SIG_PGP".
Definition SigTagLEMD5_2 := mkSigTag 1003 "SIG_LEMD5_2".
Definition SigTagMD5 := mkSigTag 1004 "SIG_MD5".
Definition SigTagGPG := mkSigTag 1005 "SIG_GPG".
Definition SigTagPGP5 := mkSigTag 1006 "SIG_PGP5".
Definition SigTagPayloadSize := mkSigTag 1007 "SIG_PAYLOADSIZE".
Definition SigTagReservedSpace := mkSigTag 1008 "SIG_RESERVEDSPACE".
Definition SigTagHeaderSignatures := mkSigTag 62 "HEADERSIGNATURES".
Definition SigTagSigSize := mkSigTag 257 "SIGSIZE".
Definition SigTagSigPGP := mkSigTag 259 "SIGPGP".
Definition SigTagSigMD5 := mkSigTag 261 "SIGMD5".
Definition SigTagSigGPG := mkSigTag 262 "SIGGPG".
Definition SigTagDSAHeader := mkSigTag 267 "DSAHEADER".
Definition SigTagRSAHeader := mkSigTag 268 "RSAHEADER".
Definition SigTagSHA1Header := mkSigTag 269 "SHA1HEADER".
Definition SigTagLongSigSize := mkSigTag 270 "LONGSIGSIZE".
Definition SigTagLongArchiveSize := mkSigTag 271 "LONGARCHIVESIZE".
Definition SigTagSHA256Header := mkSigTag 273 "SHA256HEADER".
Definition SigTagFileSignTag := mkSigTag 274 "FILESIGNTAG".
Definition SigTagPayloadDigest := mkSigTag 275 "PAYLOADDIGEST".
Definition SigTagVeritySignatures := mkSigTag 276 "VERITYSIGNATURES".
Definition SigTagVeritySigAlgo := mkSigTag 277 "VERITYSIGNATUREALGO".
Definition SigTagOpenPGP := mkSigTag 278 "OPENPGP".
Definition SigTagSHA3_256Header := mkSigTag 279 "SHA3_256_HEADER".

Definition allSignatureTags : list SignatureTagValue :=
  [SigTagSize; SigTagLEMD5_1; SigTagPGP; SigTagLEMD5_2;
   SigTagMD5; SigTagGPG; SigTagPGP5; SigTagPayloadSize;
   SigTagReservedSpace; SigTagHeaderSignatures; SigTagSigSize; SigTagSigPGP;
   SigTagSigMD5; SigTagSigGPG; SigTagDSAHeader; SigTagRSAHeader;
   SigTagSHA1Header; SigTagLongSigSize; SigTagLongArchiveSize; SigTagSHA256Header;
   SigTagVeritySignatures; SigTagVeritySigAlgo; SigTagOpenPGP; SigTagSHA3_256Header;
   SigTagFileSignTag; SigTagPayloadDigest].

(** [init()] *)
Definition signatureTagsByID : gmap Z SignatureTagValue :=
  foldl (fun m t => <[sig_id t := t]> m) ∅ allSignatureTags.

(** The global map is a state of the lookup. *)
Definition LookupSignatureTag (id : Z)
    : gmap Z SignatureTagValue -> SignatureTagValue * gmap Z SignatureTagValue := fun tags =>
  match tags !! id with
  | Some result => (result, tags)
  | None =>
      let result := mkSigTag id (unknownLabel id) in
      (result, <[id := result]> tags)
  end.

(** ** Main header tags *)

Definition TagName := mkMainTag 1000 "NAME".
Definition TagVersion := mkMainTag 1001 "VERSION".
Definition TagRelease := mkMainTag 1002 "RELEASE".
Definition TagEpoch := mkMainTag 1003 "EPOCH".
Definition TagLicense := mkMainTag 1014 "LICENSE".
Definition TagSummary := mkMainTag 1004 "SUMMARY".
Definition TagDescription := mkMainTag 1005 "DESCRIPTION".
Definition TagOs := mkMainTag 1021 "OS".
Definition TagArch := mkMainTag 1022 "ARCH".
Definition TagBuildhost := mkMainTag 1007 "BUILDHOST".
Definition TagBuildtime := mkMainTag 1006 "BUILDTIME".
Definition TagBugurl := mkMainTag 5012 "BUGURL".
Definition TagChangelogname := mkMainTag 1081 "CHANGELOGNAME".
Definition TagChangelogtext := mkMainTag 1082 "CHANGELOGTEXT".
Definition TagChangelogtime := mkMainTag 1080 "CHANGELOGTIME".
Definition TagCookie := mkMainTag 1094 "COOKIE".
Definition TagDistribution := mkMainTag 1010 "DISTRIBUTION".
Definition TagDisttag := mkMainTag 1155 "DISTTAG".
Definition TagDisturl := mkMainTag 1123 "DISTURL".
Definition TagEncoding := mkMainTag 5062 "ENCODING".
Definition TagGroup := mkMainTag 1016 "GROUP".
Definition TagModularitylabel := mkMainTag 5096 "MODULARITYLABEL".
Definition TagOptflags := mkMainTag 1122 "OPTFLAGS".
Definition TagPackager := mkMainTag 1015 "PACKAGER".
Definition TagPlatform := mkMainTag 1132 "PLATFORM".
Definition TagPolicies := mkMainTag 1150 "POLICIES".
Definition TagPolicyflags := mkMainTag 5033 "POLICYFLAGS".
Definition TagPolicynames := mkMainTag 5030 "POLICYNAMES".
Definition TagPolicytypes := mkMainTag 5031 "POLICYTYPES".
Definition TagPolicytypesindexes := mkMainTag 5032 "POLICYTYPESINDEXES".
Definition TagRpmformat := mkMainTag 5114 "RPMFORMAT".
Definition TagRpmversion := mkMainTag 1064 "RPMVERSION".
Definition TagSourcepkgid := mkMainTag 1146 "SOURCEPKGID".
Definition TagSourcerpm := mkMainTag 1044 "SOURCERPM".
Definition TagTranslationurl := mkMainTag 5100 "TRANSLATIONURL".
Definition TagUpstreamReleases := mkMainTag 5101 "UPSTREAMRELEASES".
Definition TagUrl := mkMainTag 1020 "URL".
Definition TagVcs := mkMainTag 5034 "VCS".
Definition TagVendor := mkMainTag 1011 "VENDOR".
Definition TagSourcenevr := mkMainTag 5120 "SOURCENEVR".
Definition TagArchivesize := mkMainTag 1046 "ARCHIVESIZE".
Definition TagDirnames := mkMainTag 1118 "DIRNAMES".
Definition TagFiledigestalgo := mkMainTag 5011 "FILEDIGESTALGO".
Definition TagLongarchivesize := mkMainTag 271 "LONGARCHIVESIZE".
Definition TagLongsize := mkMainTag 5009 "LONGSIZE".
Definition TagMimedict := mkMainTag 5116 "MIMEDICT".
Definition TagPayloadcompressor := mkMainTag 1125 "PAYLOADCOMPRESSOR".
Definition TagPayloadflags := mkMainTag 1126 "PAYLOADFLAGS".
Definition TagPayloadformat := mkMainTag 1124 "PAYLOADFORMAT".
Definition TagPrefixes := mkMainTag 1098 "PREFIXES".
Definition TagSize := mkMainTag 1009 "SIZE".
Definition TagBasenames := mkMainTag 1117 "BASENAMES".
Definition TagDirindexes := mkMainTag 1116 "DIRINDEXES".
Definition TagFiledevices := mkMainTag 1095 "FILEDEVICES".
Definition TagFiledigests := mkMainTag 1035 "FILEDIGESTS".
Definition TagFileflags := mkMainTag 1037 "FILEFLAGS".
Definition TagFilegroupname := mkMainTag 1040 "FILEGROUPNAME".
Definition TagFileinodes := mkMainTag 1096 "FILEINODES".
Definition TagFilelangs := mkMainTag 1097 "FILELANGS".
Definition TagFilelinktos := mkMainTag 1036 "FILELINKTOS".
Definition TagFilemimeindex := mkMainTag 5115 "FILEMIMEINDEX".
Definition TagFilemodes := mkMainTag 1030 "FILEMODES".
Definition TagFilemtimes := mkMainTag 1034 "FILEMTIMES".
Definition TagFilerdevs := mkMainTag 1033 "FILERDEVS".
Definition TagFilesizes := mkMainTag 1028 "FILESIZES".
Definition TagFileusername := mkMainTag 1039 "FILEUSERNAME".
Definition TagFileverifyflags := mkMainTag 1045 "FILEVERIFYFLAGS".
Definition TagLongfilesizes := mkMainTag 5008 "LONGFILESIZES".
Definition TagClassdict := mkMainTag 1142 "CLASSDICT".
Definition TagDependsdict := mkMainTag 1145 "DEPENDSDICT".
Definition TagFilecaps := mkMainTag 5010 "FILECAPS".
Definition TagFileclass := mkMainTag 1141 "FILECLASS".
Definition TagFilecolors := mkMainTag 1140 "FILECOLORS".
Definition TagFiledependsn := mkMainTag 1144 "FILEDEPENDSN".
Definition TagFiledependsx := mkMainTag 1143 "FILEDEPENDSX".
Definition TagFilesignaturelength := mkMainTag 5091 "FILESIGNATURELENGTH".
Definition TagFilesignatures := mkMainTag 5090 "FILESIGNATURES".
Definition TagVeritysignaturealgo := mkMainTag 277 "VERITYSIGNATUREALGO".
Definition TagVeritysignatures := mkMainTag 276 "VERITYSIGNATURES".
Definition TagProvidename := mkMainTag 1047 "PROVIDENAME".
Definition TagProvideversion := mkMainTag 1113 "PROVIDEVERSION".
Definition TagProvideflags := mkMainTag 1112 "PROVIDEFLAGS".
Definition TagRequirename := mkMainTag 1049 "REQUIRENAME".
Definition TagRequireversion := mkMainTag 1050 "REQUIREVERSION".
Definition TagRequireflags := mkMainTag 1048 "REQUIREFLAGS".
Definition TagConflictname := mkMainTag 1054 "CONFLICTNAME".
Definition TagConflictversion := mkMainTag 1055 "CONFLICTVERSION".
Definition TagConflictflags := mkMainTag 1053 "CONFLICTFLAGS".
Definition TagObsoletename := mkMainTag 1090 "OBSOLETENAME".
Definition TagObsoleteversion := mkMainTag 1115 "OBSOLETEVERSION".
Definition TagObsoleteflags := mkMainTag 1114 "OBSOLETEFLAGS".
Definition TagEnhancename := mkMainTag 5055 "ENHANCENAME".
Definition TagEnhanceversion := mkMainTag 5056 "ENHANCEVERSION".
Definition TagEnhanceflags := mkMainTag 5057 "ENHANCEFLAGS".
Definition TagRecommendname := mkMainTag 5046 "RECOMMENDNAME".
Definition TagRecommendversion := mkMainTag 5047 "RECOMMENDVERSION".
Definition TagRecommendflags := mkMainTag 5048 "RECOMMENDFLAGS".
Definition TagSuggestname := mkMainTag 5049 "SUGGESTNAME".
Definition TagSuggestversion := mkMainTag 5050 "SUGGESTVERSION".
Definition TagSuggestflags := mkMainTag 5051 "SUGGESTFLAGS".
Definition TagSupplementname := mkMainTag 5052 "SUPPLEMENTNAME".
Definition TagSupplementversion := mkMainTag 5053 "SUPPLEMENTVERSION".
Definition TagSupplementflags := mkMainTag 5054 "SUPPLEMENTFLAGS".
Definition TagOrdername := mkMainTag 5035 "ORDERNAME".
Definition TagOrderversion := mkMainTag 5036 "ORDERVERSION".
Definition TagOrderflags := mkMainTag 5037 "ORDERFLAGS".
Definition TagPostin := mkMainTag 1024 "POSTIN".
Definition TagPostinflags := mkMainTag 5021 "POSTINFLAGS".
Definition TagPostinprog := mkMainTag 1086 "POSTINPROG".
Definition TagPosttrans := mkMainTag 1152 "POSTTRANS".
Definition TagPosttransflags := mkMainTag 5025 "POSTTRANSFLAGS".
Definition TagPosttransprog := mkMainTag 1154 "POSTTRANSPROG".
Definition TagPostuntrans := mkMainTag 5104 "POSTUNTRANS".
Definition TagPostuntransflags := mkMainTag 5108 "POSTUNTRANSFLAGS".
Definition TagPostuntransprog := mkMainTag 5106 "POSTUNTRANSPROG".
Definition TagPostun := mkMainTag 1026 "POSTUN".
Definition TagPostunflags := mkMainTag 5023 "POSTUNFLAGS".
Definition TagPostunprog := mkMainTag 1088 "POSTUNPROG".
Definition TagPrein := mkMainTag 1023 "PREIN".
Definition TagPreinflags := mkMainTag 5020 "PREINFLAGS".
Definition TagPreinprog := mkMainTag 1085 "PREINPROG".
Definition TagPretrans := mkMainTag 1151 "PRETRANS".
Definition TagPretransflags := mkMainTag 5024 "PRETRANSFLAGS".
Definition TagPretransprog := mkMainTag 1153 "PRETRANSPROG".
Definition TagPreuntrans := mkMainTag 5103 "PREUNTRANS".
Definition TagPreuntransflags := mkMainTag 5107 "PREUNTRANSFLAGS".
Definition TagPreuntransprog := mkMainTag 5105 "PREUNTRANSPROG".
Definition TagPreun := mkMainTag 1025 "PREUN".
Definition TagPreunflags := mkMainTag 5022 "PREUNFLAGS".
Definition TagPreunprog := mkMainTag 1087 "PREUNPROG".
Definition TagVerifyscript := mkMainTag 1079 "VERIFYSCRIPT".
Definition TagVerifyscriptflags := mkMainTag 5026 "VERIFYSCRIPTFLAGS".
Definition TagVerifyscriptprog := mkMainTag 1091 "VERIFYSCRIPTPROG".
Definition TagTriggerflags := mkMainTag 1068 "TRIGGERFLAGS".
Definition TagTriggerindex := mkMainTag 1069 "TRIGGERINDEX".
Definition TagTriggername := mkMainTag 1066 "TRIGGERNAME".
Definition TagTriggerscriptflags := mkMainTag 5027 "TRIGGERSCRIPTFLAGS".
Definition TagTriggerscriptprog := mkMainTag 1092 "TRIGGERSCRIPTPROG".
Definition TagTriggerscripts := mkMainTag 1065 "TRIGGERSCRIPTS".
Definition TagTriggerversion := mkMainTag 1067 "TRIGGERVERSION".
Definition TagFiletriggerflags := mkMainTag 5072 "FILETRIGGERFLAGS".
Definition TagFiletriggerindex := mkMainTag 5070 "FILETRIGGERINDEX".
Definition TagFiletriggername := mkMainTag 5069 "FILETRIGGERNAME".
Definition TagFiletriggerpriorities := mkMainTag 5084 "FILETRIGGERPRIORITIES".
Definition TagFiletriggerscriptflags := mkMainTag 5068 "FILETRIGGERSCRIPTFLAGS".
Definition TagFiletriggerscriptprog := mkMainTag 5067 "FILETRIGGERSCRIPTPROG".
Definition TagFiletriggerscripts := mkMainTag 5066 "FILETRIGGERSCRIPTS".
Definition TagFiletriggerversion := mkMainTag 5071 "FILETRIGGERVERSION".
Definition TagTransfiletriggerflags := mkMainTag 5082 "TRANSFILETRIGGERFLAGS".
Definition TagTransfiletriggerindex := mkMainTag 5080 "TRANSFILETRIGGERINDEX".
Definition TagTransfiletriggername := mkMainTag 5079 "TRANSFILETRIGGERNAME".
Definition TagTransfiletriggerpriorities := mkMainTag 5085 "TRANSFILETRIGGERPRIORITIES".
Definition TagTransfiletriggerscriptflags := mkMainTag 5078 "TRANSFILETRIGGERSCRIPTFLAGS".
Definition TagTransfiletriggerscriptprog := mkMainTag 5077 "TRANSFILETRIGGERSCRIPTPROG".
Definition TagTransfiletriggerscripts := mkMainTag 5076 "TRANSFILETRIGGERSCRIPTS".
Definition TagTransfiletriggerversion := mkMainTag 5081 "TRANSFILETRIGGERVERSION".
Definition TagDsaheader := mkMainTag 267 "DSAHEADER".
Definition TagLongsigsize := mkMainTag 270 "LONGSIGSIZE".
Definition TagOpenpgp := mkMainTag 278 "OPENPGP".
Definition TagPayloadsha256 := mkMainTag 5092 "PAYLOADSHA256".
Definition TagPayloadsha256alt := mkMainTag 5097 "PAYLOADSHA256ALT".
Definition TagPayloadsha512 := mkMainTag 5121 "PAYLOADSHA512".
Definition TagPayloadsha512alt := mkMainTag 5122 "PAYLOADSHA512ALT".
Definition TagPayloadsha3_256 := mkMainTag 5123 "PAYLOADSHA3_256".
Definition TagPayloadsha3_256a := mkMainTag 5124 "PAYLOADSHA3_256ALT".
Definition TagRsaheader := mkMainTag 268 "RSAHEADER".
Definition TagSha1header := mkMainTag 269 "SHA1HEADER".
Definition TagSha256header := mkMainTag 273 "SHA256HEADER".
Definition TagSha3_256_header := mkMainTag 279 "SHA3_256_HEADER".
Definition TagSiggpg := mkMainTag 262 "SIGGPG".
Definition TagSigmd5 := mkMainTag 261 "SIGMD5".
Definition TagSigpgp := mkMainTag 259 "SIGPGP".
Definition TagSigsize := mkMainTag 257 "SIGSIZE".
Definition TagFilestates := mkMainTag 1029 "FILESTATES".
Definition TagInstallcolor := mkMainTag 1127 "INSTALLCOLOR".
Definition TagInstalltid := mkMainTag 1128 "INSTALLTID".
Definition TagInstalltime := mkMainTag 1008 "INSTALLTIME".
Definition TagInstprefixes := mkMainTag 1099 "INSTPREFIXES".
Definition TagOrigbasenames := mkMainTag 1120 "ORIGBASENAMES".
Definition TagOrigdirindexes := mkMainTag 1119 "ORIGDIRINDEXES".
Definition TagOrigdirnames := mkMainTag 1121 "ORIGDIRNAMES".
Definition TagPackagedigests := mkMainTag 5118 "PACKAGEDIGESTS".
Definition TagPackagedigestalgos := mkMainTag 5119 "PACKAGEDIGESTALGOS".
Definition TagBuildarchs := mkMainTag 1089 "BUILDARCHS".
Definition TagHeaderImmutable := mkMainTag 63 "HEADERIMMUTABLE".
Definition TagHeaderI18NTable := mkMainTag 100 "HEADERI18NTABLE".
Definition TagPayloadSHA256Algo := mkMainTag 5093 "PAYLOADSHA256ALGO".

Definition allMainTags : list MainTagValue :=
  [TagName; TagVersion; TagRelease; TagEpoch;
   TagLicense; TagSummary; TagDescription; TagOs;
   TagArch; TagBuildhost; TagBuildtime; TagBugurl;
   TagChangelogname; TagChangelogtext; TagChangelogtime; TagCookie;
   TagDistribution; TagDisttag; TagDisturl; TagEncoding;
   TagGroup; TagModularitylabel; TagOptflags; TagPackager;
   TagPlatform; TagPolicies; TagPolicyflags; TagPolicynames;
   TagPolicytypes; TagPolicytypesindexes; TagRpmformat; TagRpmversion;
   TagSourcepkgid; TagSourcerpm; TagTranslationurl; TagUpstreamReleases;
   TagUrl; TagVcs; TagVendor; TagSourcenevr;
   TagArchivesize; TagDirnames; TagFiledigestalgo; TagLongarchivesize;
   TagLongsize; TagMimedict; TagPayloadcompressor; TagPayloadflags;
   TagPayloadformat; TagPrefixes; TagSize; TagBasenames;
   TagDirindexes; TagFiledevices; TagFiledigests; TagFileflags;
   TagFilegroupname; TagFileinodes; TagFilelangs; TagFilelinktos;
   TagFilemimeindex; TagFilemodes; TagFilemtimes; TagFilerdevs;
   TagFilesizes; TagFileusername; TagFileverifyflags; TagLongfilesizes;
   TagClassdict; TagDependsdict; TagFilecaps; TagFileclass;
   TagFilecolors; TagFiledependsn; TagFiledependsx; TagFilesignaturelength;
   TagFilesignatures; TagVeritysignaturealgo; TagVeritysignatures; TagProvidename;
   TagProvideversion; TagProvideflags; TagRequirename; TagRequireversion;
   TagRequireflags; TagConflictname; TagConflictversion; TagConflictflags;
   TagObsoletename; TagObsoleteversion; TagObsoleteflags; TagEnhancename;
   TagEnhanceversion; TagEnhanceflags; TagRecommendname; TagRecommendversion;
   TagRecommendflags; TagSuggestname; TagSuggestversion; TagSuggestflags;
   TagSupplementname; TagSupplementversion; TagSupplementflags; TagOrdername;
   TagOrderversion; TagOrderflags; TagPostin; TagPostinflags;
   TagPostinprog; TagPosttrans; TagPosttransflags; TagPosttransprog;
   TagPostuntrans; TagPostuntransflags; TagPostuntransprog; TagPostun;
   TagPostunflags; TagPostunprog; TagPrein; TagPreinflags;
   TagPreinprog; TagPretrans; TagPretransflags; TagPretransprog;
   TagPreuntrans; TagPreuntransflags; TagPreuntransprog; TagPreun;
   TagPreunflags; TagPreunprog; TagVerifyscript; TagVerifyscriptflags;
   TagVerifyscriptprog; TagTriggerflags; TagTriggerindex; TagTriggername;
   TagTriggerscriptflags; TagTriggerscriptprog; TagTriggerscripts; TagTriggerversion;
   TagFiletriggerflags; TagFiletriggerindex; TagFiletriggername; TagFiletriggerpriorities;
   TagFiletriggerscriptflags; TagFiletriggerscriptprog; TagFiletriggerscripts; TagFiletriggerversion;
   TagTransfiletriggerflags; TagTransfiletriggerindex; TagTransfiletriggername; TagTransfiletriggerpriorities;
   TagTransfiletriggerscriptflags; TagTransfiletriggerscriptprog; TagTransfiletriggerscripts; TagTransfiletriggerversion;
   TagDsaheader; TagLongsigsize; TagOpenpgp; TagPayloadsha256;
   TagPayloadsha256alt; TagPayloadsha512; TagPayloadsha512alt; TagPayloadsha3_256;
   TagPayloadsha3_256a; TagRsaheader; TagSha1header; TagSha256header;
   TagSha3_256_header; TagSiggpg; TagSigmd5; TagSigpgp;
   TagSigsize; TagFilestates; TagInstallcolor; TagInstalltid;
   TagInstalltime; TagInstprefixes; TagOrigbasenames; TagOrigdirindexes;
   TagOrigdirnames; TagPackagedigests; TagPackagedigestalgos; TagBuildarchs;
   TagHeaderImmutable; TagHeaderI18NTable; TagPayloadSHA256Algo].

(** [init()] *)
Definition tagsById : gmap Z MainTagValue :=
  foldl (fun m t => <[main_id t := t]> m) ∅ allMainTags.

Definition LookupMainTag (id : Z)
    : gmap Z MainTagValue -> MainTagValue * gmap Z MainTagValue := fun tags =>
  match tags !! id with
  | Some result => (result, tags)
  | None =>
      let result := mkMainTag id (unknownLabel id) in
      (result, <[id := result]> tags)
  end.

Definition IsUnknown (t : MainTagValue) (tags : gmap Z MainTagValue) : bool :=
  bool_decide (is_Some (tags !! main_id t)).


(** ** Facts about the tables *)

Section Table.
Context {T : Type} (f : T -> Z).
Implicit Types m : gmap Z T.

Definition insert_all m (l : list T) : gmap Z T := foldl (fun m t => <[f t := t]> m) m l.

Lemma insert_all_other l m i : i ∉ f <$> l -> insert_all m l !! i = m !! i.
Proof.
  revert m. induction l as [|x l IH]; intros m Hi; simpl; [done|].
  rewrite fmap_cons, not_elem_of_cons in Hi. destruct Hi as [Hx Hi].
  unfold insert_all in *. simpl. rewrite IH by done. by rewrite lookup_insert_ne.
Qed.

Lemma insert_all_lookup l m t : NoDup (f <$> l) -> t ∈ l -> insert_all m l !! f t = Some t.
Proof.
  revert m. induction l as [|x l IH]; intros m Hnd Ht; [by apply elem_of_nil in Ht|].
  rewrite fmap_cons, NoDup_cons in Hnd. destruct Hnd as [Hx Hnd].
  apply elem_of_cons in Ht as [->|Ht]; [|by apply (IH _ Hnd Ht)].
  change (insert_all (<[f x := x]> m) l !! f x = Some x).
  rewrite insert_all_other by done. apply lookup_insert_eq.
Qed.

Lemma insert_all_ids l m i t :
  (forall i t, m !! i = Some t -> f t = i) -> insert_all m l !! i = Some t -> f t = i.
Proof.
  revert m. induction l as [|x l IH]; intros m Hm; simpl; [apply Hm|].
  apply (IH (<[f x := x]> m)). intros j u Hj.
  apply lookup_insert_Some in Hj as [[<- <-]|[_ Hj]]; [done|by apply Hm].
Qed.
End Table.

Lemma allMainTags_nodup : NoDup (main_id <$> allMainTags).
Proof. apply (bool_decide_unpack (NoDup _)). vm_compute. exact I. Qed.

Lemma allSignatureTags_nodup : NoDup (sig_id <$> allSignatureTags).
Proof. apply (bool_decide_unpack (NoDup _)). vm_compute. exact I. Qed.

(** The states of the global map that lookups lead to. *)
Inductive reachable_tags : gmap Z MainTagValue -> Prop :=
| reachable_init : reachable_tags tagsById
| reachable_lookup id tags : reachable_tags tags -> reachable_tags (LookupMainTag id tags).2.

Lemma reachable_tags_spec tags i :
  reachable_tags tags ->
  tags !! i = tagsById !! i \/
  (tagsById !! i = None /\ tags !! i = Some (mkMainTag i (unknownLabel i))).
Proof.
  induction 1 as [|id tags _ IH]; [by left|]. unfold LookupMainTag.
  destruct (tags !! id) eqn:E; [exact IH|]. simpl.
  destruct (decide (id = i)) as [->|Hne]; [|by rewrite lookup_insert_ne].
  right. rewrite lookup_insert_eq. split; [|done]. rewrite E in IH. by destruct IH as [<-|[]].
Qed.

Inductive reachable_sig_tags : gmap Z SignatureTagValue -> Prop :=
| reachable_sig_init : reachable_sig_tags signatureTagsByID
| reachable_sig_lookup id tags :
    reachable_sig_tags tags -> reachable_sig_tags (LookupSignatureTag id tags).2.

Lemma reachable_sig_tags_spec tags i :
  reachable_sig_tags tags ->
  tags !! i = signatureTagsByID !! i \/
  (signatureTagsByID !! i = None /\ tags !! i = Some (mkSigTag i (unknownLabel i))).
Proof.
  induction 1 as [|id tags _ IH]; [by left|]. unfold LookupSignatureTag.
  destruct (tags !! id) eqn:E; [exact IH|]. simpl.
  destruct (decide (id = i)) as [->|Hne]; [|by rewrite lookup_insert_ne].
  right. rewrite lookup_insert_eq. split; [|done]. rewrite E in IH. by destruct IH as [<-|[]].
Qed.

(** ** Properties *)

Lemma tagsById_id id t : tagsById !! id = Some t -> main_id t = id.
Proof. apply (insert_all_ids main_id allMainTags ∅). intros i u. by rewrite lookup_empty. Qed.

Lemma tagsById_declared t : t ∈ allMainTags -> tagsById !! main_id t = Some t.
Proof. exact (insert_all_lookup main_id allMainTags ∅ t allMainTags_nodup). Qed.

Lemma signatureTagsByID_id id t : signatureTagsByID !! id = Some t -> sig_id t = id.
Proof. apply (insert_all_ids sig_id allSignatureTags ∅). intros i u. by rewrite lookup_empty. Qed.

Lemma signatureTagsByID_declared t : t ∈ allSignatureTags -> signatureTagsByID !! sig_id t = Some t.
Proof. exact (insert_all_lookup sig_id allSignatureTags ∅ t allSignatureTags_nodup). Qed.

#[local] Opaque tagsById signatureTagsByID allMainTags allSignatureTags.

(** Whatever was looked up before, looking up a number in either registry
    gives a tag with that number: the declared tag when there is one (no two
    declared tags share a number), and otherwise the same made-up tag every
    time. *)
Theorem tag_lookup_stable tags sigs id :
  reachable_tags tags -> reachable_sig_tags sigs ->
  (LookupMainTag id tags).1 = (LookupMainTag id tagsById).1 /\
  main_id (LookupMainTag id tags).1 = id /\
  (forall t, t ∈ allMainTags -> main_id t = id -> (LookupMainTag id tags).1 = t) /\
  (LookupSignatureTag id sigs).1 = (LookupSignatureTag id signatureTagsByID).1 /\
  sig_id (LookupSignatureTag id sigs).1 = id /\
  (forall t, t ∈ allSignatureTags -> sig_id t = id -> (LookupSignatureTag id sigs).1 = t).
Proof.
  intros Hr Hs. pose proof (tagsById_id id) as Hid. pose proof (signatureTagsByID_id id) as Hsid.
  pose proof tagsById_declared as Hin. pose proof signatureTagsByID_declared as Hsin.
  unfold LookupMainTag, LookupSignatureTag.
  assert ((match tags !! id with Some r => (r, tags)
           | None => (mkMainTag id (unknownLabel id), <[id := mkMainTag id (unknownLabel id)]> tags)
           end).1 = default (mkMainTag id (unknownLabel id)) (tagsById !! id)) as ->.
  { destruct (reachable_tags_spec tags id Hr) as [->|[-> ->]]; by try destruct (tagsById !! id). }
  assert ((match sigs !! id with Some r => (r, sigs)
           | None => (mkSigTag id (unknownLabel id), <[id := mkSigTag id (unknownLabel id)]> sigs)
           end).1 = default (mkSigTag id (unknownLabel id)) (signatureTagsByID !! id)) as ->.
  { destruct (reachable_sig_tags_spec sigs id Hs) as [->|[-> ->]];
      by try destruct (signatureTagsByID !! id). }
  split_and!.
  - by destruct (tagsById !! id).
  - destruct (tagsById !! id); simpl; auto.
  - intros t Ht <-. by rewrite Hin.
  - by destruct (signatureTagsByID !! id).
  - destruct (signatureTagsByID !! id); simpl; auto.
  - intros t Ht <-. by rewrite Hsin.
Qed.

Lemma tag_lookup_stable_witness :
  (LookupMainTag 1000 (LookupMainTag 4711 tagsById).2).1 = (LookupMainTag 1000 tagsById).1.
Proof.
  refine (proj1 (tag_lookup_stable (LookupMainTag 4711 tagsById).2 signatureTagsByID 1000 _ _));
    repeat constructor.
Defined.

(** [IsUnknown] answers the opposite of its name: it is [true] for every
    declared tag, and [false] for a tag whose number is not in the registry. *)
Theorem IsUnknown_inverted t :
  (t ∈ allMainTags -> IsUnknown t tagsById = true) /\
  (tagsById !! main_id t = None -> IsUnknown t tagsById = false).
Proof.
  unfold IsUnknown. split.
  - intros Ht. rewrite tagsById_declared by done. by apply bool_decide_eq_true_2.
  - intros ->. apply bool_decide_eq_false_2. by intros [].
Qed.
