(* ===== verification/Header.v ===== *)
(** The in-memory model of an RPM header ([src/common/rpmparser.go]): format
    types, index entries, the header record, and the operations that keep its
    index sorted, its data store packed and its signed region current. *)
From S2P Require Import Prelude Utils Serializer Tags.

(** ** Versions and format types *)

Definition RESERVED_SPACE_ALLOCATION_SIZE : Z := 4096.

Record RpmFileFormatVersion := mkVersion { Major : Z; Minor : Z }.

Definition CompareTo (v other : RpmFileFormatVersion) : Z :=
  let r := Major v - Major other in
  if r =? 0 then Minor v - Minor other else r.

Definition PACKAGE_TYPE_BINARY : Z := 0.
Definition PACKAGE_TYPE_SOURCE : Z := 1.

Definition FORMAT_TYPE_NULL : Z := 0.
Definition FORMAT_TYPE_CHAR : Z := 1.
Definition FORMAT_TYPE_INT8 : Z := 2.
Definition FORMAT_TYPE_INT16 : Z := 3.
Definition FORMAT_TYPE_INT32 : Z := 4.
Definition FORMAT_TYPE_INT64 : Z := 5.
Definition FORMAT_TYPE_STRING : Z := 6.
Definition FORMAT_TYPE_BINARY : Z := 7.
Definition FORMAT_TYPE_STRING_ARRAY : Z := 8.
Definition FORMAT_TYPE_I18N_STRING_ARRAY : Z := 9.

Definition GetRequiredAlignment (f : Z) : outcome Z :=
  if f =? FORMAT_TYPE_CHAR then Ok 1
  else if f =? FORMAT_TYPE_INT8 then Ok 1
  else if f =? FORMAT_TYPE_INT16 then Ok 2
  else if f =? FORMAT_TYPE_INT32 then Ok 4
  else if f =? FORMAT_TYPE_INT64 then Ok 8
  else if f =? FORMAT_TYPE_STRING then Ok 1
  else if f =? FORMAT_TYPE_BINARY then Ok 1
  else if f =? FORMAT_TYPE_STRING_ARRAY then Ok 1
  else if f =? FORMAT_TYPE_I18N_STRING_ARRAY then Ok 1
  else Panic "Unhandled format type %d".

Definition formatStrings : list string :=
  ["null"; "char"; "int8"; "int16"; "int32"; "int64"; "string"; "binary";
   "string-array"; "i18n-string-array"].

Definition GetFormatTypeLabel (f : Z) : string :=
  if Zlen formatStrings <=? f then "format-type:" +:+ pretty.pretty f
  else default "" (formatStrings !! Z.to_nat f).

(** ** Index entries *)

Record IndexEntry := mkEntry {
  ie_isMainHeaderEntry : bool;
  ie_tag : Z;
  ie_formatType : Z;
  ie_offset : Z;
  ie_dataItemCnt : Z;
  ie_payload : list Z;
}.

Definition set_offset (o : Z) (i : IndexEntry) : IndexEntry :=
  mkEntry (ie_isMainHeaderEntry i) (ie_tag i) (ie_formatType i) o (ie_dataItemCnt i) (ie_payload i).
Definition set_dataItemCnt (c : Z) (i : IndexEntry) : IndexEntry :=
  mkEntry (ie_isMainHeaderEntry i) (ie_tag i) (ie_formatType i) (ie_offset i) c (ie_payload i).
Definition set_payload (p : list Z) (i : IndexEntry) : IndexEntry :=
  mkEntry (ie_isMainHeaderEntry i) (ie_tag i) (ie_formatType i) (ie_offset i) (ie_dataItemCnt i) p.

Definition endOffset (i : IndexEntry) : Z := u32 (ie_offset i + u32 (Zlen (ie_payload i))).

Definition Int32Value (i : IndexEntry) : outcome Z :=
  if negb (ie_formatType i =? FORMAT_TYPE_INT32)
  then Panic "Int32Value() called on IndexEntry of type %d , expected type %d"
  else match (readWord (NewArrayReader (ie_payload i))).1 with
       | Ok value => Ok (i32 value)
       | Err _ => Panic "Failed to read int32 from "
       | o => o
       end.

Definition StringValue (i : IndexEntry) : outcome (list Z) :=
  if negb (ie_formatType i =? FORMAT_TYPE_STRING)
  then Panic "StringValue() called on IndexEntry of type %d , expected type %d"
  else match parseNullTerminatedStrings (ie_payload i) with
       | [value] => Ok value
       | _ => Panic "StringValue() found more than one string?"
       end.

(** [Tag()]: the lookups remember unknown tags, so both registries are state. *)
Definition Tag (i : IndexEntry) : M (gmap Z MainTagValue * gmap Z SignatureTagValue) (Z * string) :=
  fun '(mains, sigs) =>
    if ie_isMainHeaderEntry i
    then let '(t, mains) := LookupMainTag (ie_tag i) mains in (Ok (ID t, Label t), (mains, sigs))
    else let '(t, sigs) := LookupSignatureTag (ie_tag i) sigs in (Ok (ID t, Label t), (mains, sigs)).

(** ** The lead, the header and the file *)

Record RpmLead := mkLead {
  lead_Magic : list Z;
  lead_Major : Z;
  lead_Minor : Z;
  lead_packageType : Z;
  lead_ArchNum : Z;
  lead_name : list Z;
  lead_OsNum : Z;
  lead_SignatureType : Z;
  lead_Reserved : list Z;
}.

Definition leadMagic : list Z := [0xed; 0xab; 0xee; 0xdb].
Definition headerMagic : list Z := [0x8e; 0xad; 0xe8].

Record SignedRegion := mkSignedRegion {
  IndexEntriesStartOffset : Z;
  sr_IndexEntryCount : Z;
  sr_Length : Z;
}.

Record RpmHeader := mkHeader {
  Magic : list Z;
  version : Z;
  reserved : list Z;
  indexEntryCount : Z;
  storeSizeInBytes : Z;
  IsMainHeader : bool;
  IndexEntries : slice IndexEntry;
  headerStartOffset : Z;
  IndicesStartOffset : Z;
  DataStoreStartOffset : Z;
  signedRegion : option SignedRegion;
  Md5Digest : list Z;
  Sha1Digest : list Z;
  Sha256Digest : list Z;
}.

Definition set_IndexEntries (f : slice IndexEntry -> slice IndexEntry) (h : RpmHeader) : RpmHeader :=
  mkHeader (Magic h) (version h) (reserved h) (indexEntryCount h) (storeSizeInBytes h)
    (IsMainHeader h) (f (IndexEntries h)) (headerStartOffset h) (IndicesStartOffset h)
    (DataStoreStartOffset h) (signedRegion h) (Md5Digest h) (Sha1Digest h) (Sha256Digest h).
Definition set_indexEntryCount (c : Z) (h : RpmHeader) : RpmHeader :=
  mkHeader (Magic h) (version h) (reserved h) c (storeSizeInBytes h)
    (IsMainHeader h) (IndexEntries h) (headerStartOffset h) (IndicesStartOffset h)
    (DataStoreStartOffset h) (signedRegion h) (Md5Digest h) (Sha1Digest h) (Sha256Digest h).
Definition set_storeSizeInBytes (s : Z) (h : RpmHeader) : RpmHeader :=
  mkHeader (Magic h) (version h) (reserved h) (indexEntryCount h) s
    (IsMainHeader h) (IndexEntries h) (headerStartOffset h) (IndicesStartOffset h)
    (DataStoreStartOffset h) (signedRegion h) (Md5Digest h) (Sha1Digest h) (Sha256Digest h).
Definition set_signedRegion (r : option SignedRegion) (h : RpmHeader) : RpmHeader :=
  mkHeader (Magic h) (version h) (reserved h) (indexEntryCount h) (storeSizeInBytes h)
    (IsMainHeader h) (IndexEntries h) (headerStartOffset h) (IndicesStartOffset h)
    (DataStoreStartOffset h) r (Md5Digest h) (Sha1Digest h) (Sha256Digest h).
Definition set_Sha256Digest (d : list Z) (h : RpmHeader) : RpmHeader :=
  mkHeader (Magic h) (version h) (reserved h) (indexEntryCount h) (storeSizeInBytes h)
    (IsMainHeader h) (IndexEntries h) (headerStartOffset h) (IndicesStartOffset h)
    (DataStoreStartOffset h) (signedRegion h) (Md5Digest h) (Sha1Digest h) d.
Definition set_Md5Digest (d : list Z) (h : RpmHeader) : RpmHeader :=
  mkHeader (Magic h) (version h) (reserved h) (indexEntryCount h) (storeSizeInBytes h)
    (IsMainHeader h) (IndexEntries h) (headerStartOffset h) (IndicesStartOffset h)
    (DataStoreStartOffset h) (signedRegion h) d (Sha1Digest h) (Sha256Digest h).

Record RpmFile := mkRpmFile {
  Lead : RpmLead;
  SignatureHeader : RpmHeader;
  MainHeader : RpmHeader;
  PayloadStartOffset : Z;
  CompressedPayloadSize : Z;
}.

(** The index entries of a header, as a list. *)
Abbreviation entries h := (elems (IndexEntries h)).

(** An update of the entry an index points to. *)
Definition alter_entry (i : nat) (f : IndexEntry -> IndexEntry) (h : RpmHeader) : RpmHeader :=
  set_IndexEntries (fun s => with_elems (alter f i (elems s)) s) h.

(** ** Looking up entries

    A pointer into [header.IndexEntries] is the index of the element. *)

Definition find_tag (t : Z) (l : list IndexEntry) : option nat :=
  fst <$> list_find (fun e => ie_tag e = t) l.

Definition FindIndexEntry {T} `{TagValue T} (tag : T) (header : RpmHeader) : option nat :=
  find_tag (ID tag) (entries header).

(** The entry itself, for callers that only read it. *)
Definition find_entry {T} `{TagValue T} (tag : T) (header : RpmHeader) : option IndexEntry :=
  FindIndexEntry tag header ≫= fun i => entries header !! i.

Definition regionTrailerEntry (header : RpmHeader) : option nat :=
  if IsMainHeader header then FindIndexEntry TagHeaderImmutable header
  else FindIndexEntry SigTagHeaderSignatures header.

(** ** Laying out the data store *)

(** A dereference of the element pointer [&header.IndexEntries[idx]]. *)
Definition entry_at (idx : nat) : M RpmHeader IndexEntry := fun header =>
  match entries header !! idx with
  | Some e => (Ok e, header)
  | None => (Panic "index out of range", header)
  end.

Definition place (idx : nat) (nextOffset : Z) : M RpmHeader Z :=
  entry ← entry_at idx;
  alignment ← lift (GetRequiredAlignment (ie_formatType entry));
  pad ← lift (CalcAlignmentByteCount nextOffset alignment);
  let nextOffset := u32 (nextOffset + pad) in
  _ ← modify (alter_entry idx (set_offset nextOffset));
  mret (u32 (nextOffset + u32 (Zlen (ie_payload entry)))).

Fixpoint placeAll (trailer : option nat) (idxs : list nat) (nextOffset : Z) : M RpmHeader Z :=
  match idxs with
  | [] => mret nextOffset
  | idx :: idxs =>
      if bool_decide (trailer = Some idx) then placeAll trailer idxs nextOffset
      else nextOffset ← place idx nextOffset; placeAll trailer idxs nextOffset
  end.

Definition syncDataStoreLayout : M RpmHeader unit := fun header =>
  let trailer := regionTrailerEntry header in
  (nextOffset ← placeAll trailer (seq 0 (length (entries header))) 0;
   nextOffset ← match trailer with Some t => place t nextOffset | None => mret nextOffset end;
   modify (set_storeSizeInBytes nextOffset)) header.

(** The payload of the trailer with the negative offset of the index written
    into it: tag (4) | format type (4) | negative offset (4) | byte count (4). *)
Definition put_negative_offset (negativeOffset : Z) (payload : list Z) : list Z :=
  <[11%nat := u8 negativeOffset]>
    (<[10%nat := u8 (Z.shiftr negativeOffset 8)]>
       (<[9%nat := u8 (Z.shiftr negativeOffset 16)]>
          (<[8%nat := u8 (Z.shiftr negativeOffset 24)]> payload))).

Definition updateSignedRegionTrailer : M RpmHeader unit := fun header =>
  if IsMainHeader header then (Ok tt, header)
  else
    match FindIndexEntry SigTagHeaderSignatures header with
    | None => (Ok tt, header)
    | Some t =>
        (trailer ← entry_at t;
         if negb (Zlen (ie_payload trailer) =? 16)
         then panic "HEADERSIGNATURES trailer has %d payload bytes, expected 16"
         else
           let regionSize := u32 (16 * Zlen (entries header)) in
           let negativeOffset := u32 (- i32 regionSize) in
           _ ← modify (alter_entry t (fun e =>
                  set_payload (put_negative_offset negativeOffset (ie_payload e)) e));
           modify (fun header =>
             match signedRegion header with
             | Some r =>
                 set_signedRegion (Some (mkSignedRegion
                   (u64 (DataStoreStartOffset header - regionSize)) (regionSize / 16)
                   (sr_Length r))) header
             | None => header
             end)) header
    end.

(** ** Inserting and deleting entries *)

Section WithRuntime.
Context `{Runtime}.

(** The first index whose entry has a larger tag. *)
Definition insert_position (t : Z) (l : list IndexEntry) : nat :=
  match list_find (fun e => ie_tag e > t) l with
  | Some (idx, _) => idx
  | None => length l
  end.

Definition insertIndexEntry (newEntry : IndexEntry) : M RpmHeader unit := fun header =>
  let insertAt := insert_position (ie_tag newEntry) (entries header) in
  let header := set_IndexEntries (fun s => Insert s insertAt newEntry) header in
  let header := set_indexEntryCount (u32 (indexEntryCount header + 1)) header in
  (_ ← updateSignedRegionTrailer; syncDataStoreLayout) header.

Definition DeleteIndexEntry (entry : IndexEntry) : M RpmHeader unit := fun header =>
  match find_tag (ie_tag entry) (entries header) with
  | Some idx =>
      let header := set_IndexEntries (fun s => RemoveAtIndex s idx) header in
      let header := set_indexEntryCount (u32 (indexEntryCount header - 1)) header in
      (_ ← updateSignedRegionTrailer; syncDataStoreLayout) header
  | None => (Ok tt, header)
  end.

Definition DeleteIndexEntryIfExists {T} `{TagValue T} (tag : T) : M RpmHeader unit := fun header =>
  match FindIndexEntry tag header with
  | Some existing => (e ← entry_at existing; DeleteIndexEntry e) header
  | None => (Ok tt, header)
  end.

(** ** Allocating space *)

(** The entry with the largest offset, the trailer aside. *)
Definition largest_offset (trailer : option nat) (l : list IndexEntry) : option IndexEntry :=
  foldl (fun acc ie =>
    let '(idx, e) := (ie : nat * IndexEntry) in
    if bool_decide (trailer = Some idx) then acc
    else match acc with
         | None => Some e
         | Some m => if ie_offset e >? ie_offset m then Some e else acc
         end) None (imap pair l).

Definition FindNextSuitablePayloadOffset (format : Z) (header : RpmHeader) : outcome Z :=
  match largest_offset (regionTrailerEntry header) (entries header) with
  | None => Ok 0
  | Some e =>
      let payloadOffset := u32 (ie_offset e + u32 (Zlen (ie_payload e))) in
      alignment ← GetRequiredAlignment format;
      alignmentOffset ← CalcAlignmentByteCount payloadOffset alignment;
      mret (u32 (payloadOffset + alignmentOffset))
  end.

(** The entry with the largest end, the trailer aside, among those whose end is
    not zero. *)
Definition largest_end (trailer : option nat) (l : list IndexEntry) : Z * option IndexEntry :=
  foldl (fun acc ie =>
    let '(idx, e) := (ie : nat * IndexEntry) in
    if bool_decide (trailer = Some idx) then acc
    else if endOffset e >? acc.1 then (endOffset e, Some e) else acc)
    (0, None) (imap pair l).

Definition isAtEndOfDataStore (entry : IndexEntry) (header : RpmHeader) : outcome bool :=
  match (largest_end (regionTrailerEntry header) (entries header)).2 with
  | None => Panic "No index entries"
  | Some last => Ok (ie_tag last =? ie_tag entry)
  end.

(** [reservedSpace.offset += ...; reservedSpace.dataItemCnt = ...; and a new
    payload of that many zeroes] *)
Definition resize_reserved (newOffset size : Z) (e : IndexEntry) : IndexEntry :=
  set_payload (zeros (Z.to_nat size)) (set_dataItemCnt (u32 size) (set_offset newOffset e)).

Fixpoint allocateSpaceInDatastore (fuel : nat) (requestedSize format : Z) : M RpmHeader Z :=
  match fuel with
  | O => lift Diverge
  | S fuel =>
      found ← gets (fun header => Ok (FindIndexEntry SigTagReservedSpace header));
      match (found : option nat) with
      | Some idx =>
           reservedSpace ← entry_at idx;
           reservedSpaceAtEndOfDataStore ← gets (isAtEndOfDataStore reservedSpace);
           alignment ← lift (GetRequiredAlignment format);
           alignment ← lift (CalcAlignmentByteCount (ie_offset reservedSpace) alignment);
           let allocatedAddress := u32 (ie_offset reservedSpace + alignment) in
           let actualSize := u32 (requestedSize + alignment) in
           let remainingReservedSpace := ie_dataItemCnt reservedSpace - actualSize in
           if remainingReservedSpace >? 0 then
             _ ← modify (alter_entry idx
                    (resize_reserved (u32 (ie_offset reservedSpace + actualSize))
                       remainingReservedSpace));
             mret allocatedAddress
           else if remainingReservedSpace =? 0 then
             _ ← modify (alter_entry idx
                    (resize_reserved (u32 (ie_offset reservedSpace + actualSize))
                       RESERVED_SPACE_ALLOCATION_SIZE));
             mret allocatedAddress
           else
             let remainingReservedSpace := actualSize + RESERVED_SPACE_ALLOCATION_SIZE in
             _ ← modify (alter_entry idx
                    (resize_reserved (ie_offset reservedSpace) remainingReservedSpace));
             if (reservedSpaceAtEndOfDataStore : bool)
             then allocateSpaceInDatastore fuel requestedSize format
             else
               o ← gets (FindNextSuitablePayloadOffset FORMAT_TYPE_BINARY);
               _ ← modify (alter_entry idx (set_offset o));
               allocateSpaceInDatastore fuel requestedSize format
      | None =>
           reservedSpaceStart ← gets (FindNextSuitablePayloadOffset FORMAT_TYPE_BINARY);
           payloadAlignment ← lift (GetRequiredAlignment format);
           payloadAlignment ← lift (CalcAlignmentByteCount reservedSpaceStart payloadAlignment);
           let reservedSize := u32 (u32 (RESERVED_SPACE_ALLOCATION_SIZE + requestedSize)
                                    + payloadAlignment) in
           isMain ← gets (fun header => Ok (IsMainHeader header));
           _ ← insertIndexEntry (mkEntry isMain (ID SigTagReservedSpace)
                 FORMAT_TYPE_BINARY reservedSpaceStart reservedSize
                 (zeros (Z.to_nat reservedSize)));
           allocateSpaceInDatastore fuel requestedSize format
      end
  end.

(** The depth of the recursion: at most one insertion or enlargement before the
    call that succeeds. *)
Definition allocation_fuel : nat := 2.

Definition addIndexEntry (newEntry : IndexEntry) : M RpmHeader unit := fun header =>
  if negb (Bool.eqb (IsMainHeader header) (ie_isMainHeaderEntry newEntry))
  then (Panic "IndexEntry IsMainHeader does not match with header : %v", header)
  else
    (o ← allocateSpaceInDatastore allocation_fuel (u32 (Zlen (ie_payload newEntry)))
           (ie_formatType newEntry);
     insertIndexEntry (set_offset o newEntry)) header.

(** [existing] is a pointer into the backing array the slice has at the start:
    the allocation may insert an entry and with it replace that array. *)
Definition SetOrAddIndexEntry {T} `{TagValue T} (tag : T) (format newDataItemCnt : Z)
    (newPayload : list Z) : M RpmHeader unit := fun header =>
  match FindIndexEntry tag header with
  | Some idx =>
      let existing := address_of (IndexEntries header) idx in
      (e ← entry_at idx;
       if negb (ie_formatType e =? format)
       then panic "Trying to replace entry with same tag but different format type?"
       else
         let needsMoreSpace := Zlen newPayload >? Zlen (ie_payload e) in
         atEndOfDataStore ← gets (isAtEndOfDataStore e);
         newOffset ← (if needsMoreSpace && negb atEndOfDataStore
                      then allocateSpaceInDatastore allocation_fuel (u32 (Zlen newPayload)) format
                      else mret (ie_offset e));
         _ ← modify (set_IndexEntries (store_through existing (fun e =>
                set_payload newPayload (set_dataItemCnt newDataItemCnt (set_offset newOffset e)))));
         syncDataStoreLayout) header
  | None =>
      addIndexEntry (mkEntry (IsMainHeader header) (ID tag) format 0 newDataItemCnt newPayload) header
  end.
End WithRuntime.
