(* ===== verification/Layout.v ===== *)
(** The reference layout of a data store, and the theorem that
    [syncDataStoreLayout] of [src/common/rpmparser.go] computes it: entries in
    index order, each at the least aligned offset behind its predecessor, the
    region trailer at the very end. *)
From S2P Require Import Prelude Utils Serializer Tags Header.

(** ** Alignment *)

Definition known_format (f : Z) : Prop := 1 <= f <= 9.

#[export] Instance known_format_dec f : Decision (known_format f).
Proof. unfold known_format. apply _. Defined.

Definition alignment_of (f : Z) : Z :=
  if f =? 3 then 2 else if f =? 4 then 4 else if f =? 5 then 8 else 1.

(** ** The reference layout *)

(** The end of an entry's data, without wrap-around. *)
Definition end_of (e : IndexEntry) : Z := ie_offset e + Zlen (ie_payload e).

Definition place_entry (next : Z) (e : IndexEntry) : IndexEntry :=
  set_offset (next + pad_to (alignment_of (ie_formatType e)) next) e.

Fixpoint layout (trailer : option nat) (i : nat) (next : Z) (l : list IndexEntry)
    : list IndexEntry * Z :=
  match l with
  | [] => ([], next)
  | e :: l =>
      if bool_decide (trailer = Some i) then
        let r := layout trailer (S i) next l in (e :: r.1, r.2)
      else
        let e' := place_entry next e in
        let r := layout trailer (S i) (end_of e') l in (e' :: r.1, r.2)
  end.

Definition packed_layout (trailer : option nat) (l : list IndexEntry) : list IndexEntry * Z :=
  let r := layout trailer 0 0 l in
  match trailer ≫= fun t => pair t <$> l !! t with
  | Some (t, e) => (<[t := place_entry r.2 e]> r.1, end_of (place_entry r.2 e))
  | None => r
  end.

(** The space a header can need: index entry, payload and padding of every entry. *)
Definition size_of (e : IndexEntry) : Z := Zlen (ie_payload e) + 23.
Fixpoint total_size (l : list IndexEntry) : Z :=
  match l with [] => 0 | e :: l => size_of e + total_size l end.

(** ** What a good layout is *)

(** No two entries share a byte, the entries follow each other in index order,
    the trailer ends the store. These are the conditions under which rpm accepts
    a header. *)
Record layout_ok (trailer : option nat) (l : list IndexEntry) (store : Z) : Prop := {
  lo_aligned e : e ∈ l -> 0 <= ie_offset e /\ ie_offset e mod alignment_of (ie_formatType e) = 0;
  lo_order i j a b : (i < j)%nat -> l !! i = Some a -> l !! j = Some b ->
    trailer <> Some i -> trailer <> Some j -> end_of a <= ie_offset b;
  lo_trailer t e : trailer = Some t -> l !! t = Some e -> end_of e = store /\
    forall i a, l !! i = Some a -> i <> t -> end_of a <= ie_offset e;
  lo_store e : e ∈ l -> end_of e <= store;
  lo_last : l = [] /\ store = 0 \/ exists e, e ∈ l /\ end_of e = store;
}.

Lemma GetRequiredAlignment_known f :
  known_format f -> GetRequiredAlignment f = Ok (alignment_of f).
Proof.
  intros Hf.
  assert (f = 1 \/ f = 2 \/ f = 3 \/ f = 4 \/ f = 5 \/ f = 6 \/ f = 7 \/ f = 8 \/ f = 9) as Hc
    by (unfold known_format in Hf; lia).
  by destruct_or! Hc; subst.
Qed.

Lemma alignment_of_cases f :
  alignment_of f = 1 \/ alignment_of f = 2 \/ alignment_of f = 4 \/ alignment_of f = 8.
Proof. unfold alignment_of. repeat case_match; auto. Qed.

Lemma alignment_of_bounds f : 1 <= alignment_of f <= 8.
Proof. destruct (alignment_of_cases f) as [|[|[|]]]; lia. Qed.

Lemma alignment_of_ok f : alignment_of f ∈ alignments.
Proof.
  unfold alignments. destruct (alignment_of_cases f) as [->|[->|[->| ->]]]; set_solver.
Qed.

Lemma pad_bounds f x : 0 <= pad_to (alignment_of f) x <= 7.
Proof.
  pose proof (alignment_of_bounds f).
  pose proof (pad_to_range (alignment_of f) x). lia.
Qed.

Lemma CalcAlignment_format x f :
  in_width 64 x -> CalcAlignmentByteCount x (alignment_of f) = Ok (pad_to (alignment_of f) x).
Proof. intros. apply CalcAlignmentByteCount_pow2; [done|apply alignment_of_ok]. Qed.

Lemma total_size_app l k : total_size (l ++ k) = total_size l + total_size k.
Proof. induction l; simpl; lia. Qed.

Lemma total_size_nonneg l : 0 <= total_size l.
Proof.
  induction l as [|e l IH]; simpl; [lia|]. pose proof (Zlen_nonneg (ie_payload e)).
  unfold size_of. lia.
Qed.

Lemma total_size_Zlen l : 23 * Zlen l <= total_size l.
Proof.
  induction l as [|e l IH]; [done|]. rewrite Zlen_cons. cbn [total_size].
  pose proof (Zlen_nonneg (ie_payload e)). unfold size_of. lia.
Qed.

(** ** Headers that differ in their entries only *)

Definition with_entries (l : list IndexEntry) (h : RpmHeader) : RpmHeader :=
  set_IndexEntries (with_elems l) h.

Lemma entries_with_entries l h : entries (with_entries l h) = l.
Proof. done. Qed.
Lemma with_entries_twice l k h : with_entries l (with_entries k h) = with_entries l h.
Proof. done. Qed.
Lemma with_entries_id h : with_entries (entries h) h = h.
Proof. by destruct h as [? ? ? ? ? ? []]. Qed.
Lemma alter_entry_with i f h : alter_entry i f h = with_entries (alter f i (entries h)) h.
Proof. done. Qed.

(** ** The layout leaves everything but the offsets alone *)

Definition strip (e : IndexEntry) : IndexEntry := set_offset 0 e.

Lemma layout_strip trailer i next l : strip <$> (layout trailer i next l).1 = strip <$> l.
Proof.
  revert i next. induction l as [|e l IH]; intros i next; [done|]. simpl.
  case_bool_decide; simpl; by rewrite IH.
Qed.

Lemma length_layout trailer i next l : length (layout trailer i next l).1 = length l.
Proof. by rewrite <- (length_fmap strip), layout_strip, length_fmap. Qed.

Lemma packed_layout_strip trailer l : strip <$> (packed_layout trailer l).1 = strip <$> l.
Proof.
  unfold packed_layout. destruct (trailer ≫= _) as [[t e]|] eqn:E; [|apply layout_strip].
  apply bind_Some in E as (t' & -> & Ht). apply fmap_Some in Ht as (e' & He & [= -> ->]).
  simpl. rewrite list_fmap_insert, layout_strip. apply list_insert_id.
  by rewrite list_lookup_fmap, He.
Qed.

Lemma strip_eq_fields e e' : strip e = strip e' ->
  ie_isMainHeaderEntry e = ie_isMainHeaderEntry e' /\ ie_tag e = ie_tag e' /\
  ie_formatType e = ie_formatType e' /\ ie_dataItemCnt e = ie_dataItemCnt e' /\
  ie_payload e = ie_payload e'.
Proof. by intros [=]. Qed.

Lemma place_entry_strip n e e' : strip e = strip e' -> place_entry n e = place_entry n e'.
Proof. destruct e, e'. unfold strip, place_entry, set_offset. simpl. by intros [= -> -> -> -> ->]. Qed.

(** A function of an entry that does not look at its offset. *)
Lemma strip_fmap {B} (f : IndexEntry -> B) (l k : list IndexEntry) :
  (forall e, f (strip e) = f e) -> strip <$> l = strip <$> k -> f <$> l = f <$> k.
Proof.
  intros Hf H. rewrite <- (list_fmap_ext (fun e => f (strip e)) f l) by auto.
  rewrite <- (list_fmap_ext (fun e => f (strip e)) f k) by auto.
  by rewrite !(list_fmap_compose strip f), H.
Qed.

Lemma Forall_strip (P : IndexEntry -> Prop) l k :
  (forall e, P e <-> P (strip e)) -> strip <$> k = strip <$> l -> Forall P l -> Forall P k.
Proof.
  intros HP Hs Hl. apply Forall_lookup. intros i e He.
  apply (f_equal (lookup i)) in Hs. rewrite !list_lookup_fmap, He in Hs.
  destruct (l !! i) as [e'|] eqn:He'; [|done]. apply (inj Some) in Hs.
  rewrite HP, Hs, <- HP. exact (Forall_lookup_1 _ _ _ _ Hl He').
Qed.

Lemma total_size_strip l k : strip <$> l = strip <$> k -> total_size l = total_size k.
Proof.
  revert k. induction l as [|e l IH]; intros [|e' k]; try done. intros [= H1 H2 H3 H4 H5 H].
  cbn [total_size]. unfold size_of. rewrite H5. by rewrite (IH k).
Qed.

Lemma find_tag_strip t l k : strip <$> l = strip <$> k -> find_tag t l = find_tag t k.
Proof.
  unfold find_tag. revert k. induction l as [|e l IH]; intros [|e' k]; try done.
  intros [= H1 H2 H3 H4 H5 H]. specialize (IH k H). simpl. rewrite H2.
  destruct (decide (ie_tag e' = t)); [done|].
  destruct (list_find _ l) as [[??]|], (list_find _ k) as [[??]|]; simpl in *; congruence.
Qed.

Lemma FindIndexEntry_strip {T} `{TagValue T} (tag : T) h k :
  strip <$> entries h = strip <$> k -> FindIndexEntry tag (with_entries k h) = FindIndexEntry tag h.
Proof. intros Hs. unfold FindIndexEntry. rewrite entries_with_entries. symmetry. by apply find_tag_strip. Qed.

Lemma regionTrailer_strip h k :
  strip <$> entries h = strip <$> k -> regionTrailerEntry (with_entries k h) = regionTrailerEntry h.
Proof.
  intros Hs. unfold regionTrailerEntry. simpl IsMainHeader.
  case_match; by apply FindIndexEntry_strip.
Qed.

Lemma find_tag_lookup t l i : find_tag t l = Some i ->
  exists e, l !! i = Some e /\ ie_tag e = t /\ (i < length l)%nat.
Proof.
  unfold find_tag. intros (p & Hp & ->)%fmap_Some. destruct p as [j e].
  apply list_find_Some in Hp as (Hl & Ht & _). exists e.
  split_and!; [done|done|by eapply lookup_lt_Some].
Qed.

(** ** [syncDataStoreLayout] computes the reference layout *)

Lemma place_run h idx e next :
  entries h !! idx = Some e -> known_format (ie_formatType e) ->
  0 <= next -> next + size_of e < 2 ^ 32 ->
  place idx next h =
    (Ok (end_of (place_entry next e)), with_entries (<[idx := place_entry next e]> (entries h)) h).
Proof.
  intros He Hf Hn Hb. unfold size_of in Hb. pose proof (Zlen_nonneg (ie_payload e)).
  pose proof (pad_bounds (ie_formatType e) next).
  unfold place. erewrite M_bind_ok by (unfold entry_at; by rewrite He).
  rewrite GetRequiredAlignment_known by done. erewrite M_bind_ok by done.
  erewrite M_bind_ok by (unfold lift; rewrite CalcAlignment_format by (unfold in_width; lia); done).
  cbv zeta. erewrite M_bind_ok by done. unfold mret, M_ret.
  wrap_small_tac. f_equal. rewrite alter_entry_with. f_equal.
  by rewrite (alter_to_insert _ _ _ e).
Qed.

Lemma placeAll_run trailer pre l next h :
  entries h = pre ++ l -> Forall (fun e => known_format (ie_formatType e)) l ->
  0 <= next -> next + total_size l < 2 ^ 32 ->
  placeAll trailer (seq (length pre) (length l)) next h =
    (Ok (layout trailer (length pre) next l).2,
     with_entries (pre ++ (layout trailer (length pre) next l).1) h).
Proof.
  revert pre next h. induction l as [|e l IH]; intros pre next h Hh Hf Hn Hb.
  { simpl. rewrite <- Hh, with_entries_id. done. }
  apply Forall_cons in Hf as [Hf Hfl]. cbn [total_size] in Hb.
  pose proof (total_size_nonneg l). pose proof (Zlen_nonneg (ie_payload e)).
  assert (entries h = (pre ++ [e]) ++ l) as Hh' by (by rewrite <- app_assoc).
  simpl. case_bool_decide as Ht; simpl.
  - specialize (IH (pre ++ [e]) next h Hh' Hfl Hn ltac:(unfold size_of in Hb; lia)).
    rewrite length_app, Nat.add_1_r in IH. rewrite IH. by rewrite <- app_assoc.
  - assert (entries h !! length pre = Some e) as He.
    { rewrite Hh. by rewrite list_lookup_middle. }
    rewrite (M_bind_ok _ _ _ _ _ (place_run h (length pre) e next He Hf Hn ltac:(lia))).
    set (e' := place_entry next e). set (h' := with_entries _ h).
    assert (entries h' = (pre ++ [e']) ++ l) as Hh1.
    { unfold h'. rewrite entries_with_entries, Hh, insert_app_r_alt, Nat.sub_diag by lia.
      simpl. by rewrite <- app_assoc. }
    pose proof (pad_bounds (ie_formatType e) next).
    specialize (IH (pre ++ [e']) (end_of e') h' Hh1 Hfl).
    rewrite length_app, Nat.add_1_r in IH. rewrite IH.
    + unfold h'. rewrite with_entries_twice, <- app_assoc. done.
    + unfold end_of, place_entry. simpl. lia.
    + unfold end_of, place_entry, size_of in *. simpl. lia.
Qed.

Lemma layout_end trailer i next l :
  next <= (layout trailer i next l).2 <= next + total_size l.
Proof.
  revert i next. induction l as [|e l IH]; intros i next; simpl; [lia|].
  pose proof (Zlen_nonneg (ie_payload e)). pose proof (pad_bounds (ie_formatType e) next).
  case_bool_decide; simpl.
  - specialize (IH (S i) next). unfold size_of. lia.
  - specialize (IH (S i) (end_of (place_entry next e))).
    unfold end_of, place_entry, size_of in *. simpl in *. lia.
Qed.

(** The trailer's own space is not counted twice. *)
Lemma layout_end_trailer t i next l e :
  l !! t = Some e ->
  (layout (Some (i + t)%nat) i next l).2 + size_of e <= next + total_size l.
Proof.
  revert i next t. induction l as [|x l IH]; intros i next t Ht; [done|].
  pose proof (Zlen_nonneg (ie_payload x)). pose proof (pad_bounds (ie_formatType x) next).
  destruct t as [|t]; simpl in *.
  - injection Ht as ->. rewrite Nat.add_0_r, bool_decide_eq_true_2 by done. simpl.
    pose proof (layout_end (Some i) (S i) next l). lia.
  - rewrite bool_decide_eq_false_2 by (intros [=]; lia). simpl.
    specialize (IH (S i) (end_of (place_entry next x)) t Ht).
    replace (S i + t)%nat with (i + S t)%nat in IH by lia.
    unfold end_of, place_entry, size_of in *. simpl in *. lia.
Qed.

Lemma syncDataStoreLayout_run h :
  Forall (fun e => known_format (ie_formatType e)) (entries h) ->
  total_size (entries h) < 2 ^ 32 ->
  let r := packed_layout (regionTrailerEntry h) (entries h) in
  syncDataStoreLayout h = (Ok tt, set_storeSizeInBytes r.2 (with_entries r.1 h)).
Proof.
  intros Hf Hb r. unfold syncDataStoreLayout. set (trailer := regionTrailerEntry h) in *.
  assert (forall t, trailer = Some t -> exists e, entries h !! t = Some e) as Htr.
  { unfold trailer, regionTrailerEntry. intros t. case_match;
      intros (e & He & _)%find_tag_lookup; by exists e. }
  pose proof (placeAll_run trailer [] (entries h) 0 h eq_refl Hf ltac:(lia) ltac:(lia)) as Hp.
  simpl in Hp. rewrite (M_bind_ok _ _ _ _ _ Hp). unfold r, packed_layout.
  destruct trailer as [t|] eqn:Et; simpl; cycle 1.
  { by erewrite M_bind_ok by done. }
  destruct (Htr t eq_refl) as [e He]. rewrite He. simpl.
  pose proof (layout_end_trailer t 0 0 (entries h) e He) as Hend. simpl in Hend.
  pose proof (layout_end (Some t) 0 0 (entries h)) as Hend0.
  assert (strip <$> (layout (Some t) 0 0 (entries h)).1 !! t = strip <$> entries h !! t) as Hs.
  { rewrite <- !list_lookup_fmap. by rewrite layout_strip. }
  rewrite He in Hs. apply fmap_Some in Hs as (e1 & He1 & Hs1).
  pose proof (place_entry_strip (layout (Some t) 0 0 (entries h)).2 _ _ Hs1) as Hpe.
  apply strip_eq_fields in Hs1 as (_ & _ & Hfm & _ & Hpl).
  set (h' := with_entries _ h).
  erewrite M_bind_ok by (apply (place_run h' t e1);
    [done|rewrite <- Hfm; exact (Forall_lookup_1 _ _ _ _ Hf He)|lia|unfold size_of in *; rewrite <- Hpl; lia]).
  rewrite <- Hpe. done.
Qed.

(** ** The reference layout is a good layout *)

Lemma place_entry_good next e :
  0 <= next ->
  next <= ie_offset (place_entry next e) /\
  ie_offset (place_entry next e) mod alignment_of (ie_formatType (place_entry next e)) = 0.
Proof.
  intros Hn. pose proof (pad_bounds (ie_formatType e) next). pose proof (alignment_of_bounds (ie_formatType e)).
  unfold place_entry. simpl. split; [lia|]. apply pad_to_aligned. lia.
Qed.

(** Everything [layout] places lies between the start and the end it reports,
    in index order. *)
Lemma layout_lookup trailer i next l j a :
  0 <= next -> (layout trailer i next l).1 !! j = Some a -> trailer <> Some (i + j)%nat ->
  next <= ie_offset a /\ ie_offset a mod alignment_of (ie_formatType a) = 0 /\
  end_of a <= (layout trailer i next l).2.
Proof.
  revert i next j. induction l as [|e l IH]; intros i next j Hn Hj Ht; [done|].
  simpl in *. pose proof (place_entry_good next e Hn) as [Hge Hal].
  pose proof (Zlen_nonneg (ie_payload e)).
  case_bool_decide as Hi; simpl in *.
  - destruct j as [|j]; simpl in *; [rewrite Nat.add_0_r in Ht; done|].
    apply (IH (S i) next j); [done|done|]. by rewrite Nat.add_succ_comm.
  - assert (next <= end_of (place_entry next e)) by (unfold end_of; simpl in *; lia).
    destruct j as [|j]; simpl in *.
    + injection Hj as <-. split_and!; [done|done|]. apply layout_end.
    + destruct (IH (S i) (end_of (place_entry next e)) j) as (? & ? & ?); [lia|done|by rewrite Nat.add_succ_comm|].
      split_and!; [lia|done|done].
Qed.

Lemma layout_order trailer i next l j k a b :
  0 <= next -> (layout trailer i next l).1 !! j = Some a -> (layout trailer i next l).1 !! k = Some b ->
  (j < k)%nat -> trailer <> Some (i + j)%nat -> trailer <> Some (i + k)%nat ->
  end_of a <= ie_offset b.
Proof.
  revert i next j k. induction l as [|e l IH]; intros i next j k Hn Hj Hk Hjk Htj Htk; [done|].
  simpl in *. pose proof (place_entry_good next e Hn) as [Hge Hal].
  pose proof (Zlen_nonneg (ie_payload e)).
  destruct k as [|k]; [lia|]. rewrite <- Nat.add_succ_comm in Htk.
  case_bool_decide as Hi; simpl in *.
  - destruct j as [|j]; simpl in *; [rewrite Nat.add_0_r in Htj; done|].
    rewrite <- Nat.add_succ_comm in Htj. eapply (IH (S i)); [exact Hn|done..|lia|done|done].
  - assert (0 <= end_of (place_entry next e)) by (unfold end_of; simpl in *; lia).
    destruct j as [|j]; simpl in *.
    + injection Hj as <-. eapply layout_lookup in Hk as (? & _); [done|lia|done].
    + rewrite <- Nat.add_succ_comm in Htj. eapply (IH (S i)); [|done..|lia|done|done]. lia.
Qed.

(** The end of the layout is the end of one of its entries. *)
Lemma layout_last trailer i next l :
  (layout trailer i next l).2 = next \/
  exists e, e ∈ (layout trailer i next l).1 /\ end_of e = (layout trailer i next l).2.
Proof.
  revert i next. induction l as [|e l IH]; intros i next; simpl; [by left|].
  case_bool_decide; simpl.
  - destruct (IH (S i) next) as [->|(a & Ha & He)]; [by left|right]. exists a. set_solver.
  - right. destruct (IH (S i) (end_of (place_entry next e))) as [->|(a & Ha & He)].
    + eexists. split; [by left|done].
    + exists a. set_solver.
Qed.

Lemma packed_layout_ok trailer l :
  (forall t, trailer = Some t -> (t < length l)%nat) ->
  layout_ok trailer (packed_layout trailer l).1 (packed_layout trailer l).2.
Proof.
  intros Ht. unfold packed_layout. set (r := layout trailer 0 0 l).
  assert (forall j a, r.1 !! j = Some a -> trailer <> Some j ->
    0 <= ie_offset a /\ ie_offset a mod alignment_of (ie_formatType a) = 0 /\ end_of a <= r.2) as Hin.
  { intros j a Ha Hj. by apply (layout_lookup trailer 0 0 l j a). }
  assert (0 <= r.2) as H0 by (pose proof (layout_end trailer 0 0 l); unfold r; lia).
  destruct trailer as [t|]; simpl; cycle 1.
  { constructor.
    - intros e [j Hj]%list_elem_of_lookup. destruct (Hin j e Hj) as (? & ? & ?); [done|]. done.
    - intros i j a b Hij Ha Hb _ _. by apply (layout_order None 0 0 l i j a b).
    - done.
    - intros e [j Hj]%list_elem_of_lookup. by apply (Hin j e Hj).
    - destruct (layout_last None 0 0 l) as [Hl|He]; [|by right].
      destruct l as [|e l]; [by left|]. right. cbn [layout] in *. rewrite bool_decide_eq_false_2 in * by done.
      simpl in *. exists (place_entry 0 e). split; [by left|].
      assert (0 <= end_of (place_entry 0 e)).
      { pose proof (pad_bounds (ie_formatType e) 0). pose proof (Zlen_nonneg (ie_payload e)).
        unfold end_of, place_entry. simpl. lia. }
      pose proof (layout_end None 1 (end_of (place_entry 0 e)) l). unfold r. simpl. lia. }
  specialize (Ht t eq_refl). destruct (lookup_lt_is_Some_2 l t Ht) as [e He]. rewrite He. simpl.
  set (e' := place_entry r.2 e).
  assert (r.2 <= ie_offset e' /\ ie_offset e' mod alignment_of (ie_formatType e') = 0) as [Hge Hal].
  { by apply place_entry_good. }
  assert (ie_offset e' <= end_of e') as Hee.
  { unfold end_of. pose proof (Zlen_nonneg (ie_payload e')). lia. }
  assert (length r.1 = length l) as Hlen by apply length_layout.
  assert (forall j a, <[t := e']> r.1 !! j = Some a -> j = t /\ a = e' \/ j <> t /\ r.1 !! j = Some a) as Hlk.
  { intros j a Hj. destruct (decide (j = t)) as [->|Hne].
    - rewrite list_lookup_insert_eq in Hj by lia. left. by simplify_eq.
    - rewrite list_lookup_insert_ne in Hj by done. by right. }
  constructor.
  - intros a [j Hj]%list_elem_of_lookup. apply Hlk in Hj as [[-> ->]|[Hne Hj]]; [split; [lia|done]|].
    destruct (Hin j a Hj) as (? & ? & ?); [congruence|]. done.
  - intros i j a b Hij Ha Hb Hti Htj.
    apply Hlk in Ha as [[-> _]|[Hni Ha]]; [done|]. apply Hlk in Hb as [[-> _]|[Hnj Hb]]; [done|].
    by apply (layout_order (Some t) 0 0 l i j a b).
  - intros t' a [= <-] Ha. apply Hlk in Ha as [[_ ->]|[Hne _]]; [|done].
    split; [done|]. intros i b Hb Hi. apply Hlk in Hb as [[-> _]|[Hne Hb]]; [done|].
    destruct (Hin i b Hb) as (? & ? & ?); [congruence|]. lia.
  - intros a [j Hj]%list_elem_of_lookup. apply Hlk in Hj as [[-> ->]|[Hne Hj]]; [done|].
    destruct (Hin j a Hj) as (? & ? & ?); [congruence|]. lia.
  - right. exists e'. split; [|done]. apply list_elem_of_lookup. exists t.
    by rewrite list_lookup_insert_eq by lia.
Qed.

(** The layout does not depend on the offsets the entries had. *)
Lemma layout_strip_eq trailer i next l k :
  strip <$> l = strip <$> k ->
  (layout trailer i next l).2 = (layout trailer i next k).2 /\
  forall j, trailer <> Some (i + j)%nat ->
    (layout trailer i next l).1 !! j = (layout trailer i next k).1 !! j.
Proof.
  revert i next k. induction l as [|e l IH]; intros i next [|e' k]; try done.
  intros [= H1 H2 H3 H4 H5 H]. simpl.
  assert (place_entry next e = place_entry next e') as ->.
  { apply place_entry_strip. unfold strip, set_offset. by rewrite H1, H2, H3, H4, H5. }
  case_bool_decide as Hi; simpl.
  - destruct (IH (S i) next k H) as [H6 H7]. split; [done|]. intros [|j] Hj.
    + rewrite Nat.add_0_r in Hj. done.
    + apply H7. by rewrite Nat.add_succ_comm.
  - destruct (IH (S i) (end_of (place_entry next e')) k H) as [H6 H7]. split; [done|].
    intros [|j] Hj; [done|]. apply H7. by rewrite Nat.add_succ_comm.
Qed.

Lemma packed_layout_strip_eq trailer l k :
  (forall t, trailer = Some t -> (t < length l)%nat) ->
  strip <$> l = strip <$> k -> packed_layout trailer l = packed_layout trailer k.
Proof.
  intros Ht Hs. pose proof (f_equal length Hs) as Hlen. rewrite !length_fmap in Hlen.
  destruct (layout_strip_eq trailer 0 0 l k Hs) as [H2 H1].
  unfold packed_layout. destruct trailer as [t|]; simpl; cycle 1.
  { rewrite (surjective_pairing (layout None 0 0 l)), (surjective_pairing (layout None 0 0 k)).
    f_equal; [|done]. apply list_eq. intros j. by apply H1. }
  specialize (Ht t eq_refl).
  destruct (lookup_lt_is_Some_2 l t Ht) as [e He].
  destruct (lookup_lt_is_Some_2 k t ltac:(lia)) as [e' He']. rewrite He, He'. simpl.
  assert (strip e = strip e') as Hse.
  { apply (f_equal (lookup t)) in Hs. rewrite !list_lookup_fmap, He, He' in Hs. by apply (inj Some). }
  rewrite H2, (place_entry_strip _ _ _ Hse). f_equal.
  apply list_eq. intros j. destruct (decide (j = t)) as [->|Hne].
  - by rewrite !list_lookup_insert_eq by (rewrite length_layout; lia).
  - rewrite !list_lookup_insert_ne by done. apply H1. by intros [=].
Qed.

(** ** Packed headers *)

(** The offsets and the store size of the header are those of the reference
    layout. *)
Definition packed (h : RpmHeader) : Prop :=
  packed_layout (regionTrailerEntry h) (entries h) = (entries h, storeSizeInBytes h).

Lemma regionTrailer_lt h t : regionTrailerEntry h = Some t -> (t < length (entries h))%nat.
Proof.
  unfold regionTrailerEntry. case_match; intros (e & _ & _ & Hl)%find_tag_lookup; done.
Qed.

Lemma packed_ok h :
  packed h -> layout_ok (regionTrailerEntry h) (entries h) (storeSizeInBytes h).
Proof.
  intros Hp. pose proof (packed_layout_ok (regionTrailerEntry h) (entries h) (regionTrailer_lt h)) as Hok.
  by rewrite Hp in Hok.
Qed.

Lemma syncDataStoreLayout_packs h :
  Forall (fun e => known_format (ie_formatType e)) (entries h) ->
  total_size (entries h) < 2 ^ 32 ->
  exists h', syncDataStoreLayout h = (Ok tt, h') /\ packed h' /\
    strip <$> entries h' = strip <$> entries h /\
    h' = set_storeSizeInBytes (storeSizeInBytes h') (with_entries (entries h') h).
Proof.
  intros Hf Hb. rewrite syncDataStoreLayout_run by done. cbv zeta.
  set (r := packed_layout _ _). eexists. split; [done|].
  assert (strip <$> r.1 = strip <$> entries h) as Hs by apply packed_layout_strip.
  split_and!; [|done|done]. unfold packed.
  change (regionTrailerEntry (set_storeSizeInBytes r.2 (with_entries r.1 h)))
    with (regionTrailerEntry (with_entries r.1 h)).
  rewrite regionTrailer_strip by (by rewrite Hs).
  simpl. rewrite <- surjective_pairing.
  apply packed_layout_strip_eq; [|done].
  intros t Ht. apply regionTrailer_lt in Ht.
  pose proof (f_equal length Hs) as Hlen. rewrite !length_fmap in Hlen. lia.
Qed.

(** A packed header stays as it is. *)
Lemma syncDataStoreLayout_packed h :
  Forall (fun e => known_format (ie_formatType e)) (entries h) ->
  total_size (entries h) < 2 ^ 32 -> packed h ->
  syncDataStoreLayout h = (Ok tt, h).
Proof.
  intros Hf Hb Hp. rewrite syncDataStoreLayout_run by done. cbv zeta. rewrite Hp. simpl.
  rewrite with_entries_id. by destruct h.
Qed.

(** C15. [syncDataStoreLayout] re-packs any header whose entries have a known
    format and fit a store: only offsets and the store size change; afterwards
    every entry is aligned as its format requires, the entries follow each other
    in index order without sharing a byte, the region trailer ends the store, and
    the store ends with its last entry. Run again, it changes nothing. *)
Theorem syncDataStoreLayout_correct h :
  Forall (fun e => known_format (ie_formatType e)) (entries h) ->
  total_size (entries h) < 2 ^ 32 ->
  exists h', syncDataStoreLayout h = (Ok tt, h') /\
    strip <$> entries h' = strip <$> entries h /\
    h' = set_storeSizeInBytes (storeSizeInBytes h') (with_entries (entries h') h) /\
    layout_ok (regionTrailerEntry h') (entries h') (storeSizeInBytes h') /\
    syncDataStoreLayout h' = (Ok tt, h').
Proof.
  intros Hf Hb. destruct (syncDataStoreLayout_packs h Hf Hb) as (h' & Hrun & Hp & Hs & Hh).
  exists h'. split_and!; [done..|by apply packed_ok|].
  apply syncDataStoreLayout_packed; [|by rewrite (total_size_strip _ _ Hs)|done].
  by apply (Forall_strip _ (entries h)).
Qed.

(** A signature header with a trailer and two entries, out of place. *)
Definition sample_header : RpmHeader :=
  mkHeader headerMagic 1 [0; 0; 0; 0] 5 0 false
    (mkSlice [mkEntry false 62 7 0 16 (zeros 16);
              mkEntry false 257 4 0 1 [0; 0; 1; 44];
              mkEntry false 269 6 0 1 [102; 111; 111; 0];
              mkEntry false 1000 4 0 1 [0; 0; 1; 44];
              mkEntry false 1007 5 0 1 (zeros 8)] 8 0)
    0 16 96 (Some (mkSignedRegion 16 5 112)) [] [] [].

Lemma syncDataStoreLayout_correct_witness :
  exists h', syncDataStoreLayout sample_header = (Ok tt, h') /\
    strip <$> entries h' = strip <$> entries sample_header /\
    h' = set_storeSizeInBytes (storeSizeInBytes h') (with_entries (entries h') sample_header) /\
    layout_ok (regionTrailerEntry h') (entries h') (storeSizeInBytes h') /\
    syncDataStoreLayout h' = (Ok tt, h').
Proof.
  apply (syncDataStoreLayout_correct sample_header);
    [repeat constructor; vm_compute; congruence|vm_compute; congruence].
Defined.

Example sync_ex :
  ie_offset <$> entries (syncDataStoreLayout sample_header).2 = [24; 0; 4; 8; 16] /\
  storeSizeInBytes (syncDataStoreLayout sample_header).2 = 40.
Proof. done. Qed.
