(* ===== verification/HeaderSpec.v ===== *)
(** The abstract specification of a header: a finite map from tags to items, and
    the invariant [header_wf] under which the index of
    [src/common/rpmparser.go]'s [RpmHeader] implements it. *)
From S2P Require Import Prelude Utils Serializer Tags Header Layout.

(** ** The abstract header: a map from tags to items *)

Record item := mkItem { it_format : Z; it_count : Z; it_payload : list Z }.

Definition item_of (e : IndexEntry) : item :=
  mkItem (ie_formatType e) (ie_dataItemCnt e) (ie_payload e).

Definition keyed (e : IndexEntry) : Z * item := (ie_tag e, item_of e).

Definition contents (l : list IndexEntry) : gmap Z item := list_to_map (keyed <$> l).

Definition trailer_tag (h : RpmHeader) : Z :=
  if IsMainHeader h then ID TagHeaderImmutable else ID SigTagHeaderSignatures.

(** The items of a header apart from the region trailer, which the header
    maintains itself. *)
Definition user_entries (h : RpmHeader) : gmap Z item :=
  delete (trailer_tag h) (contents (entries h)).

Definition trailer_of (h : RpmHeader) : option item := contents (entries h) !! trailer_tag h.

(** Everything that no operation on the index changes. *)
Definition frame (h : RpmHeader) : RpmHeader :=
  set_IndexEntries (fun _ => nil_slice)
    (set_indexEntryCount 0 (set_storeSizeInBytes 0 (set_signedRegion None h))).

(** ** The invariant *)

Abbreviation TAG_HEADERSIGNATURES := 62.
Abbreviation TAG_RESERVEDSPACE := 1008.

Record entry_wf (main : bool) (e : IndexEntry) : Prop := {
  ew_main : ie_isMainHeaderEntry e = main;
  ew_tag : in_width 32 (ie_tag e);
  ew_format : known_format (ie_formatType e);
  ew_count : in_width 32 (ie_dataItemCnt e);
  ew_payload : ie_payload e <> [];
  ew_bytes : bytes_ok (ie_payload e);
  ew_reserved : ie_tag e = TAG_RESERVEDSPACE -> ie_dataItemCnt e = Zlen (ie_payload e);
  ew_trailer : main = false -> ie_tag e = TAG_HEADERSIGNATURES -> length (ie_payload e) = 16%nat;
}.

Record header_base (h : RpmHeader) : Prop := {
  hb_count : indexEntryCount h = Zlen (entries h);
  hb_sorted : StronglySorted Z.lt (ie_tag <$> entries h);
  hb_entries : Forall (entry_wf (IsMainHeader h)) (entries h);
  hb_region : is_Some (signedRegion h) ->
    IsMainHeader h = false /\ TAG_HEADERSIGNATURES ∈ ie_tag <$> entries h;
}.

Record header_wf (h : RpmHeader) : Prop := {
  hw_base : header_base h;
  hw_region r : signedRegion h = Some r -> sr_IndexEntryCount r = Zlen (entries h);
}.

(** The size of a header for which no 32-bit offset can wrap around. *)
Definition fits (h : RpmHeader) (extra : Z) : Prop := total_size (entries h) + extra < 2 ^ 31.

(** The invariant, decided by evaluation. *)
Definition entry_wfb (main : bool) (e : IndexEntry) : bool :=
  Bool.eqb (ie_isMainHeaderEntry e) main && bool_decide (in_width 32 (ie_tag e)) &&
  bool_decide (known_format (ie_formatType e)) && bool_decide (in_width 32 (ie_dataItemCnt e)) &&
  negb (Zlen (ie_payload e) =? 0) && forallb (fun b => bool_decide (is_byte b)) (ie_payload e) &&
  (negb (ie_tag e =? TAG_RESERVEDSPACE) || (ie_dataItemCnt e =? Zlen (ie_payload e))) &&
  (main || negb (ie_tag e =? TAG_HEADERSIGNATURES) || (Zlen (ie_payload e) =? 16)).

Definition header_wfb (h : RpmHeader) : bool :=
  (indexEntryCount h =? Zlen (entries h)) &&
  bool_decide (StronglySorted Z.lt (ie_tag <$> entries h)) &&
  forallb (entry_wfb (IsMainHeader h)) (entries h) &&
  match signedRegion h with
  | Some r => negb (IsMainHeader h) && bool_decide (TAG_HEADERSIGNATURES ∈ ie_tag <$> entries h) &&
              (sr_IndexEntryCount r =? Zlen (entries h))
  | None => true
  end.

Lemma entry_wfb_ok main e : entry_wfb main e = true -> entry_wf main e.
Proof.
  unfold entry_wfb. rewrite !andb_true_iff, !orb_true_iff, !negb_true_iff, !bool_decide_eq_true,
    forallb_Forall, eqb_true_iff, !Z.eqb_eq, !Z.eqb_neq.
  intros (((((((? & ?) & ?) & ?) & Hp) & Hb) & Hr) & Ht). constructor; try done.
  - intros Hn. by rewrite Hn in Hp.
  - eapply Forall_impl; [exact Hb|]. intros b. apply bool_decide_eq_true_1.
  - intros. destruct Hr; done.
  - intros. destruct Ht as [[|]|Ht]; [congruence|done|unfold Zlen in Ht; lia].
Qed.

Lemma header_wfb_ok h : header_wfb h = true -> header_wf h.
Proof.
  unfold header_wfb. rewrite !andb_true_iff, bool_decide_eq_true, forallb_Forall, Z.eqb_eq.
  intros (((? & ?) & He) & Hr). constructor; [constructor|]; try done.
  - eapply Forall_impl; [exact He|]. intros e. apply entry_wfb_ok.
  - intros [r Hs]. rewrite Hs, !andb_true_iff, negb_true_iff, bool_decide_eq_true in Hr. tauto.
  - intros r Hs. rewrite Hs, !andb_true_iff, Z.eqb_eq in Hr. tauto.
Qed.

(** ** Sorted indexes *)

Lemma sorted_nodup l : StronglySorted Z.lt l -> NoDup l.
Proof.
  induction 1 as [|x l Hl IH Hx]; constructor; [|done].
  intros Hin. rewrite Forall_forall in Hx. specialize (Hx x Hin). lia.
Qed.

Lemma keyed_fst l : (keyed <$> l).*1 = ie_tag <$> l.
Proof. by rewrite <- list_fmap_compose. Qed.

Lemma contents_perm l k : NoDup (ie_tag <$> l) -> l ≡ₚ k -> contents l = contents k.
Proof.
  intros Hnd Hp. unfold contents. apply list_to_map_proper.
  - by rewrite keyed_fst.
  - by apply fmap_Permutation.
Qed.

Lemma contents_middle l e k :
  NoDup (ie_tag <$> l ++ e :: k) ->
  contents (l ++ e :: k) = <[ie_tag e := item_of e]> (contents (l ++ k)).
Proof.
  intros Hnd. rewrite (contents_perm _ (e :: l ++ k)); [done|done|].
  by rewrite Permutation_middle.
Qed.

Lemma contents_not_in l t : t ∉ ie_tag <$> l -> contents l !! t = None.
Proof. intros Ht. unfold contents. apply not_elem_of_list_to_map_1. by rewrite keyed_fst. Qed.

Lemma contents_in l e :
  NoDup (ie_tag <$> l) -> e ∈ l -> contents l !! ie_tag e = Some (item_of e).
Proof.
  intros Hnd He. unfold contents. apply elem_of_list_to_map_1; [by rewrite keyed_fst|].
  apply list_elem_of_fmap. by exists e.
Qed.

Lemma contents_Some l t it :
  contents l !! t = Some it -> exists e, e ∈ l /\ ie_tag e = t /\ item_of e = it.
Proof.
  unfold contents. intros H. apply elem_of_list_to_map_2, list_elem_of_fmap in H as (e & [= -> ->] & He).
  by exists e.
Qed.

Lemma find_tag_None t l : find_tag t l = None <-> t ∉ ie_tag <$> l.
Proof.
  unfold find_tag. rewrite fmap_None, list_find_None, Forall_forall, list_elem_of_fmap.
  split; [intros H (e & -> & He); by apply (H e)|intros H e He Ht; apply H; by exists e].
Qed.

Lemma find_tag_split t l i :
  NoDup (ie_tag <$> l) -> find_tag t l = Some i ->
  exists e, l !! i = Some e /\ ie_tag e = t /\ l = take i l ++ e :: drop (S i) l /\
    forall e', e' ∈ take i l ++ drop (S i) l -> ie_tag e' <> t.
Proof.
  intros Hnd (e & He & Ht & Hi)%find_tag_lookup. exists e.
  assert (l = take i l ++ e :: drop (S i) l) as Hl by (symmetry; by apply take_drop_middle).
  split_and!; [done..|]. intros e' He' Ht'. rewrite Hl, fmap_app, fmap_cons in Hnd.
  apply (NoDup_Permutation_proper _ (ie_tag e :: (ie_tag <$> take i l) ++ (ie_tag <$> drop (S i) l))) in Hnd;
    [|by rewrite Permutation_middle].
  apply NoDup_cons in Hnd as [Hnd _]. apply Hnd. rewrite <- fmap_app, Ht, <- Ht'.
  by apply list_elem_of_fmap_2.
Qed.

Lemma find_tag_contents t l :
  NoDup (ie_tag <$> l) ->
  contents l !! t = item_of <$> (find_tag t l ≫= fun i => l !! i).
Proof.
  intros Hnd. destruct (find_tag t l) as [i|] eqn:E; simpl.
  - destruct (find_tag_lookup _ _ _ E) as (e & He & <- & _). rewrite He.
    apply contents_in; [done|]. by apply list_elem_of_lookup_2 in He.
  - by apply contents_not_in, find_tag_None.
Qed.

(** ** Inserting into a sorted index *)

Section InsertPosition.
Context `{Runtime}.

Lemma insert_position_spec t l :
  (insert_position t l <= length l)%nat /\
  (forall e, e ∈ take (insert_position t l) l -> ie_tag e <= t) /\
  (forall e k, drop (insert_position t l) l = e :: k -> t < ie_tag e).
Proof.
  unfold insert_position. destruct (list_find _ l) as [[i x]|] eqn:E.
  - apply list_find_Some in E as (Hi & Hx & Hall). split_and!.
    + apply lookup_lt_Some in Hi. lia.
    + intros e [j Hj]%list_elem_of_lookup. apply lookup_take_Some in Hj as [Hj Hlt].
      specialize (Hall j e Hj Hlt). lia.
    + intros e k Hd. assert (l !! i = Some e) as He.
      { rewrite <- (Nat.add_0_r i), <- lookup_drop, Hd. done. }
      simplify_eq. lia.
  - apply list_find_None in E. rewrite Forall_forall in E. split_and!; [done| |].
    + intros e He. rewrite firstn_all in He. specialize (E e He). simpl in E. lia.
    + intros e k. by rewrite drop_all.
Qed.

Lemma insert_position_sorted e l :
  StronglySorted Z.lt (ie_tag <$> l) -> ie_tag e ∉ ie_tag <$> l ->
  let i := insert_position (ie_tag e) l in
  StronglySorted Z.lt (ie_tag <$> take i l ++ e :: drop i l).
Proof.
  intros Hs Hin i. destruct (insert_position_spec (ie_tag e) l) as (_ & Hlo & Hhi).
  fold i in Hlo, Hhi. rewrite <- (take_drop i l), fmap_app in Hs.
  apply StronglySorted_app in Hs as (Hcross & Hs1 & Hs2).
  rewrite fmap_app, fmap_cons. apply StronglySorted_app_2; [|done|].
  - intros x1 x2 H1 H2. apply elem_of_cons in H2 as [->|H2]; [|by apply Hcross].
    apply list_elem_of_fmap in H1 as (e1 & -> & He1). specialize (Hlo e1 He1).
    assert (ie_tag e1 <> ie_tag e); [|lia]. intros Heq. apply Hin. rewrite <- Heq.
    apply list_elem_of_fmap_2. by apply elem_of_take in He1 as (? & ?%list_elem_of_lookup_2 & ?).
  - apply StronglySorted_cons. split; [|done].
    destruct (drop i l) as [|x k]; [constructor|]. specialize (Hhi x k eq_refl).
    simpl in *. apply StronglySorted_cons in Hs2 as [Hx _].
    constructor; [done|]. eapply Forall_impl; [exact Hx|]. simpl. lia.
Qed.
End InsertPosition.

(** ** The region trailer *)

(** The trailer's payload for an index of [n] entries. *)
Definition region_payload (n : Z) (p : list Z) : list Z :=
  take 8 p ++ be32 (u32 (- (16 * n))) ++ drop 12 p.

Definition fix_item (n : Z) (it : item) : item :=
  mkItem (it_format it) (it_count it) (region_payload n (it_payload it)).

Definition fix_entry (main : bool) (n : Z) (e : IndexEntry) : IndexEntry :=
  if negb main && (ie_tag e =? TAG_HEADERSIGNATURES)
  then set_payload (region_payload n (ie_payload e)) e else e.

Definition fix_trailer (main : bool) (n : Z) (it : option item) : option item :=
  if main then it else fix_item n <$> it.

(** The trailer names as many entries as the index has. *)
Definition region_current (h : RpmHeader) : Prop :=
  IsMainHeader h = false -> forall it, trailer_of h = Some it ->
    take 4 (drop 8 (it_payload it)) = be32 (u32 (- (16 * Zlen (entries h)))).

Lemma shiftr_be32 d : in_width 32 d ->
  [u8 (Z.shiftr d 24); u8 (Z.shiftr d 16); u8 (Z.shiftr d 8); u8 d] = be32 d.
Proof.
  intros Hd. unfold be32, be16, in_width in *. simpl.
  rewrite !Z.shiftr_div_pow2 by lia. unfold wrap. change (2 ^ 8) with 256. change (2 ^ 16) with 65536.
  change (2 ^ 24) with 16777216. change (2 ^ 32) with 4294967296 in *.
  repeat match goal with |- _ :: _ = _ :: _ => apply (f_equal2 cons) end; [..|done];
    Z.to_euclidean_division_equations; lia.
Qed.

Lemma put_negative_offset_eq d p :
  in_width 32 d -> length p = 16%nat ->
  put_negative_offset d p = take 8 p ++ be32 d ++ drop 12 p.
Proof.
  intros Hd Hp. rewrite <- (shiftr_be32 d Hd).
  do 17 (destruct p as [|? p]; [done|]); done.
Qed.

Lemma length_region_payload n p : length p = 16%nat -> length (region_payload n p) = 16%nat.
Proof. intros Hp. unfold region_payload. rewrite !length_app, length_take, length_drop, length_be32. lia. Qed.

Lemma region_payload_twice n m p :
  length p = 16%nat -> region_payload n (region_payload m p) = region_payload n p.
Proof.
  intros Hp. unfold region_payload at 1 3. f_equal; [|f_equal].
  - unfold region_payload. rewrite take_app_length' by (rewrite length_take; lia). done.
  - unfold region_payload. rewrite app_assoc, drop_app_length'; [done|].
    rewrite length_app, length_take, length_be32. lia.
Qed.

Lemma region_payload_field n p :
  length p = 16%nat -> take 4 (drop 8 (region_payload n p)) = be32 (u32 (- (16 * n))).
Proof.
  intros Hp. unfold region_payload. rewrite drop_app_length' by (rewrite length_take; lia).
  by rewrite take_app_length'.
Qed.

Lemma fix_entry_tag main n e : ie_tag (fix_entry main n e) = ie_tag e.
Proof. unfold fix_entry. by case_match. Qed.

Lemma fix_entry_payload main n e :
  entry_wf main e -> length (ie_payload (fix_entry main n e)) = length (ie_payload e).
Proof.
  intros He. unfold fix_entry. destruct main; [done|]. simpl.
  destruct (Z.eqb_spec (ie_tag e) TAG_HEADERSIGNATURES) as [Ht|]; [|done]. simpl.
  pose proof (ew_trailer _ _ He eq_refl Ht) as Hp. by rewrite Hp, length_region_payload.
Qed.

Lemma fix_entry_wf main n e : entry_wf main e -> entry_wf main (fix_entry main n e).
Proof.
  intros He. pose proof (fix_entry_payload main n e He) as Hlen. revert Hlen.
  unfold fix_entry. destruct main; [done|]. simpl.
  destruct (Z.eqb_spec (ie_tag e) TAG_HEADERSIGNATURES) as [Ht|]; [|done]. simpl. intros Hlen.
  pose proof (ew_trailer _ _ He eq_refl Ht) as Hp.
  destruct He as [H1 H2 H3 H4 H5 H6 H7 H8]. constructor; simpl; try done.
  - intros Hnil. rewrite Hnil, Hp in Hlen. done.
  - unfold region_payload. apply bytes_ok_app. split; [by apply Forall_take|].
    apply bytes_ok_app. split; [apply be32_ok|by apply Forall_drop].
  - rewrite Ht. done.
  - intros. by rewrite Hlen.
Qed.

Lemma fix_entry_size main n e : entry_wf main e -> size_of (fix_entry main n e) = size_of e.
Proof. intros He. unfold size_of, Zlen. by rewrite fix_entry_payload. Qed.

Lemma fix_entries_tags main n (l : list IndexEntry) : ie_tag <$> (fix_entry main n <$> l) = ie_tag <$> l.
Proof. rewrite <- list_fmap_compose. apply list_fmap_ext. intros. apply fix_entry_tag. Qed.

Lemma fix_entries_size main n l :
  Forall (entry_wf main) l -> total_size (fix_entry main n <$> l) = total_size l.
Proof.
  induction 1 as [|e l He _ IH]; [done|]. cbn [fmap list_fmap total_size].
  change (list_fmap _ _ (fix_entry main n) l) with (fix_entry main n <$> l).
  by rewrite fix_entry_size, IH.
Qed.

Lemma updateSignedRegionTrailer_run h :
  header_base h -> fits h 0 ->
  updateSignedRegionTrailer h =
    (Ok tt, set_signedRegion
       ((fun r => mkSignedRegion (u64 (DataStoreStartOffset h - 16 * Zlen (entries h)))
                    (Zlen (entries h)) (sr_Length r)) <$> signedRegion h)
       (with_entries (fix_entry (IsMainHeader h) (Zlen (entries h)) <$> entries h) h)).
Proof.
  intros [Hc Hs He Hr] Hfit. unfold fits in Hfit. pose proof (total_size_Zlen (entries h)) as Hn.
  pose proof (Zlen_nonneg (entries h)).
  unfold updateSignedRegionTrailer. destruct (IsMainHeader h) eqn:Em.
  { destruct (signedRegion h) as [r|] eqn:Er; [destruct (Hr ltac:(done)); done|]. simpl.
    rewrite (list_fmap_id (entries h) : (fix_entry true _ <$> entries h) = entries h).
    rewrite with_entries_id. f_equal. destruct h. simpl in *. by subst. }
  unfold FindIndexEntry. destruct (find_tag _ (entries h)) as [t|] eqn:Ef; cycle 1.
  { apply find_tag_None in Ef. destruct (signedRegion h) as [r|] eqn:Er; [destruct (Hr ltac:(done)); done|].
    simpl. assert (fix_entry false (Zlen (entries h)) <$> entries h = entries h) as ->.
    { rewrite <- (list_fmap_id (entries h)) at 3. apply list_fmap_ext. intros i e Hi.
      unfold fix_entry. simpl. destruct (Z.eqb_spec (ie_tag e) TAG_HEADERSIGNATURES) as [Ht|]; [|done].
      destruct Ef. simpl. rewrite <- Ht. apply list_elem_of_fmap_2. by eapply list_elem_of_lookup_2. }
    rewrite with_entries_id. f_equal. destruct h. simpl in *. by subst. }
  destruct (find_tag_split _ _ _ (sorted_nodup _ Hs) Ef) as (e & Hte & Htag & Hsplit & Hother).
  pose proof (Forall_lookup_1 _ _ _ _ He Hte) as Hwf.
  assert (length (ie_payload e) = 16%nat) as Hp by (apply (ew_trailer _ _ Hwf); [done|by rewrite Htag]).
  erewrite M_bind_ok by (unfold entry_at; by rewrite Hte).
  rewrite (proj2 (Z.eqb_eq (Zlen (ie_payload e)) 16)) by (unfold Zlen; lia). cbv zeta iota beta delta [negb].
  erewrite M_bind_ok by done. wrap_small_tac.
  replace (i32 (16 * Zlen (entries h))) with (16 * Zlen (entries h)); cycle 1.
  { unfold signed. wrap_small_tac. case_match; [done|lia]. }
  rewrite alter_entry_with.
  assert (alter (fun e0 => set_payload (put_negative_offset (u32 (- (16 * Zlen (entries h)))) (ie_payload e0)) e0)
            t (entries h) = fix_entry false (Zlen (entries h)) <$> entries h) as ->.
  { rewrite (alter_to_insert _ _ _ e Hte), put_negative_offset_eq by (done || (apply wrap_range; lia)).
    apply list_eq. intros j. rewrite list_lookup_fmap. destruct (decide (j = t)) as [->|Hne].
    - rewrite list_lookup_insert_eq by (by eapply lookup_lt_Some). rewrite Hte. simpl.
      unfold fix_entry. simpl. by rewrite (proj2 (Z.eqb_eq _ _)) by (by rewrite Htag).
    - rewrite list_lookup_insert_ne by done. destruct (entries h !! j) as [x|] eqn:Ej; [|done]. simpl.
      unfold fix_entry. simpl. destruct (Z.eqb_spec (ie_tag x) TAG_HEADERSIGNATURES) as [Hx|]; [|done].
      exfalso. apply Hne. apply (NoDup_lookup _ _ _ (ie_tag e) (sorted_nodup _ Hs));
        rewrite list_lookup_fmap; [rewrite Ej; simpl; by rewrite Hx, Htag|by rewrite Hte]. }
  unfold modify. simpl. f_equal. destruct (signedRegion h) as [r|] eqn:Er; simpl.
  - do 3 f_equal. rewrite (Z.mul_comm 16), Z.div_mul by lia. done.
  - destruct h. simpl in *. by subst.
Qed.
