(* ===== verification/HeaderOps.v ===== *)
(** The operations [insertIndexEntry] and [DeleteIndexEntryIfExists] on a
    header's index ([src/common/rpmparser.go]) refine the operations of the map of
    [HeaderSpec], insertion and deletion of one key. *)
From S2P Require Import Prelude Utils Serializer Tags Header Layout HeaderSpec.

(** ** What an operation leaves behind *)

(** [h'] is a well-formed, packed header that differs from [h] in its index, its
    store size and its signed region only, has the items [u] besides its trailer,
    and its trailer is that of [h], brought up to date. *)
Record modified (h h' : RpmHeader) (u : gmap Z item) : Prop := {
  md_wf : header_wf h';
  md_packed : packed h';
  md_frame : frame h' = frame h;
  md_region : is_Some (signedRegion h') <-> is_Some (signedRegion h);
  md_user : user_entries h' = u;
  md_trailer : trailer_of h' = fix_trailer (IsMainHeader h) (Zlen (entries h')) (trailer_of h);
}.

Lemma frame_main h h' : frame h' = frame h -> IsMainHeader h' = IsMainHeader h.
Proof. by intros [=]. Qed.

Lemma frame_trailer_tag h h' : frame h' = frame h -> trailer_tag h' = trailer_tag h.
Proof. intros Hf. unfold trailer_tag. by rewrite (frame_main _ _ Hf). Qed.

Lemma regionTrailerEntry_eq h : regionTrailerEntry h = find_tag (trailer_tag h) (entries h).
Proof. unfold regionTrailerEntry, trailer_tag, FindIndexEntry. by destruct (IsMainHeader h). Qed.

(** ** What the parser needs besides well-formedness *)

(** The reserved space, if there is one, is binary. *)
Definition reserved_binary (h : RpmHeader) : Prop :=
  forall it, user_entries h !! TAG_RESERVEDSPACE = Some it -> it_format it = FORMAT_TYPE_BINARY.

(** An operation keeps the trailer current and the reserved space binary. *)
Record kept (h h' : RpmHeader) : Prop := {
  kp_region : region_current h -> region_current h';
  kp_reserved : reserved_binary h -> reserved_binary h';
}.

#[export] Instance kept_preorder : PreOrder kept.
Proof. split; [by intros h|]. intros h1 h2 h3 [] []. split; auto. Qed.

(** The trailer of a well-formed signature header has sixteen bytes. *)
Lemma trailer_length h it :
  header_base h -> IsMainHeader h = false -> trailer_of h = Some it -> length (it_payload it) = 16%nat.
Proof.
  intros Hb Hm Ht. unfold trailer_of, trailer_tag in Ht. rewrite Hm in Ht.
  apply contents_Some in Ht as (e & He & Het & <-).
  pose proof (hb_entries _ Hb) as Hall. rewrite Forall_forall in Hall. rewrite Hm in Hall.
  by apply (ew_trailer _ _ (Hall e He)).
Qed.

Lemma modified_kept h h' u :
  header_base h -> modified h h' u ->
  (reserved_binary h -> forall it, u !! TAG_RESERVEDSPACE = Some it -> it_format it = FORMAT_TYPE_BINARY) ->
  kept h h'.
Proof.
  intros Hb Hm Hu. split; [|by intros Hr; unfold reserved_binary; rewrite (md_user _ _ _ Hm); auto].
  intros _ Hmain it Hit. rewrite (md_trailer _ _ _ Hm), (frame_main _ _ (md_frame _ _ _ Hm)) in *.
  unfold fix_trailer in Hit. rewrite Hmain in Hit. apply fmap_Some in Hit as (it0 & Hit & ->).
  apply region_payload_field. by eapply trailer_length.
Qed.

(** ** Bringing the trailer and the layout up to date *)

Lemma contents_strip l k : strip <$> l = strip <$> k -> contents l = contents k.
Proof. intros Hs. unfold contents. by rewrite (strip_fmap keyed l k). Qed.

Lemma contents_fix main n l t :
  contents (fix_entry main n <$> l) !! t =
    (if negb main && (t =? TAG_HEADERSIGNATURES) then fix_item n <$> contents l !! t
     else contents l !! t).
Proof.
  induction l as [|e l IH]; [by case_match|].
  change (contents (fix_entry main n <$> e :: l)) with
    (<[ie_tag (fix_entry main n e) := item_of (fix_entry main n e)]> (contents (fix_entry main n <$> l))).
  change (contents (e :: l)) with (<[ie_tag e := item_of e]> (contents l)).
  rewrite fix_entry_tag. destruct (decide (ie_tag e = t)) as [Ht|Hne].
  - rewrite Ht, !lookup_insert_eq. unfold fix_entry. rewrite Ht. by case_match.
  - rewrite !lookup_insert_ne by done. exact IH.
Qed.

Lemma entry_wf_strip main e : entry_wf main e <-> entry_wf main (strip e).
Proof. split; intros []; by constructor. Qed.

(** The array that holds the index. *)
Definition array (h : RpmHeader) : nat * nat := (cap (IndexEntries h), backing (IndexEntries h)).

Definition finish : M RpmHeader unit := _ ← updateSignedRegionTrailer; syncDataStoreLayout.

Lemma finish_run h :
  header_base h -> fits h 0 ->
  exists h', finish h = (Ok tt, h') /\ modified h h' (user_entries h) /\
    ie_tag <$> entries h' = ie_tag <$> entries h /\
    total_size (entries h') = total_size (entries h) /\ array h' = array h.
Proof.
  intros Hb Hfit. unfold finish.
  rewrite (M_bind_ok _ _ _ _ _ (updateSignedRegionTrailer_run h Hb Hfit)).
  set (n := Zlen (entries h)). set (main := IsMainHeader h). set (l1 := fix_entry main n <$> entries h).
  set (h1 := set_signedRegion _ _).
  assert (entries h1 = l1) as He1 by done.
  assert (Forall (entry_wf main) l1) as Hwf1.
  { apply Forall_fmap. eapply Forall_impl; [apply (hb_entries _ Hb)|]. intros e. apply fix_entry_wf. }
  assert (total_size l1 = total_size (entries h)) as Hts by (apply fix_entries_size, hb_entries; done).
  destruct (syncDataStoreLayout_packs h1) as (h' & Hrun & Hp & Hs & Hh').
  { rewrite He1. eapply Forall_impl; [exact Hwf1|]. intros e. apply ew_format. }
  { rewrite He1, Hts. unfold fits in Hfit. lia. }
  rewrite He1 in Hs. exists h'. split; [done|].
  assert (ie_tag <$> entries h' = ie_tag <$> entries h) as Htags.
  { rewrite (strip_fmap ie_tag _ l1) by done. apply fix_entries_tags. }
  assert (Zlen (entries h') = n) as Hn.
  { unfold n, Zlen. rewrite <- (length_fmap ie_tag), Htags, length_fmap. done. }
  assert (contents (entries h') = contents l1) as Hcont by (by apply contents_strip).
  assert (frame h' = frame h) as Hfr by (by rewrite Hh').
  assert (IsMainHeader h' = main) as Hm by (by rewrite (frame_main _ _ Hfr)).
  assert (signedRegion h' = signedRegion h1) as Hsr by (by rewrite Hh').
  split_and!; [|done|by rewrite (total_size_strip _ _ Hs)|by rewrite Hh']. constructor.
  - constructor.
    + constructor.
      * transitivity (indexEntryCount h); [by rewrite Hh'|]. rewrite Hn. apply Hb.
      * rewrite Htags. apply Hb.
      * rewrite Hm. eapply Forall_strip; [apply entry_wf_strip|exact Hs|done].
      * rewrite Hsr, Htags, Hm. unfold h1. simpl. rewrite fmap_is_Some. apply Hb.
    + intros r. rewrite Hsr, Hn. unfold h1. simpl. by intros (r' & _ & ->)%fmap_Some.
  - done.
  - done.
  - rewrite Hsr. unfold h1. simpl. apply fmap_is_Some.
  - unfold user_entries. rewrite (frame_trailer_tag _ _ Hfr), Hcont. apply map_eq. intros t.
    destruct (decide (trailer_tag h = t)) as [->|Hne]; [by rewrite !lookup_delete_eq|].
    rewrite !lookup_delete_ne by done. unfold l1. rewrite contents_fix.
    unfold trailer_tag in Hne. fold main in Hne. destruct main; [done|]. simpl in *.
    by rewrite (proj2 (Z.eqb_neq _ _)) by done.
  - unfold trailer_of. rewrite (frame_trailer_tag _ _ Hfr), Hcont, Hn. unfold l1. rewrite contents_fix.
    unfold trailer_tag. fold main. by destruct main.
Qed.

(** ** Insertion and deletion *)

Section Ops.
Context `{Runtime}.

Lemma insertIndexEntry_finish e h :
  insertIndexEntry e h =
    finish (set_indexEntryCount (u32 (indexEntryCount h + 1))
              (set_IndexEntries (fun s => Insert s (insert_position (ie_tag e) (entries h)) e) h)).
Proof. done. Qed.

Lemma insertIndexEntry_run e h :
  header_base h -> entry_wf (IsMainHeader h) e -> ie_tag e ∉ ie_tag <$> entries h ->
  ie_tag e <> trailer_tag h -> fits h (size_of e) ->
  exists h', insertIndexEntry e h = (Ok tt, h') /\
    modified h h' (<[ie_tag e := item_of e]> (user_entries h)) /\
    total_size (entries h') = total_size (entries h) + size_of e /\
    ie_tag <$> entries h' ≡ₚ ie_tag e :: (ie_tag <$> entries h) /\
    ((length (entries h) + 1 <=? cap (IndexEntries h))%nat = false ->
     (array h').2 = S (array h).2).
Proof.
  intros Hb He Hfresh Htr Hfit. rewrite insertIndexEntry_finish. unfold fits in Hfit.
  set (i := insert_position _ _). set (h1 := set_indexEntryCount _ _).
  set (l1 := take i (entries h) ++ e :: drop i (entries h)).
  assert (entries h1 = l1) as Hl1 by apply elems_Insert.
  assert (Permutation l1 (e :: entries h)) as Hperm.
  { unfold l1. rewrite <- Permutation_middle. by rewrite take_drop. }
  assert (total_size l1 = total_size (entries h) + size_of e) as Hts.
  { unfold l1. rewrite total_size_app. cbn [total_size].
    pose proof (total_size_app (take i (entries h)) (drop i (entries h))) as Ha.
    rewrite take_drop in Ha. lia. }
  assert (StronglySorted Z.lt (ie_tag <$> l1)) as Hs.
  { apply insert_position_sorted; [apply Hb|done]. }
  pose proof (total_size_Zlen (entries h)). pose proof (Zlen_nonneg (entries h)).
  pose proof (Zlen_nonneg (ie_payload e)).
  assert (header_base h1) as Hb1.
  { constructor.
    - rewrite Hl1. unfold h1. simpl. rewrite (hb_count _ Hb). unfold size_of in Hfit.
      rewrite wrap_small by (unfold in_width; lia). unfold Zlen.
      rewrite Hperm. simpl. lia.
    - by rewrite Hl1.
    - rewrite Hl1, Hperm. constructor; [done|apply Hb].
    - rewrite Hl1. unfold h1. simpl. intros Hr. apply Hb in Hr as [Hm Hin].
      split; [done|]. rewrite Hperm. apply elem_of_cons. by right. }
  destruct (finish_run h1 Hb1) as (h' & Hrun & [Hw Hp Hf Hr Hu Ht] & Htags & Hts' & Harr).
  { unfold fits. rewrite Hl1. lia. }
  exists h'. split; [done|]. rewrite Hl1 in Hts', Htags.
  assert (contents l1 = <[ie_tag e := item_of e]> (contents (entries h))) as Hc.
  { unfold l1. rewrite contents_middle by (by apply sorted_nodup). by rewrite take_drop. }
  split_and!; [constructor; try done|lia|by rewrite Htags, Hperm|]; cycle 2.
  { intros Hcap. rewrite Harr. unfold h1, array. simpl. unfold Insert. by rewrite Hcap. }
  - rewrite Hu. unfold user_entries. change (trailer_tag h1) with (trailer_tag h).
    rewrite Hl1, Hc. by rewrite delete_insert_ne.
  - rewrite Ht. unfold trailer_of. change (trailer_tag h1) with (trailer_tag h).
    change (IsMainHeader h1) with (IsMainHeader h). f_equal.
    rewrite Hl1, Hc. by rewrite lookup_insert_ne.
Qed.

Lemma DeleteIndexEntryIfExists_absent {T} `{TagValue T} (tag : T) h :
  ID tag ∉ ie_tag <$> entries h -> DeleteIndexEntryIfExists tag h = (Ok tt, h).
Proof.
  intros Hin. unfold DeleteIndexEntryIfExists, FindIndexEntry.
  by rewrite (proj2 (find_tag_None _ _) Hin).
Qed.

(** A header is still one after an entry other than the trailer has been removed. *)
Lemma without_entry_base h i e :
  header_base h -> entries h !! i = Some e -> entries h = take i (entries h) ++ e :: drop (S i) (entries h) ->
  ie_tag e <> trailer_tag h -> fits h 0 ->
  header_base (set_indexEntryCount (u32 (indexEntryCount h - 1))
    (set_IndexEntries (fun s => RemoveAtIndex s i) h)).
Proof.
  intros Hb Hi Hsplit Htr Hfit. unfold fits in Hfit. set (h1 := set_indexEntryCount _ _).
  set (l1 := take i (entries h) ++ drop (S i) (entries h)). assert (entries h1 = l1) as Hl1 by done.
  assert (Permutation (entries h) (e :: l1)) as Hperm.
  { rewrite Hsplit at 1. unfold l1. by rewrite Permutation_middle. }
  pose proof (total_size_Zlen (entries h)). pose proof (Zlen_nonneg l1).
  assert (Zlen (entries h) = 1 + Zlen l1) as Hn by (unfold Zlen; rewrite Hperm; simpl; lia).
  pose proof (hb_sorted _ Hb) as Hsort. rewrite Hsplit, fmap_app, fmap_cons in Hsort.
  apply StronglySorted_app in Hsort as (Hc & Hs1 & Hs2). apply StronglySorted_cons in Hs2 as [Hx Hs2].
  constructor; rewrite ?Hl1.
  - unfold h1. simpl. rewrite (hb_count _ Hb). rewrite wrap_small by (unfold in_width; lia). lia.
  - unfold l1. rewrite fmap_app. apply StronglySorted_app_2; [|done..].
    intros x1 x2 Hx1 Hx2. apply Hc; [done|]. by right.
  - pose proof (hb_entries _ Hb) as He. rewrite Hperm in He. by apply Forall_cons in He as [_ He].
  - unfold h1. simpl. intros Hr. apply (hb_region _ Hb) in Hr as [Hm Hin'].
    split; [done|]. rewrite Hperm in Hin'. apply elem_of_cons in Hin' as [Heq|]; [|done].
    destruct Htr. rewrite <- Heq. unfold trailer_tag. by rewrite Hm.
Qed.

Lemma DeleteIndexEntryIfExists_present {T} `{TagValue T} (tag : T) h :
  header_base h -> ID tag ∈ ie_tag <$> entries h -> ID tag <> trailer_tag h -> fits h 0 ->
  exists h', DeleteIndexEntryIfExists tag h = (Ok tt, h') /\
    modified h h' (delete (ID tag) (user_entries h)) /\
    total_size (entries h') <= total_size (entries h) /\
    ie_tag <$> entries h ≡ₚ ID tag :: (ie_tag <$> entries h').
Proof.
  intros Hb Hin Htr Hfit. unfold DeleteIndexEntryIfExists, FindIndexEntry. unfold fits in Hfit.
  destruct (find_tag (ID tag) (entries h)) as [i|] eqn:Ef; [|by apply find_tag_None in Ef].
  destruct (find_tag_split _ _ _ (sorted_nodup _ (hb_sorted _ Hb)) Ef) as (e & Hi & Ht & Hsplit & Hother).
  rewrite (M_bind_ok _ _ _ e h) by (unfold entry_at; by rewrite Hi).
  unfold DeleteIndexEntry. rewrite Ht, Ef.
  change (_ ← updateSignedRegionTrailer; syncDataStoreLayout) with finish.
  set (h1 := set_indexEntryCount _ _). set (l1 := take i (entries h) ++ drop (S i) (entries h)).
  assert (entries h1 = l1) as Hl1 by done.
  assert (Permutation (entries h) (e :: l1)) as Hperm.
  { rewrite Hsplit at 1. unfold l1. by rewrite Permutation_middle. }
  assert (total_size (entries h) = total_size l1 + size_of e) as Hts.
  { rewrite Hsplit at 1. unfold l1. rewrite !total_size_app. cbn [total_size]. lia. }
  assert (header_base h1) as Hb1 by (apply (without_entry_base h i e); [done..|congruence|done]).
  pose proof (Zlen_nonneg (ie_payload e)).
  destruct (finish_run h1 Hb1) as (h' & Hrun & [Hw Hp Hf Hr Hu Htrl] & Htags & Hts' & _).
  { unfold fits. rewrite Hl1. unfold size_of in *. lia. }
  exists h'. split; [done|]. rewrite Hl1 in Hts', Htags.
  assert (contents (entries h) = <[ID tag := item_of e]> (contents l1)) as Hcont.
  { rewrite Hsplit, contents_middle, Ht; [done|]. rewrite <- Hsplit. apply sorted_nodup, Hb. }
  assert (contents l1 !! ID tag = None) as Hnone.
  { apply contents_not_in. intros (e' & Heq & He')%list_elem_of_fmap. by apply (Hother e' He'). }
  split_and!; [constructor; try done| |by rewrite Htags, Hperm, <- Ht].
  - rewrite Hu. unfold user_entries. change (trailer_tag h1) with (trailer_tag h).
    rewrite Hl1, Hcont, delete_insert_ne, delete_insert_id; [done| |done].
    by rewrite lookup_delete_ne.
  - rewrite Htrl. unfold trailer_of. change (trailer_tag h1) with (trailer_tag h).
    change (IsMainHeader h1) with (IsMainHeader h). f_equal.
    rewrite Hl1, Hcont. by rewrite lookup_insert_ne.
  - unfold size_of in *. lia.
Qed.
End Ops.
