(* ===== verification/Allocation.v ===== *)
(** The data store allocator ([allocateSpaceInDatastore] of
    [src/common/rpmparser.go]): it terminates, hands out aligned bytes that no
    entry other than the region trailer uses, and changes the reserved space
    only. *)
From S2P Require Import Prelude Utils Serializer Tags Header Layout HeaderSpec HeaderOps.

(** ** The entries besides the trailer *)

Definition others (trailer : option nat) (l : list IndexEntry) : list IndexEntry :=
  snd <$> filter (fun p => trailer <> Some p.1) (imap pair l).

Lemma elem_of_others trailer l e :
  e ∈ others trailer l <-> exists j, l !! j = Some e /\ trailer <> Some j.
Proof.
  unfold others. rewrite list_elem_of_fmap. split.
  - intros ([j e'] & -> & [Hne Hin]%list_elem_of_filter).
    apply elem_of_lookup_imap in Hin as (j' & x & [= -> ->] & Hj). by exists j'.
  - intros (j & Hj & Hne). exists (j, e). split; [done|]. apply list_elem_of_filter.
    split; [done|]. apply elem_of_lookup_imap. eauto.
Qed.

Lemma foldl_others {A} (g : A -> IndexEntry -> A) trailer a (l : list (nat * IndexEntry)) :
  foldl (fun acc ie => let '(idx, e) := (ie : nat * IndexEntry) in
           if bool_decide (trailer = Some idx) then acc else g acc e) a l =
  foldl g a (snd <$> filter (fun p => trailer <> Some p.1) l).
Proof.
  revert a. induction l as [|[i e] l IH]; intros a; [done|]. simpl.
  case_bool_decide as Ht; rewrite IH.
  - by rewrite filter_cons_False by naive_solver.
  - by rewrite filter_cons_True by done.
Qed.

Lemma largest_end_spec trailer l :
  let r := largest_end trailer l in
  0 <= r.1 /\ (forall e, e ∈ others trailer l -> endOffset e <= r.1) /\
  match r.2 with
  | Some m => m ∈ others trailer l /\ endOffset m = r.1
  | None => r.1 = 0
  end.
Proof.
  unfold largest_end.
  rewrite (foldl_others (fun acc e => if endOffset e >? acc.1 then (endOffset e, Some e) else acc)).
  fold (others trailer l). induction (others trailer l) as [|e k IH] using rev_ind; simpl.
  { split_and!; [done|intros e He; by apply elem_of_nil in He|done]. }
  rewrite foldl_app. simpl. destruct IH as (H0 & H1 & H2).
  destruct (Z.gtb_spec (endOffset e) (foldl (fun (acc : Z * option IndexEntry) e0 =>
    if endOffset e0 >? acc.1 then (endOffset e0, Some e0) else acc) (0, None) k).1) as [Hgt|Hle]; simpl.
  - split_and!; [lia| |apply elem_of_app; right; by apply list_elem_of_singleton|done].
    intros e' [He'|He'%list_elem_of_singleton]%elem_of_app; [apply H1 in He'; lia|subst; lia].
  - split_and!; [done| |].
    + intros e' [He'|He'%list_elem_of_singleton]%elem_of_app; [by apply H1|subst; lia].
    + case_match; [|done]. destruct H2. split; [|done]. apply elem_of_app. by left.
Qed.

Lemma largest_offset_spec trailer l :
  match largest_offset trailer l with
  | Some m => m ∈ others trailer l /\ forall e, e ∈ others trailer l -> ie_offset e <= ie_offset m
  | None => others trailer l = []
  end.
Proof.
  unfold largest_offset.
  rewrite (foldl_others (fun acc e => match acc with None => Some e
    | Some m => if ie_offset e >? ie_offset m then Some e else acc end)).
  fold (others trailer l). induction (others trailer l) as [|e k IH] using rev_ind; [done|].
  rewrite foldl_app. simpl. case_match eqn:E.
  - destruct IH as [H1 H2]. destruct (Z.gtb_spec (ie_offset e) (ie_offset i)).
    + split; [apply elem_of_app; right; by apply list_elem_of_singleton|].
      intros e' [He'|He'%list_elem_of_singleton]%elem_of_app; [apply H2 in He'; lia|subst; lia].
    + split; [apply elem_of_app; by left|].
      intros e' [He'|He'%list_elem_of_singleton]%elem_of_app; [by apply H2|subst; lia].
  - rewrite IH. split; [by apply list_elem_of_singleton|].
    intros e' ->%list_elem_of_singleton. lia.
Qed.

(** An entry behind the start of the store is found. *)
Lemma isAtEndOfDataStore_run h e j x :
  entries h !! j = Some x -> regionTrailerEntry h <> Some j -> 0 < endOffset x ->
  exists m, isAtEndOfDataStore e h = Ok (ie_tag m =? ie_tag e) /\
    m ∈ others (regionTrailerEntry h) (entries h) /\
    forall y, y ∈ others (regionTrailerEntry h) (entries h) -> endOffset y <= endOffset m.
Proof.
  intros Hj Ht Hx. unfold isAtEndOfDataStore.
  destruct (largest_end_spec (regionTrailerEntry h) (entries h)) as (H0 & H1 & H2).
  destruct (largest_end _ _) as [s [m|]]; simpl in *.
  - destruct H2 as [H2 H3]. exists m. split_and!; [done..|]. intros y Hy. rewrite H3. by apply H1.
  - assert (endOffset x <= s); [|lia]. apply H1, elem_of_others. by exists j.
Qed.

Lemma endOffset_end_of e :
  0 <= ie_offset e -> end_of e < 2 ^ 32 -> endOffset e = end_of e.
Proof.
  intros H0 H1. unfold endOffset, end_of in *. pose proof (Zlen_nonneg (ie_payload e)). by wrap_small_tac.
Qed.

Lemma FindNext_binary h :
  (forall e, e ∈ others (regionTrailerEntry h) (entries h) -> 0 <= ie_offset e /\ end_of e < 2 ^ 32) ->
  match largest_offset (regionTrailerEntry h) (entries h) with
  | Some m => FindNextSuitablePayloadOffset FORMAT_TYPE_BINARY h = Ok (end_of m)
  | None => FindNextSuitablePayloadOffset FORMAT_TYPE_BINARY h = Ok 0
  end.
Proof.
  intros Hb. unfold FindNextSuitablePayloadOffset.
  pose proof (largest_offset_spec (regionTrailerEntry h) (entries h)) as Hs.
  destruct (largest_offset _ _) as [m|]; [|done]. destruct Hs as [Hm _].
  destruct (Hb m Hm) as [H0 H1]. pose proof (endOffset_end_of m H0 H1) as He.
  unfold endOffset in He. rewrite He. simpl. unfold mret, outcome_ret.
  f_equal. rewrite Z.add_0_r. apply wrap_small. unfold in_width.
  pose proof (Zlen_nonneg (ie_payload m)). unfold end_of in *. lia.
Qed.

(** Looking for space at the end never fails for binary data. *)
Lemma not_ok_FindNext h o :
  (forall a, o <> Ok a) -> FindNextSuitablePayloadOffset FORMAT_TYPE_BINARY h <> o.
Proof.
  intros Ho. unfold FindNextSuitablePayloadOffset. case_match; [|done]. simpl. done.
Qed.

(** ** One call of the allocator *)

Section Alloc.
Context `{Runtime}.

(** The reserved space [r] at index [idx] of a header. *)
Record reserved_at (h : RpmHeader) (idx : nat) (r : IndexEntry) : Prop := {
  ra_find : find_tag TAG_RESERVEDSPACE (entries h) = Some idx;
  ra_lookup : entries h !! idx = Some r;
  ra_offset : 0 <= ie_offset r;
  ra_count : ie_dataItemCnt r = Zlen (ie_payload r);
  ra_payload : ie_payload r <> [];
  ra_end : end_of r < 2 ^ 31;
}.

Lemma reserved_not_trailer h idx r : reserved_at h idx r -> regionTrailerEntry h <> Some idx.
Proof.
  intros Hr Ht. rewrite regionTrailerEntry_eq in Ht.
  apply find_tag_lookup in Ht as (e & He & Htag & _).
  destruct (find_tag_lookup _ _ _ (ra_find _ _ _ Hr)) as (e' & He' & Htag' & _). simplify_eq.
  rewrite Htag in Htag'. unfold trailer_tag in Htag'. by destruct (IsMainHeader h).
Qed.

Definition with_reserved (idx : nat) (r : IndexEntry) (h : RpmHeader) : RpmHeader :=
  with_entries (<[idx := r]> (entries h)) h.

(** What is left of a reserved space of [cnt] bytes. *)
Definition remainder (cnt actual : Z) : Z :=
  if cnt =? actual then RESERVED_SPACE_ALLOCATION_SIZE else cnt - actual.

Lemma endOffset_reserved h idx r : reserved_at h idx r -> 0 < endOffset r.
Proof.
  intros [_ _ H0 _ Hp He]. rewrite endOffset_end_of by (done || lia).
  apply Zlen_pos in Hp. unfold end_of. lia.
Qed.

Lemma alloc_enough n req f h idx r :
  let pad := pad_to (alignment_of f) (ie_offset r) in
  reserved_at h idx r -> known_format f -> 0 <= req < 2 ^ 31 -> req + pad <= ie_dataItemCnt r ->
  allocateSpaceInDatastore (S n) req f h =
    (Ok (ie_offset r + pad),
     with_reserved idx (resize_reserved (ie_offset r + (req + pad))
                          (remainder (ie_dataItemCnt r) (req + pad)) r) h).
Proof.
  intros pad Hr Hf Hreq Hle. pose proof Hr as [Hfind Hlk H0 Hc Hp He].
  pose proof (pad_bounds f (ie_offset r)) as Hpad. fold pad in Hpad.
  pose proof (Zlen_pos _ Hp). unfold end_of in He.
  destruct (isAtEndOfDataStore_run h r idx r Hlk (reserved_not_trailer _ _ _ Hr) (endOffset_reserved _ _ _ Hr))
    as (m & Hm & _).
  simpl. erewrite M_bind_ok by (unfold gets, FindIndexEntry; simpl; by rewrite Hfind). cbv iota.
  erewrite M_bind_ok by (unfold entry_at; by rewrite Hlk).
  erewrite M_bind_ok by (unfold gets; by rewrite Hm).
  erewrite M_bind_ok by (unfold lift; rewrite GetRequiredAlignment_known by done; done).
  erewrite M_bind_ok by (unfold lift; rewrite CalcAlignment_format by (unfold in_width; lia); done).
  cbv zeta. fold pad. wrap_small_tac. unfold remainder, RESERVED_SPACE_ALLOCATION_SIZE.
  destruct (Z.gtb_spec (ie_dataItemCnt r - (req + pad)) 0).
  - erewrite M_bind_ok by done. unfold mret, M_ret. f_equal.
    rewrite (proj2 (Z.eqb_neq _ _)) by lia. unfold with_reserved.
    rewrite alter_entry_with. by rewrite (alter_to_insert _ _ _ r).
  - rewrite (proj2 (Z.eqb_eq (_ - _) 0)) by lia. erewrite M_bind_ok by done. unfold mret, M_ret. f_equal.
    rewrite (proj2 (Z.eqb_eq _ _)) by lia. unfold with_reserved.
    rewrite alter_entry_with. by rewrite (alter_to_insert _ _ _ r).
Qed.

(** Too little space: the reserved space grows, where it is or at the end of the
    store, and the allocator tries again. *)
Lemma alloc_grow n req f h idx r :
  let pad := pad_to (alignment_of f) (ie_offset r) in
  let grown o := with_reserved idx (resize_reserved o (req + pad + RESERVED_SPACE_ALLOCATION_SIZE) r) h in
  reserved_at h idx r -> known_format f -> 0 <= req < 2 ^ 31 - 2 ^ 16 -> ie_dataItemCnt r < req + pad ->
  exists m, m ∈ others (regionTrailerEntry h) (entries h) /\
    (forall y, y ∈ others (regionTrailerEntry h) (entries h) -> endOffset y <= endOffset m) /\
    if ie_tag m =? ie_tag r
    then allocateSpaceInDatastore (S n) req f h = allocateSpaceInDatastore n req f (grown (ie_offset r))
    else forall o, FindNextSuitablePayloadOffset FORMAT_TYPE_BINARY (grown (ie_offset r)) = Ok o ->
      allocateSpaceInDatastore (S n) req f h = allocateSpaceInDatastore n req f (grown o).
Proof.
  intros pad grown Hr Hf Hreq Hlt. pose proof Hr as [Hfind Hlk H0 Hc Hp He].
  pose proof (pad_bounds f (ie_offset r)) as Hpad. fold pad in Hpad.
  pose proof (Zlen_pos _ Hp). unfold end_of in He.
  destruct (isAtEndOfDataStore_run h r idx r Hlk (reserved_not_trailer _ _ _ Hr) (endOffset_reserved _ _ _ Hr))
    as (m & Hm & Hmo & Hmax).
  exists m. split_and!; [done..|].
  assert (forall b, isAtEndOfDataStore r h = Ok b ->
    allocateSpaceInDatastore (S n) req f h =
      (if b then allocateSpaceInDatastore n req f
       else o ← gets (FindNextSuitablePayloadOffset FORMAT_TYPE_BINARY);
            _ ← modify (alter_entry idx (set_offset o));
            allocateSpaceInDatastore n req f) (grown (ie_offset r))) as Hstep.
  { intros b Hb. simpl. erewrite M_bind_ok by (unfold gets, FindIndexEntry; simpl; by rewrite Hfind).
    cbv iota. erewrite M_bind_ok by (unfold entry_at; by rewrite Hlk).
    erewrite M_bind_ok by (unfold gets; by rewrite Hb).
    erewrite M_bind_ok by (unfold lift; rewrite GetRequiredAlignment_known by done; done).
    erewrite M_bind_ok by (unfold lift; rewrite CalcAlignment_format by (unfold in_width; lia); done).
    cbv zeta. fold pad. wrap_small_tac.
    destruct (Z.gtb_spec (ie_dataItemCnt r - (req + pad)) 0); [lia|].
    rewrite (proj2 (Z.eqb_neq (_ - _) 0)) by lia. erewrite M_bind_ok by done.
    rewrite alter_entry_with. by rewrite (alter_to_insert _ _ _ r). }
  case_match; [exact (Hstep true Hm)|]. intros o Ho. rewrite (Hstep false Hm).
  erewrite M_bind_ok by (unfold gets; by rewrite Ho). erewrite M_bind_ok by done. f_equal.
  rewrite alter_entry_with. unfold grown, with_reserved. rewrite entries_with_entries, with_entries_twice.
  f_equal. erewrite alter_to_insert by (apply list_lookup_insert_eq; by eapply lookup_lt_Some).
  by rewrite list_insert_insert_eq.
Qed.
(** ** What an allocation leaves behind *)

Record allocated (h h' : RpmHeader) (req f a : Z) : Prop := {
  al_wf : header_wf h';
  al_frame : frame h' = frame h;
  al_region : is_Some (signedRegion h') <-> is_Some (signedRegion h);
  al_user : delete TAG_RESERVEDSPACE (user_entries h') = delete TAG_RESERVEDSPACE (user_entries h);
  al_trailer n : fix_trailer (IsMainHeader h) n (trailer_of h') =
                 fix_trailer (IsMainHeader h) n (trailer_of h);
  al_kept : kept h h';
  al_tags t : t ∈ ie_tag <$> entries h' <-> t ∈ ie_tag <$> entries h \/ t = TAG_RESERVEDSPACE;
  al_size : total_size (entries h') <= total_size (entries h) + req + 8300;
  al_aligned : a mod alignment_of f = 0;
  al_free e : e ∈ others (regionTrailerEntry h') (entries h') ->
    end_of e <= a \/ a + req <= ie_offset e;
}.

Lemma total_size_insert idx (r r' : IndexEntry) l :
  l !! idx = Some r -> total_size (<[idx := r']> l) = total_size l - size_of r + size_of r'.
Proof.
  intros Hi. pose proof (take_drop_middle l idx r Hi) as Hl.
  rewrite <- Hl at 2. rewrite insert_take_drop by (by eapply lookup_lt_Some).
  rewrite !total_size_app. simpl. lia.
Qed.

Lemma with_reserved_tags h idx r o s :
  entries h !! idx = Some r ->
  ie_tag <$> entries (with_reserved idx (resize_reserved o s r) h) = ie_tag <$> entries h.
Proof.
  intros Hi. unfold with_reserved. rewrite entries_with_entries, list_fmap_insert.
  apply list_insert_id. by rewrite list_lookup_fmap, Hi.
Qed.

Lemma find_tag_tags t l k : ie_tag <$> l = ie_tag <$> k -> find_tag t l = find_tag t k.
Proof.
  unfold find_tag. revert k. induction l as [|e l IH]; intros [|e' k]; try done.
  intros [= H1 H2]. specialize (IH k H2). simpl. rewrite H1.
  destruct (decide (ie_tag e' = t)); [done|].
  destruct (list_find _ l) as [[??]|], (list_find _ k) as [[??]|]; simpl in *; congruence.
Qed.

Lemma with_reserved_trailer h idx r o s :
  entries h !! idx = Some r ->
  regionTrailerEntry (with_reserved idx (resize_reserved o s r) h) = regionTrailerEntry h.
Proof.
  intros Hi. rewrite !regionTrailerEntry_eq. apply find_tag_tags. by apply with_reserved_tags.
Qed.

Lemma contents_with_reserved h idx r o s :
  StronglySorted Z.lt (ie_tag <$> entries h) -> entries h !! idx = Some r ->
  contents (entries (with_reserved idx (resize_reserved o s r) h)) =
    <[ie_tag r := mkItem (ie_formatType r) (u32 s) (zeros (Z.to_nat s))]> (contents (entries h)).
Proof.
  intros Hs Hi. pose proof (take_drop_middle _ _ _ Hi) as Hl.
  unfold with_reserved. rewrite entries_with_entries, insert_take_drop by (by eapply lookup_lt_Some).
  pose proof (sorted_nodup _ Hs) as Hnd. rewrite contents_middle.
  - rewrite <- Hl at 3. rewrite contents_middle by (by rewrite Hl). simpl.
    by rewrite insert_insert_eq.
  - rewrite fmap_app, fmap_cons. rewrite <- Hl, fmap_app, fmap_cons in Hnd. done.
Qed.

Lemma with_reserved_wf h idx r o s :
  header_wf h -> reserved_at h idx r -> 0 < s < 2 ^ 31 ->
  header_wf (with_reserved idx (resize_reserved o s r) h).
Proof.
  intros [[Hc Hs He Hr] Hrc] Hra Hs0. pose proof (ra_lookup _ _ _ Hra) as Hi.
  pose proof (with_reserved_tags h idx r o s Hi) as Htags.
  assert (Zlen (entries (with_reserved idx (resize_reserved o s r) h)) = Zlen (entries h)) as Hn.
  { unfold Zlen. rewrite <- (length_fmap ie_tag), Htags, length_fmap. done. }
  destruct (find_tag_lookup _ _ _ (ra_find _ _ _ Hra)) as (r' & Hr' & Htag & _). simplify_eq.
  constructor; [constructor|].
  - by rewrite Hn.
  - by rewrite Htags.
  - unfold with_reserved. rewrite entries_with_entries. apply Forall_insert; [done|].
    destruct (Forall_lookup_1 _ _ _ _ He Hi) as [H1 H2 H3 H4 H5 H6 H7 H8].
    constructor; simpl; try done.
    + apply wrap_range. lia.
    + intros Hz. apply (f_equal length) in Hz. rewrite length_zeros in Hz. simpl in Hz. lia.
    + apply zeros_bytes_ok.
    + intros _. rewrite Zlen_zeros, wrap_small by (unfold in_width; lia). lia.
    + rewrite Htag. done.
  - by rewrite Htags.
  - intros x Hx. rewrite Hn. by apply Hrc.
Qed.

Lemma with_reserved_kept h idx r o s :
  header_wf h -> reserved_at h idx r -> kept h (with_reserved idx (resize_reserved o s r) h).
Proof.
  intros Hwf Hra. pose proof (ra_lookup _ _ _ Hra) as Hi. set (h' := with_reserved _ _ _).
  destruct (find_tag_lookup _ _ _ (ra_find _ _ _ Hra)) as (r' & Hr' & Htag & _). simplify_eq.
  assert (contents (entries h') = _) as Hc by (apply contents_with_reserved; [apply Hwf|done]).
  assert (trailer_tag h <> TAG_RESERVEDSPACE) as Htt by (unfold trailer_tag; by destruct (IsMainHeader h)).
  rewrite Htag in Hc. split.
  - unfold region_current, trailer_of. change (trailer_tag h') with (trailer_tag h).
    rewrite Hc, lookup_insert_ne by done. intros Hcur Hm it Hit. rewrite (Hcur Hm it Hit).
    unfold Zlen. rewrite <- (length_fmap ie_tag (entries h')). unfold h'.
    by rewrite with_reserved_tags, length_fmap.
  - intros Hb it. unfold reserved_binary, user_entries in *. change (trailer_tag h') with (trailer_tag h).
    rewrite Hc, delete_insert_ne, lookup_insert_eq by done. intros [= <-]. simpl.
    apply (Hb (item_of r)). rewrite lookup_delete_ne by done. rewrite <- Htag.
    apply contents_in; [apply sorted_nodup, Hwf|by eapply list_elem_of_lookup_2].
Qed.

(** The reserved space after an allocation of [req] bytes from it. *)
Lemma allocated_from_reserved h idx r req f :
  let pad := pad_to (alignment_of f) (ie_offset r) in
  header_wf h -> reserved_at h idx r -> known_format f -> 0 < req < 2 ^ 30 ->
  req + pad <= ie_dataItemCnt r ->
  (forall j e, entries h !! j = Some e -> regionTrailerEntry h <> Some j -> j <> idx ->
     end_of e <= ie_offset r \/ end_of r <= ie_offset e) ->
  let h' := with_reserved idx (resize_reserved (ie_offset r + (req + pad))
                          (remainder (ie_dataItemCnt r) (req + pad)) r) h in
  header_wf h' /\ frame h' = frame h /\ signedRegion h' = signedRegion h /\
  delete TAG_RESERVEDSPACE (user_entries h') = delete TAG_RESERVEDSPACE (user_entries h) /\
  trailer_of h' = trailer_of h /\ ie_tag <$> entries h' = ie_tag <$> entries h /\
  total_size (entries h') <= total_size (entries h) + 4096 /\
  (ie_offset r + pad) mod alignment_of f = 0 /\
  (forall e, e ∈ others (regionTrailerEntry h') (entries h') ->
     end_of e <= ie_offset r + pad \/ ie_offset r + pad + req <= ie_offset e).
Proof.
  intros pad Hwf Hra Hf Hreq Hle Hapart h'. pose proof Hra as [Hfind Hlk H0 Hc Hp He].
  pose proof (pad_bounds f (ie_offset r)) as Hpad. fold pad in Hpad.
  destruct (find_tag_lookup _ _ _ Hfind) as (r' & Hr' & Htag & _). simplify_eq.
  assert (0 < remainder (ie_dataItemCnt r) (req + pad) < 2 ^ 31) as Hrem.
  { unfold remainder, RESERVED_SPACE_ALLOCATION_SIZE, end_of in *.
    destruct (Z.eqb_spec (ie_dataItemCnt r) (req + pad)); lia. }
  assert (remainder (ie_dataItemCnt r) (req + pad) <= ie_dataItemCnt r + 4096) as Hrem2.
  { unfold remainder, RESERVED_SPACE_ALLOCATION_SIZE. pose proof (Zlen_nonneg (ie_payload r)).
    destruct (Z.eqb_spec (ie_dataItemCnt r) (req + pad)); lia. }
  assert (trailer_tag h <> TAG_RESERVEDSPACE) as Htt by (unfold trailer_tag; by destruct (IsMainHeader h)).
  assert (contents (entries h') = _) as Hcont by (apply contents_with_reserved; [apply Hwf|done]).
  split_and!; try done.
  - by apply with_reserved_wf.
  - unfold user_entries. change (trailer_tag h') with (trailer_tag h). rewrite Hcont, Htag.
    rewrite delete_insert_ne by done. by rewrite delete_insert_eq.
  - unfold trailer_of. change (trailer_tag h') with (trailer_tag h). rewrite Hcont, Htag.
    by rewrite lookup_insert_ne.
  - by apply with_reserved_tags.
  - unfold h', with_reserved. rewrite entries_with_entries, (total_size_insert _ r) by done.
    unfold size_of, resize_reserved. simpl. rewrite Zlen_zeros, Z2Nat.id by lia. lia.
  - apply pad_to_aligned. pose proof (alignment_of_bounds f). lia.
  - intros e (j & Hj & Ht)%elem_of_others. unfold h' in Ht. rewrite with_reserved_trailer in Ht by done.
    unfold h', with_reserved in Hj. rewrite entries_with_entries in Hj.
    destruct (decide (j = idx)) as [->|Hne].
    + rewrite list_lookup_insert_eq in Hj by (by eapply lookup_lt_Some). injection Hj as <-.
      right. simpl. lia.
    + rewrite list_lookup_insert_ne in Hj by done.
      destruct (Hapart j e Hj Ht Hne) as [|Hd]; [left; lia|right]. unfold end_of in Hd. lia.
Qed.

(** ** The allocator as a whole *)

Lemma packed_layout_end trailer l : (packed_layout trailer l).2 <= total_size l.
Proof.
  unfold packed_layout. pose proof (layout_end trailer 0 0 l) as Hend.
  destruct trailer as [t|]; simpl; [|lia].
  destruct (l !! t) as [e|] eqn:He; simpl; [|lia].
  pose proof (layout_end_trailer t 0 0 l e He) as H1. simpl in H1.
  pose proof (pad_bounds (ie_formatType e) (layout (Some t) 0 0 l).2).
  unfold end_of, place_entry, size_of in *. simpl. lia.
Qed.

Lemma packed_bounds h e :
  packed h -> e ∈ entries h -> 0 <= ie_offset e /\ end_of e <= total_size (entries h).
Proof.
  intros Hp He. pose proof (packed_ok _ Hp) as Hok. split; [by eapply lo_aligned|].
  pose proof (packed_layout_end (regionTrailerEntry h) (entries h)) as Hend. rewrite Hp in Hend. simpl in Hend.
  pose proof (lo_store _ _ _ Hok e He). lia.
Qed.

Lemma reserved_of_packed h idx :
  header_wf h -> packed h -> fits h 0 -> find_tag TAG_RESERVEDSPACE (entries h) = Some idx ->
  exists r, reserved_at h idx r /\
    forall j e, entries h !! j = Some e -> regionTrailerEntry h <> Some j -> j <> idx ->
      if (j <? idx)%nat then end_of e <= ie_offset r else end_of r <= ie_offset e.
Proof.
  intros Hwf Hp Hfit Hf. destruct (find_tag_lookup _ _ _ Hf) as (r & Hr & Htag & _).
  pose proof (Forall_lookup_1 _ _ _ _ (hb_entries _ (hw_base _ Hwf)) Hr) as He.
  destruct (packed_bounds h r Hp) as [H0 H1]; [by eapply list_elem_of_lookup_2|]. unfold fits in Hfit.
  assert (reserved_at h idx r) as Hra.
  { constructor; try done; [by apply (ew_reserved _ _ He)|apply He|lia]. }
  exists r. split; [done|]. intros j e Hj Ht Hne.
  pose proof (packed_ok _ Hp) as Hok. pose proof (reserved_not_trailer _ _ _ Hra).
  destruct (Nat.ltb_spec j idx); eapply lo_order; try done; lia.
Qed.

Lemma payload_pos h j e :
  header_wf h -> entries h !! j = Some e -> ie_offset e < end_of e.
Proof.
  intros Hwf Hj. pose proof (Forall_lookup_1 _ _ _ _ (hb_entries _ (hw_base _ Hwf)) Hj) as He.
  pose proof (Zlen_pos _ (ew_payload _ _ He)). unfold end_of. lia.
Qed.

(** Where an enlarged reserved space starts, every other entry has ended. *)
(** Enlarging the reserved space, which the others lie apart from. *)
Section Grown.
Context (h : RpmHeader) (idx : nat) (r : IndexEntry).
Hypotheses (Hwf : header_wf h) (Hp : packed h) (Hfit : fits h 0) (Hra : reserved_at h idx r).
Hypothesis Hapart : forall j e, entries h !! j = Some e -> regionTrailerEntry h <> Some j -> j <> idx ->
  if (j <? idx)%nat then end_of e <= ie_offset r else end_of r <= ie_offset e.

(** An offset that the enlarged space can move to. *)
Definition behind_others (o : Z) : Prop :=
  0 <= o <= total_size (entries h) /\
  forall j e, entries h !! j = Some e -> regionTrailerEntry h <> Some j -> j <> idx -> end_of e <= o.

Lemma entry_bounds j e :
  entries h !! j = Some e ->
  0 <= ie_offset e /\ end_of e <= total_size (entries h) < 2 ^ 31 /\ ie_offset e < end_of e /\ endOffset e = end_of e.
Proof.
  intros Hj. unfold fits in Hfit. destruct (packed_bounds h e Hp) as [H0 H1]; [by eapply list_elem_of_lookup_2|].
  split; [done|]. split; [lia|]. split; [by apply (payload_pos h j e)|]. apply endOffset_end_of; lia.
Qed.

(** At the end of the store it stays where it is. *)
Lemma grown_in_place :
  (forall y, y ∈ others (regionTrailerEntry h) (entries h) -> endOffset y <= endOffset r) -> behind_others (ie_offset r).
Proof.
  intros Hmax. pose proof (ra_lookup _ _ _ Hra) as Hlk. destruct (entry_bounds idx r Hlk) as (H0 & H1 & H2 & Her).
  split; [lia|]. intros j e Hj Ht Hji. specialize (Hapart j e Hj Ht Hji).
  destruct (Nat.ltb_spec j idx); [done|]. destruct (entry_bounds j e Hj) as (_ & _ & Hpos & He).
  assert (endOffset e <= endOffset r); [|lia]. apply Hmax, elem_of_others. by exists j.
Qed.

Lemma others_resized o s e :
  e ∈ others (regionTrailerEntry h) (entries (with_reserved idx (resize_reserved o s r) h)) ->
  e = resize_reserved o s r \/ exists k, k <> idx /\ entries h !! k = Some e /\ regionTrailerEntry h <> Some k.
Proof.
  intros (k & Hk & Htk)%elem_of_others. unfold with_reserved in Hk. rewrite entries_with_entries in Hk.
  destruct (decide (k = idx)) as [->|Hki].
  - rewrite list_lookup_insert_eq in Hk by (eapply lookup_lt_Some; exact (ra_lookup _ _ _ Hra)). left. by injection Hk.
  - rewrite list_lookup_insert_ne in Hk by done. right. by exists k.
Qed.

(** Elsewhere it moves behind the entry with the largest offset, which is not itself:
    another entry ends behind it. *)
Lemma grown_moved s m o :
  m ∈ others (regionTrailerEntry h) (entries h) -> endOffset r <= endOffset m -> ie_tag m <> ie_tag r ->
  FindNextSuitablePayloadOffset FORMAT_TYPE_BINARY (with_reserved idx (resize_reserved (ie_offset r) s r) h) = Ok o ->
  0 <= s -> ie_offset r + s < 2 ^ 32 -> behind_others o.
Proof.
  intros (jm & Hjm & Htm)%elem_of_others Hend Hne Ho Hs0 Hs1. pose proof (ra_lookup _ _ _ Hra) as Hlk.
  destruct (entry_bounds idx r Hlk) as (Hr0 & Hr1 & Hr2 & Her). set (h1 := with_reserved _ _ h) in *.
  assert (regionTrailerEntry h1 = regionTrailerEntry h) as Ht1
    by by apply with_reserved_trailer.
  pose proof (FindNext_binary h1) as Hfn. pose proof (largest_offset_spec (regionTrailerEntry h1) (entries h1)) as Hlo.
  rewrite Ht1 in Hfn, Hlo.
  assert (jm <> idx) as Hjmi by (intros ->; simplify_eq).
  assert (forall k e, entries h !! k = Some e -> regionTrailerEntry h <> Some k -> k <> idx ->
    e ∈ others (regionTrailerEntry h) (entries h1)) as Hin.
  { intros k e Hk Htk Hki. apply elem_of_others. exists k. unfold h1, with_reserved.
    by rewrite entries_with_entries, list_lookup_insert_ne. }
  destruct (largest_offset _ _) as [q|]; [|specialize (Hin jm m Hjm Htm Hjmi); rewrite Hlo in Hin; by apply elem_of_nil in Hin].
  rewrite Hfn in Ho; cycle 1.
  { intros e [->|(k & _ & Hk & _)]%others_resized; [|destruct (entry_bounds k e Hk); lia].
    unfold end_of. simpl. rewrite Zlen_zeros. lia. }
  injection Ho as <-. destruct Hlo as [Hq Hqmax].
  pose proof (Hapart jm m Hjm Htm Hjmi) as Hmr. destruct (entry_bounds jm m Hjm) as (Hm0 & Hm1 & Hm2 & Hem).
  destruct (Nat.ltb_spec jm idx) as [|_]; [unfold end_of in *; lia|].
  apply others_resized in Hq as [->|(k & Hki & Hk & Htk)].
  { specialize (Hqmax m (Hin jm m Hjm Htm Hjmi)). simpl in Hqmax. unfold end_of in *. lia. }
  destruct (entry_bounds k q Hk) as (Hq0 & Hq1 & Hq2 & _). split; [unfold end_of in *; lia|].
  intros j e Hj Ht Hji. destruct (decide (j = k)) as [->|Hjk]; [simplify_eq; lia|].
  specialize (Hqmax e (Hin j e Hj Ht Hji)). pose proof (packed_ok _ Hp) as Hok. destruct (decide (j < k)%nat).
  - pose proof (lo_order _ _ _ Hok j k e q ltac:(lia) Hj Hk Ht Htk). unfold end_of in *. lia.
  - pose proof (lo_order _ _ _ Hok k j q e ltac:(lia) Hk Hj Htk Ht). unfold end_of in *. lia.
Qed.

(** What the recursion does with reserved space that is too small: one call later it is
    enlarged, behind everything else. *)
Lemma grown_run req f :
  known_format f -> 0 <= req < 2 ^ 31 - 2 ^ 16 -> ie_dataItemCnt r < req + pad_to (alignment_of f) (ie_offset r) ->
  let s := req + pad_to (alignment_of f) (ie_offset r) + RESERVED_SPACE_ALLOCATION_SIZE in
  exists o, behind_others o /\
    allocateSpaceInDatastore 2 req f h = allocateSpaceInDatastore 1 req f (with_reserved idx (resize_reserved o s r) h).
Proof.
  intros Hf Hreq Hgt s. pose proof (ra_lookup _ _ _ Hra) as Hlk. pose proof (pad_bounds f (ie_offset r)) as Hpad.
  destruct (entry_bounds idx r Hlk) as (Hr0 & Hr1 & Hr2 & _).
  destruct (alloc_grow 1 req f h idx r Hra Hf Hreq Hgt) as (m & Hm & Hmax & Hstep). fold s in Hstep.
  assert (r ∈ others (regionTrailerEntry h) (entries h)) as Hr.
  { apply elem_of_others. exists idx. split; [done|by apply reserved_not_trailer with r]. }
  destruct (Z.eqb_spec (ie_tag m) (ie_tag r)) as [Heq|Hne].
  - exists (ie_offset r). split; [|exact Hstep]. apply grown_in_place.
    apply elem_of_others in Hm as (jm & Hjm & _). assert (jm = idx) as ->; [|assert (m = r) as <- by congruence; exact Hmax].
    apply (NoDup_lookup _ _ _ (ie_tag m) (sorted_nodup _ (hb_sorted _ (hw_base _ Hwf))));
      rewrite list_lookup_fmap; [by rewrite Hjm|rewrite Hlk; simpl; by rewrite Heq].
  - destruct (FindNextSuitablePayloadOffset FORMAT_TYPE_BINARY
      (with_reserved idx (resize_reserved (ie_offset r) s r) h)) as [o| | |] eqn:Eo; cycle 1.
    1-3: exfalso; revert Eo; by apply not_ok_FindNext.
    exists o. split; [|by apply Hstep]. unfold s, RESERVED_SPACE_ALLOCATION_SIZE, end_of in *.
    eapply grown_moved; [exact Hm|by apply Hmax|done|exact Eo|lia|lia].
Qed.
End Grown.

Lemma tags_with_reserved (l : list Z) :
  TAG_RESERVEDSPACE ∈ l -> forall t, t ∈ l <-> t ∈ l \/ t = TAG_RESERVEDSPACE.
Proof. intros Hin t. split; [by left|]. by intros [| ->]. Qed.

(** An allocation from the reserved space, packaged. *)
Lemma allocated_enough n h h1 idx r req f :
  let pad := pad_to (alignment_of f) (ie_offset r) in
  header_wf h1 -> reserved_at h1 idx r -> known_format f -> 0 < req < 2 ^ 30 ->
  req + pad <= ie_dataItemCnt r ->
  (forall j e, entries h1 !! j = Some e -> regionTrailerEntry h1 <> Some j -> j <> idx ->
     end_of e <= ie_offset r \/ end_of r <= ie_offset e) ->
  frame h1 = frame h -> (is_Some (signedRegion h1) <-> is_Some (signedRegion h)) ->
  delete TAG_RESERVEDSPACE (user_entries h1) = delete TAG_RESERVEDSPACE (user_entries h) ->
  (forall n, fix_trailer (IsMainHeader h) n (trailer_of h1) =
             fix_trailer (IsMainHeader h) n (trailer_of h)) ->
  kept h h1 ->
  (forall t, t ∈ ie_tag <$> entries h1 <-> t ∈ ie_tag <$> entries h \/ t = TAG_RESERVEDSPACE) ->
  total_size (entries h1) <= total_size (entries h) + req + 4200 ->
  exists a h', allocateSpaceInDatastore (S n) req f h1 = (Ok a, h') /\ allocated h h' req f a /\
    array h' = array h1 /\ ie_tag <$> entries h' = ie_tag <$> entries h1 /\
    forall j e, entries h1 !! j = Some e -> j <> idx -> entries h' !! j = Some e.
Proof.
  intros pad Hwf Hra Hf Hreq Hle Hapart Hfr Hsr Hu Htr Hk Htags Hts.
  destruct (allocated_from_reserved h1 idx r req f Hwf Hra Hf Hreq Hle Hapart)
    as (H1 & H2 & H3 & H4 & H5 & H6 & H7 & H8 & H9). fold pad in H1, H2, H3, H4, H5, H6, H7, H8, H9.
  do 2 eexists. split; [apply alloc_enough; done || lia|]. fold pad.
  split_and!; [|done|done|]; cycle 1.
  { intros j e Hj Hne. unfold with_reserved. by rewrite entries_with_entries, list_lookup_insert_ne. }
  constructor;
    [done|by rewrite H2|by rewrite H3|by rewrite H4|intros k; by rewrite H5
    |etrans; [exact Hk|by apply with_reserved_kept]|intros t; by rewrite H6
    |lia|done..].
Qed.

(** The reserved space of a header that has been enlarged, and moved if it was
    not the last of its store. *)
Lemma grown_reserved h idx r o s :
  header_wf h -> reserved_at h idx r -> 0 <= o -> 0 < s -> o + s < 2 ^ 31 ->
  (forall j e, entries h !! j = Some e -> regionTrailerEntry h <> Some j -> j <> idx -> end_of e <= o) ->
  let r1 := resize_reserved o s r in
  let h1 := with_reserved idx r1 h in
  reserved_at h1 idx r1 /\
  (forall j e, entries h1 !! j = Some e -> regionTrailerEntry h1 <> Some j -> j <> idx ->
     end_of e <= ie_offset r1 \/ end_of r1 <= ie_offset e).
Proof.
  intros Hwf Hra Ho Hs Hend Hapart r1 h1. pose proof (ra_lookup _ _ _ Hra) as Hlk.
  split.
  - constructor.
    + rewrite (find_tag_tags _ _ (entries h)) by (by apply with_reserved_tags). apply Hra.
    + unfold h1, with_reserved. rewrite entries_with_entries.
      apply list_lookup_insert_eq. by eapply lookup_lt_Some.
    + done.
    + unfold r1, resize_reserved. simpl. rewrite Zlen_zeros, wrap_small by (unfold in_width; lia). lia.
    + unfold r1, resize_reserved. simpl. intros Hz. apply (f_equal length) in Hz.
      rewrite length_zeros in Hz. simpl in Hz. lia.
    + unfold end_of, r1, resize_reserved. simpl. rewrite Zlen_zeros. lia.
  - intros j e Hj Ht Hne. left. unfold h1 in Hj, Ht. unfold r1 in Ht. rewrite with_reserved_trailer in Ht by done.
    unfold with_reserved in Hj. rewrite entries_with_entries, list_lookup_insert_ne in Hj by done.
    by apply (Hapart j).
Qed.

Lemma alloc_run_present req f h idx :
  header_wf h -> packed h -> known_format f -> 0 < req -> fits h (2 * req + 20000) ->
  find_tag TAG_RESERVEDSPACE (entries h) = Some idx ->
  exists a h', allocateSpaceInDatastore allocation_fuel req f h = (Ok a, h') /\ allocated h h' req f a /\
    array h' = array h /\ ie_tag <$> entries h' = ie_tag <$> entries h /\
    forall j e, entries h !! j = Some e -> j <> idx -> entries h' !! j = Some e.
Proof.
  intros Hwf Hp Hf Hreq Hfit Hfind. pose proof (total_size_nonneg (entries h)). unfold fits in Hfit.
  destruct (reserved_of_packed h idx Hwf Hp) as (r & Hra & Hapart); [unfold fits; lia|done|].
  set (pad := pad_to (alignment_of f) (ie_offset r)).
  pose proof (pad_bounds f (ie_offset r)) as Hpad. fold pad in Hpad.
  pose proof (ra_lookup _ _ _ Hra) as Hlk.
  assert (TAG_RESERVEDSPACE ∈ ie_tag <$> entries h) as Hin.
  { destruct (find_tag_lookup _ _ _ Hfind) as (e & He & <- & _).
    apply list_elem_of_fmap_2. by eapply list_elem_of_lookup_2. }
  destruct (packed_bounds h r Hp) as [Hr0 Hr1]; [by eapply list_elem_of_lookup_2|].
  destruct (Z.le_gt_cases (req + pad) (ie_dataItemCnt r)) as [Hle|Hgt].
  - unfold allocation_fuel. eapply (allocated_enough 1 h h idx r); try done; try lia.
    + intros j e Hj Ht Hne. specialize (Hapart j e Hj Ht Hne). case_match; auto.
    + by apply tags_with_reserved.
  - unfold allocation_fuel.
    destruct (grown_run h idx r Hwf Hp ltac:(unfold fits; lia) Hra Hapart req f Hf ltac:(lia) Hgt) as (o & [Ho Hoa] & Hrun).
    fold pad in Hrun. pose proof (Zlen_nonneg (ie_payload r)). set (s := req + pad + RESERVED_SPACE_ALLOCATION_SIZE) in *.
    assert (0 < s <= req + 4103) as Hs by (unfold s, RESERVED_SPACE_ALLOCATION_SIZE; lia).
    rewrite Hrun.
    destruct (grown_reserved h idx r o s Hwf Hra) as [Hra1 Hap1]; [lia..|done|].
    pose proof (pad_bounds f o).
    set (h1 := with_reserved idx (resize_reserved o s r) h) in *.
    destruct (find_tag_lookup _ _ _ Hfind) as (r' & Hr' & Htag & _). simplify_eq.
    assert (contents (entries h1) = _) as Hcont by (apply contents_with_reserved; [apply Hwf|done]).
    assert (trailer_tag h <> TAG_RESERVEDSPACE) as Htt by (unfold trailer_tag; by destruct (IsMainHeader h)).
    destruct (allocated_enough 0 h h1 idx (resize_reserved o s r) req f)
      as (a & h' & Hrun' & Hal & Harr & Htags & Hsame); try done; cycle -1.
    { exists a, h'. split_and!; [done..| |].
      - rewrite Htags. by apply with_reserved_tags.
      - intros j e Hj Hne. apply Hsame; [|done]. unfold h1, with_reserved.
        by rewrite entries_with_entries, list_lookup_insert_ne. }
    + apply with_reserved_wf; [done..|lia].
    + lia.
    + simpl. rewrite wrap_small by (unfold in_width; lia). unfold s, RESERVED_SPACE_ALLOCATION_SIZE. lia.
    + unfold user_entries. change (trailer_tag h1) with (trailer_tag h). rewrite Hcont, Htag.
      rewrite delete_insert_ne by done. by rewrite delete_insert_eq.
    + intros k. unfold trailer_of. change (trailer_tag h1) with (trailer_tag h). rewrite Hcont, Htag.
      by rewrite lookup_insert_ne.
    + by apply with_reserved_kept.
    + unfold h1. rewrite with_reserved_tags by done. by apply tags_with_reserved.
    + unfold h1, with_reserved. rewrite entries_with_entries, (total_size_insert _ r) by done.
      unfold size_of, resize_reserved. simpl. rewrite Zlen_zeros, Z2Nat.id by lia. lia.
Qed.

Lemma fix_trailer_modified h h1 u n :
  header_base h -> modified h h1 u ->
  fix_trailer (IsMainHeader h) n (trailer_of h1) = fix_trailer (IsMainHeader h) n (trailer_of h).
Proof.
  intros Hb Hm. rewrite (md_trailer _ _ _ Hm). unfold fix_trailer, trailer_of, trailer_tag.
  destruct (IsMainHeader h) eqn:Em; [done|].
  destruct (contents (entries h) !! _) as [it|] eqn:Ec; [|done]. simpl.
  apply contents_Some in Ec as (e & He & Ht & <-).
  pose proof (hb_entries _ Hb) as Hall. rewrite Forall_forall in Hall.
  pose proof (ew_trailer _ _ (Hall e He) Em Ht) as Hp.
  unfold fix_item. simpl. by rewrite region_payload_twice.
Qed.

(** The entry of a well-formed header with a given item. *)
Lemma entry_of_item h t it :
  header_base h -> contents (entries h) !! t = Some it ->
  exists i e, find_tag t (entries h) = Some i /\ entries h !! i = Some e /\ item_of e = it.
Proof.
  intros Hb Hc. rewrite find_tag_contents in Hc by apply sorted_nodup, Hb.
  destruct (find_tag t (entries h)) as [i|]; [|done]. simpl in Hc.
  apply fmap_Some in Hc as (e & He & ->). by exists i, e.
Qed.

(** Where the reserved space of a header without one begins. *)
Lemma FindNext_bounded h :
  packed h -> fits h 0 -> exists start, FindNextSuitablePayloadOffset FORMAT_TYPE_BINARY h = Ok start /\ 0 <= start < 2 ^ 31.
Proof.
  intros Hp Hfit. unfold fits in Hfit. pose proof (total_size_nonneg (entries h)).
  pose proof (FindNext_binary h) as Hfn. pose proof (largest_offset_spec (regionTrailerEntry h) (entries h)) as Hlo.
  assert (forall e, e ∈ others (regionTrailerEntry h) (entries h) -> 0 <= ie_offset e <= end_of e /\ end_of e < 2 ^ 31) as Hbnd.
  { intros e (j & Hj & _)%elem_of_others. destruct (packed_bounds h e Hp); [by eapply list_elem_of_lookup_2|].
    pose proof (Zlen_nonneg (ie_payload e)). unfold end_of in *. lia. }
  destruct (largest_offset _ _) as [m|].
  - exists (end_of m). destruct (Hbnd m) as [Hm0 Hm1]; [apply Hlo|]. split; [|lia].
    apply Hfn. intros e He. specialize (Hbnd e He). lia.
  - exists 0. split; [|lia]. apply Hfn. intros e He. specialize (Hbnd e He). lia.
Qed.

(** The first call then adds reserved space, and the second one allocates from it. *)
Lemma reserve_step n req f h :
  header_wf h -> packed h -> known_format f -> 0 < req -> fits h (2 * req + 10000) ->
  find_tag TAG_RESERVEDSPACE (entries h) = None ->
  exists e h1, allocateSpaceInDatastore (S n) req f h = allocateSpaceInDatastore n req f h1 /\
    ie_tag e = TAG_RESERVEDSPACE /\ ie_formatType e = FORMAT_TYPE_BINARY /\ req + 4096 <= ie_dataItemCnt e /\
    modified h h1 (<[ie_tag e := item_of e]> (user_entries h)) /\
    total_size (entries h1) <= total_size (entries h) + req + 4126 /\
    ie_tag <$> entries h1 ≡ₚ ie_tag e :: (ie_tag <$> entries h) /\
    ((length (entries h) + 1 <=? cap (IndexEntries h))%nat = false -> (array h1).2 = S (array h).2).
Proof.
  intros Hwf Hp Hf Hreq Hfit Hfind. unfold fits in Hfit. pose proof (total_size_nonneg (entries h)).
  destruct (FindNext_bounded h Hp ltac:(unfold fits; lia)) as (start & Hstart & Hs).
  pose proof (pad_bounds f start) as Hpad. set (pad := pad_to (alignment_of f) start) in *.
  cbn [allocateSpaceInDatastore].
  erewrite M_bind_ok by (unfold gets, FindIndexEntry; simpl; by rewrite Hfind). cbv iota.
  erewrite M_bind_ok by (unfold gets; by rewrite Hstart).
  erewrite M_bind_ok by (unfold lift; rewrite GetRequiredAlignment_known by done; done).
  erewrite M_bind_ok by (unfold lift; rewrite CalcAlignment_format by (unfold in_width; lia); done).
  cbv zeta. fold pad. unfold RESERVED_SPACE_ALLOCATION_SIZE. wrap_small_tac.
  set (size := 4096 + req + pad). erewrite M_bind_ok by done.
  set (e := mkEntry (IsMainHeader h) _ _ _ _ _).
  assert (Zlen (ie_payload e) = size) as Hlen by (simpl; rewrite Zlen_zeros; lia).
  destruct (insertIndexEntry_run e h) as (h1 & Hrun & Hmod & Hts & Htags & Harr).
  { apply Hwf. }
  { constructor; simpl; [done|done|done|unfold in_width, size; lia| |apply zeros_bytes_ok
      |intros _; exact (eq_sym Hlen)|done].
    intros Hz. apply (f_equal length) in Hz. rewrite length_zeros in Hz. simpl in Hz. lia. }
  { by apply find_tag_None. }
  { unfold trailer_tag. by destruct (IsMainHeader h). }
  { unfold fits, size_of. rewrite Hlen. unfold size. lia. }
  exists e, h1. rewrite (M_bind_ok _ _ _ _ _ Hrun). unfold size_of in Hts. rewrite Hlen in Hts. unfold size in Hts.
  split; [done|]. split; [done|]. split; [done|]. split; [simpl; lia|]. split; [done|]. split; [lia|]. by split.
Qed.

Lemma alloc_run_absent req f h :
  header_wf h -> packed h -> known_format f -> 0 < req -> fits h (2 * req + 20000) ->
  find_tag TAG_RESERVEDSPACE (entries h) = None ->
  exists a h', allocateSpaceInDatastore allocation_fuel req f h = (Ok a, h') /\ allocated h h' req f a /\
    ((length (entries h) + 1 <=? cap (IndexEntries h))%nat = false ->
     (array h').2 = S (array h).2).
Proof.
  intros Hwf Hp Hf Hreq Hfit Hfind. unfold fits in Hfit. pose proof (total_size_nonneg (entries h)).
  destruct (reserve_step 1 req f h) as (e & h1 & Hrun & Htag & Hbin & Hcnt & Hmod & Hts & Htags & Harr);
    [done..|unfold fits; lia|done|]. unfold allocation_fuel. rewrite Hrun. rewrite Htag in Hmod, Htags.
  assert (trailer_tag h <> TAG_RESERVEDSPACE) as Htt by (unfold trailer_tag; by destruct (IsMainHeader h)).
  assert (contents (entries h1) !! TAG_RESERVEDSPACE = Some (item_of e)) as Hc1.
  { pose proof (md_user _ _ _ Hmod) as Hu. apply (f_equal (lookup TAG_RESERVEDSPACE)) in Hu.
    unfold user_entries in Hu. rewrite (frame_trailer_tag _ _ (md_frame _ _ _ Hmod)), lookup_delete_ne in Hu by done.
    rewrite Hu. apply lookup_insert_eq. }
  destruct (entry_of_item h1 _ _ (hw_base _ (md_wf _ _ _ Hmod)) Hc1) as (idx & r & Hfind1 & Hr & Hit).
  injection Hit as _ Hcr _.
  destruct (reserved_of_packed h1 idx) as (r' & Hra & Hapart);
    [apply Hmod|apply Hmod|unfold fits; lia|done|].
  assert (r' = r) as -> by (pose proof (ra_lookup _ _ _ Hra); congruence).
  pose proof (pad_bounds f (ie_offset r)).
  destruct (allocated_enough 0 h h1 idx r req f) as (a & h' & Hrun' & Hal & Harr' & _ & _);
    try done; cycle -1.
  { exists a, h'. split_and!; [done..|]. rewrite Harr'. exact Harr. }
  - apply Hmod.
  - lia.
  - rewrite Hcr. lia.
  - intros j x Hj Ht Hne. specialize (Hapart j x Hj Ht Hne). case_match; auto.
  - apply Hmod.
  - apply Hmod.
  - rewrite (md_user _ _ _ Hmod). apply delete_insert_eq.
  - intros n. apply (fix_trailer_modified _ _ _ n (hw_base _ Hwf) Hmod).
  - rewrite <- Htag in Hmod. apply (modified_kept _ _ _ (hw_base _ Hwf) Hmod). intros _ it. rewrite Htag.
    by rewrite lookup_insert_eq; intros [= <-].
  - intros t. rewrite Htags, elem_of_cons. split; intros [|]; auto.
  - lia.
Qed.

Lemma alloc_run req f h :
  header_wf h -> packed h -> known_format f -> 0 < req -> fits h (2 * req + 20000) ->
  exists a h', allocateSpaceInDatastore allocation_fuel req f h = (Ok a, h') /\ allocated h h' req f a.
Proof.
  intros Hwf Hp Hf Hreq Hfit.
  destruct (find_tag TAG_RESERVEDSPACE (entries h)) as [idx|] eqn:Hfind.
  - edestruct alloc_run_present as (a & h' & ? & ? & _); [done..|]. by exists a, h'.
  - edestruct alloc_run_absent as (a & h' & ? & ? & _); [done..|]. by exists a, h'.
Qed.

(** More fuel than needed changes nothing. *)
Lemma alloc_fuel_S n req f h :
  (allocateSpaceInDatastore n req f h).1 <> Diverge ->
  allocateSpaceInDatastore (S n) req f h = allocateSpaceInDatastore n req f h.
Proof.
  revert h. induction n as [|n IH]; intros h; [done|].
  remember (S n) as m eqn:Em.
  assert (allocateSpaceInDatastore m req f h = allocateSpaceInDatastore (S n) req f h) as Hm by (by rewrite Em).
  rewrite Hm. clear Em Hm. cbn [allocateSpaceInDatastore].
  unfold mbind, M_bind, gets, lift, modify, mret, M_ret.
  repeat (case_match; try done); intros Hd; apply IH; done.
Qed.

Lemma alloc_fuel n k req f h :
  (n <= k)%nat -> (allocateSpaceInDatastore n req f h).1 <> Diverge ->
  allocateSpaceInDatastore k req f h = allocateSpaceInDatastore n req f h.
Proof.
  intros Hle Hd. induction Hle as [|k Hle IH]; [done|]. rewrite <- IH. apply alloc_fuel_S. by rewrite IH.
Qed.

(** C16. The allocator terminates: on a packed header of any size a 32-bit store
    can hold it recurses at most once, whatever fuel beyond that it is given. It
    returns an address that is aligned for the format, none of whose bytes is
    used by an entry other than the region trailer, and the header it leaves
    behind is well formed and differs in the reserved space only. *)
Theorem allocateSpaceInDatastore_correct n req f h :
  header_wf h -> packed h -> known_format f -> 0 < req -> fits h (2 * req + 20000) ->
  (allocation_fuel <= n)%nat ->
  exists a h', allocateSpaceInDatastore n req f h = (Ok a, h') /\ allocated h h' req f a.
Proof.
  intros Hwf Hp Hf Hreq Hfit Hn. destruct (alloc_run req f h Hwf Hp Hf Hreq Hfit) as (a & h' & Hrun & Hal).
  exists a, h'. split; [|done]. rewrite <- Hrun. apply alloc_fuel; [done|]. by rewrite Hrun.
Qed.
End Alloc.

(** A runtime that doubles the capacity of a slice it has to move. *)
#[refine] Definition doubling : Runtime := {| growcap n := (2 * n)%nat |}.
Proof. intros n. lia. Defined.

#[local] Existing Instance doubling.

(** The sample header of [Layout], packed. *)
Definition sample_packed : RpmHeader := (syncDataStoreLayout sample_header).2.

Lemma sample_packed_ok : header_wf sample_packed /\ packed sample_packed.
Proof. split; [by apply header_wfb_ok|done]. Qed.

Lemma allocateSpaceInDatastore_correct_witness :
  exists a h', allocateSpaceInDatastore 2 200 7 sample_packed = (Ok a, h') /\
               allocated sample_packed h' 200 7 a.
Proof.
  apply allocateSpaceInDatastore_correct;
    [exact (proj1 sample_packed_ok)|exact (proj2 sample_packed_ok)|vm_compute; split; congruence
    |lia|vm_compute; reflexivity|exact (le_n 2)].
Defined.
