(* ===== verification/IndexUpdate.v ===== *)
(** [SetOrAddIndexEntry] and [DeleteIndexEntryIfExists] of
    [src/common/rpmparser.go] against the abstract header: storing and deleting
    one item, the allocation and the packing of the store invisible. *)
From S2P Require Import Prelude Utils Serializer Tags Header Layout HeaderSpec HeaderOps Allocation.

Section Update.
Context `{Runtime}.

(** ** Re-packing a well-formed header *)

Lemma sync_run h :
  header_wf h -> fits h 0 ->
  exists h', syncDataStoreLayout h = (Ok tt, h') /\ header_wf h' /\ packed h' /\
    frame h' = frame h /\ signedRegion h' = signedRegion h /\
    contents (entries h') = contents (entries h) /\
    ie_tag <$> entries h' = ie_tag <$> entries h /\ total_size (entries h') = total_size (entries h).
Proof.
  intros [[Hc Hs He Hr] Hrc] Hfit.
  destruct (syncDataStoreLayout_packs h) as (h' & Hrun & Hp & Hst & Hh').
  { eapply Forall_impl; [exact He|]. intros e. apply ew_format. }
  { unfold fits in Hfit. lia. }
  assert (frame h' = frame h) as Hfr by (by rewrite Hh').
  assert (signedRegion h' = signedRegion h) as Hsr by (by rewrite Hh').
  assert (ie_tag <$> entries h' = ie_tag <$> entries h) as Htags by (by apply strip_fmap).
  assert (Zlen (entries h') = Zlen (entries h)) as Hn.
  { unfold Zlen. rewrite <- (length_fmap ie_tag), Htags, length_fmap. done. }
  exists h'. split_and!; try done.
  - constructor; [constructor|].
    + transitivity (indexEntryCount h); [by rewrite Hh'|]. by rewrite Hn.
    + by rewrite Htags.
    + rewrite (frame_main _ _ Hfr). eapply Forall_strip; [apply entry_wf_strip|exact Hst|done].
    + by rewrite Hsr, Htags, (frame_main _ _ Hfr).
    + intros r. rewrite Hsr, Hn. apply Hrc.
  - by apply contents_strip.
  - by apply total_size_strip.
Qed.

(** ** What storing an item leaves behind *)

Record stored (h h' : RpmHeader) (t : Z) (it : item) : Prop := {
  st_wf : header_wf h';
  st_packed : packed h';
  st_frame : frame h' = frame h;
  st_region : is_Some (signedRegion h') <-> is_Some (signedRegion h);
  st_user : delete TAG_RESERVEDSPACE (user_entries h') =
            <[t := it]> (delete TAG_RESERVEDSPACE (user_entries h));
  st_trailer n : fix_trailer (IsMainHeader h) n (trailer_of h') =
                 fix_trailer (IsMainHeader h) n (trailer_of h);
  st_kept : kept h h';
  st_size : total_size (entries h') <= total_size (entries h) + 2 * Zlen (it_payload it) + 10000;
}.

(** A payload that can be stored under a tag. *)
Record storable (h : RpmHeader) (t f c : Z) (p : list Z) : Prop := {
  sb_tag : in_width 32 t;
  sb_not_trailer : t <> trailer_tag h;
  sb_not_reserved : t <> TAG_RESERVEDSPACE;
  sb_not_signatures : t <> TAG_HEADERSIGNATURES;
  sb_format : known_format f;
  sb_count : in_width 32 c;
  sb_payload : p <> [];
  sb_bytes : bytes_ok p;
}.

(** Room for the payload, the reserved space and the padding. *)
Definition room (h : RpmHeader) (p : list Z) : Prop := fits h (3 * Zlen p + 40000).

Lemma storable_wf h t f c p o :
  storable h t f c p -> entry_wf (IsMainHeader h) (mkEntry (IsMainHeader h) t f o c p).
Proof. intros [Ht Hnt Hnr Hns Hf Hc Hp Hb]. constructor; simpl; congruence || done. Qed.

(** ** Adding *)

Lemma SetOrAdd_absent {T} `{TagValue T} (tag : T) f c p h :
  header_wf h -> packed h -> storable h (ID tag) f c p -> room h p -> ID tag ∉ ie_tag <$> entries h ->
  exists h', SetOrAddIndexEntry tag f c p h = (Ok tt, h') /\ stored h h' (ID tag) (mkItem f c p).
Proof.
  intros Hwf Hp Hst Hfit Hin. unfold SetOrAddIndexEntry, FindIndexEntry.
  rewrite (proj2 (find_tag_None _ _) Hin). unfold addIndexEntry. simpl. rewrite eqb_reflx. simpl.
  pose proof Hst as [Ht Hnt Hnr Hns Hf Hc Hpl Hb]. pose proof (Zlen_pos _ Hpl).
  unfold room, fits in Hfit. pose proof (total_size_nonneg (entries h)). wrap_small_tac.
  destruct (alloc_run (Zlen p) f h) as (a & h1 & Hrun & Hal); [done..|unfold fits; lia|].
  rewrite (M_bind_ok _ _ _ _ _ Hrun).
  set (e := set_offset a _).
  pose proof (frame_main _ _ (al_frame _ _ _ _ _ Hal)) as Hm.
  pose proof (frame_trailer_tag _ _ (al_frame _ _ _ _ _ Hal)) as Htt.
  pose proof (al_size _ _ _ _ _ Hal).
  destruct (insertIndexEntry_run e h1) as (h' & Hrun' & Hmod & Hts & _).
  { apply Hal. }
  { rewrite Hm. by apply (storable_wf h (ID tag) f c p a). }
  { rewrite (al_tags _ _ _ _ _ Hal). simpl. by intros [|]. }
  { by rewrite Htt. }
  { unfold fits, size_of. simpl. lia. }
  exists h'. split; [done|]. constructor.
  - apply Hmod.
  - apply Hmod.
  - rewrite (md_frame _ _ _ Hmod). apply Hal.
  - rewrite (md_region _ _ _ Hmod). apply Hal.
  - rewrite (md_user _ _ _ Hmod). simpl. rewrite delete_insert_ne by done.
    by rewrite (al_user _ _ _ _ _ Hal).
  - intros n. rewrite <- Hm.
    rewrite (fix_trailer_modified h1 h' _ n (hw_base _ (al_wf _ _ _ _ _ Hal)) Hmod).
    rewrite Hm. apply Hal.
  - etrans; [apply Hal|]. apply (modified_kept _ _ _ (hw_base _ (al_wf _ _ _ _ _ Hal)) Hmod).
    intros Hb1 it. simpl ie_tag. rewrite lookup_insert_ne by done. apply Hb1.
  - unfold size_of in Hts. simpl in *. lia.
Qed.

(** ** Replacing *)

(** The payload of an entry is replaced and the store packed. *)
Lemma replace_run h i e o f c p :
  header_wf h -> storable h (ie_tag e) f c p -> fits h (Zlen p + 23) ->
  entries h !! i = Some e -> ie_formatType e = f ->
  exists h', syncDataStoreLayout (with_entries (alter (fun e =>
      set_payload p (set_dataItemCnt c (set_offset o e))) i (entries h)) h) = (Ok tt, h') /\
    header_wf h' /\ packed h' /\ frame h' = frame h /\ signedRegion h' = signedRegion h /\
    user_entries h' = <[ie_tag e := mkItem f c p]> (user_entries h) /\
    trailer_of h' = trailer_of h /\ kept h h' /\
    total_size (entries h') <= total_size (entries h) + Zlen p.
Proof.
  intros Hwf Hst Hfit Hi Hfm. pose proof Hst as [Ht Hnt Hnr Hns Hf Hc Hpl Hb].
  rewrite (alter_to_insert _ _ _ e Hi).
  set (e' := set_payload p _). set (l1 := <[i := e']> (entries h)). set (h1 := with_entries l1 h).
  pose proof (Forall_lookup_1 _ _ _ _ (hb_entries _ (hw_base _ Hwf)) Hi) as He.
  assert (ie_tag <$> l1 = ie_tag <$> entries h) as Htags.
  { unfold l1. rewrite list_fmap_insert. apply list_insert_id. by rewrite list_lookup_fmap, Hi. }
  assert (Zlen l1 = Zlen (entries h)) as Hn by (unfold l1, Zlen; by rewrite length_insert).
  pose proof (take_drop_middle _ _ _ Hi) as Hsplit.
  pose proof (sorted_nodup _ (hb_sorted _ (hw_base _ Hwf))) as Hnd.
  assert (contents l1 = <[ie_tag e := mkItem f c p]> (contents (entries h))) as Hcont.
  { rewrite <- Htags in Hnd. unfold l1 in Hnd |- *.
    rewrite insert_take_drop in Hnd |- * by (by eapply lookup_lt_Some).
    rewrite contents_middle by done. rewrite <- Hsplit at 3.
    rewrite contents_middle.
    - rewrite insert_insert_eq. simpl. by rewrite <- Hfm.
    - rewrite !fmap_app, !fmap_cons in Hnd |- *. done. }
  assert (total_size l1 = total_size (entries h) - size_of e + size_of e') as Hts
    by (by apply total_size_insert).
  pose proof (Zlen_nonneg (ie_payload e)). unfold size_of in Hts. simpl in Hts. unfold fits in Hfit.
  destruct (sync_run h1) as (h' & Hrun & Hwf' & Hp' & Hfr & Hsr & Hc' & Htags' & Hts').
  { constructor; [constructor|]; unfold h1; rewrite ?entries_with_entries, ?Hn, ?Htags; try apply Hwf.
    apply Forall_insert; [apply Hwf|]. destruct He. constructor; simpl; done. }
  { unfold fits, h1. rewrite entries_with_entries. pose proof (Zlen_nonneg p). lia. }
  assert (user_entries h' = <[ie_tag e := mkItem f c p]> (user_entries h)) as Hu'.
  { unfold user_entries. rewrite (frame_trailer_tag h1 h') by done. change (trailer_tag h1) with (trailer_tag h).
    rewrite Hc'. unfold h1. rewrite entries_with_entries, Hcont. by rewrite delete_insert_ne. }
  assert (trailer_of h' = trailer_of h) as Htr'.
  { unfold trailer_of. rewrite (frame_trailer_tag h1 h') by done. change (trailer_tag h1) with (trailer_tag h).
    rewrite Hc'. unfold h1. rewrite entries_with_entries, Hcont. by rewrite lookup_insert_ne. }
  exists h'. split_and!; try done.
  - split.
    + unfold region_current. rewrite Htr', (frame_main h1 h') by done. intros Hcur Hm it Hit.
      rewrite (Hcur Hm it Hit). unfold Zlen. rewrite <- !(length_fmap ie_tag), Htags'. unfold h1.
      by rewrite entries_with_entries, Htags.
    + unfold reserved_binary. rewrite Hu'. by rewrite lookup_insert_ne.
  - rewrite Hts'. unfold h1. rewrite entries_with_entries. lia.
Qed.

(** The entry can be replaced without losing the pointer to it: its payload does
    not grow, or it ends the store, or there is reserved space. *)
Definition replace_safe (h : RpmHeader) (e : IndexEntry) (p : list Z) : Prop :=
  Zlen p <= Zlen (ie_payload e) \/ isAtEndOfDataStore e h = Ok true \/
  TAG_RESERVEDSPACE ∈ ie_tag <$> entries h.

(** Allocating from the reserved space changes neither the array of the index nor
    the entry at [i]. *)
Lemma alloc_keeps_pointer h i e f c p :
  header_wf h -> packed h -> storable h (ie_tag e) f c p -> room h p -> entries h !! i = Some e ->
  TAG_RESERVEDSPACE ∈ ie_tag <$> entries h ->
  exists a h1, allocateSpaceInDatastore allocation_fuel (u32 (Zlen p)) f h = (Ok a, h1) /\
    allocated h h1 (Zlen p) f a /\ array h1 = array h /\ entries h1 !! i = Some e.
Proof.
  intros Hwf Hp [Ht Hnt Hnr Hns Hf Hc Hpl Hb] Hfit Hi Hin. pose proof (Zlen_pos _ Hpl).
  unfold room, fits in Hfit. pose proof (total_size_nonneg (entries h)). wrap_small_tac.
  destruct (find_tag TAG_RESERVEDSPACE (entries h)) as [idx|] eqn:Hfind; [|by apply find_tag_None in Hfind].
  destruct (alloc_run_present (Zlen p) f h idx) as (a & h1 & Hrun & Hal & Harr & _ & Hsame);
    [done..|unfold fits; lia|done|].
  exists a, h1. split_and!; [done..|]. apply Hsame; [done|]. intros ->.
  destruct (find_tag_lookup _ _ _ Hfind) as (r & Hr & Hrt & _). simplify_eq.
Qed.

(** The space for the new payload of an entry: its own, or what the allocator finds
    without moving the index. *)
Lemma replacement_space h i e m c p t :
  header_wf h -> packed h -> storable h t (ie_formatType e) c p -> room h p -> entries h !! i = Some e ->
  t = ie_tag e -> (Zlen (ie_payload e) < Zlen p -> ie_tag m <> ie_tag e -> TAG_RESERVEDSPACE ∈ ie_tag <$> entries h) ->
  exists o h1, (if (Zlen p >? Zlen (ie_payload e)) && negb (ie_tag m =? ie_tag e)
      then allocateSpaceInDatastore allocation_fuel (u32 (Zlen p)) (ie_formatType e)
      else mret (ie_offset e)) h = (Ok o, h1) /\
    header_wf h1 /\ frame h1 = frame h /\ (is_Some (signedRegion h1) <-> is_Some (signedRegion h)) /\
    delete TAG_RESERVEDSPACE (user_entries h1) = delete TAG_RESERVEDSPACE (user_entries h) /\
    (forall n, fix_trailer (IsMainHeader h) n (trailer_of h1) = fix_trailer (IsMainHeader h) n (trailer_of h)) /\
    kept h h1 /\ total_size (entries h1) <= total_size (entries h) + Zlen p + 8300 /\
    array h1 = array h /\ entries h1 !! i = Some e.
Proof.
  intros Hwf Hp Hst Hfit Hi -> Hsafe. unfold room, fits in Hfit. pose proof (Zlen_nonneg p).
  destruct (Z.gtb_spec (Zlen p) (Zlen (ie_payload e))) as [Hgt|]; cycle 1.
  { exists (ie_offset e), h. split_and!; done || lia. }
  destruct (Z.eqb_spec (ie_tag m) (ie_tag e)) as [|Hne]; cbn [negb andb].
  { exists (ie_offset e), h. split_and!; done || lia. }
  destruct (alloc_keeps_pointer h i e (ie_formatType e) c p) as (a & h1 & Hrun & Hal & Harr & Hi1);
    [done..|by apply Hsafe; [lia|]|]. destruct Hal. exists a, h1. split_and!; done.
Qed.

Lemma SetOrAdd_present {T} `{TagValue T} (tag : T) f c p h i e :
  header_wf h -> packed h -> storable h (ID tag) f c p -> room h p ->
  FindIndexEntry tag h = Some i -> entries h !! i = Some e -> ie_formatType e = f ->
  replace_safe h e p ->
  exists h', SetOrAddIndexEntry tag f c p h = (Ok tt, h') /\ stored h h' (ID tag) (mkItem f c p).
Proof.
  intros Hwf Hp Hst Hfit Hfind Hi Hfm Hsafe.
  destruct (find_tag_lookup _ _ _ Hfind) as (e0 & He0 & Htag & _). simplify_eq. rewrite <- Htag in Hst |- *.
  pose proof (Forall_lookup_1 _ _ _ _ (hb_entries _ (hw_base _ Hwf)) Hi) as He.
  destruct (packed_bounds h e Hp) as [Hlo Hhi]; [by eapply list_elem_of_lookup_2|].
  pose proof (payload_pos _ _ _ Hwf Hi) as Hpos.
  unfold room, fits in Hfit. pose proof (Zlen_nonneg p).
  destruct (isAtEndOfDataStore_run h e i e Hi) as (m & Hm & _).
  { rewrite regionTrailerEntry_eq. intros (x & Hx & Hxt & _)%find_tag_lookup. simplify_eq.
    by apply (sb_not_trailer _ _ _ _ _ Hst). }
  { rewrite endOffset_end_of by lia. lia. }
  unfold SetOrAddIndexEntry. rewrite Hfind. cbv zeta.
  erewrite M_bind_ok by (unfold entry_at; by rewrite Hi). rewrite Z.eqb_refl. cbn [negb].
  erewrite M_bind_ok by (unfold gets; by rewrite Hm).
  destruct (replacement_space h i e m c p (ie_tag e)) as
    (o & h1 & Hrun & Hwf1 & Hfr1 & Hsr1 & Hu1 & Htr1 & Hk1 & Hts1 & Harr1 & Hi1); [done..| |].
  { intros Hgt Hne. destruct Hsafe as [|[Heq|Hin]]; [lia| |done]. rewrite Hm in Heq.
    injection Heq as Heq%Z.eqb_eq. done. }
  rewrite (M_bind_ok _ _ _ _ _ Hrun). erewrite M_bind_ok by done.
  assert (set_IndexEntries (store_through (address_of (IndexEntries h) i) (fun e0 =>
      set_payload p (set_dataItemCnt c (set_offset o e0)))) h1 =
    with_entries (alter (fun e0 => set_payload p (set_dataItemCnt c (set_offset o e0))) i (entries h1)) h1) as ->.
  { unfold with_entries, set_IndexEntries, store_through. simpl.
    injection Harr1 as _ ->. by rewrite Nat.eqb_refl. }
  destruct (replace_run h1 i e o (ie_formatType e) c p) as
    (h' & Hrun' & Hwf' & Hp' & Hfr' & Hsr' & Hu' & Htr' & Hk' & Hts'); [done| |unfold fits; lia|done|done|].
  { destruct Hst. constructor; try done. by rewrite (frame_trailer_tag _ _ Hfr1). }
  exists h'. split; [done|]. constructor; try done.
  - by rewrite Hfr'.
  - by rewrite Hsr'.
  - rewrite Hu', delete_insert_ne by (by apply not_eq_sym, (sb_not_reserved _ _ _ _ _ Hst)).
    by rewrite Hu1.
  - intros n. by rewrite Htr'.
  - by etrans.
  - simpl. lia.
Qed.

(** ** Deleting *)

Lemma Delete_run {T} `{TagValue T} (tag : T) h :
  header_wf h -> packed h -> ID tag <> trailer_tag h -> fits h 0 ->
  exists h', DeleteIndexEntryIfExists tag h = (Ok tt, h') /\
    header_wf h' /\ packed h' /\ frame h' = frame h /\
    (is_Some (signedRegion h') <-> is_Some (signedRegion h)) /\
    user_entries h' = delete (ID tag) (user_entries h) /\
    (forall n, fix_trailer (IsMainHeader h) n (trailer_of h') =
               fix_trailer (IsMainHeader h) n (trailer_of h)) /\
    kept h h' /\ total_size (entries h') <= total_size (entries h).
Proof.
  intros Hwf Hp Ht Hfit. destruct (decide (ID tag ∈ ie_tag <$> entries h)) as [Hin|Hin].
  - destruct (DeleteIndexEntryIfExists_present tag h (hw_base _ Hwf) Hin Ht Hfit)
      as (h' & Hrun & Hmod & Hts & _).
    exists h'. split_and!; try done; try apply Hmod.
    + intros n. apply (fix_trailer_modified _ _ _ n (hw_base _ Hwf) Hmod).
    + apply (modified_kept _ _ _ (hw_base _ Hwf) Hmod). intros Hb it [_ Hit]%lookup_delete_Some. by apply Hb.
  - exists h. split_and!; try done; [by apply DeleteIndexEntryIfExists_absent|].
    symmetry. apply delete_id. unfold user_entries. rewrite lookup_delete_ne by done.
    by apply contents_not_in.
Qed.

(** [SetOrAddIndexEntry] on a tag that is absent or can be replaced. *)
Lemma SetOrAddIndexEntry_stored {T} `{TagValue T} (tag : T) f c p h :
  header_wf h -> packed h -> storable h (ID tag) f c p -> room h p ->
  (forall e, find_entry tag h = Some e -> ie_formatType e = f /\ replace_safe h e p) ->
  exists h', SetOrAddIndexEntry tag f c p h = (Ok tt, h') /\ stored h h' (ID tag) (mkItem f c p).
Proof.
  intros Hwf Hp Hst Hfit Hex. unfold find_entry in Hex. destruct (FindIndexEntry tag h) as [i|] eqn:Hf.
  - destruct (find_tag_lookup _ _ _ Hf) as (e & He & _). destruct (Hex e He) as [Hfm Hsafe].
    by eapply SetOrAdd_present.
  - apply SetOrAdd_absent; try done. by apply find_tag_None.
Qed.

(** ** Properties *)

(** C14. Deleting a tag other than the region trailer removes exactly its item:
    the header stays well formed, its trailer names the remaining entries, and
    the data store is packed again. *)
Theorem DeleteIndexEntryIfExists_correct {T} `{TagValue T} (tag : T) h :
  header_wf h -> packed h -> ID tag <> trailer_tag h -> fits h 0 ->
  exists h', DeleteIndexEntryIfExists tag h = (Ok tt, h') /\
    header_wf h' /\ layout_ok (regionTrailerEntry h') (entries h') (storeSizeInBytes h') /\
    packed h' /\ frame h' = frame h /\ user_entries h' = delete (ID tag) (user_entries h) /\
    (forall n, fix_trailer (IsMainHeader h) n (trailer_of h') =
               fix_trailer (IsMainHeader h) n (trailer_of h)).
Proof.
  intros Hwf Hp Ht Hfit. destruct (Delete_run tag h Hwf Hp Ht Hfit) as (h' & ? & ? & ? & ? & _ & ? & ? & _ & _).
  exists h'. split_and!; try done. by apply packed_ok.
Qed.

(** C12. [SetOrAddIndexEntry] stores exactly the item it is given, whether the tag
    is new or replaced by a payload that does not grow, ends the store, or can be
    moved into reserved space: every other item but the reserved space is
    unchanged, the header stays well formed and its data store is packed. *)
Theorem SetOrAddIndexEntry_correct {T} `{TagValue T} (tag : T) f c p h :
  header_wf h -> packed h -> storable h (ID tag) f c p -> room h p ->
  (forall e, find_entry tag h = Some e -> ie_formatType e = f /\ replace_safe h e p) ->
  exists h', SetOrAddIndexEntry tag f c p h = (Ok tt, h') /\ stored h h' (ID tag) (mkItem f c p) /\
    layout_ok (regionTrailerEntry h') (entries h') (storeSizeInBytes h').
Proof.
  intros Hwf Hp Hst Hfit Hex.
  destruct (SetOrAddIndexEntry_stored tag f c p h) as (h' & Hrun & Hs); [done..|].
  exists h'. split_and!; [done..|]. apply packed_ok, Hs.
Qed.

(** C34. A replacement that has to move an entry of a header without reserved
    space is lost when the index fills its array: the allocation inserts the
    reserved space, which moves the index to a new array, and the new payload is
    written into the old one. The call succeeds and the entry keeps its payload. *)
Theorem SetOrAddIndexEntry_lost_update {T} `{TagValue T} (tag : T) c p h i e :
  header_wf h -> packed h -> storable h (ID tag) (ie_formatType e) c p -> room h p ->
  FindIndexEntry tag h = Some i -> entries h !! i = Some e ->
  Zlen (ie_payload e) < Zlen p -> isAtEndOfDataStore e h = Ok false ->
  TAG_RESERVEDSPACE ∉ ie_tag <$> entries h ->
  cap (IndexEntries h) = length (entries h) ->
  exists h', SetOrAddIndexEntry tag (ie_formatType e) c p h = (Ok tt, h') /\
    user_entries h' !! ID tag = Some (item_of e).
Proof.
  intros Hwf Hp Hst Hfit Hfind Hi Hlt Hend Hin Hcap.
  destruct (find_tag_lookup _ _ _ Hfind) as (e0 & He0 & Htag & _). simplify_eq.
  unfold SetOrAddIndexEntry. rewrite Hfind. cbv zeta.
  erewrite M_bind_ok by (unfold entry_at; by rewrite Hi). rewrite Z.eqb_refl. cbn [negb].
  erewrite M_bind_ok by (unfold gets; by rewrite Hend).
  rewrite (proj2 (Z.gtb_lt _ _)) by done. cbn [negb andb].
  pose proof (Zlen_nonneg (ie_payload e)). pose proof (total_size_nonneg (entries h)).
  unfold room, fits in Hfit. wrap_small_tac.
  destruct (alloc_run_absent (Zlen p) (ie_formatType e) h) as (a & h1 & Hrun & Hal & Harr);
    [done|done|apply Hst|lia|unfold fits; lia|by apply find_tag_None|].
  rewrite (M_bind_ok _ _ _ _ _ Hrun). erewrite M_bind_ok by done.
  assert ((array h1).2 = S (array h).2) as Hmoved by (apply Harr, Nat.leb_gt; lia).
  assert (set_IndexEntries (store_through (address_of (IndexEntries h) i) (fun e0 =>
      set_payload p (set_dataItemCnt c (set_offset a e0)))) h1 = h1) as ->.
  { unfold set_IndexEntries, store_through, array in *. simpl in *.
    rewrite (proj2 (Nat.eqb_neq _ _)) by lia. by destruct h1. }
  pose proof (al_size _ _ _ _ _ Hal).
  destruct (sync_run h1 (al_wf _ _ _ _ _ Hal)) as (h' & Hrun' & _ & _ & Hfr & _ & Hc & _);
    [unfold fits; lia|].
  exists h'. split; [done|]. pose proof (al_frame _ _ _ _ _ Hal) as Hfr1.
  pose proof (al_user _ _ _ _ _ Hal) as Hu. apply (f_equal (lookup (ID tag))) in Hu.
  pose proof (sb_not_reserved _ _ _ _ _ Hst) as Hnr. pose proof (sb_not_trailer _ _ _ _ _ Hst) as Hnt.
  rewrite !lookup_delete_ne in Hu by (by apply not_eq_sym).
  unfold user_entries in *. rewrite (frame_trailer_tag h1 h'), Hc by done. rewrite Hu.
  rewrite lookup_delete_ne by (by apply not_eq_sym). rewrite <- Htag.
  apply contents_in; [apply sorted_nodup, Hwf|by eapply list_elem_of_lookup_2].
Qed.
End Update.

#[local] Existing Instance doubling.

(** The sample header without spare capacity in its index. *)
Definition sample_full : RpmHeader :=
  set_IndexEntries (fun s => mkSlice (elems s) 5 0) sample_packed.

Lemma sample_full_ok : header_wf sample_full /\ packed sample_full.
Proof. split; [by apply header_wfb_ok|done]. Qed.

Lemma sample_storable h t f c p :
  in_width 32 t -> t <> 62 -> t <> 63 -> t <> 1008 -> known_format f -> in_width 32 c -> p <> [] ->
  bytes_ok p -> storable h t f c p.
Proof.
  intros. constructor; try done. unfold trailer_tag. by destruct (IsMainHeader h).
Qed.

Lemma DeleteIndexEntryIfExists_correct_witness :
  exists h', DeleteIndexEntryIfExists SigTagSHA1Header sample_packed = (Ok tt, h') /\
    header_wf h' /\ layout_ok (regionTrailerEntry h') (entries h') (storeSizeInBytes h') /\
    packed h' /\ frame h' = frame sample_packed /\
    user_entries h' = delete (ID SigTagSHA1Header) (user_entries sample_packed) /\
    (forall n, fix_trailer (IsMainHeader sample_packed) n (trailer_of h') =
               fix_trailer (IsMainHeader sample_packed) n (trailer_of sample_packed)).
Proof.
  apply (DeleteIndexEntryIfExists_correct SigTagSHA1Header sample_packed);
    [exact (proj1 sample_packed_ok)|exact (proj2 sample_packed_ok)|vm_compute; congruence
    |vm_compute; reflexivity].
Defined.

Lemma SetOrAddIndexEntry_correct_witness :
  exists h', SetOrAddIndexEntry SigTagRSAHeader 7 3 [1; 2; 3] sample_packed = (Ok tt, h') /\
    stored sample_packed h' (ID SigTagRSAHeader) (mkItem 7 3 [1; 2; 3]) /\
    layout_ok (regionTrailerEntry h') (entries h') (storeSizeInBytes h').
Proof.
  apply (SetOrAddIndexEntry_correct SigTagRSAHeader 7 3 [1; 2; 3] sample_packed);
    [exact (proj1 sample_packed_ok)|exact (proj2 sample_packed_ok)| |vm_compute; reflexivity|by intros e [=]].
  apply sample_storable; first [discriminate|by apply (bool_decide_unpack _)].
Defined.

Lemma SetOrAddIndexEntry_lost_update_witness :
  exists h', SetOrAddIndexEntry SigTagSHA1Header 6 1 [98; 97; 114; 115; 0] sample_full = (Ok tt, h') /\
    user_entries h' !! ID SigTagSHA1Header = Some (mkItem 6 1 [102; 111; 111; 0]).
Proof.
  apply (SetOrAddIndexEntry_lost_update SigTagSHA1Header 1 [98; 97; 114; 115; 0] sample_full 2
           (mkEntry false 269 6 4 1 [102; 111; 111; 0]));
    [exact (proj1 sample_full_ok)|exact (proj2 sample_full_ok)| |vm_compute; reflexivity
    |reflexivity|reflexivity|reflexivity|reflexivity| |reflexivity].
  - apply sample_storable; first [discriminate|by apply (bool_decide_unpack _)].
  - apply find_tag_None. reflexivity.
Defined.
