(* ===== verification/Payload.v ===== *)
(** The payload of an index entry ([src/common/rpmparser.go]): reading it from
    the data store and printing it. *)
From S2P Require Import Prelude Utils Serializer Tags Header Layout.
From stdpp Require Import pretty.
#[local] Open Scope Z_scope.

(** ** Text *)

(** The bytes of a Go string constant. *)
Definition str (s : string) : list Z :=
  (fun c => Z.of_N (Ascii.N_of_ascii c)) <$> String.list_ascii_of_string s.

Lemma str_app s t : str (s +:+ t) = str s ++ str t.
Proof. induction s as [|c s IH]; [done|]. exact (f_equal (cons _) IH). Qed.

(** [fmt.Sprintf("%d", x)] *)
Definition decimal (x : Z) : list Z := str (pretty x).

(** [strings.Join(values, sep)] *)
Fixpoint join (sep : list Z) (values : list (list Z)) : list Z :=
  match values with
  | [] => []
  | [v] => v
  | v :: values => v ++ sep ++ join sep values
  end.

(** [string(b)] of a byte: the UTF-8 encoding of the code point [b]. *)
Definition rune_of_byte (b : Z) : list Z :=
  if b <? 128 then [b] else [Z.lor 0xC0 (Z.shiftr b 6); Z.lor 0x80 (Z.land b 63)].

(** *** [hex.Dump] *)

Definition hex2 (b : Z) : list Z := str (hex_padded 2 b).

Definition dump_char (b : Z) : Z := if (b <? 32) || (126 <? b) then 46 else b.

Definition dump_cell (line : list Z) (i : nat) : list Z :=
  (match line !! i with Some b => hex2 b | None => str "  " end) ++
  (if (i =? 7)%nat then str "  " else if (i =? 15)%nat then str "  |" else str " ").

Definition dump_line (off : Z) (line : list Z) : list Z :=
  str (hex_padded 8 off) ++ str "  " ++ mjoin (dump_cell line <$> seq 0 16) ++
  (dump_char <$> line) ++ str "|" ++ [10].

Fixpoint dump_lines (fuel : nat) (off : Z) (data : list Z) : list Z :=
  match fuel, data with
  | S fuel, _ :: _ => dump_line off (take 16 data) ++ dump_lines fuel (off + 16) (drop 16 data)
  | _, _ => []
  end.

Definition hexDump (data : list Z) : list Z := dump_lines (length data) 0 data.

Example hexDump_ex :
  hexDump (str "abc") =
    str "00000000  61 62 63                                          |abc|" ++ [10].
Proof. done. Qed.

(** ** Printing *)

(** The loop of the integer formats: [cnt] values, each read from the payload.
    Every value takes at least one byte, so the length of the payload bounds the
    number of iterations. *)
Fixpoint readValues (fuel : nat) (cnt : Z) (read : M arrayReader Z) (fmt : Z -> list Z)
    (values : list (list Z)) : M arrayReader (list (list Z)) :=
  if cnt >? 0 then
    match fuel with
    | O => lift Diverge
    | S fuel => fun r =>
        match read r with
        | (Ok result, r') =>
            readValues fuel (cnt - 1) read fmt (values ++ [fmt result]) r'
        | (Err _, r') => (Panic "Payload too short on %s", r')
        | (Panic p, r') => (Panic p, r')
        | (Diverge, r') => (Diverge, r')
        end
    end
  else mret values.

Definition printValues (i : IndexEntry) (read : M arrayReader Z) (width : Z) : outcome (list Z) :=
  values ← (readValues (S (length (ie_payload i))) (ie_dataItemCnt i) read
              (fun x => decimal (signed width x)) [] (NewArrayReader (ie_payload i))).1;
  mret (join (str ", ") values).

Definition PayloadAsPrettyString (i : IndexEntry) : outcome (list Z) :=
  let f := ie_formatType i in
  if f =? FORMAT_TYPE_NULL then
    Ok (join (str ", ") (replicate (Z.to_nat (ie_dataItemCnt i)) (str "<NULL>")))
  else if f =? FORMAT_TYPE_CHAR then Ok (mjoin (rune_of_byte <$> ie_payload i))
  else if f =? FORMAT_TYPE_INT8 then
    Ok (join (str ", ") ((fun value => decimal (signed 8 value)) <$> ie_payload i))
  else if f =? FORMAT_TYPE_INT16 then printValues i readShort 16
  else if f =? FORMAT_TYPE_INT32 then printValues i readWord 32
  else if f =? FORMAT_TYPE_INT64 then printValues i readLongWord 64
  else if f =? FORMAT_TYPE_BINARY then Ok (hexDump (ie_payload i))
  else if (f =? FORMAT_TYPE_STRING) || (f =? FORMAT_TYPE_STRING_ARRAY)
          || (f =? FORMAT_TYPE_I18N_STRING_ARRAY) then
    let terminatedStrings := parseNullTerminatedStrings (ie_payload i) in
    if negb (Zlen terminatedStrings =? ie_dataItemCnt i)
    then Panic "String payload count mismatch on %s. Expected %d strings but only got %d"
    else Ok (join (str ", ") terminatedStrings)
  else Panic "Unknown format type %d (0x%x) on index entry".

(** ** Reading *)

Section Populate.
Context {R : Type} `{ReaderWithOffset R}.

(** The loop of the string arrays; every string takes at least one byte. *)
Fixpoint readStrings (fuel : nat) (cnt : Z) (payload : list Z) : M R (list Z) :=
  if cnt >? 0 then
    match fuel with
    | O => lift Diverge
    | S fuel' =>
        s ← readNullTerminatedString fuel [];
        readStrings fuel' (cnt - 1) (payload ++ s)
    end
  else mret payload.

(** [readNullTerminatedString] hands back what it has read when it fails; the
    entry is too short if that is nothing. *)
Definition readString (fuel : nat) : M R (list Z) := fun r =>
  match readNullTerminatedString fuel [] r with
  | (Err e, r') =>
      if Offset r' =? Offset r then (Err "payload too short on %s", r') else (Err e, r')
  | res => res
  end.

Definition populatePayload (fuel : nat) (i : IndexEntry) : M R IndexEntry :=
  let f := ie_formatType i in
  let cnt := ie_dataItemCnt i in
  let with_payload (m : M R (list Z)) : M R IndexEntry := p ← m; mret (set_payload p i) in
  if f =? 0 then mret i
  else if f =? 1 then with_payload (readByteArray 1)
  else if f =? 2 then with_payload (readByteArray cnt)
  else if f =? 3 then with_payload (readByteArray (u32 (cnt * 2)))
  else if f =? 4 then with_payload (readByteArray (u32 (cnt * 4)))
  else if f =? 5 then with_payload (readByteArray (u32 (cnt * 8)))
  else if f =? 6 then with_payload (readString fuel)
  else if f =? 7 then with_payload (readByteArray cnt)
  else if (f =? 8) || (f =? 9) then with_payload (readStrings fuel cnt (ie_payload i))
  else raise "invalid index entry".
End Populate.

(** ** Payloads that agree with their format and count *)

Definition no_nulls (s : list Z) : Prop := Forall (fun b => b <> 0) s.

Definition encode_strings (ss : list (list Z)) : list Z := mjoin ((fun s => s ++ [0]) <$> ss).

Inductive payload_ok (f cnt : Z) (p : list Z) : Prop :=
| payload_char : f = 1 -> Zlen p = 1 -> payload_ok f cnt p
| payload_int k : (f, k) ∈ [(2, 1); (3, 2); (4, 4); (5, 8); (7, 1)] -> Zlen p = k * cnt ->
    payload_ok f cnt p
| payload_strings ss : f ∈ [6; 8; 9] -> p = encode_strings ss -> Forall no_nulls ss ->
    cnt = Zlen ss -> (f = 6 -> cnt = 1) -> payload_ok f cnt p.

Lemma parse_one s tl builder res :
  no_nulls s ->
  parseNullTerminatedLoop (s ++ 0 :: tl) builder res =
    parseNullTerminatedLoop tl [] (res ++ [builder ++ s]).
Proof.
  intros Hs. revert builder. induction Hs as [|b s Hb _ IH]; intros builder; simpl.
  - by rewrite app_nil_r.
  - rewrite (proj2 (Z.eqb_neq _ _)) by done. rewrite IH. by rewrite <- app_assoc.
Qed.

Lemma parse_encode ss : Forall no_nulls ss -> parseNullTerminatedStrings (encode_strings ss) = ss.
Proof.
  intros Hss. unfold parseNullTerminatedStrings.
  assert (forall res, parseNullTerminatedLoop (encode_strings ss) [] res = res ++ ss) as H; [|by rewrite H].
  induction Hss as [|s ss Hs _ IH]; intros res; [by rewrite app_nil_r|].
  change (encode_strings (s :: ss)) with ((s ++ [0]) ++ encode_strings ss).
  rewrite <- app_assoc. simpl. rewrite parse_one by done. by rewrite IH, <- app_assoc.
Qed.

(** ** Reading integers that are there *)

(** [reads k m]: [m] succeeds whenever [k] bytes are left, and consumes them. *)
Definition reads (k : nat) (m : M stream Z) : Prop :=
  forall l tl off, length l = k -> in_width 64 off ->
    exists v, m (mkStream (l ++ tl) off) = (Ok v, mkStream tl (u64 (off + Z.of_nat k))).

Lemma reads_readShort : reads 2 readShort.
Proof.
  intros l tl off Hl Hoff. destruct l as [|b0 [|b1 [|]]]; try done.
  eexists. unfold readShort, readBytes.
  erewrite M_bind_ok by (apply (FillBuffer_app 2 [b0; b1] tl off); done). done.
Qed.

Lemma reads_twice k m (f : Z -> Z -> Z) :
  reads k m -> reads (k + k) (h ← m; lo ← m; mret (f h lo)).
Proof.
  intros Hm l tl off Hl Hoff. rewrite <- (take_drop k l), <- app_assoc.
  destruct (Hm (take k l) (drop k l ++ tl) off) as [v1 E1]; [rewrite length_take; lia|done|].
  destruct (Hm (drop k l) tl (u64 (off + Z.of_nat k))) as [v2 E2];
    [rewrite length_drop; lia|apply wrap_range; lia|].
  exists (f v1 v2). rewrite (M_bind_ok _ _ _ _ _ E1), (M_bind_ok _ _ _ _ _ E2).
  unfold mret, M_ret. rewrite wrap_add_l by lia.
  by rewrite Nat2Z.inj_add, Z.add_assoc.
Qed.

Lemma reads_readWord : reads 4 readWord.
Proof. apply (reads_twice 2), reads_readShort. Qed.

Lemma reads_readLongWord : reads 8 readLongWord.
Proof. apply (reads_twice 4), reads_readWord. Qed.

Lemma readValues_ok fuel cnt k m (ms : M stream Z) fmt values (r : arrayReader) :
  refines m ms -> reads (S k) ms -> valid r -> 0 <= cnt < Z.of_nat fuel ->
  Zlen (rest r) = Z.of_nat (S k) * cnt ->
  exists vs, (readValues fuel cnt m fmt values r).1 = Ok vs.
Proof.
  intros Hm Hr. revert cnt values r. induction fuel as [|fuel IH]; intros cnt values r Hv Hc Hl; [lia|].
  simpl. destruct (Z.gtb_spec cnt 0) as [Hpos|]; [|by eexists].
  destruct (Hm r Hv) as [Hv' Hp].
  destruct (Hr (take (S k) (rest r)) (drop (S k) (rest r)) (Offset r)) as [v E].
  { rewrite length_take. unfold Zlen in Hl. nia. }
  { by apply offset_law. }
  rewrite take_drop in E. unfold view at 1 in Hp. rewrite E in Hp.
  destruct (m r) as [o r'] eqn:Em. simpl in *. injection Hp as <- Hrest _.
  apply IH; [done|lia|]. rewrite <- Hrest. unfold Zlen in *. rewrite length_drop. nia.
Qed.

Lemma PayloadAsPrettyString_ok i :
  payload_ok (ie_formatType i) (ie_dataItemCnt i) (ie_payload i) ->
  exists s, PayloadAsPrettyString i = Ok s.
Proof.
  intros Hp. unfold PayloadAsPrettyString.
  assert (forall m (ms : M stream Z) w k, refines m ms -> reads (S k) ms ->
    Zlen (ie_payload i) = Z.of_nat (S k) * ie_dataItemCnt i ->
    exists s, printValues i m w = Ok s) as Hv.
  { intros m ms w k Hm Hr Hl. unfold printValues.
    pose proof (Zlen_nonneg (ie_payload i)) as Hn.
    destruct (readValues_ok (S (length (ie_payload i))) (ie_dataItemCnt i) k m ms
      (fun x => decimal (signed w x)) [] (NewArrayReader (ie_payload i))) as [vs Evs]; try done.
    - simpl. lia.
    - unfold Zlen in *. nia.
    - rewrite Evs. by eexists. }
  destruct Hp as [Hf Hl|k Hk Hl|ss Hf Hpl Hss Hc Hone].
  - rewrite Hf. by eexists.
  - rewrite !elem_of_cons in Hk. destruct_or! Hk; try (by apply elem_of_nil in Hk);
      injection Hk as -> ->; cbn.
    + by eexists.
    + apply (Hv readShort readShort 16 1%nat); [apply refines_readShort|apply reads_readShort|done].
    + apply (Hv readWord readWord 32 3%nat); [apply refines_readWord|apply reads_readWord|done].
    + apply (Hv readLongWord readLongWord 64 7%nat); [apply refines_readLongWord|apply reads_readLongWord|done].
    + by eexists.
  - rewrite Hpl, parse_encode, Hc, Z.eqb_refl by done.
    rewrite !elem_of_cons in Hf. destruct_or! Hf; try (by apply elem_of_nil in Hf); rewrite Hf; by eexists.
Qed.

(** ** Reading a payload back *)

Lemma encode_cons s ss : encode_strings (s :: ss) = (s ++ [0]) ++ encode_strings ss.
Proof. done. Qed.

Lemma nts_nil fuel s tl off :
  (length s < fuel)%nat -> no_nulls s -> in_width 64 off ->
  readNullTerminatedString fuel [] (mkStream ((s ++ [0]) ++ tl) off) =
    (Ok (s ++ [0]), mkStream tl (u64 (off + Zlen (s ++ [0])))).
Proof.
  intros. rewrite <- app_assoc. simpl. rewrite nts_stream by done. simpl.
  by rewrite Zlen_app, Z.add_assoc.
Qed.

Lemma readStrings_stream fuel ss payload tl off :
  (length (encode_strings ss) < fuel)%nat -> Forall no_nulls ss -> in_width 64 off ->
  readStrings fuel (Zlen ss) payload (mkStream (encode_strings ss ++ tl) off) =
    (Ok (payload ++ encode_strings ss), mkStream tl (u64 (off + Zlen (encode_strings ss)))).
Proof.
  intros Hf Hss. revert fuel payload off Hf.
  induction Hss as [|s ss Hs _ IH]; intros fuel payload off Hf Hoff.
  { change (encode_strings []) with (@nil Z).
    destruct fuel; simpl; unfold mret, M_ret; by rewrite app_nil_r, Z.add_0_r, wrap_small. }
  rewrite encode_cons in *. rewrite !length_app in Hf. simpl in Hf.
  destruct fuel as [|fuel]; [lia|]. cbn [readStrings]. rewrite Zlen_cons.
  pose proof (Zlen_nonneg ss). rewrite (proj2 (Z.gtb_lt _ _)) by lia.
  rewrite <- app_assoc. rewrite (M_bind_ok _ _ _ _ _ (nts_nil (S fuel) s _ off ltac:(lia) Hs Hoff)).
  replace (1 + Zlen ss - 1) with (Zlen ss) by lia.
  rewrite IH by ((apply wrap_range; lia) || lia).
  rewrite <- app_assoc, wrap_add_l, (Zlen_app (s ++ [0])) by lia. by rewrite Z.add_assoc.
Qed.

Lemma populatePayload_stream fuel i p tl off :
  payload_ok (ie_formatType i) (ie_dataItemCnt i) p -> ie_payload i = [] ->
  0 <= ie_dataItemCnt i -> Zlen p < 2 ^ 32 -> (length p < fuel)%nat -> in_width 64 off ->
  populatePayload fuel i (mkStream (p ++ tl) off) =
    (Ok (set_payload p i), mkStream tl (u64 (off + Zlen p))).
Proof.
  intros Hp Hnil Hcnt Hlen Hfuel Hoff. pose proof (Zlen_nonneg p). unfold populatePayload.
  assert (forall n, n = Zlen p ->
    (l ← readByteArray n; mret (set_payload l i)) (mkStream (p ++ tl) off) =
      (Ok (set_payload p i), mkStream tl (u64 (off + Zlen p)))) as Hread.
  { intros n ->. unfold readByteArray.
    erewrite M_bind_ok by (apply FillBuffer_app; [unfold Zlen; lia|done]).
    unfold mret, M_ret. by rewrite Z2Nat.id. }
  destruct Hp as [Hf Hl|k Hk Hl|ss Hf Hpl Hss Hc Hone].
  - rewrite Hf. cbn [Z.eqb Pos.eqb]. by apply Hread.
  - rewrite !elem_of_cons in Hk. destruct_or! Hk; try (by apply elem_of_nil in Hk);
      injection Hk as Hf ->; rewrite Hf; cbn [Z.eqb Pos.eqb]; apply Hread; wrap_small_tac; lia.
  - rewrite !elem_of_cons in Hf. destruct_or! Hf; try (by apply elem_of_nil in Hf);
      rewrite Hf; cbn [Z.eqb Pos.eqb orb].
    + rewrite (Hone Hf) in Hc. destruct ss as [|s [|s' ss]]; [done| |rewrite !Zlen_cons in Hc; pose proof (Zlen_nonneg ss); lia].
      apply Forall_cons in Hss as [Hs _]. rewrite Hpl in *. rewrite encode_cons, app_nil_r in *.
      rewrite length_app in Hfuel. simpl in Hfuel.
      erewrite M_bind_ok; [done|]. unfold readString. by rewrite nts_nil by (done || lia).
    + rewrite Hnil, Hc, Hpl in *. erewrite M_bind_ok by (apply readStrings_stream; done). done.
    + rewrite Hnil, Hc, Hpl in *. erewrite M_bind_ok by (apply readStrings_stream; done). done.
Qed.

(** ** The same on every reader *)

Section PopulateRefines.
Context {R : Type} `{LawfulReader R}.

Lemma refines_readString fuel : refines (readString fuel) (readString fuel).
Proof.
  intros r Hr. destruct (refines_nts fuel [] r Hr) as [Hv Hp]. unfold readString. rewrite Hp.
  destruct (readNullTerminatedString fuel [] r) as [[s|e|p|] r'] eqn:E; simpl in *; try done.
  by destruct (Offset r' =? Offset r).
Qed.

Lemma refines_readStrings fuel cnt payload :
  refines (readStrings fuel cnt payload) (readStrings fuel cnt payload).
Proof.
  revert cnt payload. induction fuel as [|fuel IH]; intros cnt payload; cbn [readStrings];
    (case_match; [|apply refines_ret]); [apply refines_lift|].
  apply refines_bind; [apply refines_nts|]. intros s. apply IH.
Qed.

Lemma refines_populatePayload fuel i :
  refines (populatePayload fuel i) (populatePayload fuel i).
Proof.
  unfold populatePayload, readByteArray.
  repeat (case_match; [|]); try apply refines_ret; try apply refines_lift;
    (apply refines_bind; [|intros; apply refines_ret]);
    first [apply refines_fill|apply refines_readString|apply refines_readStrings].
Qed.
End PopulateRefines.

(** C35. Every payload that agrees with its format type and item count - the bytes,
    half words, words, long words or null-terminated strings the count announces -
    is read back exactly from any reader that delivers it, nothing behind it is
    consumed, and printing the entry does not panic. *)
Theorem populatePayload_roundtrip {R} `{LawfulReader R} fuel i p tl (r : R) :
  payload_ok (ie_formatType i) (ie_dataItemCnt i) p -> ie_payload i = [] ->
  0 <= ie_dataItemCnt i -> Zlen p < 2 ^ 32 -> (length p < fuel)%nat ->
  valid r -> rest r = p ++ tl ->
  exists r' s, populatePayload fuel i r = (Ok (set_payload p i), r') /\ rest r' = tl /\
    PayloadAsPrettyString (set_payload p i) = Ok s.
Proof.
  intros Hp Hnil Hcnt Hlen Hfuel Hv Hrest.
  destruct (refines_populatePayload fuel i r Hv) as [_ Hrun].
  unfold view at 1 in Hrun. rewrite Hrest in Hrun.
  rewrite (populatePayload_stream fuel i p tl) in Hrun by (done || by apply offset_law).
  destruct (PayloadAsPrettyString_ok (set_payload p i) Hp) as [s Hs].
  destruct (populatePayload fuel i r) as [o r']. simpl in Hrun. injection Hrun as <- Hr _.
  by exists r', s.
Qed.

(** Two strings of a string array. *)
Definition sample_strings : list Z := encode_strings [[97; 98]; [99]].

Lemma populatePayload_roundtrip_witness :
  exists r' s, populatePayload 20 (mkEntry true 1000 8 0 2 []) (NewArrayReader (sample_strings ++ [1; 2])) =
      (Ok (set_payload sample_strings (mkEntry true 1000 8 0 2 [])), r') /\ rest r' = [1; 2] /\
    PayloadAsPrettyString (set_payload sample_strings (mkEntry true 1000 8 0 2 [])) = Ok s.
Proof.
  apply (populatePayload_roundtrip (R:=arrayReader) 20 (mkEntry true 1000 8 0 2 []) sample_strings [1; 2]);
    [|reflexivity|vm_compute; congruence|vm_compute; reflexivity|apply Nat.ltb_lt; reflexivity
     |apply Nat.leb_le; reflexivity|reflexivity].
  apply (payload_strings 8 2 _ [[97; 98]; [99]]);
    [set_solver|reflexivity|repeat constructor; lia|reflexivity|discriminate].
Defined.
