(* ===== verification/HeaderCodec.v ===== *)
(** Reading and writing the lead and the header structures
    ([src/common/rpmparser.go]: [parseLead], [RpmLead.write], [parseIndexEntry],
    [parseHeader], [RpmHeader.Write], [RpmHeader.GetData]). *)
From S2P Require Import Prelude Utils Bitmap DynArray Serializer Tags Header Layout Payload.

(** ** Reading *)

Section Parse.
Context {R : Type} `{ReaderWithOffset R} `{Runtime}.

Definition parseIndexEntry (isMainHeaderEntry : bool) : M R IndexEntry :=
  tag ← readWord;
  formatType ← readWord;
  offset ← readWord;
  dataItemCnt ← readWord;
  mret (mkEntry isMainHeaderEntry tag formatType offset dataItemCnt []).

(** [for i := 0; i < indexEntryCount; i++] *)
Fixpoint parseEntries (n : nat) (isMainHeader : bool) (acc : slice IndexEntry)
    : M R (slice IndexEntry) :=
  match n with
  | O => mret acc
  | S n =>
      entry ← parseIndexEntry isMainHeader;
      parseEntries n isMainHeader (append acc entry)
  end.

(** The indices of the entries, ascending by offset. Entries with equal offsets
    may come in any order; the loop below fails on them in every order. *)
Definition offset_le (l : list IndexEntry) (a b : nat) : Prop :=
  default 0 (ie_offset <$> l !! a) <= default 0 (ie_offset <$> l !! b).

#[export] Instance offset_le_dec l a b : Decision (offset_le l a b).
Proof. unfold offset_le. apply _. Defined.

Definition sortedEntryIndices (l : list IndexEntry) : list nat :=
  merge_sort (offset_le l) (seq 0 (length l)).

(** The region trailer: tag, type, negative offset of the index and size, each of
    which has to have the expected value. *)
Definition expect_word (ok : Z -> bool) (msg : string) : M arrayReader Z := fun r =>
  match readWord r with
  | (Ok value, r') => if ok value then (Ok value, r') else (Panic msg, r')
  | (Err _, r') => (Panic msg, r')
  | res => res
  end.

Definition parseSignedRegion (dataStoreStart storeSize : Z) : M arrayReader SignedRegion :=
  _ ← expect_word (fun v => v =? 0x3e) "Invalid SigTagHeaderSignatures entry (tag value)";
  _ ← expect_word (fun v => v =? 0x7) "Invalid SigTagHeaderSignatures entry (type)";
  negativeOffset ← expect_word (fun _ => true) "Invalid SigTagHeaderSignatures entry (negative offset)";
  _ ← expect_word (fun v => v =? 16) "Invalid SigTagHeaderSignatures entry (size)";
  let size := u32 (- i32 negativeOffset) in
  mret (mkSignedRegion (u64 (dataStoreStart - size)) (size / 16) (u64 (u32 (storeSize + size)))).

(** One entry: skip the padding in front of its payload, read the payload, log it
    (which prints it), and take the region from the trailer. *)
Definition populateEntry (fuel : nat) (isMainHeader : bool) (dataStoreStart storeSize : Z)
    (entry : IndexEntry) : M R (IndexEntry * option SignedRegion) :=
  off ← offset_;
  _ ← (if off >? ie_offset entry then panic "Already past start of entry ?"
       else if off <? ie_offset entry then readAhead (u32 (ie_offset entry - off))
       else mret tt);
  entry ← populatePayload fuel entry;
  _ ← lift (PayloadAsPrettyString entry);
  if Zlen (ie_payload entry) =? 0 then panic "Empty payload?"
  else if negb isMainHeader && (ie_tag entry =? ID SigTagHeaderSignatures) then
    region ← run_local (NewArrayReader (ie_payload entry))
               (parseSignedRegion dataStoreStart storeSize);
    mret (entry, Some region)
  else mret (entry, None).

Fixpoint populateAll (fuel : nat) (isMainHeader : bool) (dataStoreStart storeSize : Z)
    (order : list nat) (es : slice IndexEntry) (region : option SignedRegion)
    : M R (slice IndexEntry * option SignedRegion) :=
  match order with
  | [] => mret (es, region)
  | idx :: order =>
      entry ← lift (match elems es !! idx with
                    | Some e => Ok e
                    | None => Panic "index out of range"
                    end);
      x ← populateEntry fuel isMainHeader dataStoreStart storeSize entry;
      let '(entry, r) := (x : IndexEntry * option SignedRegion) in
      populateAll fuel isMainHeader dataStoreStart storeSize order
        (with_elems (<[idx := entry]> (elems es)) es)
        (match r with Some _ => r | None => region end)
  end.
End Parse.

(** An error that is passed on with a text in front of it. *)
Definition wrap_err {S A} (prefix : string) (m : M S A) : M S A := fun s =>
  match m s with
  | (Err e, s') => (Err (prefix +:+ e), s')
  | res => res
  end.

Section ParseHeader.
Context {R : Type} `{ReaderWithOffset R} `{Runtime}.

(** [parseHeader] up to the end of the data store; the digests are filled in by the
    callers below. *)
Definition parseHeaderBody (isMainHeader : bool) : M R RpmHeader :=
  headerStart ← offset_;
  magic ← readBytes 3;
  if negb (bool_decide (headerMagic = magic)) then raise "invalid RPM header header magic"
  else
    version ← readByte;
    reserved ← readBytes 4;
    indexEntryCount ← readWord;
    storeSizeInBytes ← readWord;
    indicesStart ← offset_;
    es ← parseEntries (Z.to_nat indexEntryCount) isMainHeader nil_slice;
    dataStoreStart ← offset_;
    storeData ← wrap_err "failed to read header data store. "
                  (readBytes (Z.to_nat storeSizeInBytes));
    x ← run_local (NewArrayReader storeData)
          (populateAll (S (length storeData)) isMainHeader dataStoreStart storeSizeInBytes
             (sortedEntryIndices (elems es)) es None);
    let '(es, region) := (x : slice IndexEntry * option SignedRegion) in
    mret (mkHeader magic version reserved indexEntryCount storeSizeInBytes isMainHeader es
            headerStart indicesStart dataStoreStart region [] [] []).

Definition parseSignatureHeader : M R RpmHeader :=
  hdr ← parseHeaderBody false;
  _ ← advanceToNext8ByteBoundary;
  mret hdr.
End ParseHeader.

Definition NewDigestReaderImpl {R} (source : R) (hash : list Z) : DigestReaderImpl R :=
  mkDigestReader source hash.

(** The main header is read through three digest readers, the MD5 one innermost;
    afterwards the serializer reads from the original reader again. *)
Definition parseMainHeader {R} `{ReaderWithOffset R} `{Runtime} : M R RpmHeader :=
  fun originalReader =>
    let md5Digest := NewDigestReaderImpl originalReader [] in
    let sha1Digest := NewDigestReaderImpl md5Digest [] in
    let sha256Digest := NewDigestReaderImpl sha1Digest [] in
    let '(res, d) := parseHeaderBody true sha256Digest in
    (match res with
     | Ok hdr => Ok (mkHeader (Magic hdr) (version hdr) (reserved hdr) (indexEntryCount hdr)
         (storeSizeInBytes hdr) (IsMainHeader hdr) (IndexEntries hdr) (headerStartOffset hdr)
         (IndicesStartOffset hdr) (DataStoreStartOffset hdr) (signedRegion hdr)
         (digest (source (source d))) (digest (source d)) (digest d))
     | Err e => Err e
     | Panic p => Panic p
     | Diverge => Diverge
     end, source (source (source d))).

Definition parseHeader {R} `{ReaderWithOffset R} `{Runtime} (isMainHeader : bool) : M R RpmHeader :=
  if isMainHeader then parseMainHeader else parseSignatureHeader.

(** ** Writing *)

Section Write.
Context {W : Type} `{WriterWithOffset W}.

Fixpoint writeEntries (l : list IndexEntry) (dataStoreData : dynamicArrayImpl)
    : M W dynamicArrayImpl :=
  match l with
  | [] => mret dataStoreData
  | entry :: l =>
      _ ← writeWord (ie_tag entry);
      _ ← writeWord (ie_formatType entry);
      alignment ← lift (GetRequiredAlignment (ie_formatType entry));
      if negb (ie_offset entry mod alignment =? 0) then raise "invalid format type alignment %d"
      else
        _ ← writeWord (ie_offset entry);
        _ ← writeWord (ie_dataItemCnt entry);
        dataStoreData ← lift (match DynArray.Write (ie_payload entry) (ie_offset entry) dataStoreData with
                              | (Ok _, da) => Ok da
                              | (Err _, _) => Panic "internal error while writing %d bytes of payload at offset 0x%x - %s"
                              | (Panic p, _) => Panic p
                              | (Diverge, _) => Diverge
                              end);
        writeEntries l dataStoreData
  end.

Definition Write_ (header : RpmHeader) (isMainHeader : bool) : M W unit :=
  _ ← (if isMainHeader then writeAlignTo 8 else mret tt);
  _ ← writeBytes (Magic header);
  _ ← writeByte (version header);
  _ ← writeBytes (reserved header);
  _ ← writeWord (indexEntryCount header);
  _ ← writeWord (storeSizeInBytes header);
  dataStoreData ← writeEntries (entries header) NewDynamicArray;
  writeBytes (DynArray.GetData dataStoreData).

(** *** The lead *)

Definition write_lead (lead : RpmLead) : M W unit :=
  _ ← writeBytes (lead_Magic lead);
  _ ← writeByte (lead_Major lead);
  _ ← writeByte (lead_Minor lead);
  _ ← writeShort (lead_packageType lead);
  _ ← writeShort (lead_ArchNum lead);
  _ ← writeBytes (lead_name lead);
  _ ← writeShort (lead_OsNum lead);
  _ ← writeShort (lead_SignatureType lead);
  writeBytes (lead_Reserved lead).
End Write.

(** [GetData]: [Write] into memory. *)
Definition GetData_ (header : RpmHeader) : outcome (list Z) :=
  match Write_ header false (NewOffsetTrackingWriter NewArrayWriter) with
  | (Ok _, w) => Ok (aw_Data (otw_writer w))
  | (Err _, _) => Panic "Internal error, writing header to []byte failed? %s"
  | (Panic p, _) => Panic p
  | (Diverge, _) => Diverge
  end.

Definition parseLead {R} `{ReaderWithOffset R} : M R RpmLead :=
  magic ← readBytes 4;
  if negb (bool_decide (leadMagic = magic))
  then raise "invalid RPM file magic. expected %s but got %s"
  else
    major ← readByte;
    minor ← readByte;
    packageType ← readShort;
    archNum ← readShort;
    name ← readBytes 66;
    osNum ← readShort;
    signatureType ← readShort;
    reserved ← readBytes 16;
    mret (mkLead magic major minor packageType archNum name osNum signatureType reserved).

(** [GetPackageType], [GetPackageName] *)
Definition GetPackageType (lead : RpmLead) : outcome Z :=
  if lead_packageType lead =? 0 then Ok PACKAGE_TYPE_BINARY
  else if lead_packageType lead =? 1 then Ok PACKAGE_TYPE_SOURCE
  else Panic "RPM has unknown package type".

Definition GetPackageName (lead : RpmLead) : outcome (list Z) :=
  match parseNullTerminatedStrings (lead_name lead) with
  | name :: _ => Ok name
  | [] => Panic "index out of range"
  end.
