(* ===== verification/Codec.v ===== *)
(** Composable statements about encodings: [decodes] for a program that reads, the
    counterpart of [appends] for a program that writes; and the round trip of the
    RPM lead, the first use of both. *)
From S2P Require Import Prelude Utils Bitmap DynArray Serializer Tags Header Layout Payload HeaderCodec.

(** [decodes off m bs a]: at offset [off], from an input that starts with [bs], [m]
    returns [a] and consumes exactly [bs]. *)
Definition decodes {A} (off : Z) (m : M stream A) (bs : list Z) (a : A) : Prop :=
  in_width 64 off -> forall tl,
    m (mkStream (bs ++ tl) off) = (Ok a, mkStream tl (u64 (off + Zlen bs))).

Create HintDb codec.

Lemma decodes_ret {A} off (a : A) : decodes off (mret a) [] a.
Proof.
  intros Hoff tl. unfold mret, M_ret. by rewrite Zlen_nil, Z.add_0_r, wrap_small.
Qed.

Lemma decodes_bind {A B} off (m : M stream A) (f : A -> M stream B) b1 b2 x y :
  decodes off m b1 x -> decodes (u64 (off + Zlen b1)) (f x) b2 y ->
  decodes off (m ≫= f) (b1 ++ b2) y.
Proof.
  intros Hm Hf Hoff tl. rewrite <- app_assoc. rewrite (M_bind_ok _ _ _ _ _ (Hm Hoff (b2 ++ tl))).
  rewrite Hf by (apply wrap_range; lia). by rewrite wrap_add_l, Zlen_app, Z.add_assoc by lia.
Qed.

(** The last step of a sequence, which consumes nothing. *)
Lemma decodes_bind_ret {A B} off (m : M stream A) (g : A -> B) bs x :
  decodes off m bs x -> decodes off (a ← m; mret (g a)) bs (g x).
Proof.
  intros Hm Hoff tl. by rewrite (M_bind_ok _ _ _ _ _ (Hm Hoff tl)).
Qed.

Lemma decodes_offset {B} off (f : Z -> M stream B) bs y :
  decodes off (f off) bs y -> decodes off (offset_ ≫= f) bs y.
Proof. intros Hf Hoff tl. rewrite (M_bind_ok _ _ _ off _) by done. by apply Hf. Qed.

Lemma decodes_lift {A B} off (o : outcome A) (f : A -> M stream B) bs x y :
  o = Ok x -> decodes off (f x) bs y -> decodes off (lift o ≫= f) bs y.
Proof. intros -> Hf Hoff tl. rewrite (M_bind_ok _ _ _ x _) by done. by apply Hf. Qed.

Lemma decodes_readBytes off n bs : length bs = n -> decodes off (readBytes n) bs bs.
Proof. intros <- Hoff tl. unfold readBytes. by rewrite FillBuffer_app. Qed.

Lemma decodes_readByte off b : decodes off readByte [b] b.
Proof. intros Hoff tl. by apply readByte_stream. Qed.

Lemma decodes_readShort off d : in_width 16 d -> decodes off readShort (be16 d) d.
Proof. intros Hd Hoff tl. by apply readShort_stream. Qed.

Lemma decodes_readWord off d : in_width 32 d -> decodes off readWord (be32 d) d.
Proof. intros Hd Hoff tl. by apply readWord_stream. Qed.

#[export] Hint Resolve decodes_readBytes decodes_readByte decodes_readShort decodes_readWord : codec.

(** From a program on a stream to a program on any reader that delivers its bytes. *)
Lemma decodes_refines {R} `{LawfulReader R} {A} (m : M R A) ms bs a (r : R) tl :
  refines m ms -> decodes (Offset r) ms bs a -> valid r -> rest r = bs ++ tl ->
  exists r', m r = (Ok a, r') /\ valid r' /\ rest r' = tl /\ Offset r' = u64 (Offset r + Zlen bs).
Proof.
  intros Hm Hd Hr Hrest. destruct (Hm r Hr) as [Hv Hp].
  unfold view at 1 in Hp. rewrite Hrest, Hd in Hp by (by apply offset_law).
  destruct (m r) as [o r']. simpl in *. injection Hp as <- H1 H2. by exists r'.
Qed.

Lemma decodes_readAhead off bs n :
  Zlen bs = n -> n < 2 ^ 32 -> decodes off (readAhead n) bs tt.
Proof.
  intros <- Hn Hoff tl. pose proof (readAhead_stream (Zlen bs) (bs ++ tl) off) as Hr.
  pose proof (Zlen_nonneg bs). pose proof (Zlen_nonneg tl).
  rewrite Zlen_app, (proj2 (Z.leb_le _ _)) in Hr by lia. rewrite Hr by done.
  by rewrite drop_app_length' by (unfold Zlen; lia).
Qed.

(** [emits m bs a]: [m] appends exactly [bs] to its writer and returns [a]. *)
Definition emits {W} `{LawfulWriter W} {A} (m : M W A) (bs : list Z) (a : A) : Prop :=
  forall w, wvalid w -> exists w', m w = (Ok a, w') /\ wvalid w' /\
    written w' = written w ++ bs /\ wOffset w' = u64 (wOffset w + Zlen bs).

Section Emits.
Context {W : Type} `{LawfulWriter W}.

Lemma emits_appends m bs : appends m bs -> emits m bs tt.
Proof. done. Qed.

Lemma emits_ret {A} (a : A) : emits (mret a) [] a.
Proof.
  intros w Hw. exists w. rewrite app_nil_r, Zlen_nil, Z.add_0_r, wrap_small by (by apply woffset_law).
  done.
Qed.

Lemma emits_lift {A} (o : outcome A) a : o = Ok a -> emits (lift o) [] a.
Proof. intros ->. apply emits_ret. Qed.

Lemma emits_bind {A B} (m : M W A) (f : A -> M W B) b1 b2 x y :
  emits m b1 x -> emits (f x) b2 y -> emits (m ≫= f) (b1 ++ b2) y.
Proof.
  intros H1 H2 w Hw. destruct (H1 w Hw) as (w1 & E1 & Hv1 & Hr1 & Ho1).
  destruct (H2 w1 Hv1) as (w2 & E2 & Hv2 & Hr2 & Ho2).
  exists w2. erewrite M_bind_ok by exact E1. split_and!; [done..| |].
  - by rewrite Hr2, Hr1, app_assoc.
  - rewrite Ho2, Ho1, wrap_add_l, Zlen_app by lia. by rewrite Z.add_assoc.
Qed.

(** A step that emits nothing. *)
Lemma emits_silent {A B} (m : M W A) (f : A -> M W B) bs x y :
  emits m [] x -> emits (f x) bs y -> emits (m ≫= f) bs y.
Proof. intros H1 H2. exact (emits_bind m f [] bs x y H1 H2). Qed.
End Emits.

(** One read of a sequence of reads. *)
Ltac decode_step := eapply decodes_bind; [solve [eauto with codec]|].

(** ** The lead *)

Record lead_ok (l : RpmLead) : Prop := {
  lk_magic : lead_Magic l = leadMagic;
  lk_type : in_width 16 (lead_packageType l);
  lk_arch : in_width 16 (lead_ArchNum l);
  lk_name : length (lead_name l) = 66%nat;
  lk_os : in_width 16 (lead_OsNum l);
  lk_signature : in_width 16 (lead_SignatureType l);
  lk_reserved : length (lead_Reserved l) = 16%nat;
}.

(** The 96 bytes of a lead. *)
Definition lead_bytes (l : RpmLead) : list Z :=
  lead_Magic l ++ [lead_Major l] ++ [lead_Minor l] ++ be16 (lead_packageType l) ++
  be16 (lead_ArchNum l) ++ lead_name l ++ be16 (lead_OsNum l) ++ be16 (lead_SignatureType l) ++
  lead_Reserved l.

Lemma length_lead_bytes l : lead_ok l -> length (lead_bytes l) = 96%nat.
Proof.
  intros [Hm _ _ Hn _ _ Hr]. unfold lead_bytes. rewrite !length_app, Hm, Hn, Hr. done.
Qed.

Lemma appends_lead {W} `{LawfulWriter W} l : appends (write_lead l) (lead_bytes l).
Proof.
  unfold write_lead, lead_bytes.
  repeat (apply appends_bind;
    [first [apply appends_writeBytes|apply appends_writeByte|apply appends_writeShort]|]).
  apply appends_writeBytes.
Qed.

Lemma decodes_lead l off : lead_ok l -> decodes off parseLead (lead_bytes l) l.
Proof.
  intros [Hm H1 H2 Hn H3 H4 Hr]. unfold parseLead, lead_bytes.
  eapply decodes_bind; [by apply decodes_readBytes; rewrite Hm|].
  rewrite bool_decide_eq_true_2 by done. cbn [negb].
  do 7 decode_step. destruct l. simpl in *.
  apply (decodes_bind_ret _ _ (fun r => mkLead _ _ _ _ _ _ _ _ r)). by apply decodes_readBytes.
Qed.

Lemma refines_parseLead {R} `{LawfulReader R} : refines parseLead parseLead.
Proof.
  unfold parseLead, readBytes. apply refines_bind; [apply refines_fill|]. intros magic.
  case_match; [apply refines_lift|]. eauto 25 with refines.
Qed.

(** C36. A lead survives writing and parsing: the 96 bytes [write] appends to any
    writer are parsed back, by whatever reader delivers them, to the same lead,
    and what follows the lead is left unread. *)
Theorem lead_roundtrip {W} `{LawfulWriter W} {R} `{LawfulReader R} (l : RpmLead) (w : W) :
  lead_ok l -> wvalid w ->
  exists w', write_lead l w = (Ok tt, w') /\ Zlen (written w') = Zlen (written w) + 96 /\
    forall (r : R) tl, valid r -> written w ++ rest r = written w' ++ tl ->
      exists r', parseLead r = (Ok l, r') /\ rest r' = tl.
Proof.
  intros Hl Hw. destruct (appends_lead l w Hw) as (w' & Hrun & _ & Hwr & _). exists w'.
  split_and!; [done| |].
  - rewrite Hwr, Zlen_app. unfold Zlen. by rewrite (length_lead_bytes l Hl).
  - intros r tl Hr. rewrite Hwr, <- app_assoc. intros Hrest%app_inv_head.
    destruct (decodes_refines parseLead parseLead (lead_bytes l) l r tl) as (r' & Hp & _ & Ht & _);
      [apply refines_parseLead|by apply decodes_lead|done|done|]. by exists r'.
Qed.

Definition sample_lead : RpmLead :=
  mkLead leadMagic 3 0 0 1 (str "foo-1.0" ++ zeros 59) 1 5 (zeros 16).

Lemma lead_roundtrip_witness :
  exists w', write_lead sample_lead NewArrayWriter = (Ok tt, w') /\
    Zlen (written w') = Zlen (written NewArrayWriter) + 96 /\
    forall (r : arrayReader) tl, valid r -> written NewArrayWriter ++ rest r = written w' ++ tl ->
      exists r', parseLead r = (Ok sample_lead, r') /\ rest r' = tl.
Proof.
  apply (lead_roundtrip (W:=ArrayWriter) (R:=arrayReader) sample_lead NewArrayWriter);
    [constructor; by vm_compute|by vm_compute].
Defined.
