(* ===== verification/HeaderRoundtrip.v ===== *)
(** What [RpmHeader.Write] of [src/common/rpmparser.go] emits, and that
    [parseHeader] reads it back: index, data store, region and digests. *)
From S2P Require Import Prelude Utils Bitmap DynArray Serializer Tags Header Layout HeaderSpec HeaderOps.
From S2P Require Import Allocation Payload HeaderCodec Codec.

(** ** The data store as a map *)

Definition disjoint_entries (l : list IndexEntry) : Prop :=
  forall i j a b, l !! i = Some a -> l !! j = Some b -> i <> j ->
    end_of a <= ie_offset b \/ end_of b <= ie_offset a.

Lemma layout_ok_disjoint trailer l s : layout_ok trailer l s -> disjoint_entries l.
Proof.
  intros [_ Ho Ht _ _] i j a b Hi Hj Hij.
  destruct (decide (trailer = Some i)) as [Ei|Ei].
  { right. destruct (Ht i a Ei Hi) as [_ Hall]. by apply (Hall j). }
  destruct (decide (trailer = Some j)) as [Ej|Ej].
  { left. destruct (Ht j b Ej Hj) as [_ Hall]. by apply (Hall i). }
  destruct (decide (i < j)%nat); [left; by apply (Ho i j)|right; apply (Ho j i); done || lia].
Qed.

Definition store_entry (m : sparse) (e : IndexEntry) : sparse :=
  store_bytes (ie_offset e) (ie_payload e) m.

Definition store_map (l : list IndexEntry) : sparse := foldl store_entry ∅ l.

(** The bytes of the data store. *)
Definition store_data (h : RpmHeader) : list Z :=
  DynArray.contents (storeSizeInBytes h) (store_map (entries h)).

Lemma disjoint_snoc l e : disjoint_entries (l ++ [e]) ->
  disjoint_entries l /\ forall a, a ∈ l -> end_of a <= ie_offset e \/ end_of e <= ie_offset a.
Proof.
  intros Hd. split.
  - intros i j a b Hi Hj. apply (Hd i j); by apply lookup_app_l_Some.
  - intros a [i Hi]%list_elem_of_lookup. pose proof (lookup_lt_Some _ _ _ Hi).
    apply (Hd i (length l)); [by apply lookup_app_l_Some| |lia].
    by rewrite list_lookup_middle.
Qed.

Lemma store_map_snoc l e : store_map (l ++ [e]) = store_entry (store_map l) e.
Proof. unfold store_map. by rewrite foldl_app. Qed.

(** Every byte of the store belongs to one entry. *)
Lemma store_map_Some l i b :
  store_map l !! i = Some b -> exists e, e ∈ l /\ ie_offset e <= i < end_of e.
Proof.
  induction l as [|e l IH] using rev_ind; [done|]. rewrite store_map_snoc. unfold store_entry.
  rewrite lookup_store_bytes. case_decide as Hi.
  - intros _. exists e. split; [|done]. apply elem_of_app. right. by apply list_elem_of_singleton.
  - intros (e' & He' & Hr)%IH. exists e'. split; [|done]. apply elem_of_app. by left.
Qed.

Lemma store_map_lookup l e i :
  disjoint_entries l -> e ∈ l -> ie_offset e <= i < end_of e ->
  store_map l !! i = ie_payload e !! Z.to_nat (i - ie_offset e).
Proof.
  induction l as [|x l IH] using rev_ind; [by intros _ He%elem_of_nil|].
  intros [Hd Hx]%disjoint_snoc He Hi. rewrite store_map_snoc. unfold store_entry.
  rewrite lookup_store_bytes. fold (end_of x).
  apply elem_of_app in He as [He|He%list_elem_of_singleton].
  - destruct (Hx e He) as [Hle|Hle]; (rewrite decide_False by lia); by apply IH.
  - subst. by rewrite decide_True.
Qed.

Lemma store_free l e :
  (forall a, a ∈ l -> end_of a <= ie_offset e \/ end_of e <= ie_offset a) ->
  range_free (ie_offset e) (Zlen (ie_payload e)) (store_map l) = true.
Proof.
  intros Hd. apply range_free_spec. fold (end_of e). intros i Hi.
  destruct (store_map l !! i) as [b|] eqn:E; [|done].
  apply store_map_Some in E as (a & Ha & Hr). destruct (Hd a Ha); lia.
Qed.

Lemma is_end_unique m a b : 0 <= a -> 0 <= b -> is_end m a -> is_end m b -> a = b.
Proof.
  intros Ha Hb [H1 H2] [H3 H4].
  destruct H2 as [->|H2]; destruct H4 as [->|H4]; try done.
  - specialize (H1 _ H4). lia.
  - specialize (H3 _ H2). lia.
  - specialize (H1 _ H4). specialize (H3 _ H2). lia.
Qed.

Lemma store_map_end trailer l s :
  layout_ok trailer l s -> Forall (fun e => ie_payload e <> []) l -> is_end (store_map l) s.
Proof.
  intros Hok Hne. rewrite Forall_forall in Hne. split.
  - intros i [b (e & He & Hr)%store_map_Some].
    pose proof (lo_aligned _ _ _ Hok e He). pose proof (lo_store _ _ _ Hok e He). lia.
  - destruct (lo_last _ _ _ Hok) as [[-> ->]|(e & He & <-)]; [by left|]. right.
    pose proof (Zlen_pos _ (Hne e He)).
    rewrite (store_map_lookup l e) by (done || (by eapply layout_ok_disjoint) || (unfold end_of; lia)).
    apply lookup_lt_is_Some. unfold end_of, Zlen in *. lia.
Qed.

Lemma layout_room trailer i next l :
  (layout trailer i next l).2 + 16 * Zlen l <= next + total_size l.
Proof.
  revert i next. induction l as [|e l IH]; intros i next; [unfold Zlen; simpl; lia|].
  rewrite Zlen_cons. cbn [total_size layout]. pose proof (Zlen_nonneg (ie_payload e)).
  pose proof (pad_bounds (ie_formatType e) next). case_bool_decide; simpl.
  - specialize (IH (S i) next). unfold size_of. lia.
  - specialize (IH (S i) (end_of (place_entry next e))).
    unfold end_of, place_entry, size_of in *. simpl in *. lia.
Qed.

Lemma trailer_room t i next l e :
  l !! t = Some e ->
  (layout (Some (i + t)%nat) i next l).2 + 16 * Zlen l + Zlen (ie_payload e) + 7 <= next + total_size l.
Proof.
  revert i next t. induction l as [|x l IH]; intros i next t Ht; [done|].
  pose proof (Zlen_nonneg (ie_payload x)). pose proof (pad_bounds (ie_formatType x) next).
  rewrite Zlen_cons. cbn [total_size layout]. destruct t as [|t]; simpl in Ht.
  - injection Ht as ->. rewrite Nat.add_0_r, bool_decide_eq_true_2 by done. simpl.
    pose proof (layout_room (Some i) (S i) next l). unfold size_of. lia.
  - rewrite bool_decide_eq_false_2 by (intros [=]; lia). simpl.
    specialize (IH (S i) (end_of (place_entry next x)) t Ht).
    replace (S i + t)%nat with (i + S t)%nat in IH by lia.
    unfold end_of, place_entry, size_of in *. simpl in *. lia.
Qed.

(** The store holds the payloads and at most seven bytes of padding for each. *)
Lemma store_le_payloads h : packed h -> storeSizeInBytes h + 16 * Zlen (entries h) <= total_size (entries h).
Proof.
  intros Hp. unfold packed in Hp. apply (f_equal snd) in Hp. simpl in Hp. rewrite <- Hp. clear Hp.
  set (l := entries h). set (tr := regionTrailerEntry h).
  unfold packed_layout. destruct (tr ≫= _) as [[t e]|] eqn:E; [|apply (layout_room tr 0 0 l)].
  apply bind_Some in E as (t' & -> & He). apply fmap_Some in He as (e' & He & [= -> ->]). simpl.
  pose proof (trailer_room t' 0 0 l e' He) as Hr. simpl in Hr.
  pose proof (pad_bounds (ie_formatType e') (layout (Some t') 0 0 l).2).
  unfold end_of, place_entry, size_of in *. simpl. lia.
Qed.

(** A payload lies in the store where its entry says. *)
Lemma store_slice h e :
  layout_ok (regionTrailerEntry h) (entries h) (storeSizeInBytes h) -> e ∈ entries h ->
  take (length (ie_payload e)) (drop (Z.to_nat (ie_offset e)) (store_data h)) = ie_payload e.
Proof.
  intros Hok He. pose proof (lo_aligned _ _ _ Hok e He) as [Ho _].
  pose proof (lo_store _ _ _ Hok e He) as Hs.
  unfold end_of, Zlen in Hs. apply list_eq. intros i.
  destruct (decide (i < length (ie_payload e))%nat) as [Hi|Hi].
  - rewrite lookup_take_lt, lookup_drop by done. unfold store_data.
    replace (Z.to_nat (ie_offset e) + i)%nat with (Z.to_nat (ie_offset e + Z.of_nat i)) by lia.
    rewrite contents_lookup by lia.
    rewrite (store_map_lookup (entries h) e); [|by eapply layout_ok_disjoint|done|unfold end_of, Zlen; lia].
    replace (Z.to_nat (ie_offset e + Z.of_nat i - ie_offset e)) with i by lia.
    destruct (lookup_lt_is_Some_2 _ _ Hi) as [b Hb]. by rewrite Hb.
  - rewrite !lookup_ge_None_2; [done|lia|]. rewrite length_take. lia.
Qed.

Lemma length_store_data h : 0 <= storeSizeInBytes h -> Zlen (store_data h) = storeSizeInBytes h.
Proof. apply Zlen_contents. Qed.

(** ** Writing *)

Definition index_bytes (e : IndexEntry) : list Z :=
  be32 (ie_tag e) ++ be32 (ie_formatType e) ++ be32 (ie_offset e) ++ be32 (ie_dataItemCnt e).

Definition header_bytes (h : RpmHeader) : list Z :=
  Magic h ++ [version h] ++ reserved h ++ be32 (indexEntryCount h) ++ be32 (storeSizeInBytes h) ++
  mjoin (index_bytes <$> entries h) ++ store_data h.

Section Writing.
Context {W : Type} `{LawfulWriter W}.

Lemma emits_writeEntries done_ l da :
  da_rep da (store_map done_) -> disjoint_entries (done_ ++ l) ->
  Forall (fun e => known_format (ie_formatType e) /\ 0 <= ie_offset e /\
    ie_offset e mod alignment_of (ie_formatType e) = 0 /\ end_of e < 2 ^ 32 - 1) l ->
  exists da', emits (writeEntries l da) (mjoin (index_bytes <$> l)) da' /\
    da_rep da' (store_map (done_ ++ l)).
Proof.
  revert done_ da. induction l as [|e l IH]; intros done_ da Hda Hd Hl.
  { exists da. rewrite app_nil_r. split; [apply emits_ret|done]. }
  apply Forall_cons in Hl as [(Hf & Hpos & Ha & He) Hl].
  change (e :: l) with ([e] ++ l) in Hd. rewrite app_assoc in Hd.
  assert (disjoint_entries (done_ ++ [e])) as Hde.
  { intros i j a b Hi Hj. apply (Hd i j); by apply lookup_app_l_Some. }
  apply disjoint_snoc in Hde as [_ Hfree].
  pose proof (Write_run (ie_payload e) (ie_offset e) da (store_map done_) Hpos He Hda) as Hw.
  unfold sparse_write in Hw. rewrite store_free in Hw by done. destruct Hw as (da1 & Hw & Hda1).
  destruct (IH (done_ ++ [e]) da1) as (da' & Hem & Hrep); [by rewrite store_map_snoc|done|done|].
  exists da'. rewrite <- app_assoc in Hrep. split; [|done].
  change (mjoin (index_bytes <$> e :: l)) with (index_bytes e ++ mjoin (index_bytes <$> l)).
  unfold index_bytes. rewrite <- !app_assoc. cbn [writeEntries].
  eapply emits_bind; [apply emits_appends, appends_writeWord|].
  eapply emits_bind; [apply emits_appends, appends_writeWord|].
  eapply emits_silent; [by apply emits_lift, GetRequiredAlignment_known|].
  rewrite Ha. cbn [Z.eqb negb].
  eapply emits_bind; [apply emits_appends, appends_writeWord|].
  eapply emits_bind; [apply emits_appends, appends_writeWord|].
  eapply emits_silent; [|exact Hem]. apply emits_lift. by rewrite Hw.
Qed.

Lemma emits_header h :
  header_wf h -> packed h -> fits h 0 -> emits (Write_ h false) (header_bytes h) tt.
Proof.
  intros Hwf Hp Hfit. unfold fits in Hfit. pose proof (packed_ok _ Hp) as Hok.
  pose proof (hb_entries _ (hw_base _ Hwf)) as He. rewrite Forall_forall in He.
  destruct (emits_writeEntries [] (entries h) NewDynamicArray) as (da & Hem & Hrep).
  { apply da_rep_empty. }
  { by eapply layout_ok_disjoint. }
  { apply Forall_forall. intros e Hin. destruct (packed_bounds h e Hp Hin).
    split_and!; [apply He; done|done|by apply (lo_aligned _ _ _ Hok)|lia]. }
  simpl in Hrep.
  assert (is_end (store_map (entries h)) (storeSizeInBytes h)) as Hend.
  { eapply store_map_end; [done|]. apply Forall_forall. intros e Hin. by apply (He e Hin). }
  assert (lastUsedOffsetExclusive da = storeSizeInBytes h) as Hlast.
  { apply (is_end_unique (store_map (entries h))); [apply Hrep| |apply Hrep|done].
    destruct (lo_last _ _ _ Hok) as [[_ ->]|(e & Hin & <-)]; [done|].
    destruct (packed_bounds h e Hp Hin). pose proof (Zlen_nonneg (ie_payload e)). unfold end_of. lia. }
  unfold Write_, header_bytes. cbv iota. apply (emits_silent _ _ _ tt); [apply emits_ret|].
  eapply emits_bind; [apply emits_appends, appends_writeBytes|].
  eapply emits_bind; [apply emits_appends, appends_writeByte|].
  eapply emits_bind; [apply emits_appends, appends_writeBytes|].
  eapply emits_bind; [apply emits_appends, appends_writeWord|].
  eapply emits_bind; [apply emits_appends, appends_writeWord|].
  eapply emits_bind; [exact Hem|].
  rewrite (GetData_contents da _ Hrep), Hlast. apply emits_appends, appends_writeBytes.
Qed.
End Writing.

(** ** Reading the index *)

(** An entry as the index alone describes it. *)
Definition bare (e : IndexEntry) : IndexEntry := set_payload [] e.

Section Reading.
Context `{Runtime}.

Lemma decodes_parseIndexEntry off e :
  in_width 32 (ie_tag e) -> in_width 32 (ie_formatType e) -> in_width 32 (ie_offset e) ->
  in_width 32 (ie_dataItemCnt e) ->
  decodes off (parseIndexEntry (ie_isMainHeaderEntry e)) (index_bytes e) (bare e).
Proof.
  intros H1 H2 H3 H4. unfold parseIndexEntry, index_bytes. do 3 decode_step.
  apply (decodes_bind_ret _ _ (fun c => mkEntry _ _ _ _ c [])). by apply decodes_readWord.
Qed.

Definition parsed_index (l : list IndexEntry) (acc : slice IndexEntry) : slice IndexEntry :=
  foldl append acc (bare <$> l).

Lemma elems_parsed_index l acc : elems (parsed_index l acc) = elems acc ++ (bare <$> l).
Proof.
  revert acc. induction l as [|e l IH]; intros acc; simpl; [by rewrite app_nil_r|].
  unfold parsed_index in *. simpl. rewrite IH, elems_append. by rewrite <- app_assoc.
Qed.

Lemma decodes_parseEntries main l acc off :
  Forall (fun e => ie_isMainHeaderEntry e = main /\ in_width 32 (ie_tag e) /\
    in_width 32 (ie_formatType e) /\ in_width 32 (ie_offset e) /\ in_width 32 (ie_dataItemCnt e)) l ->
  decodes off (parseEntries (length l) main acc) (mjoin (index_bytes <$> l)) (parsed_index l acc).
Proof.
  intros Hl. revert acc off. induction Hl as [|e l (Hm & H1 & H2 & H3 & H4) _ IH]; intros acc off;
    [apply decodes_ret|].
  change (mjoin (index_bytes <$> e :: l)) with (index_bytes e ++ mjoin (index_bytes <$> l)).
  eapply decodes_bind; [rewrite <- Hm; by apply decodes_parseIndexEntry|]. apply IH.
Qed.

(** ** Reading the data store *)

(** The reader of the data store behaves as a stream, short reads excluded. *)
Lemma refines_read_array n : refines (R:=arrayReader) (read_ n) (read_ n).
Proof.
  intros [l o] Hv. simpl in Hv. unfold read_, view. simpl. unfold arrayReader_Read. simpl.
  destruct (Nat.eqb_spec n 0) as [->|Hn]; simpl.
  { split; [done|]. rewrite take_0, drop_0, Zlen_nil, Z.add_0_r, wrap_idemp by lia. done. }
  rewrite length_drop.
  destruct (Nat.ltb_spec (length l - o) n) as [Hlt|Hge]; simpl; (split; [lia|]).
  - rewrite (proj2 (Nat.ltb_lt _ _)) by done.
    rewrite (take_ge (drop o l) n), (take_ge (drop o l) (length l - o)) by (rewrite length_drop; lia).
    rewrite (drop_ge (drop o l) n) by (rewrite length_drop; lia).
    rewrite (drop_ge l (o + (length l - o))) by lia.
    unfold Zlen. rewrite length_drop, wrap_add_l, Nat2Z.inj_add by lia. done.
  - rewrite Nat.ltb_irrefl, drop_drop.
    unfold Zlen. rewrite length_take, length_drop, wrap_add_l, Nat.min_l, Nat2Z.inj_add by lia. done.
Qed.

Lemma refines_readAhead_array n : refines (R:=arrayReader) (readAhead n) (readAhead n).
Proof.
  assert (forall fuel rem c, refines (R:=arrayReader) (readAheadLoop fuel rem c) (readAheadLoop fuel rem c)) as Hloop.
  { induction fuel as [|fuel IH]; intros rem c; simpl; [apply refines_lift|].
    case_match; [|apply refines_ret].
    apply refines_bind; [apply refines_read_array|]. intros [bs [[|e]|]]; cbv zeta;
      [|apply refines_lift|]; case_match; (apply refines_ret || apply IH). }
  unfold readAhead. case_match; [apply refines_ret|]. case_match.
  - apply refines_bind; [apply refines_fill|]. intros. apply refines_ret.
  - apply refines_bind; [apply Hloop|]. intros. case_match; [apply refines_lift|apply refines_ret].
Qed.

Lemma refines_populateAll fuel main start size order es region :
  refines (R:=arrayReader) (populateAll fuel main start size order es region)
    (populateAll fuel main start size order es region).
Proof.
  revert es region. induction order as [|idx order IH]; intros es region; simpl; [apply refines_ret|].
  apply refines_bind; [apply refines_lift|]. intros entry.
  apply refines_bind; [|intros [e r]; apply IH].
  unfold populateEntry. apply refines_bind; [apply refines_offset|]. intros off.
  apply refines_bind.
  { case_match; [apply refines_lift|]. case_match; [apply refines_readAhead_array|apply refines_ret]. }
  intros _. apply refines_bind; [apply refines_populatePayload|]. intros e.
  apply refines_bind; [apply refines_lift|]. intros _.
  case_match; [apply refines_lift|]. case_match; [|apply refines_ret].
  apply refines_bind; [apply refines_lift|]. intros. apply refines_ret.
Qed.

(** The trailer of a signature header with [n] entries, and the region the parser
    takes from it. *)
Definition trailer_payload (n : Z) : list Z :=
  be32 0x3e ++ be32 0x7 ++ be32 (u32 (- (16 * n))) ++ be32 16.

Definition region_of (start size n : Z) : SignedRegion :=
  mkSignedRegion (u64 (start - 16 * n)) n (size + 16 * n).

Lemma parseSignedRegion_run start size n :
  0 <= n -> 0 <= size -> 16 * n + size < 2 ^ 31 ->
  (parseSignedRegion start size (NewArrayReader (trailer_payload n))).1 = Ok (region_of start size n).
Proof.
  intros Hn Hs Hb.
  assert (forall ok msg v tl (r : arrayReader), valid r -> rest r = be32 v ++ tl -> in_width 32 v -> ok v = true ->
    exists r', expect_word ok msg r = (Ok v, r') /\ valid r' /\ rest r' = tl) as Hword.
  { intros ok msg v tl r Hr Hrest Hv Hok.
    destruct (decodes_refines readWord readWord (be32 v) v r tl) as (r' & E & Hv' & Hr' & _);
      [apply refines_readWord|by apply decodes_readWord|done|done|].
    exists r'. unfold expect_word. by rewrite E, Hok. }
  unfold parseSignedRegion, trailer_payload.
  set (neg := u32 (- (16 * n))).
  assert (in_width 32 neg) as Hneg by (apply wrap_range; lia).
  destruct (Hword (fun v => v =? 0x3e) "Invalid SigTagHeaderSignatures entry (tag value)" 0x3e
    (be32 0x7 ++ be32 neg ++ be32 16) (NewArrayReader (be32 0x3e ++ be32 0x7 ++ be32 neg ++ be32 16)))
    as (r1 & E1 & V1 & R1); [simpl; lia|done|done|done|].
  rewrite (M_bind_ok _ _ _ _ _ E1).
  destruct (Hword (fun v => v =? 0x7) "Invalid SigTagHeaderSignatures entry (type)" 0x7
    (be32 neg ++ be32 16) r1) as (r2 & E2 & V2 & R2); [done..|].
  rewrite (M_bind_ok _ _ _ _ _ E2).
  destruct (Hword (fun _ => true) "Invalid SigTagHeaderSignatures entry (negative offset)" neg
    (be32 16) r2) as (r3 & E3 & V3 & R3); [done..|].
  rewrite (M_bind_ok _ _ _ _ _ E3).
  destruct (Hword (fun v => v =? 16) "Invalid SigTagHeaderSignatures entry (size)" 16 [] r3)
    as (r4 & E4 & _); [done..|].
  rewrite (M_bind_ok _ _ _ _ _ E4). unfold mret, M_ret. cbv zeta. simpl fst.
  assert (u32 (- i32 neg) = 16 * n) as ->.
  { unfold neg, signed. rewrite wrap_idemp by lia. unfold wrap.
    destruct (Z.eq_dec n 0) as [->|]; [done|].
    assert ((- (16 * n)) mod 2 ^ 32 = 2 ^ 32 - 16 * n) as ->.
    { rewrite <- (Z.mod_small (2 ^ 32 - 16 * n) (2 ^ 32)) by lia.
      replace (2 ^ 32 - 16 * n) with (- (16 * n) + 1 * 2 ^ 32) by lia. by rewrite Z.mod_add. }
    rewrite (proj2 (Z.ltb_ge _ _)) by lia. rewrite Z.mod_small; lia. }
  unfold region_of. rewrite (Z.mul_comm 16 n), Z.div_mul, !(wrap_small _ (size + _)) by (lia || unfold in_width; lia).
  done.
Qed.

(** What a header has to satisfy beyond [header_wf] to survive the parser. *)
Record codec_ok (h : RpmHeader) : Prop := {
  ck_magic : Magic h = headerMagic;
  ck_reserved : length (reserved h) = 4%nat;
  ck_payloads : Forall (fun e => payload_ok (ie_formatType e) (ie_dataItemCnt e) (ie_payload e)) (entries h);
  ck_trailer e : IsMainHeader h = false -> e ∈ entries h -> ie_tag e = TAG_HEADERSIGNATURES ->
    ie_payload e = trailer_payload (Zlen (entries h));
}.

Definition is_trailer (main : bool) (e : IndexEntry) : bool :=
  negb main && (ie_tag e =? ID SigTagHeaderSignatures).

Lemma set_payload_bare e : set_payload (ie_payload e) (bare e) = e.
Proof. by destruct e. Qed.

Lemma decodes_populateEntry fuel main start size n e padb pos :
  payload_ok (ie_formatType e) (ie_dataItemCnt e) (ie_payload e) -> ie_payload e <> [] ->
  0 <= ie_dataItemCnt e -> Zlen (ie_payload e) < 2 ^ 32 -> (length (ie_payload e) < fuel)%nat ->
  (is_trailer main e = true -> ie_payload e = trailer_payload n) ->
  0 <= n -> 0 <= size -> 16 * n + size < 2 ^ 31 ->
  ie_offset e = pos + Zlen padb -> ie_offset e < 2 ^ 32 -> 0 <= pos ->
  decodes pos (populateEntry fuel main start size (bare e)) (padb ++ ie_payload e)
    (e, if is_trailer main e then Some (region_of start size n) else None).
Proof.
  intros Hp Hne Hc Hlen Hf Htr Hn Hs Hb Hoff Hw Hpos. pose proof (Zlen_nonneg padb).
  unfold populateEntry. apply decodes_offset. eapply decodes_bind with (x := tt).
  { change (ie_offset (bare e)) with (ie_offset e).
    destruct (Z.gtb_spec pos (ie_offset e)); [lia|]. destruct (Z.ltb_spec pos (ie_offset e)).
    - apply decodes_readAhead; [|apply wrap_range; lia]. wrap_small_tac. lia.
    - assert (padb = []) as ->.
      { destruct padb; [done|]. rewrite Zlen_cons in *. pose proof (Zlen_nonneg padb). lia. }
      apply decodes_ret. }
  rewrite <- (app_nil_r (ie_payload e)). eapply decodes_bind.
  { intros Ho tl. by apply populatePayload_stream. }
  rewrite set_payload_bare. destruct (PayloadAsPrettyString_ok e Hp) as [s Hstr].
  eapply decodes_lift; [exact Hstr|]. cbv beta.
  rewrite (proj2 (Z.eqb_neq _ _)) by (pose proof (Zlen_pos _ Hne); lia).
  change (negb main && _) with (is_trailer main e).
  destruct (is_trailer main e) eqn:Et; [|apply decodes_ret].
  eapply decodes_lift; [|apply decodes_ret].
  rewrite (Htr eq_refl). by apply parseSignedRegion_run.
Qed.

(** The state of the index after the entries of [order] have been populated. *)
(** What lies from a position on: padding, the next payload, and the rest. *)
Lemma drop_entry store pos e :
  0 <= pos <= ie_offset e -> end_of e <= Zlen store ->
  take (length (ie_payload e)) (drop (Z.to_nat (ie_offset e)) store) = ie_payload e ->
  exists padb, Zlen padb = ie_offset e - pos /\
    drop (Z.to_nat pos) store = (padb ++ ie_payload e) ++ drop (Z.to_nat (end_of e)) store.
Proof.
  intros Hpos Hend Hslice. pose proof (Zlen_nonneg (ie_payload e)). unfold end_of in *.
  exists (take (Z.to_nat (ie_offset e - pos)) (drop (Z.to_nat pos) store)). split.
  - unfold Zlen in *. rewrite length_take, length_drop. lia.
  - rewrite <- (take_drop (Z.to_nat (ie_offset e - pos)) (drop (Z.to_nat pos) store)) at 1.
    rewrite <- app_assoc. f_equal. rewrite drop_drop.
    replace (Z.to_nat pos + Z.to_nat (ie_offset e - pos))%nat with (Z.to_nat (ie_offset e)) by lia.
    rewrite <- (take_drop (length (ie_payload e)) (drop (Z.to_nat (ie_offset e)) store)), Hslice.
    rewrite drop_drop. do 2 f_equal. unfold Zlen. lia.
Qed.

(** The region that is found: that of a trailer among the entries, or the one from before. *)
Definition region_found (main : bool) (l : list IndexEntry) (order : list nat) (start size n : Z)
    (region : option SignedRegion) : option SignedRegion :=
  if decide (Exists (fun i => is_trailer main <$> l !! i = Some true) order)
  then Some (region_of start size n) else region.

Lemma region_found_cons main l i e order start size n region :
  l !! i = Some e ->
  region_found main l order start size n
    (match (if is_trailer main e then Some (region_of start size n) else None) with Some r => Some r | None => region end) =
  region_found main l (i :: order) start size n region.
Proof.
  intros He. unfold region_found. destruct (is_trailer main e) eqn:Et.
  - rewrite (decide_True (P:=Exists _ (i :: order))) by (left; by rewrite He, <- Et). by case_decide.
  - case_decide as Hx; case_decide as Hy; try done.
    + destruct Hy. by right.
    + apply Exists_cons in Hy as [Hy|Hy]; [|done]. rewrite He in Hy. simpl in Hy. congruence.
Qed.

(** An entry whose payload is in the store and can be read from there. *)
Definition payload_stored (main : bool) (n : Z) (store : list Z) (e : IndexEntry) : Prop :=
  payload_ok (ie_formatType e) (ie_dataItemCnt e) (ie_payload e) /\ ie_payload e <> [] /\
  0 <= ie_dataItemCnt e /\ 0 <= ie_offset e /\ end_of e <= Zlen store /\
  (is_trailer main e = true -> ie_payload e = trailer_payload n) /\
  take (length (ie_payload e)) (drop (Z.to_nat (ie_offset e)) store) = ie_payload e.

Lemma populateAll_run fuel main start size n store (l : list IndexEntry) order es region pos :
  (forall i e, l !! i = Some e -> payload_stored main n store e) ->
  disjoint_entries l -> 0 <= n -> 0 <= size -> 16 * n + size < 2 ^ 31 ->
  Zlen store < 2 ^ 32 -> (length store < fuel)%nat ->
  NoDup order -> StronglySorted (offset_le l) order ->
  (forall i, i ∈ order -> (i < length l)%nat /\ elems es !! i = bare <$> l !! i) ->
  0 <= pos <= Zlen store ->
  (forall i e, i ∈ order -> l !! i = Some e -> pos <= ie_offset e) ->
  exists es', (populateAll fuel main start size order es region
      (mkStream (drop (Z.to_nat pos) store) pos)).1 =
      Ok (with_elems es' es, region_found main l order start size n region) /\
    forall i, es' !! i = if decide (i ∈ order) then l !! i else elems es !! i.
Proof.
  intros Hall Hdis Hn Hsz Hb Hst Hfuel. revert es region pos.
  induction order as [|i order IH]; intros es region pos Hnd Hso Hin Hpos Hle.
  { exists (elems es). split; [by destruct es|done]. }
  apply NoDup_cons in Hnd as [Hni Hnd]. apply StronglySorted_cons in Hso as [Hhd Hso].
  destruct (Hin i) as [Hi Hes]; [by left|].
  destruct (lookup_lt_is_Some_2 l i Hi) as [e He]. rewrite He in Hes. simpl in Hes.
  destruct (Hall i e He) as (Hpo & Hne & Hc & Ho & Hend & Htr & Hslice).
  assert (pos <= ie_offset e) as Hpe by (apply (Hle i); [by left|done]).
  destruct (drop_entry store pos e) as (padb & Hpad & Hdrop); [lia|done|done|].
  pose proof (Zlen_nonneg (ie_payload e)). unfold end_of in Hend.
  cbn [populateAll]. rewrite (M_bind_ok _ _ _ (bare e) (mkStream (drop (Z.to_nat pos) store) pos))
    by (unfold lift; by rewrite Hes).
  rewrite Hdrop. rewrite (M_bind_ok _ _ _ _ _ (decodes_populateEntry fuel main start size n e padb pos
    Hpo Hne Hc ltac:(lia) ltac:(unfold Zlen in *; lia) Htr Hn Hsz Hb ltac:(lia) ltac:(lia) ltac:(lia)
    ltac:(unfold in_width; lia) _)).
  rewrite Zlen_app, Hpad. replace (pos + (ie_offset e - pos + Zlen (ie_payload e))) with (end_of e)
    by (unfold end_of; lia).
  rewrite wrap_small by (unfold in_width, end_of; lia).
  assert (i < length (elems es))%nat as Hil by (by eapply lookup_lt_Some).
  edestruct (IH (with_elems (<[i:=e]> (elems es)) es)) as (es' & Hrun & Hes').
  - done.
  - done.
  - intros j Hj. destruct (Hin j) as [Hjl Hje]; [by right|]. split; [done|].
    simpl. rewrite list_lookup_insert_ne; [done|]. by intros ->.
  - instantiate (1 := end_of e). unfold end_of. lia.
  - intros j e' Hj He'. rewrite Forall_forall in Hhd. specialize (Hhd j Hj).
    unfold offset_le in Hhd. rewrite He, He' in Hhd. simpl in Hhd.
    destruct (Hdis i j e e' He He') as [|Hd]; [by intros ->|done|].
    destruct (Hall j e' He') as (_ & Hne' & _). pose proof (Zlen_pos _ Hne'). unfold end_of in Hd. lia.
  - exists es'. split; [rewrite <- (region_found_cons main l i e) by done; rewrite Hrun; by destruct (is_trailer main e)|].
    intros j. rewrite Hes'. destruct (decide (j ∈ order)) as [Hj|Hj]; [by rewrite decide_True by (by right)|].
    simpl. destruct (decide (j = i)) as [->|Hji].
    + rewrite list_lookup_insert_eq by done. by rewrite decide_True by (by left).
    + rewrite list_lookup_insert_ne by done. rewrite decide_False; [done|]. by intros [|]%elem_of_cons.
Qed.

(** ** The order in which the payloads are read *)

#[export] Instance offset_le_trans l : Transitive (offset_le l).
Proof. intros a b c. unfold offset_le. lia. Qed.
#[export] Instance offset_le_total l : Total (offset_le l).
Proof. intros a b. unfold offset_le. lia. Qed.

Lemma sorted_impl {A} (P Q : A -> A -> Prop) l :
  (forall a b, P a b -> Q a b) -> StronglySorted P l -> StronglySorted Q l.
Proof.
  intros HPQ. induction 1 as [|x l _ IH Hx]; constructor; [done|].
  eapply Forall_impl; [exact Hx|]. intros y. apply HPQ.
Qed.

Lemma sortedEntryIndices_ok l :
  let order := sortedEntryIndices (bare <$> l) in
  StronglySorted (offset_le l) order /\ NoDup order /\ (forall i, i ∈ order <-> (i < length l)%nat).
Proof.
  intros order. unfold order, sortedEntryIndices. rewrite length_fmap. split_and!.
  - apply (sorted_impl (offset_le (bare <$> l))); [|apply StronglySorted_merge_sort; apply _].
    intros a b. unfold offset_le. rewrite !list_lookup_fmap, <- !option_fmap_compose. done.
  - rewrite merge_sort_Permutation. apply NoDup_seq.
  - intros i. rewrite merge_sort_Permutation, elem_of_seq. lia.
Qed.

(** ** The header the parser builds *)

Definition parsed_region (off : Z) (h : RpmHeader) : option SignedRegion :=
  let n := Zlen (entries h) in
  if existsb (is_trailer (IsMainHeader h)) (entries h)
  then Some (region_of (u64 (off + (16 + 16 * n))) (storeSizeInBytes h) n) else None.

(** What the parser returns for a header written at offset [off]: everything that
    is stored is the same, the offsets and the region are those of the input, the
    digests are the caller's. *)
Definition parsed_header (off : Z) (h : RpmHeader) : RpmHeader :=
  mkHeader (Magic h) (version h) (reserved h) (indexEntryCount h) (storeSizeInBytes h)
    (IsMainHeader h) (with_elems (entries h) (parsed_index (entries h) nil_slice))
    off (u64 (off + 16)) (u64 (off + (16 + 16 * Zlen (entries h)))) (parsed_region off h) [] [] [].

Lemma Zlen_index_bytes l : Zlen (mjoin (index_bytes <$> l)) = 16 * Zlen l.
Proof.
  induction l as [|e l IH]; [done|].
  change (mjoin (index_bytes <$> e :: l)) with (index_bytes e ++ mjoin (index_bytes <$> l)).
  rewrite Zlen_app, IH, Zlen_cons. unfold Zlen, index_bytes. rewrite !length_app, !length_be32. lia.
Qed.

Lemma populate_header h ds :
  header_wf h -> packed h -> fits h 0 -> codec_ok h ->
  let es := parsed_index (entries h) nil_slice in
  (populateAll (S (length (store_data h))) (IsMainHeader h) ds (storeSizeInBytes h)
     (sortedEntryIndices (elems es)) es None (NewArrayReader (store_data h))).1 =
    Ok (with_elems (entries h) es,
        if existsb (is_trailer (IsMainHeader h)) (entries h)
        then Some (region_of ds (storeSizeInBytes h) (Zlen (entries h))) else None).
Proof.
  intros Hwf Hp Hfit Hck es. unfold fits in Hfit. pose proof (packed_ok _ Hp) as Hok.
  pose proof (total_size_Zlen (entries h)) as Hn. pose proof (Zlen_nonneg (entries h)).
  pose proof (packed_layout_end (regionTrailerEntry h) (entries h)) as Hstore. rewrite Hp in Hstore. simpl in Hstore.
  pose proof (hb_entries _ (hw_base _ Hwf)) as Hent. rewrite Forall_forall in Hent.
  pose proof (ck_payloads _ Hck) as Hpl. rewrite Forall_forall in Hpl.
  assert (0 <= storeSizeInBytes h) as Hs0.
  { destruct (lo_last _ _ _ Hok) as [[_ ->]|(e & He & <-)]; [done|].
    destruct (packed_bounds h e Hp He). pose proof (Zlen_nonneg (ie_payload e)). unfold end_of. lia. }
  pose proof (length_store_data h Hs0) as Hlen.
  assert (16 * Zlen (entries h) + storeSizeInBytes h < 2 ^ 31) as Hsum.
  { pose proof (store_le_payloads h Hp). lia. }
  assert (elems es = bare <$> entries h) as Hes by apply elems_parsed_index.
  destruct (sortedEntryIndices_ok (entries h)) as (Hso & Hnd & Hin). rewrite <- Hes in Hso, Hnd, Hin.
  destruct (populateAll_run (S (length (store_data h))) (IsMainHeader h) ds (storeSizeInBytes h)
    (Zlen (entries h)) (store_data h) (entries h) (sortedEntryIndices (elems es)) es None 0)
    as (es' & Hrun & Hes'); try done; try lia.
  - intros i e Hi. pose proof (list_elem_of_lookup_2 _ _ _ Hi) as He.
    destruct (lo_aligned _ _ _ Hok e He) as [Ho _]. pose proof (lo_store _ _ _ Hok e He).
    split_and!; [by apply Hpl|by apply Hent|by apply (Hent e He)|done|lia| |by apply store_slice].
    intros Ht. apply andb_true_iff in Ht as [Hm Ht%Z.eqb_eq]. apply negb_true_iff in Hm.
    by apply (ck_trailer _ Hck).
  - by eapply layout_ok_disjoint.
  - intros i Hi%Hin. split; [done|]. by rewrite Hes, list_lookup_fmap.
  - intros i e _ Hi. apply list_elem_of_lookup_2 in Hi. by apply (lo_aligned _ _ _ Hok e).
  - destruct (refines_populateAll (S (length (store_data h))) (IsMainHeader h) ds (storeSizeInBytes h)
      (sortedEntryIndices (elems es)) es None (NewArrayReader (store_data h))) as [_ Hr]; [simpl; lia|].
    unfold view in Hr. simpl in Hr, Hrun. change (u64 (Z.of_nat 0)) with 0 in Hr. rewrite drop_0 in Hr, Hrun.
    rewrite Hr in Hrun. simpl in Hrun. rewrite Hrun. f_equal. f_equal.
    + f_equal. apply list_eq. intros i. rewrite Hes'.
      destruct (decide (i ∈ sortedEntryIndices (elems es))) as [Hi|Hi]; [reflexivity|].
      rewrite Hin in Hi. rewrite Hes, list_lookup_fmap. by rewrite lookup_ge_None_2 by lia.
    + unfold region_found. case_decide as Hx.
      * apply Exists_exists in Hx as (i & _ & Hi). apply fmap_Some in Hi as (e & He & Ht).
        replace (existsb _ _) with true; [done|]. symmetry. apply existsb_exists. exists e.
        split; [|done]. apply list_elem_of_In. by eapply list_elem_of_lookup_2.
      * destruct (existsb _ _) eqn:Ex; [|done]. apply existsb_exists in Ex as (e & He & Ht).
        destruct Hx. apply Exists_exists. apply list_elem_of_In, list_elem_of_lookup in He as [i Hi].
        exists i. split; [apply Hin; by eapply lookup_lt_Some|]. rewrite Hi. simpl. by rewrite Ht.
Qed.

Lemma decodes_parseHeaderBody h off :
  header_wf h -> packed h -> fits h 0 -> codec_ok h -> in_width 64 off ->
  decodes off (parseHeaderBody (IsMainHeader h)) (header_bytes h) (parsed_header off h).
Proof.
  intros Hwf Hp Hfit Hck Hoff. pose proof Hfit as Hfit'. unfold fits in Hfit'.
  pose proof (total_size_Zlen (entries h)). pose proof (Zlen_nonneg (entries h)).
  pose proof (hb_count _ (hw_base _ Hwf)) as Hcnt. pose proof (packed_ok _ Hp) as Hok.
  pose proof (packed_layout_end (regionTrailerEntry h) (entries h)) as Hstore. rewrite Hp in Hstore. simpl in Hstore.
  assert (0 <= storeSizeInBytes h) as Hs0.
  { destruct (lo_last _ _ _ Hok) as [[_ ->]|(e & He & <-)]; [done|].
    destruct (packed_bounds h e Hp He). pose proof (Zlen_nonneg (ie_payload e)). unfold end_of. lia. }
  assert (Zlen (Magic h) = 3) as Hm3 by (by rewrite (ck_magic _ Hck)).
  assert (Zlen (reserved h) = 4) as Hr4 by (unfold Zlen; by rewrite (ck_reserved _ Hck)).
  assert (forall d, Zlen (be32 d) = 4) as Hb4 by done.
  assert (Zlen [version h] = 1) as Hv1 by done.
  unfold parseHeaderBody, header_bytes. apply decodes_offset.
  eapply decodes_bind; [apply decodes_readBytes; by rewrite (ck_magic _ Hck)|].
  rewrite bool_decide_eq_true_2 by (by rewrite (ck_magic _ Hck)). cbn [negb].
  eapply decodes_bind; [apply decodes_readByte|].
  eapply decodes_bind; [apply decodes_readBytes; by rewrite (ck_reserved _ Hck)|].
  eapply decodes_bind; [apply decodes_readWord; rewrite Hcnt; unfold in_width; lia|].
  eapply decodes_bind; [apply decodes_readWord; unfold in_width; lia|].
  apply decodes_offset. eapply decodes_bind.
  { replace (Z.to_nat (indexEntryCount h)) with (length (entries h)) by (rewrite Hcnt; unfold Zlen; lia).
    apply decodes_parseEntries. pose proof (hb_entries _ (hw_base _ Hwf)) as Hent.
    rewrite Forall_forall in Hent |- *. intros e He. destruct (Hent e He) as [E1 E2 E3 E4 _ _ _ _].
    destruct (packed_bounds h e Hp He). pose proof (Zlen_nonneg (ie_payload e)). unfold known_format in E3.
    split_and!; try done; unfold in_width, end_of in *; lia. }
  apply decodes_offset.
  rewrite <- (app_nil_r (store_data h)). eapply decodes_bind with (x := store_data h).
  { intros Ho tl. unfold wrap_err. pose proof (length_store_data h Hs0) as Hl.
    assert (length (store_data h) = Z.to_nat (storeSizeInBytes h)) as Hlen by (unfold Zlen in Hl; lia).
    by rewrite (decodes_readBytes _ _ _ Hlen Ho tl). }
  match goal with |- decodes _ (run_local _ (populateAll _ _ ?start _ _ _ _) ≫= _) _ _ =>
    assert (start = u64 (off + (16 + 16 * Zlen (entries h)))) as -> end.
  { rewrite Zlen_index_bytes, Hm3, Hr4, Hv1, !Hb4. wrap_sum. f_equal. lia. }
  eapply decodes_lift; [by apply populate_header|]. cbv beta iota.
  match goal with |- decodes ?o (mret ?a) [] ?b => replace a with b; [apply decodes_ret|] end.
  unfold parsed_header, parsed_region. f_equal.
  rewrite Hm3, Hr4, Hv1, !Hb4. by wrap_sum.
Qed.

(** ** The same on every reader *)

Section AnyReader.
Context {R : Type} `{LawfulReader R}.

Lemma refines_parseIndexEntry main : refines (parseIndexEntry main) (parseIndexEntry main).
Proof. unfold parseIndexEntry. eauto 12 with refines. Qed.

Lemma refines_parseEntries n main acc :
  refines (parseEntries n main acc) (parseEntries n main acc).
Proof.
  revert acc. induction n as [|n IH]; intros acc; simpl; [apply refines_ret|].
  apply refines_bind; [apply refines_parseIndexEntry|]. intros e. apply IH.
Qed.

Lemma refines_wrap_err {A} prefix (m : M R A) ms :
  refines m ms -> refines (wrap_err prefix m) (wrap_err prefix ms).
Proof.
  intros Hm r Hr. destruct (Hm r Hr) as [Hv Hp]. unfold wrap_err. rewrite Hp.
  by destruct (m r) as [[a|e|p|] r'].
Qed.

Lemma refines_parseHeaderBody main : refines (parseHeaderBody main) (parseHeaderBody main).
Proof.
  unfold parseHeaderBody, readBytes. apply refines_bind; [apply refines_offset|]. intros hs.
  apply refines_bind; [apply refines_fill|]. intros magic. case_match; [apply refines_lift|].
  apply refines_bind; [apply refines_readByte|]. intros v.
  apply refines_bind; [apply refines_fill|]. intros res.
  apply refines_bind; [apply refines_readWord|]. intros n.
  apply refines_bind; [apply refines_readWord|]. intros size.
  apply refines_bind; [apply refines_offset|]. intros ist.
  apply refines_bind; [apply refines_parseEntries|]. intros es.
  apply refines_bind; [apply refines_offset|]. intros ds.
  apply refines_bind; [apply refines_wrap_err, refines_fill|]. intros store.
  apply refines_bind; [apply refines_lift|]. intros [es' region]. apply refines_ret.
Qed.
End AnyReader.

Section Hashing.
Context {R : Type} `{ReaderWithOffset R} (I : R -> Prop).
Hypothesis Read_maintains : forall n r, I r -> I (Read n r).2.

Lemma maintains_parseHeaderBody main : maintains I (parseHeaderBody main).
Proof.
  unfold parseHeaderBody, readBytes. apply maintains_bind; [apply maintains_offset|]. intros hs.
  apply maintains_bind; [by apply maintains_fill|]. intros magic. case_match; [apply maintains_lift|].
  apply maintains_bind; [by apply maintains_readByte|]. intros v.
  apply maintains_bind; [by apply maintains_fill|]. intros res.
  apply maintains_bind; [by apply maintains_readWord|]. intros n.
  apply maintains_bind; [by apply maintains_readWord|]. intros size.
  apply maintains_bind; [apply maintains_offset|]. intros ist.
  apply maintains_bind.
  { generalize (@nil_slice IndexEntry). induction (Z.to_nat n) as [|k IH]; intros acc; simpl; [apply maintains_ret|].
    apply maintains_bind; [|intros e; apply IH]. unfold parseIndexEntry.
    repeat (apply maintains_bind; [by apply maintains_readWord|intros]). apply maintains_ret. }
  intros es. apply maintains_bind; [apply maintains_offset|]. intros ds.
  apply maintains_bind.
  { intros r Hr. unfold wrap_err. pose proof (maintains_fill I Read_maintains (Z.to_nat size) r Hr) as Hf.
    by destruct (FillBuffer (Z.to_nat size) r) as [[a|e|p|] r']. }
  intros store. apply maintains_bind; [apply maintains_lift|]. intros [es' region]. apply maintains_ret.
Qed.
End Hashing.
End Reading.
