(* ===== verification/RpmFile.v ===== *)
(** RPM files as a whole ([src/common/rpmparser.go]: [validateDigests],
    [ParseRPM], [RpmFile.Write], the version and signature queries). The hash
    functions are parameters. *)
From S2P Require Import Prelude Utils Bitmap DynArray Serializer Tags Header Layout Payload HeaderCodec.

(** MD5, SHA-1 and SHA-256 of the bytes written to a [hash.Hash]. *)
Class Hashes := { md5 : list Z -> list Z; sha1 : list Z -> list Z; sha256 : list Z -> list Z }.

(** ** [hex.DecodeString] *)

Definition fromHexChar (c : Z) : option Z :=
  if (48 <=? c) && (c <=? 57) then Some (c - 48)
  else if (97 <=? c) && (c <=? 102) then Some (c - 97 + 10)
  else if (65 <=? c) && (c <=? 70) then Some (c - 65 + 10)
  else None.

Fixpoint DecodeString (s : list Z) : option (list Z) :=
  match s with
  | [] => Some []
  | [_] => None
  | a :: b :: s =>
      a ← fromHexChar a;
      b ← fromHexChar b;
      bs ← DecodeString s;
      mret (Z.lor (Z.shiftl a 4) b :: bs)
  end.

(** ** Versions and signatures *)

Record SignatureVersion := mkSignatureVersion { sv_Id : Z; sv_Label : string }.

#[export] Instance SignatureVersion_eq_dec : EqDecision SignatureVersion.
Proof. solve_decision. Defined.
#[export, refine] Instance SignatureVersion_countable : Countable SignatureVersion :=
  inj_countable' (fun v => (sv_Id v, sv_Label v)) (fun p => mkSignatureVersion p.1 p.2) _.
Proof. by intros []. Defined.

Definition SIGNATURE_VERSION_V3 := mkSignatureVersion 3 "V3".
Definition SIGNATURE_VERSION_V4 := mkSignatureVersion 4 "V4".
Definition SIGNATURE_VERSION_V6 := mkSignatureVersion 6 "V6".

Definition AllSignatureVersions : list SignatureVersion :=
  [SIGNATURE_VERSION_V3; SIGNATURE_VERSION_V4; SIGNATURE_VERSION_V6].

Definition GetRpmVersion (f : RpmFile) : outcome (list Z) :=
  match find_entry TagRpmversion (MainHeader f) with
  | None => Ok []
  | Some index => StringValue index
  end.

Definition GetFileFormatVersion (f : RpmFile) : outcome RpmFileFormatVersion :=
  match find_entry TagRpmformat (MainHeader f) with
  | Some entry => v ← Int32Value entry; mret (mkVersion (u8 v) 0)
  | None => Ok (mkVersion (lead_Major (Lead f)) (lead_Minor (Lead f)))
  end.

Definition GetSignatureVersions (f : RpmFile) : gset SignatureVersion :=
  let has {T} `{TagValue T} (t : T) := bool_decide (is_Some (FindIndexEntry t (SignatureHeader f))) in
  let hasV3 := has SigTagPGP || has SigTagGPG in
  let hasV4 := has SigTagRSAHeader || has SigTagDSAHeader in
  let hasV6 := has SigTagOpenPGP in
  let add (b : bool) v (s : gset SignatureVersion) := if b then (GoSet.Add v s).2 else s in
  add hasV6 SIGNATURE_VERSION_V6
    (add hasV4 SIGNATURE_VERSION_V4 (add hasV3 SIGNATURE_VERSION_V3 GoSet.NewSet)).

Definition IsSigned (f : RpmFile) : bool := negb (GoSet.IsEmpty (GetSignatureVersions f)).

(** ** Validation *)

Section Validate.
Context `{Hashes}.

Definition GetMd5Digest (h : RpmHeader) : list Z := md5 (Md5Digest h).
Definition GetSha1Digest (h : RpmHeader) : list Z := sha1 (Sha1Digest h).
Definition GetSha256Digest (h : RpmHeader) : list Z := sha256 (Sha256Digest h).

Definition hexValue (e : option IndexEntry) (msg : string) : outcome (list Z) :=
  match e with
  | None => Ok []
  | Some e =>
      s ← StringValue e;
      match DecodeString s with Some bs => Ok bs | None => Panic msg end
  end.

(** [entry != nil && ok && !bytes.Equal(expected, actual)] panics. *)
Definition check_digest (entry : option IndexEntry) (enabled : bool) (expected actual : list Z)
    (msg : string) : outcome unit :=
  if bool_decide (is_Some entry) && enabled && negb (bool_decide (expected = actual))
  then Panic msg else Ok tt.

Definition validateDigests (rpm : RpmFile) (payloadMd5HasBeenCalculated : bool) : outcome unit :=
  match signedRegion (SignatureHeader rpm) with
  | None => Panic "Signature header contained no signed/immutable region marker?"
  | Some region =>
      version ← GetFileFormatVersion rpm;
      if Major version >? 4 then Panic "Sorry, RPM file format version %s is currently unsupported"
      else if negb (Zlen (entries (SignatureHeader rpm)) =? sr_IndexEntryCount region)
      then Panic "RPM has been tampered with ? Signature covers %d index entries but signature header has %d"
      else
        let md5Header := match find_entry SigTagMD5 (SignatureHeader rpm) with
                         | Some e => Some e
                         | None => find_entry SigTagSigMD5 (SignatureHeader rpm)
                         end in
        let sha1Header := find_entry SigTagSHA1Header (SignatureHeader rpm) in
        sha1HashValue ← hexValue sha1Header "Failed to hex-decode SHA1 hash?";
        let sha256Header := find_entry SigTagSHA256Header (SignatureHeader rpm) in
        sha256HashValue ← hexValue sha256Header "Failed to hex-decode SHA256 hash?";
        _ ← check_digest md5Header payloadMd5HasBeenCalculated
              (default [] (ie_payload <$> md5Header)) (GetMd5Digest (MainHeader rpm))
              "MD5 checksum validation failed, expected %s but got %s";
        _ ← check_digest sha1Header true sha1HashValue (GetSha1Digest (MainHeader rpm))
              "SHA1 checksum validation failed, expected %s but got %s";
        _ ← check_digest sha256Header true sha256HashValue (GetSha256Digest (MainHeader rpm))
              "SHA256 checksum validation failed, expected %s but got %s";
        match md5Header, sha1Header, sha256Header with
        | None, None, None =>
            Panic "failed to find any recognized digest (MD5 / SHA1 / SHA256) inside signature header"
        | _, _, _ => Ok tt
        end
  end.

Definition validate (rpm : RpmFile) (validatePayloadMd5 : bool) : outcome unit :=
  _ ← GetPackageType (Lead rpm);
  validateDigests rpm validatePayloadMd5.

(** ** Parsing *)

Section ParseRPM.
Context {R : Type} `{ReaderWithOffset R} `{Runtime}.

(** The payload is read through a digest reader that goes on hashing where the
    main header's MD5 digest stopped. *)
Definition readPayload (size : Z) (hashed : list Z) : M R (list Z) := fun r =>
  match readAhead size (NewDigestReaderImpl r hashed) with
  | (Ok _, d) => (Ok (digest d), source d)
  | (Err _, d) => (Panic "Compressed payload seems to be truncated, expected at least %d bytes of payload", source d)
  | (Panic p, d) => (Panic p, source d)
  | (Diverge, d) => (Diverge, source d)
  end.

Definition set_MainHeader (h : RpmHeader) (f : RpmFile) : RpmFile :=
  mkRpmFile (Lead f) (SignatureHeader f) h (PayloadStartOffset f) (CompressedPayloadSize f).

Definition ParseRPM (validatePayloadM5 : bool) : M R RpmFile :=
  lead ← parseLead;
  sigHeader ← parseHeader false;
  mainHeader ← parseHeader true;
  sigSize ← lift (match find_entry SigTagSigSize sigHeader with
                  | Some e => Ok e
                  | None =>
                      match find_entry SigTagSize sigHeader with
                      | Some e => Ok e
                      | None => Panic "Failed to find SIG_SIZE entry"
                      end
                  end);
  off ← offset_;
  let mainHeaderSize := u64 (off - headerStartOffset mainHeader) in
  size ← lift (Int32Value sigSize);
  let compressedPayloadSize := u64 (u64 size - mainHeaderSize) in
  let rpm := mkRpmFile lead sigHeader mainHeader off compressedPayloadSize in
  rpm ← (if validatePayloadM5 then
           hashed ← readPayload (u32 compressedPayloadSize) (Md5Digest mainHeader);
           mret (set_MainHeader (set_Md5Digest hashed mainHeader) rpm)
         else mret rpm);
  _ ← lift (validate rpm validatePayloadM5);
  mret rpm.
End ParseRPM.

Definition ParseRPMFromReader {R} `{ReaderWithOffset R} `{Runtime} (validatePayloadM5 : bool)
    : M R RpmFile := ParseRPM validatePayloadM5.
End Validate.

(** ** Writing *)

(** A writer and a reader may share a store, when both are the same file:
    [refresh w p] is the reader [p] as it is when the writer has come to [w]. *)
Class Shares (W P : Type) := refresh : W -> P -> P.

(** Unless an instance says otherwise they have nothing in common. *)
#[export] Instance apart {W P} : Shares W P | 1000 := fun _ p => p.

#[export] Instance FileWriterWithOffset_shares {F P} `{!Shares F P} : Shares (FileWriterWithOffset F) P :=
  fun w p => refresh (fw_file w) p.

Section WriteRPM.
Context {W P : Type} `{WriterWithOffset W} `{ReaderWithOffset P} `{shares : !Shares W P}.

(** [io.Copy] with its buffer of 32 KiB; [fuel] bounds the number of reads. What a read
    gets is what is there after the writes before it. *)
Fixpoint io_Copy (fuel : nat) (written : Z) : M (W * P) Z :=
  match fuel with
  | O => lift Diverge
  | S fuel => fun '(w, p) =>
      let '((bs, er), p) := Read (Z.to_nat 32768) (refresh w p) in
      let '((nw, ew), w) := if 0 <? Zlen bs then wWrite bs w else ((0, None), w) in
      match ew with
      | Some e => (Err e, (w, p))
      | None =>
          if (nw <? 0) || (Zlen bs <? nw) then (Err "invalid write result", (w, p))
          else if negb (nw =? Zlen bs) then (Err ErrShortWrite, (w, p))
          else
            match er with
            | Some EOF => (Ok (written + nw), (w, p))
            | Some (IOError e) => (Err e, (w, p))
            | None => io_Copy fuel (written + nw) (w, p)
            end
      end
  end.

(** A serializer counts the bytes written through it, from zero. *)
Definition with_serializer {A} (m : M (offsetTrackingWriter W) A) : M (W * P) A := fun '(w, p) =>
  let '(o, s) := m (NewOffsetTrackingWriter w) in (o, (otw_writer s, p)).

Definition WriteRPM (fuel : nat) (f : RpmFile) : M (W * P) unit :=
  _ ← with_serializer
        (_ ← write_lead (Lead f);
         _ ← Write_ (SignatureHeader f) false;
         Write_ (MainHeader f) true);
  _ ← io_Copy fuel 0;
  mret tt.
End WriteRPM.
