(* ===== verification/FileRoundtrip.v ===== *)
(** Round trips of headers and files ([src/common/rpmparser.go]): what
    [RpmFile.Write] emits is what [ParseRPM] reads back, on every reader and
    writer; and the digests of a parsed main header are those of exactly its
    bytes. *)
From S2P Require Import Prelude Utils Bitmap DynArray Serializer Tags Header Layout HeaderSpec HeaderOps.
From S2P Require Import Allocation Payload HeaderCodec Codec HeaderRoundtrip RpmFile.

Section Headers.
Context `{Runtime}.

(** ** Headers on any reader *)

Lemma decodes_advance off pad :
  Zlen pad = pad_to 8 off -> decodes off advanceToNext8ByteBoundary pad tt.
Proof.
  intros Hpad Hoff tl. unfold advanceToNext8ByteBoundary. rewrite (M_bind_ok _ _ _ off _) by done.
  rewrite CalcAlignmentByteCount_pow2 by (done || set_solver).
  rewrite (M_bind_ok _ _ _ ((- off) mod 8) _) by done.
  change ((- off) mod 8) with (pad_to 8 off). rewrite <- Hpad.
  pose proof (pad_to_range 8 off). destruct (Z.eqb_spec (Zlen pad) 0) as [Hz|Hz]; cbn [negb].
  - assert (pad = []) as -> by (destruct pad; [done|rewrite Zlen_cons in Hz; pose proof (Zlen_nonneg pad); lia]).
    unfold mret, M_ret. by rewrite Zlen_nil, Z.add_0_r, wrap_small.
  - apply decodes_readAhead; [done|lia|done].
Qed.

Section OnReader.
Context {R : Type} `{LawfulReader R}.

Lemma parseSignatureHeader_run h pad tl (r : R) :
  header_wf h -> packed h -> fits h 0 -> codec_ok h -> IsMainHeader h = false -> valid r ->
  Zlen pad = pad_to 8 (Offset r + Zlen (header_bytes h)) ->
  rest r = (header_bytes h ++ pad) ++ tl ->
  exists r', parseHeader false r = (Ok (parsed_header (Offset r) h), r') /\ valid r' /\ rest r' = tl /\
    Offset r' = u64 (Offset r + Zlen (header_bytes h ++ pad)).
Proof.
  intros Hwf Hp Hfit Hck Hm Hr Hpad Hrest.
  apply (decodes_refines _ parseSignatureHeader _ _ _ _ (refines_bind _ _ _ _ (refines_parseHeaderBody false)
    (fun hdr => refines_bind _ _ _ _ refines_advance (fun _ => refines_ret hdr)))); [|done|done].
  unfold parseSignatureHeader. eapply decodes_bind.
  { rewrite <- Hm at 1. by apply decodes_parseHeaderBody, offset_law. }
  apply (decodes_bind_ret _ _ (fun _ => parsed_header (Offset r) h) _ tt). apply decodes_advance. rewrite Hpad. unfold pad_to, wrap.
  rewrite <- (Z.sub_0_l ((_ + _) mod _)), <- (Z.sub_0_l (_ + _)).
  rewrite <- (Zminus_mod_idemp_r 0 (_ mod _)), <- (Zminus_mod_idemp_r 0 (_ + _)). do 2 f_equal.
  symmetry. apply Z.mod_mod_divide. by exists (2 ^ 61).
Qed.

(** The three nested digest readers have hashed what they have delivered. *)
Definition hashing (all : list Z) (d : DigestReaderImpl (DigestReaderImpl (DigestReaderImpl R))) : Prop :=
  hashed_and_rest all d /\ digest (source d) = digest d /\ digest (source (source d)) = digest d.

Lemma hashing_maintained all n d : hashing all d -> hashing all (Read n d).2.
Proof.
  intros (Hh & E1 & E2). split; [by apply DigestReader_maintains|].
  destruct d as [[[r m] s1] s2]. simpl in *. subst.
  unfold DigestReaderImpl_Read. simpl. unfold DigestReaderImpl_Read. simpl. unfold DigestReaderImpl_Read.
  simpl. destruct (Read n r) as [[bs e] r']. done.
Qed.

Definition with_digests (bs : list Z) (h : RpmHeader) : RpmHeader :=
  mkHeader (Magic h) (version h) (reserved h) (indexEntryCount h) (storeSizeInBytes h)
    (IsMainHeader h) (IndexEntries h) (headerStartOffset h) (IndicesStartOffset h)
    (DataStoreStartOffset h) (signedRegion h) bs bs bs.

Lemma parseMainHeader_run h tl (r : R) :
  header_wf h -> packed h -> fits h 0 -> codec_ok h -> IsMainHeader h = true -> valid r ->
  rest r = header_bytes h ++ tl ->
  exists r', parseHeader true r = (Ok (with_digests (header_bytes h) (parsed_header (Offset r) h)), r') /\
    valid r' /\ rest r' = tl /\ Offset r' = u64 (Offset r + Zlen (header_bytes h)).
Proof.
  intros Hwf Hp Hfit Hck Hm Hr Hrest.
  set (d := NewDigestReaderImpl (NewDigestReaderImpl (NewDigestReaderImpl r []) []) []).
  destruct (decodes_refines (parseHeaderBody true) (parseHeaderBody true) (header_bytes h)
    (parsed_header (Offset r) h) d tl) as (d' & Hrun & Hv & Ht & Ho).
  { apply refines_parseHeaderBody. }
  { rewrite <- Hm. by apply decodes_parseHeaderBody, offset_law. }
  { done. } { done. }
  assert (hashing (rest r) d') as ((_ & Hall) & E1 & E2).
  { pose proof (maintains_parseHeaderBody (hashing (rest r)) (hashing_maintained (rest r)) true d) as Hmt.
    rewrite Hrun in Hmt. apply Hmt. done. }
  assert (digest d' ++ rest d' = rest r) as Hall' by exact Hall. clear Hall. rename Hall' into Hall.
  rewrite Ht, Hrest in Hall. apply app_inv_tail in Hall.
  unfold parseHeader, parseMainHeader. fold d. rewrite Hrun, E1, E2, Hall.
  exists (source (source (source d'))). done.
Qed.

(** Whatever the input is: the digests of a main header that was parsed are over
    exactly the bytes the parser consumed. *)
Lemma parseMainHeader_hashes (r r' : R) h :
  valid r -> parseHeader true r = (Ok h, r') ->
  valid r' /\ rest r = Sha256Digest h ++ rest r' /\
  Sha1Digest h = Sha256Digest h /\ Md5Digest h = Sha256Digest h.
Proof.
  intros Hr Hrun.
  set (d := NewDigestReaderImpl (NewDigestReaderImpl (NewDigestReaderImpl r []) []) []).
  pose proof (maintains_parseHeaderBody (hashing (rest r)) (hashing_maintained (rest r)) true d) as Hmt.
  unfold parseHeader, parseMainHeader in Hrun. fold d in Hrun.
  destruct (parseHeaderBody true d) as [[h0|e|p|] d']; simplify_eq.
  destruct Hmt as ((Hv & Hall) & E1 & E2); [done|]. simpl in *. by rewrite E1, E2.
Qed.
End OnReader.
End Headers.

(** ** Writing a file *)

(** The offset tracker counts its own bytes and passes everything on. *)
#[export, refine] Instance offsetTrackingWriter_lawful {W} `{LawfulWriter W}
    : LawfulWriter (offsetTrackingWriter W) := {
  written w := written (otw_writer w);
  wvalid w := wvalid (otw_writer w) /\ in_width 64 (otw_currentOffset w);
}.
Proof.
  - intros p [w o] [Hw Ho]. simpl in *. destruct (write_law p w Hw) as (w' & Hrun & Hv & Hwr & _).
    exists (mkOffsetTracking w' (u64 (o + Zlen p))). unfold offsetTrackingWriter_Write. simpl.
    change (ioWrite p w) with (wWrite p w). rewrite Hrun. simpl.
    split_and!; [|done|apply wrap_range; lia|done|done]. do 2 f_equal.
    rewrite (Z.add_comm o), wrap_add_l, Z.add_comm by lia. done.
  - intros [w o] [_ Ho]. done.
Defined.

Lemma writeAlignTo_run {W} `{LawfulWriter W} (w : W) :
  wvalid w -> exists w', writeAlignTo 8 w = (Ok tt, w') /\ wvalid w' /\
    written w' = written w ++ zeros (Z.to_nat (pad_to 8 (wOffset w))) /\
    wOffset w' = u64 (wOffset w + pad_to 8 (wOffset w)).
Proof.
  intros Hw. pose proof (woffset_law w Hw) as Ho. unfold writeAlignTo.
  rewrite (M_bind_ok _ _ _ (wOffset w) w) by done.
  rewrite CalcAlignmentByteCount_pow2 by (done || set_solver).
  rewrite (M_bind_ok _ _ _ (pad_to 8 (wOffset w)) w) by done.
  pose proof (pad_to_range 8 (wOffset w)).
  destruct (Z.eqb_spec (pad_to 8 (wOffset w)) 0) as [Hz|Hz]; cbn [negb].
  - exists w. rewrite Hz. simpl. by rewrite app_nil_r, Z.add_0_r, wrap_small.
  - set (p := zeros _). destruct (write_law p w Hw) as (w' & Hrun & Hv & Hwr & Hof).
    assert (Zlen p = pad_to 8 (wOffset w)) as Hp by (unfold p; rewrite Zlen_zeros; lia).
    exists w'. cbv zeta. erewrite M_bind_ok by (unfold write_; by rewrite Hrun).
    cbv beta iota. fold p. rewrite Z.eqb_refl. rewrite Hof, Hp. done.
Qed.

(** The bytes of a file in front of its payload. *)
Definition file_bytes (f : RpmFile) : list Z :=
  lead_bytes (Lead f) ++
  (header_bytes (SignatureHeader f) ++
   zeros (Z.to_nat (pad_to 8 (96 + Zlen (header_bytes (SignatureHeader f)))))) ++
  header_bytes (MainHeader f).

(** A header that can be written and parsed. *)
Record writable (main : bool) (h : RpmHeader) : Prop := {
  wr_wf : header_wf h;
  wr_packed : packed h;
  wr_fits : fits h 0;
  wr_codec : codec_ok h;
  wr_main : IsMainHeader h = main;
}.

Lemma Zlen_header_bytes h : writable (IsMainHeader h) h ->
  0 <= Zlen (header_bytes h) < 2 ^ 33.
Proof.
  intros [Hwf Hp Hfit Hck _]. unfold fits in Hfit. pose proof (packed_ok _ Hp) as Hok.
  pose proof (total_size_Zlen (entries h)). pose proof (store_le_payloads h Hp).
  assert (0 <= storeSizeInBytes h) as Hs0.
  { destruct (lo_last _ _ _ Hok) as [[_ ->]|(e & He & <-)]; [done|].
    destruct (packed_bounds h e Hp He). pose proof (Zlen_nonneg (ie_payload e)). unfold end_of. lia. }
  unfold header_bytes. rewrite !Zlen_app, Zlen_index_bytes, (length_store_data h Hs0).
  assert (Zlen (Magic h) = 3) as -> by (by rewrite (ck_magic _ Hck)).
  assert (Zlen (reserved h) = 4) as -> by (unfold Zlen; by rewrite (ck_reserved _ Hck)).
  assert (forall d, Zlen (be32 d) = 4) as Hb4 by done. rewrite !Hb4.
  change (Zlen [version h]) with 1.
  pose proof (Zlen_nonneg (entries h)). lia.
Qed.

(** [io.Copy] between a writer and a reader that have nothing in common: it moves
    everything that is left, or one of the two has failed. *)
Lemma io_Copy_fallible {W P} `{FallibleWriter W} `{FallibleReader P} fuel : forall n (w : W) (p : P),
  (length (pending p) + 1 < fuel)%nat -> wusable w -> usable p ->
  exists o w' p', io_Copy fuel n (w, p) = (o, (w', p')) /\ wusable w' /\ (may_fail_write w' -> may_fail_write w) /\
    ((exists m, o = Ok m) /\ stored w' = stored w ++ pending p \/
     (exists e, o = Err e) /\ (may_fail_write w \/ may_fail p)).
Proof.
  induction fuel as [|fuel IH]; intros n w p Hf Hw Hp; [lia|]. cbn [io_Copy].
  change (refresh w p) with p.
  destruct (fallible_law (Z.to_nat 32768) p Hp) as (bs & er & p' & Hrd & Hv & Hrest & Hlen & _ & Hmf & He).
  rewrite Hrd. pose proof (Zlen_nonneg bs) as Hz.
  set (step := if 0 <? Zlen bs then wWrite bs w else ((0, None), w)).
  assert (exists k ew w1, step = ((k, ew), w1) /\ wusable w1 /\ (may_fail_write w1 -> may_fail_write w) /\
    (k = Zlen bs /\ ew = None /\ stored w1 = stored w ++ bs \/ (exists e, ew = Some e) /\ may_fail_write w))
    as (k & ew & w1 & -> & Hv1 & Hmw & Hstep).
  { unfold step. destruct (Z.ltb_spec 0 (Zlen bs)) as [|Hz'].
    - destruct (fallible_write bs w Hw) as (k & ew & w1 & Hwr & Hv1 & Hmw & Hc). exists k, ew, w1. tauto.
    - exists 0, None, w. assert (bs = []) as -> by (destruct bs; [done|zlen]). rewrite app_nil_r. tauto. }
  destruct Hstep as [(-> & -> & Hs1)|[[e ->] Hbad]]; [|do 3 eexists; split_and!; [done..|right]; eauto].
  rewrite (proj2 (Z.ltb_ge _ _)), Z.ltb_irrefl, Z.eqb_refl by lia. cbn [orb negb].
  destruct He as [[-> Hprog]|[[-> Hend]|[[e ->] Hbad]]].
  - destruct (IH (n + Zlen bs) w1 p') as (o & w2 & p2 & Hrun & Hv2 & Hm2 & Hres); [|done|done|].
    { rewrite Hrest, length_app in Hf. destruct Hprog as [?|Hb]; [done|]. destruct bs; [done|]. simpl in Hf. lia. }
    exists o, w2, p2. split_and!; [done|done|tauto|]. destruct Hres as [[Ho Hs2]|[Ho Hbad]]; [left|right; tauto].
    split; [done|]. by rewrite Hs2, Hs1, <- app_assoc, <- Hrest.
  - do 3 eexists. split_and!; [done|done|tauto|left]. split; [by eexists|]. by rewrite Hs1, Hrest, Hend, app_nil_r.
  - do 3 eexists. split_and!; [done|done|tauto|right]. split; [by eexists|tauto].
Qed.

Section WriteFile.
Context {W P : Type} `{LawfulWriter W} `{LawfulReader P}.

Lemma io_Copy_run fuel n w (p : P) :
  (length (rest p) + 1 < fuel)%nat -> wvalid w -> valid p ->
  exists m w' p', io_Copy fuel n (w, p) = (Ok m, (w', p')) /\ wvalid w' /\
    written w' = written w ++ rest p.
Proof.
  intros Hf Hw Hp. pose proof (io_Copy_fallible fuel n w p) as Hc. destruct (Hc Hf Hw Hp)
    as (o & w' & p' & Hrun & Hv & _ & [[[m ->] Hs]|[_ [[]|[]]]]). by exists m, w', p'.
Qed.

Lemma WriteRPM_run fuel f (w : W) (p : P) :
  lead_ok (Lead f) -> writable false (SignatureHeader f) -> writable true (MainHeader f) ->
  wvalid w -> valid p -> (length (rest p) + 1 < fuel)%nat ->
  exists w' p', WriteRPM fuel f (w, p) = (Ok tt, (w', p')) /\
    written w' = written w ++ file_bytes f ++ rest p.
Proof.
  intros Hl Hs Hm Hw Hp Hf. unfold WriteRPM.
  set (s0 := NewOffsetTrackingWriter w).
  assert (wvalid s0) as Hv0 by done.
  destruct (appends_lead (Lead f) s0 Hv0) as (s1 & E1 & V1 & R1 & O1).
  destruct (emits_header (W:=offsetTrackingWriter W) (SignatureHeader f) (wr_wf _ _ Hs) (wr_packed _ _ Hs)
    (wr_fits _ _ Hs) s1 V1) as (s2 & E2 & V2 & R2 & O2).
  destruct (writeAlignTo_run s2 V2) as (s3 & E3 & V3 & R3 & O3).
  destruct (emits_header (W:=offsetTrackingWriter W) (MainHeader f) (wr_wf _ _ Hm) (wr_packed _ _ Hm)
    (wr_fits _ _ Hm) s3 V3) as (s4 & E4 & V4 & R4 & _).
  assert (Write_ (MainHeader f) true s2 = (Ok tt, s4)) as E34.
  { unfold Write_ in *. cbv iota in *. rewrite (M_bind_ok _ _ _ tt s3) by done.
    rewrite (M_bind_ok _ _ _ tt s3) in E4 by done. exact E4. }
  destruct (io_Copy_run fuel 0 (otw_writer s4) p Hf) as (m & w' & p' & Ec & _ & Rc); [apply V4|done|].
  exists w', p'. split.
  - erewrite M_bind_ok; [by rewrite (M_bind_ok _ _ _ _ _ Ec)|].
    unfold with_serializer. fold s0.
    by rewrite (M_bind_ok _ _ _ _ _ E1), (M_bind_ok _ _ _ _ _ E2), E34.
  - rewrite Rc. change (written (otw_writer s4)) with (written s4).
    rewrite R4, R3, R2, R1. unfold file_bytes. change (written s0) with (written w).
    pose proof (Zlen_header_bytes (SignatureHeader f)) as Hlen. rewrite (wr_main _ _ Hs) in Hlen. specialize (Hlen Hs).
    assert (wOffset s2 = 96 + Zlen (header_bytes (SignatureHeader f))) as ->.
    { rewrite O2, O1. assert (Zlen (lead_bytes (Lead f)) = 96) as ->
        by (unfold Zlen; by rewrite length_lead_bytes).
      change (wOffset s0) with 0. wrap_small_tac. done. }
    by rewrite <- !app_assoc.
Qed.
End WriteFile.
