(* ===== verification/Extent.v ===== *)
(** How much of its input the parser of a header consumes ([src/common/rpmparser.go]),
    for every input it accepts: the magic number, the sixteen bytes in front of the
    index, sixteen bytes per entry and the data store, as its own counters say. *)
From S2P Require Import Prelude Utils Bitmap DynArray Serializer Tags Header Layout HeaderSpec HeaderOps.
From S2P Require Import Allocation Payload HeaderCodec Codec HeaderRoundtrip RpmFile FileRoundtrip.

(** [bs] is what was read between [s] and [s']. *)
Record consumed (s s' : stream) (bs : list Z) : Prop := {
  cs_rest : st_rest s = bs ++ st_rest s';
  cs_off : st_off s' = u64 (st_off s + Zlen bs);
}.

Lemma consumed_trans s1 s2 s3 a b : consumed s1 s2 a -> consumed s2 s3 b -> consumed s1 s3 (a ++ b).
Proof.
  intros [R1 O1] [R2 O2]. split; [by rewrite R1, R2, app_assoc|].
  by rewrite O2, O1, wrap_add_l, Zlen_app, Z.add_assoc by lia.
Qed.

Lemma consumed_nil s : in_width 64 (st_off s) -> consumed s s [].
Proof. intros Hs. split; [done|]. by rewrite Zlen_nil, Z.add_0_r, wrap_small. Qed.

Lemma consumed_width s s' bs : consumed s s' bs -> in_width 64 (st_off s').
Proof. intros [_ ->]. apply wrap_range. lia. Qed.

(** ** What the single reads consume *)

Lemma FillBuffer_consumed n s l s' :
  in_width 64 (st_off s) -> FillBuffer n s = (Ok l, s') -> consumed s s' l /\ length l = n.
Proof.
  intros Hs Hrun. rewrite FillBuffer_stream in Hrun by done. unfold fill_result in Hrun.
  destruct (Nat.leb_spec n (length (st_rest s))); [|done]. injection Hrun as <- <-.
  assert (length (take n (st_rest s)) = n) as Hl by (rewrite length_take; lia).
  split; [|done]. split; simpl; [by rewrite take_drop|]. unfold Zlen. by rewrite Hl.
Qed.

(** A program of which a run consumes [n] bytes, and which depends on nothing else. *)
Definition sized {A} (n : nat) (m : M stream A) : Prop :=
  forall s a s', in_width 64 (st_off s) -> m s = (Ok a, s') ->
    exists bs, consumed s s' bs /\ length bs = n.

Lemma sized_bind {A B} n n' (m : M stream A) (f : A -> M stream B) :
  sized n m -> (forall a, sized n' (f a)) -> sized (n + n') (m ≫= f).
Proof.
  intros Hm Hf s b s' Hs (a & s1 & E1 & E2)%M_bind_inv. destruct (Hm s a s1 Hs E1) as (b1 & C1 & L1).
  destruct (Hf a s1 b s' (consumed_width _ _ _ C1) E2) as (b2 & C2 & L2).
  exists (b1 ++ b2). split; [by eapply consumed_trans|]. rewrite length_app. lia.
Qed.

Lemma sized_lift {A} (o : outcome A) : sized 0 (lift o).
Proof. intros s a s' Hs [= _ <-]. exists []. split; [by apply consumed_nil|done]. Qed.

Lemma sized_ret {A} (a : A) : sized 0 (mret a).
Proof. apply (sized_lift (Ok a)). Qed.

Lemma sized_fill n : sized n (FillBuffer n).
Proof. intros s l s' Hs Hrun. exists l. by apply FillBuffer_consumed. Qed.

Lemma sized_readByte : sized 1 readByte.
Proof. apply (sized_bind 1 0); [apply sized_fill|]. intros. apply sized_lift. Qed.

Lemma sized_readShort : sized 2 readShort.
Proof.
  apply (sized_bind 2 0); [apply sized_fill|]. intros.
  repeat (apply (sized_bind 0 0); [apply sized_lift|intros]). apply sized_ret.
Qed.

Lemma sized_readWord : sized 4 readWord.
Proof.
  apply (sized_bind 2 2); [apply sized_readShort|]. intros. apply (sized_bind 2 0); [apply sized_readShort|].
  intros. apply sized_ret.
Qed.

(** The number a word is does not depend on where it is. *)
Lemma readWord_consumed s v s' :
  in_width 64 (st_off s) -> readWord s = (Ok v, s') ->
  exists w, consumed s s' w /\ length w = 4%nat /\ forall tl, (readWord (mkStream (w ++ tl) 0)).1 = Ok v.
Proof.
  intros Hs Hrun. destruct (sized_readWord s v s' Hs Hrun) as (w & C & L). exists w. split_and!; [done..|].
  intros tl. destruct w as [|a [|b [|c [|d [|? ?]]]]]; try done.
  destruct s as [l off]. simpl in Hs. pose proof (cs_rest _ _ _ C) as Hl. simpl in Hl. subst l.
  assert (forall x y tl off, in_width 64 off -> readShort (mkStream (x :: y :: tl) off) =
    (Ok (Z.lor (u16 (Z.shiftl x 8)) y), mkStream tl (u64 (off + 2)))) as Hshort.
  { intros x y t o Ho. unfold readShort, readBytes.
    erewrite M_bind_ok by (apply (FillBuffer_app 2 [x; y] t o); done). done. }
  unfold readWord in Hrun |- *.
  rewrite (M_bind_ok _ _ _ _ _ (Hshort a b _ off Hs)) in Hrun.
  rewrite (M_bind_ok _ _ _ _ _ (Hshort c d _ (u64 (off + 2)) ltac:(apply wrap_range; lia))) in Hrun.
  rewrite (M_bind_ok _ _ _ _ _ (Hshort a b (c :: d :: tl) 0 ltac:(done))).
  rewrite (M_bind_ok _ _ _ _ _ (Hshort c d tl (u64 (0 + 2)) ltac:(done))).
  by injection Hrun as <- _.
Qed.

Lemma sized_parseLead : sized 96 parseLead.
Proof.
  apply (sized_bind 4 92); [apply sized_fill|]. intros magic. case_match; [by intros s a s' _ ?|].
  apply (sized_bind 1 91); [apply sized_readByte|intros]. apply (sized_bind 1 90); [apply sized_readByte|intros].
  apply (sized_bind 2 88); [apply sized_readShort|intros]. apply (sized_bind 2 86); [apply sized_readShort|intros].
  apply (sized_bind 66 20); [apply sized_fill|intros]. apply (sized_bind 2 18); [apply sized_readShort|intros].
  apply (sized_bind 2 16); [apply sized_readShort|intros]. apply (sized_bind 16 0); [apply sized_fill|intros].
  apply sized_ret.
Qed.

Lemma advance_consumed s s' :
  in_width 64 (st_off s) -> advanceToNext8ByteBoundary s = (Ok tt, s') ->
  exists pad, consumed s s' pad /\ Zlen pad = pad_to 8 (st_off s).
Proof.
  intros Hs Hrun. unfold advanceToNext8ByteBoundary in Hrun. rewrite (M_bind_ok _ _ _ (st_off s) s) in Hrun by done.
  rewrite CalcAlignmentByteCount_pow2 in Hrun by (done || by apply (bool_decide_unpack (8 ∈ alignments))).
  change ((- st_off s) mod 8) with (pad_to 8 (st_off s)) in Hrun.
  rewrite (M_bind_ok _ _ _ (pad_to 8 (st_off s)) s) in Hrun by done.
  pose proof (pad_to_range 8 (st_off s) ltac:(lia)). set (k := pad_to 8 (st_off s)) in *.
  destruct (Z.eqb_spec k 0) as [Hz|Hz]; cbn [negb] in Hrun.
  - injection Hrun as <-. exists []. split; [by apply consumed_nil|]. by rewrite Hz.
  - unfold readAhead in Hrun. rewrite (proj2 (Z.eqb_neq _ _)), (proj2 (Z.leb_le _ _)) in Hrun by (unfold scratchSize; lia).
    apply M_bind_inv in Hrun as (l & s1 & E & [= <-]). apply FillBuffer_consumed in E as [C L]; [|done].
    exists l. split; [done|]. unfold Zlen. rewrite L. lia.
Qed.

(** ** Headers *)

(** [bs] is laid out as the header [h] was found. *)
Record header_block (h : RpmHeader) (bs : list Z) : Prop := {
  hb_magic : take 3 bs = headerMagic;
  hb_count : (readWord (mkStream (drop 8 bs) 0)).1 = Ok (indexEntryCount h);
  hb_size : (readWord (mkStream (drop 12 bs) 0)).1 = Ok (storeSizeInBytes h);
  hb_entries : length (entries h) = Z.to_nat (indexEntryCount h);
  hb_length : length bs = (16 + 16 * Z.to_nat (indexEntryCount h) + Z.to_nat (storeSizeInBytes h))%nat;
}.

Section Headers.
Context `{Runtime}.

Lemma parseEntries_consumed main n : forall acc s es s',
  in_width 64 (st_off s) -> parseEntries n main acc s = (Ok es, s') ->
  exists bs, consumed s s' bs /\ length bs = (16 * n)%nat /\ length (elems es) = (length (elems acc) + n)%nat.
Proof.
  induction n as [|n IH]; intros acc s es s' Hs Hrun; cbn [parseEntries] in Hrun.
  { injection Hrun as <- <-. exists []. split_and!; [by apply consumed_nil|done|lia]. }
  apply M_bind_inv in Hrun as (e & s1 & E1 & E2).
  assert (sized 16 (parseIndexEntry main)) as Hsz.
  { apply (sized_bind 4 12); [apply sized_readWord|intros]. apply (sized_bind 4 8); [apply sized_readWord|intros].
    apply (sized_bind 4 4); [apply sized_readWord|intros]. apply (sized_bind 4 0); [apply sized_readWord|intros].
    apply sized_ret. }
  destruct (Hsz s e s1 Hs E1) as (b1 & C1 & L1).
  destruct (IH _ s1 es s' (consumed_width _ _ _ C1) E2) as (b2 & C2 & L2 & N2).
  exists (b1 ++ b2). split; [by eapply consumed_trans|]. rewrite length_app. split; [lia|].
  rewrite N2, elems_append, length_app. simpl. lia.
Qed.

Lemma populateAll_length {R} `{ReaderWithOffset R} fuel main start size order : forall es region x (r r' : R),
  populateAll fuel main start size order es region r = (Ok x, r') -> length (elems x.1) = length (elems es).
Proof.
  induction order as [|idx order IH]; intros es region x r r' Hrun; cbn [populateAll] in Hrun.
  { by injection Hrun as <- _. }
  apply M_bind_inv in Hrun as (e & r1 & _ & Hrun). apply M_bind_inv in Hrun as ([e' rg] & r2 & _ & Hrun).
  apply IH in Hrun. rewrite Hrun. simpl. apply length_insert.
Qed.

Lemma parseHeaderBody_consumed main s h s' :
  in_width 64 (st_off s) -> parseHeaderBody main s = (Ok h, s') ->
  exists bs, consumed s s' bs /\ header_block h bs.
Proof.
  intros Hs Hrun. unfold parseHeaderBody, readBytes in Hrun.
  apply M_bind_inv in Hrun as (off & s0 & [= <- <-] & Hrun).
  apply M_bind_inv in Hrun as (magic & s1 & E1 & Hrun). apply FillBuffer_consumed in E1 as [C1 L1]; [|done].
  case_bool_decide as Hmagic; [|done]. cbn [negb] in Hrun. pose proof (consumed_width _ _ _ C1) as W1.
  apply M_bind_inv in Hrun as (ver & s2 & E2 & Hrun). destruct (sized_readByte _ _ _ W1 E2) as (bv & C2 & L2).
  pose proof (consumed_width _ _ _ C2) as W2.
  apply M_bind_inv in Hrun as (res & s3 & E3 & Hrun). apply FillBuffer_consumed in E3 as [C3 L3]; [|done].
  pose proof (consumed_width _ _ _ C3) as W3.
  apply M_bind_inv in Hrun as (cnt & s4 & E4 & Hrun). destruct (readWord_consumed _ _ _ W3 E4) as (wc & C4 & L4 & V4).
  pose proof (consumed_width _ _ _ C4) as W4.
  apply M_bind_inv in Hrun as (size & s5 & E5 & Hrun). destruct (readWord_consumed _ _ _ W4 E5) as (ws & C5 & L5 & V5).
  pose proof (consumed_width _ _ _ C5) as W5.
  apply M_bind_inv in Hrun as (ioff & s6 & [= <- <-] & Hrun).
  apply M_bind_inv in Hrun as (es & s7 & E7 & Hrun).
  destruct (parseEntries_consumed _ _ _ _ _ _ W5 E7) as (bi & C7 & L7 & N7). pose proof (consumed_width _ _ _ C7) as W7.
  apply M_bind_inv in Hrun as (doff & s8 & [= <- <-] & Hrun).
  apply M_bind_inv in Hrun as (store & s9 & E9 & Hrun).
  unfold wrap_err in E9. destruct (FillBuffer (Z.to_nat size) s7) as [[x|x|x|] t] eqn:E9'; try done.
  injection E9 as <- <-. apply FillBuffer_consumed in E9' as [C9 L9]; [|done].
  apply M_bind_inv in Hrun as ([es' region] & s10 & E10 & [= <- <-]).
  unfold run_local, lift in E10. destruct (populateAll _ _ _ _ _ _ _ (NewArrayReader x)) as [o t'] eqn:Ep.
  injection E10 as -> <-. apply populateAll_length in Ep. simpl in Ep, N7.
  exists (magic ++ bv ++ res ++ wc ++ ws ++ bi ++ x). split; [by repeat (eapply consumed_trans; [eassumption|])|].
  split; simpl.
  - rewrite take_app_length' by done. done.
  - replace (magic ++ bv ++ res ++ wc ++ ws ++ bi ++ x) with ((magic ++ bv ++ res) ++ wc ++ (ws ++ bi ++ x))
      by by rewrite <- !app_assoc.
    rewrite drop_app_length' by (rewrite !length_app; lia). apply V4.
  - replace (magic ++ bv ++ res ++ wc ++ ws ++ bi ++ x) with ((magic ++ bv ++ res ++ wc) ++ ws ++ (bi ++ x))
      by by rewrite <- !app_assoc.
    rewrite drop_app_length' by (rewrite !length_app; lia). apply V5.
  - change (length (elems es') = Z.to_nat cnt). by rewrite Ep, N7.
  - rewrite !length_app. lia.
Qed.
End Headers.
