(* ===== verification/FileTheorems.v ===== *)
(** The theorems about RPM files ([src/common/rpmparser.go]): the round trip of a
    file through [RpmFile.Write] and [ParseRPM], what a successful [ParseRPM]
    guarantees, and that it does not depend on how the reader delivers the bytes. *)
From S2P Require Import Prelude Utils Bitmap DynArray Serializer Tags Header Layout HeaderSpec HeaderOps.
From S2P Require Import Allocation Payload HeaderCodec Codec HeaderRoundtrip RpmFile FileRoundtrip Extent.

Section Files.
Context `{Runtime} `{Hashes}.

(** ** Files the validation accepts *)

(** The digest an entry of a signature header holds in hexadecimal. *)
Definition holds_digest (e : IndexEntry) (d : list Z) : Prop :=
  exists s, StringValue e = Ok s /\ DecodeString s = Some d.

Record digests_match (sig : RpmHeader) (main_bytes : list Z) : Prop := {
  dm_sha1 e : find_entry SigTagSHA1Header sig = Some e -> holds_digest e (sha1 main_bytes);
  dm_sha256 e : find_entry SigTagSHA256Header sig = Some e -> holds_digest e (sha256 main_bytes);
  dm_some : is_Some (find_entry SigTagMD5 sig) \/ is_Some (find_entry SigTagSigMD5 sig) \/
            is_Some (find_entry SigTagSHA1Header sig) \/ is_Some (find_entry SigTagSHA256Header sig);
}.

(** The entry that announces the size of the main header and the payload. *)
Definition size_entry (sig : RpmHeader) : option IndexEntry :=
  match find_entry SigTagSigSize sig with Some e => Some e | None => find_entry SigTagSize sig end.

Record file_valid (f : RpmFile) : Prop := {
  fv_lead : lead_ok (Lead f);
  fv_sig : writable false (SignatureHeader f);
  fv_main : writable true (MainHeader f);
  fv_type : lead_packageType (Lead f) = 0 \/ lead_packageType (Lead f) = 1;
  fv_version : exists v, GetFileFormatVersion f = Ok v /\ Major v <= 4;
  fv_trailer : is_Some (find_entry SigTagHeaderSignatures (SignatureHeader f));
  fv_size : exists e v, size_entry (SignatureHeader f) = Some e /\ Int32Value e = Ok v;
  fv_digests : digests_match (SignatureHeader f) (header_bytes (MainHeader f));
}.

(** Lookups see the entries only. *)
Lemma find_entry_entries {T} `{TagValue T} (t : T) h k :
  entries h = entries k -> find_entry t h = find_entry t k.
Proof. intros He. unfold find_entry, FindIndexEntry. by rewrite He. Qed.

Lemma validateDigests_ok rpm sig bytes :
  entries (SignatureHeader rpm) = entries sig ->
  (exists r, signedRegion (SignatureHeader rpm) = Some r /\ sr_IndexEntryCount r = Zlen (entries sig)) ->
  (exists v, GetFileFormatVersion rpm = Ok v /\ Major v <= 4) ->
  Sha1Digest (MainHeader rpm) = bytes -> Sha256Digest (MainHeader rpm) = bytes ->
  digests_match sig bytes -> validateDigests rpm false = Ok tt.
Proof.
  intros He (r & Hr & Hrc) (v & Hv & Hmaj) Hs1 Hs2 [H1 H256 Hsome].
  unfold validateDigests. rewrite Hr, Hv. simpl.
  destruct (Z.gtb_spec (Major v) 4); [lia|]. rewrite He, Hrc, Z.eqb_refl. cbn [negb].
  rewrite !(find_entry_entries _ _ _ He).
  assert (forall e d msg, (forall x, e = Some x -> holds_digest x d) ->
    exists hv, hexValue e msg = Ok hv /\ (is_Some e -> hv = d)) as Hhex.
  { intros [e|] d msg Hd; [|exists []; split; [done|by intros []]].
    destruct (Hd e eq_refl) as (s & Hs & Hdec). exists d. split; [|done].
    unfold hexValue. rewrite Hs. simpl. by rewrite Hdec. }
  destruct (Hhex (find_entry SigTagSHA1Header sig) (sha1 bytes) "Failed to hex-decode SHA1 hash?" H1) as (h1 & -> & E1).
  destruct (Hhex (find_entry SigTagSHA256Header sig) (sha256 bytes) "Failed to hex-decode SHA256 hash?" H256) as (h2 & E & E2).
  simpl. rewrite E. simpl. clear E.
  assert (forall e hv d msg, (is_Some e -> hv = d) -> check_digest e true hv d msg = Ok tt) as Hchk.
  { intros e hv d msg Hd. unfold check_digest. destruct e as [e|]; [|done].
    rewrite Hd by done. rewrite (bool_decide_eq_true_2 (d = d)) by done. cbn [negb]. by rewrite andb_false_r. }
  assert (forall e x y msg, check_digest e false x y msg = Ok tt) as Hoff.
  { intros e x y msg. unfold check_digest. by rewrite andb_false_r. }
  rewrite Hoff. simpl.
  unfold GetSha1Digest, GetSha256Digest. rewrite Hs1, Hs2, !Hchk by done. simpl.
  destruct (find_entry SigTagMD5 sig), (find_entry SigTagSigMD5 sig), (find_entry SigTagSHA1Header sig),
    (find_entry SigTagSHA256Header sig); try done.
  by destruct Hsome as [[? [=]]|[[? [=]]|[[? [=]]|[? [=]]]]].
Qed.

Lemma parsed_region_trailer off h :
  IsMainHeader h = false -> is_Some (find_entry SigTagHeaderSignatures h) ->
  exists r, parsed_region off h = Some r /\ sr_IndexEntryCount r = Zlen (entries h).
Proof.
  intros Hm [e He]. unfold find_entry, FindIndexEntry in He.
  apply bind_Some in He as (i & Hi & He). destruct (find_tag_lookup _ _ _ Hi) as (e' & He' & Ht & _).
  simplify_eq. unfold parsed_region.
  replace (existsb _ _) with true; [by eexists|]. symmetry. apply existsb_exists. exists e.
  split; [apply list_elem_of_In; by eapply list_elem_of_lookup_2|].
  unfold is_trailer. rewrite Hm, Ht. done.
Qed.

Section Extents.
Context {R : Type} `{LawfulReader R}.

(** *** Where the parts of a file are *)

Lemma refines_parseSignatureHeader : refines (R:=R) (parseHeader false) (parseHeader false).
Proof.
  apply refines_bind; [apply refines_parseHeaderBody|]. intros hdr.
  apply refines_bind; [apply refines_advance|]. intros. apply refines_ret.
Qed.

(** The run of a parser on a reader, seen as a run on what the reader delivers. *)
Lemma refined_run {A} (m : M R A) p (r r' : R) a :
  refines m p -> valid r -> m r = (Ok a, r') -> valid r' /\ in_width 64 (st_off (view r)) /\ p (view r) = (Ok a, view r').
Proof. intros Hm Hr Hrun. destruct (Hm r Hr) as [Hv Hp]. rewrite Hrun in Hv, Hp. split_and!; [done|by apply offset_law|done]. Qed.

Lemma parseLead_extent (r r' : R) lead :
  valid r -> parseLead r = (Ok lead, r') ->
  valid r' /\ exists bs, consumed (view r) (view r') bs /\ length bs = 96%nat /\ take 4 bs = leadMagic.
Proof.
  intros Hr Hrun. destruct (refined_run _ _ _ _ _ refines_parseLead Hr Hrun) as (Hv & Ho & Hs). split; [done|].
  destruct (sized_parseLead (view r) _ _ Ho Hs) as (bs & C & L). exists bs. split_and!; [done..|].
  unfold parseLead, readBytes in Hs. apply M_bind_inv in Hs as (magic & s1 & E1 & Hs).
  apply FillBuffer_consumed in E1 as [C1 L1]; [|done]. case_bool_decide as Hm; [|done].
  pose proof (cs_rest _ _ _ C) as R1. rewrite (cs_rest _ _ _ C1) in R1. rewrite Hm, <- (take_app_length' magic (st_rest s1) 4) by done.
  rewrite R1, take_app_le by lia. done.
Qed.

Lemma pad_to_wrap x : pad_to 8 (u64 x) = pad_to 8 x.
Proof.
  unfold pad_to, wrap. rewrite <- (Z.sub_0_l (x mod _)), <- (Z.sub_0_l x).
  rewrite <- (Zminus_mod_idemp_r 0 (x mod _)), <- (Zminus_mod_idemp_r 0 x). do 2 f_equal.
  apply Z.mod_mod_divide. by exists (2 ^ 61).
Qed.

Lemma parseSignatureHeader_extent (r r' : R) h :
  valid r -> parseHeader false r = (Ok h, r') ->
  valid r' /\ exists bs pad, rest r = bs ++ pad ++ rest r' /\ header_block h bs /\
    Zlen pad = pad_to 8 (Offset r + Zlen bs).
Proof.
  intros Hr Hrun. destruct (refined_run _ _ _ _ _ refines_parseSignatureHeader Hr Hrun) as (Hv & Ho & Hs). split; [done|].
  unfold parseHeader, parseSignatureHeader in Hs. apply M_bind_inv in Hs as (h1 & s1 & E1 & Hs).
  apply M_bind_inv in Hs as ([] & s2 & E2 & [= -> ->]).
  destruct (parseHeaderBody_consumed false (view r) h s1 Ho E1) as (bs & C1 & Hb).
  destruct (advance_consumed s1 _ (consumed_width _ _ _ C1) E2) as (pad & C2 & Hp). exists bs, pad. split_and!; [|done|].
  - pose proof (cs_rest _ _ _ (consumed_trans _ _ _ _ _ C1 C2)) as Hrest. rewrite <- app_assoc in Hrest. exact Hrest.
  - by rewrite Hp, (cs_off _ _ _ C1), pad_to_wrap.
Qed.

(** What the main header hashes are the bytes of one header, from its magic number to
    the end of its data store. *)
Lemma parseMainHeader_extent (r r' : R) h :
  valid r -> parseHeader true r = (Ok h, r') ->
  valid r' /\ rest r = Sha256Digest h ++ rest r' /\ header_block h (Sha256Digest h) /\
  Sha1Digest h = Sha256Digest h /\ Md5Digest h = Sha256Digest h.
Proof.
  intros Hr Hrun. destruct (parseMainHeader_hashes r r' h Hr Hrun) as (Hv & Hrest & D1 & D5). split_and!; [done..| |done|done].
  set (d := NewDigestReaderImpl (NewDigestReaderImpl (NewDigestReaderImpl r []) []) []).
  destruct (refines_parseHeaderBody true d) as [_ Hd]; [exact Hr|].
  unfold parseHeader, parseMainHeader in Hrun. fold d in Hrun.
  destruct (parseHeaderBody true d) as [[h0|e|p|] d'] eqn:E; simplify_eq.
  destruct (parseHeaderBody_consumed true (view d) h0 (view d')) as (bs & C & Hb); [by apply (offset_law (R:=R))|exact Hd|].
  pose proof (cs_rest _ _ _ C) as Hbs. change (rest r = bs ++ rest (source (source (source d')))) in Hbs.
  rewrite Hrest in Hbs. apply app_inv_tail in Hbs. simpl in Hbs |- *. rewrite Hbs. destruct Hb. by split.
Qed.

Lemma readAheadLoop_extent fuel : forall rem c (r r' : R) k,
  valid r -> 0 <= rem < 2 ^ 32 -> 0 < c -> readAheadLoop fuel rem c r = (Ok k, r') ->
  exists bs, rest r = bs ++ rest r' /\ Zlen bs = rem - k /\ 0 <= k.
Proof.
  induction fuel as [|fuel IH]; intros rem c r r' k Hr Hrem Hc Hrun; [done|]. cbn [readAheadLoop] in Hrun.
  destruct (Z.gtb_spec rem 0) as [Hpos|]; [|injection Hrun as <- <-; exists []; split_and!; [done|zlen|lia]].
  set (c' := if rem <? c then rem else c) in Hrun.
  assert (0 < c' <= rem) as Hc' by (unfold c'; destruct (Z.ltb_spec rem c); lia). clearbody c'.
  unfold mbind, M_bind, read_ in Hrun.
  destruct (read_law (Z.to_nat c') r Hr) as (bs & err & r1 & Hrd & Hv & Hrest & Hl & _). rewrite Hrd in Hrun.
  assert (0 <= Zlen bs <= c') as Hbs by (unfold Zlen; lia).
  rewrite (wrap_small 32 (rem - Zlen bs)) in Hrun by (unfold in_width; lia).
  assert ((if Zlen bs <? c' then mret (rem - Zlen bs) else readAheadLoop fuel (rem - Zlen bs) c') r1 = (Ok k, r')) as Hnext
    by by destruct err as [[]|]. clear Hrun.
  destruct (Zlen bs <? c').
  - injection Hnext as <- <-. exists bs. split_and!; [done|lia..].
  - destruct (IH (rem - Zlen bs) c' r1 r' k Hv ltac:(lia) ltac:(lia) Hnext) as (b2 & R2 & L2 & Hk). exists (bs ++ b2).
    rewrite Hrest, R2, app_assoc, Zlen_app. split_and!; [done|lia..].
Qed.

Lemma readAhead_extent n (r r' : R) :
  valid r -> 0 <= n < 2 ^ 32 -> readAhead n r = (Ok tt, r') -> exists bs, rest r = bs ++ rest r' /\ Zlen bs = n.
Proof.
  intros Hr Hn Hrun. unfold readAhead in Hrun. destruct (Z.eqb_spec n 0) as [->|Hz].
  { injection Hrun as <-. by exists []. }
  destruct (Z.leb_spec n scratchSize).
  - apply M_bind_inv in Hrun as (l & r1 & E & [= <-]).
    destruct (refined_run _ _ _ _ _ (refines_fill (Z.to_nat n)) Hr E) as (_ & Ho & Hs).
    apply FillBuffer_consumed in Hs as [C L]; [|done]. exists l. split; [exact (cs_rest _ _ _ C)|]. unfold Zlen. rewrite L. lia.
  - apply M_bind_inv in Hrun as (k & r1 & E & Hrun).
    destruct (readAheadLoop_extent _ n scratchSize r r1 k Hr Hn eq_refl E) as (bs & Hrest & Hl & Hk).
    destruct (Z.gtb_spec k 0); [done|]. injection Hrun as <-. exists bs. split; [done|lia].
Qed.

End Extents.

Section Payload.
Context {R : Type} `{LawfulReader R}.

(** [d] has hashed [hashed] and what [r] delivered since. *)
Definition hashed_since (hashed : list Z) (r : R) (d : DigestReaderImpl R) : Prop :=
  valid (source d) /\ exists bs, digest d = hashed ++ bs /\ rest r = bs ++ rest (source d).

Lemma hashed_since_maintained hashed r n d :
  hashed_since hashed r d -> hashed_since hashed r (Read n d).2.
Proof.
  destruct d as [r1 h]. intros [Hv (bs & Hd & Hr)]. simpl in *. unfold DigestReaderImpl_Read. simpl.
  destruct (read_law n r1 Hv) as (bs1 & err & r2 & -> & Hv2 & Hr1 & _). split; [done|].
  exists (bs ++ bs1). simpl. by rewrite Hd, Hr, Hr1, <- !app_assoc.
Qed.

Lemma readPayload_hashes size hashed (r r' : R) d :
  valid r -> readPayload (u32 size) hashed r = (Ok d, r') ->
  valid r' /\ exists pay, d = hashed ++ pay /\ rest r = pay ++ rest r' /\ Zlen pay = u32 size.
Proof.
  intros Hr. unfold readPayload.
  set (d0 := NewDigestReaderImpl r hashed).
  pose proof (maintains_readAhead (hashed_since hashed r) (hashed_since_maintained hashed r) (u32 size) d0) as Hmt.
  pose proof (readAhead_extent (R:=DigestReaderImpl R) (u32 size) d0) as Hext.
  destruct (readAhead (u32 size) d0) as [[[]|e|p|] d']; intros [= <- <-].
  destruct Hmt as (Hv & bs & Hd & Hrest); [split; [done|exists []; by rewrite app_nil_r]|]. split; [done|].
  exists bs. split_and!; [done..|]. destruct (Hext d' Hr (wrap_range 32 size ltac:(lia)) eq_refl) as (bs' & Hrest' & Hl).
  change (rest r = bs' ++ rest (source d')) in Hrest'. simpl in Hrest. rewrite Hrest in Hrest'.
  apply app_inv_tail in Hrest' as ->. done.
Qed.

End Payload.

(** *** Readers that fill the buffer they are given, if they can *)

Definition eager (R : Type) `{LawfulReader R} : Prop :=
  forall n (r : R), valid r -> length (Read n r).1.1 = Nat.min n (length (rest r)).

Lemma eager_stream : eager stream.
Proof. intros n r Hr. simpl. apply length_take. Qed.

Lemma eager_array : eager arrayReader.
Proof.
  intros n [l o] Hr. simpl in *. unfold arrayReader_Read. simpl. destruct (Nat.eqb_spec n 0) as [->|]; [done|]. simpl.
  rewrite length_take, !length_drop. destruct (Nat.ltb_spec (length l - o) n); lia.
Qed.

Lemma eager_digest {R} `{LawfulReader R} : eager R -> eager (DigestReaderImpl R).
Proof.
  intros He n [r h] Hr. specialize (He n r Hr). simpl. unfold DigestReaderImpl_Read. simpl.
  by destruct (Read n r) as [[bs err] r'].
Qed.

Section Eager.
Context {R : Type} `{LawfulReader R} (He : eager R).

Lemma refines_readAheadLoop fuel : forall rem c,
  refines (R:=R) (readAheadLoop fuel rem c) (readAheadLoop fuel rem c).
Proof.
  induction fuel as [|fuel IH]; intros rem c; cbn [readAheadLoop]; [apply refines_lift|].
  destruct (rem >? 0); [|apply refines_ret]. set (c' := if rem <? c then rem else c). clearbody c'.
  intros r Hr. specialize (He (Z.to_nat c') r Hr) as Hl.
  destruct (read_law (Z.to_nat c') r Hr) as (bs & err & r' & Hrd & Hv & Hrest & _ & Hoff & Herr).
  rewrite Hrd in Hl. simpl in Hl.
  assert (bs = take (Z.to_nat c') (rest r)) as Hbs.
  { rewrite Hrest in Hl |- *. rewrite length_app in Hl. rewrite take_app. destruct (decide (length bs = Z.to_nat c')) as [E|E].
    - by rewrite <- E, firstn_all, Nat.sub_diag, take_0, app_nil_r.
    - assert (rest r' = []) as -> by (destruct (rest r'); [done|simpl in Hl; lia]). rewrite take_ge, take_nil by lia. by rewrite app_nil_r. }
  assert (rest r' = drop (Z.to_nat c') (rest r)) as Hd.
  { apply (app_inv_head bs). rewrite <- Hrest, Hbs. symmetry. apply take_drop. }
  unfold mbind, M_bind. rewrite read_stream. unfold read_. rewrite Hrd. change (st_rest (view r)) with (rest r).
  rewrite <- Hbs, <- Hd. change (st_off (view r)) with (Offset r). rewrite <- Hoff. fold (view r').
  set (next := fun S (_ : ReaderWithOffset S) => if Zlen bs <? c' then mret (u32 (rem - Zlen bs))
    else readAheadLoop fuel (u32 (rem - Zlen bs)) c' : M S Z).
  assert (refines (R:=R) (next R _) (next stream _)) as Hnext
    by (unfold next; destruct (Zlen bs <? c'); [apply refines_ret|apply IH]).
  destruct (Hnext r' Hv) as [Hv2 Hrun].
  destruct Herr as [[-> _]|[-> _]]; destruct (length (rest r) <? Z.to_nat c')%nat; exact (conj Hv2 Hrun).
Qed.

Lemma refines_readAhead n : refines (R:=R) (readAhead n) (readAhead n).
Proof.
  unfold readAhead. destruct (n =? 0); [apply refines_ret|]. destruct (n <=? scratchSize).
  - apply refines_bind; [apply refines_fill|]. intros. apply refines_ret.
  - apply refines_bind; [apply refines_readAheadLoop|]. intros k. destruct (k >? 0); [apply refines_lift|apply refines_ret].
Qed.
End Eager.

Section OnReader.
Context {R : Type} `{LawfulReader R}.

Lemma ParseRPM_run f payload (r : R) :
  file_valid f -> valid r -> Offset r = 0 -> rest r = file_bytes f ++ payload ->
  exists f' r', ParseRPM false r = (Ok f', r') /\ valid r' /\ rest r' = payload /\
    Lead f' = Lead f /\ entries (SignatureHeader f') = entries (SignatureHeader f) /\
    entries (MainHeader f') = entries (MainHeader f) /\
    SignatureHeader f' = parsed_header 96 (SignatureHeader f) /\
    (exists off, MainHeader f' = with_digests (header_bytes (MainHeader f)) (parsed_header off (MainHeader f))) /\
    PayloadStartOffset f' = Zlen (file_bytes f).
Proof.
  intros [Hl Hs Hm Ht Hver Htr (se & sv & Hse & Hsv) Hd] Hr Ho Hrest.
  unfold file_bytes in Hrest. rewrite <- !app_assoc in Hrest.
  destruct (decodes_refines parseLead parseLead (lead_bytes (Lead f)) (Lead f) r _ refines_parseLead
    (decodes_lead (Lead f) (Offset r) Hl) Hr Hrest) as (r1 & E1 & V1 & R1 & O1).
  assert (Zlen (lead_bytes (Lead f)) = 96) as H96 by (unfold Zlen; by rewrite length_lead_bytes).
  rewrite Ho, H96 in O1. change (u64 (0 + 96)) with 96 in O1.
  rewrite app_assoc in R1.
  pose proof (Zlen_header_bytes (SignatureHeader f)) as Hls. rewrite (wr_main _ _ Hs) in Hls. specialize (Hls Hs).
  pose proof (Zlen_header_bytes (MainHeader f)) as Hlm. rewrite (wr_main _ _ Hm) in Hlm. specialize (Hlm Hm).
  pose proof (pad_to_range 8 (96 + Zlen (header_bytes (SignatureHeader f)))) as Hpr.
  set (pad := zeros _) in *.
  assert (Zlen pad = pad_to 8 (Offset r1 + Zlen (header_bytes (SignatureHeader f)))) as Hpad.
  { unfold pad. rewrite O1, Zlen_zeros, Z2Nat.id by (apply Hpr; lia). done. }
  destruct (parseSignatureHeader_run (SignatureHeader f) pad _ r1 (wr_wf _ _ Hs) (wr_packed _ _ Hs) (wr_fits _ _ Hs)
    (wr_codec _ _ Hs) (wr_main _ _ Hs) V1 Hpad R1)
    as (r2 & E2 & V2 & R2 & O2).
  rewrite O1 in E2, O2, Hpad. rewrite Zlen_app, Hpad, wrap_small in O2 by (unfold in_width; lia).
  destruct (parseMainHeader_run (MainHeader f) payload r2 (wr_wf _ _ Hm) (wr_packed _ _ Hm) (wr_fits _ _ Hm)
    (wr_codec _ _ Hm) (wr_main _ _ Hm) V2 R2) as (r3 & E3 & V3 & R3 & O3).
  set (sig := parsed_header 96 (SignatureHeader f)) in *. set (mainh := with_digests _ _) in *.
  assert (entries sig = entries (SignatureHeader f)) as Hes by done.
  assert (entries mainh = entries (MainHeader f)) as Hem by done.
  unfold ParseRPM. rewrite (M_bind_ok _ _ _ _ _ E1), (M_bind_ok _ _ _ _ _ E2), (M_bind_ok _ _ _ _ _ E3).
  rewrite (M_bind_ok _ _ _ se r3).
  2:{ unfold lift. unfold size_entry in Hse. rewrite !(find_entry_entries _ _ _ Hes).
      destruct (find_entry SigTagSigSize (SignatureHeader f)); [by injection Hse as ->|by rewrite Hse]. }
  rewrite (M_bind_ok _ _ _ (Offset r3) r3) by done.
  rewrite (M_bind_ok _ _ _ sv r3) by (unfold lift; by rewrite Hsv). cbv zeta.
  set (f' := mkRpmFile (Lead f) sig mainh _ _). erewrite (M_bind_ok _ _ _ f' r3) by done.
  assert (validate f' false = Ok tt) as Hval.
  { unfold validate, GetPackageType. simpl Lead.
    assert (validateDigests f' false = Ok tt) as Hvd.
    { apply (validateDigests_ok f' (SignatureHeader f) (header_bytes (MainHeader f))); try done.
      apply parsed_region_trailer; [exact (wr_main _ _ Hs)|exact Htr]. }
    destruct Ht as [-> | ->]; simpl; exact Hvd. }
  rewrite (M_bind_ok _ _ _ tt r3) by (unfold lift; by rewrite Hval).
  exists f', r3. split_and!; try done; [by eexists|]. simpl. rewrite O3, O2. unfold file_bytes.
  fold pad. rewrite !Zlen_app, Hpad, H96, wrap_small by (unfold in_width; lia). lia.
Qed.

(** ** What a successful parse says about the input *)

Lemma maintains_parseLead (I : R -> Prop) :
  (forall n r, I r -> I (Read n r).2) -> maintains I parseLead.
Proof.
  intros HI. unfold parseLead, readBytes.
  apply maintains_bind; [by apply maintains_fill|]. intros magic. case_match; [apply maintains_lift|].
  repeat (apply maintains_bind;
    [first [by apply maintains_fill|by apply maintains_readByte|by apply maintains_readShort]|intros]).
  apply maintains_ret.
Qed.

Lemma maintains_parseSignatureHeader (I : R -> Prop) :
  (forall n r, I r -> I (Read n r).2) -> maintains I (parseHeader false).
Proof.
  intros HI. unfold parseHeader, parseSignatureHeader.
  apply maintains_bind; [by apply maintains_parseHeaderBody|]. intros hdr.
  apply maintains_bind; [by apply maintains_advance|]. intros. apply maintains_ret.
Qed.

Lemma check_digest_ok e b expected actual msg :
  check_digest e b expected actual msg = Ok tt -> is_Some e -> b = true -> expected = actual.
Proof.
  unfold check_digest. intros Hc He ->. rewrite bool_decide_eq_true_2 in Hc by done. simpl in Hc.
  destruct (decide (expected = actual)) as [|Hne]; [done|]. by rewrite bool_decide_eq_false_2 in Hc.
Qed.

Lemma hexValue_ok e msg v : hexValue (Some e) msg = Ok v -> holds_digest e v.
Proof.
  unfold hexValue. intros (s & Hs & Hd)%outcome_bind_Ok. exists s. split; [done|].
  destruct (DecodeString s); [by simplify_eq|done].
Qed.

(** What [validateDigests] has checked. *)
Record digests_checked (f : RpmFile) (payload_checked : bool) : Prop := {
  dc_sha256 e : find_entry SigTagSHA256Header (SignatureHeader f) = Some e ->
    holds_digest e (sha256 (Sha256Digest (MainHeader f)));
  dc_sha1 e : find_entry SigTagSHA1Header (SignatureHeader f) = Some e ->
    holds_digest e (sha1 (Sha1Digest (MainHeader f)));
  dc_md5 e : payload_checked = true ->
    match find_entry SigTagMD5 (SignatureHeader f) with
    | Some e => Some e | None => find_entry SigTagSigMD5 (SignatureHeader f)
    end = Some e -> ie_payload e = md5 (Md5Digest (MainHeader f));
  dc_some : is_Some (find_entry SigTagMD5 (SignatureHeader f)) \/
    is_Some (find_entry SigTagSigMD5 (SignatureHeader f)) \/
    is_Some (find_entry SigTagSHA1Header (SignatureHeader f)) \/
    is_Some (find_entry SigTagSHA256Header (SignatureHeader f));
  dc_region : exists r, signedRegion (SignatureHeader f) = Some r /\
    sr_IndexEntryCount r = Zlen (entries (SignatureHeader f));
  dc_version : exists v, GetFileFormatVersion f = Ok v /\ Major v <= 4;
}.

Lemma validateDigests_checked f b : validateDigests f b = Ok tt -> digests_checked f b.
Proof.
  unfold validateDigests. destruct (signedRegion (SignatureHeader f)) as [region|] eqn:Er; [|done].
  intros (v & Hv & Hk)%outcome_bind_Ok.
  destruct (Z.gtb_spec (Major v) 4); [done|].
  destruct (Z.eqb_spec (Zlen (entries (SignatureHeader f))) (sr_IndexEntryCount region)) as [Hn|]; [|done].
  cbn [negb] in Hk. apply outcome_bind_Ok in Hk as (h1 & Hh1 & Hk).
  apply outcome_bind_Ok in Hk as (h2 & Hh2 & Hk). apply outcome_bind_Ok in Hk as ([] & Hc1 & Hk).
  apply outcome_bind_Ok in Hk as ([] & Hc2 & Hk). apply outcome_bind_Ok in Hk as ([] & Hc3 & Hk).
  constructor.
  - intros e He. rewrite He in Hh2, Hc3. apply hexValue_ok in Hh2.
    apply check_digest_ok in Hc3; [|done|done]. unfold GetSha256Digest in Hc3. by rewrite <- Hc3.
  - intros e He. rewrite He in Hh1, Hc2. apply hexValue_ok in Hh1.
    apply check_digest_ok in Hc2; [|done|done]. unfold GetSha1Digest in Hc2. by rewrite <- Hc2.
  - intros e Hb He. rewrite He in Hc1. by apply check_digest_ok in Hc1.
  - destruct (find_entry SigTagMD5 (SignatureHeader f)); [by left; eexists|].
    destruct (find_entry SigTagSigMD5 (SignatureHeader f)); [by right; left; eexists|].
    destruct (find_entry SigTagSHA1Header (SignatureHeader f)); [by do 2 right; left; eexists|].
    destruct (find_entry SigTagSHA256Header (SignatureHeader f)); [by do 3 right; eexists|done].
  - by exists region.
  - exists v. split; [done|lia].
Qed.

Lemma ParseRPM_ok b f (r r' : R) :
  valid r -> ParseRPM b r = (Ok f, r') ->
  exists lead sig pad pay,
    rest r = lead ++ sig ++ pad ++ Sha256Digest (MainHeader f) ++ pay ++ rest r' /\
    length lead = 96%nat /\ take 4 lead = leadMagic /\ header_block (SignatureHeader f) sig /\
    Zlen pad = pad_to 8 (Offset r + 96 + Zlen sig) /\ header_block (MainHeader f) (Sha256Digest (MainHeader f)) /\
    Sha1Digest (MainHeader f) = Sha256Digest (MainHeader f) /\
    Md5Digest (MainHeader f) = Sha256Digest (MainHeader f) ++ pay /\
    (if b then Zlen pay = u32 (CompressedPayloadSize f) else pay = []) /\ digests_checked f b.
Proof.
  intros Hr Hrun. unfold ParseRPM in Hrun.
  apply M_bind_inv in Hrun as (lead & r1 & E1 & Hrun). destruct (parseLead_extent r r1 lead Hr E1) as (V1 & bl & C1 & L1 & M1).
  apply M_bind_inv in Hrun as (sig & r2 & E2 & Hrun).
  destruct (parseSignatureHeader_extent r1 r2 sig V1 E2) as (V2 & bs & pad & R2 & B2 & P2).
  apply M_bind_inv in Hrun as (mainh & r3 & E3 & Hrun).
  destruct (parseMainHeader_extent r2 r3 mainh V2 E3) as (V3 & R3 & B3 & Hs1 & Hm5).
  apply M_bind_inv in Hrun as (se & r4 & E4 & Hrun). injection E4 as _ <-.
  apply M_bind_inv in Hrun as (off & r5 & E5 & Hrun). injection E5 as _ <-.
  apply M_bind_inv in Hrun as (sv & r6 & E6 & Hrun). injection E6 as _ <-.
  apply M_bind_inv in Hrun as (rpm & r7 & E7 & Hrun).
  apply M_bind_inv in Hrun as ([] & r8 & E8 & Hrun). injection E8 as Hval <-.
  injection Hrun as -> ->. unfold validate in Hval. apply outcome_bind_Ok in Hval as (pt & _ & Hval).
  apply validateDigests_checked in Hval. exists bl, bs, pad.
  assert (rest r = bl ++ bs ++ pad ++ Sha256Digest mainh ++ rest r3) as Hall.
  { rewrite <- R3, <- R2. exact (cs_rest _ _ _ C1). }
  assert (Zlen pad = pad_to 8 (Offset r + 96 + Zlen bs)) as Hpad.
  { pose proof (cs_off _ _ _ C1) as O1. change (Offset r1 = u64 (Offset r + Zlen bl)) in O1.
    assert (Zlen bl = 96) as E96 by (unfold Zlen; by rewrite L1).
    by rewrite P2, O1, E96, <- pad_to_wrap, wrap_add_l, pad_to_wrap by lia. }
  destruct b.
  - apply M_bind_inv in E7 as (hashed & r9 & E9 & E7). injection E7 as <- <-.
    destruct (readPayload_hashes _ _ _ _ _ V3 E9) as (_ & pay & Hd & Hp & Hn). exists pay.
    simpl in *. destruct B3. split_and!; try done; [by rewrite Hall, Hp|by rewrite Hd, Hm5].
  - injection E7 as <- <-. exists []. simpl in *. rewrite app_nil_r. by split_and!.
Qed.

(** ** Independence of the reader *)

Lemma refines_parseMainHeader : refines (R:=R) (parseHeader true) (parseHeader true).
Proof.
  intros r Hr.
  set (d := NewDigestReaderImpl (NewDigestReaderImpl (NewDigestReaderImpl r []) []) []).
  set (s := NewDigestReaderImpl (NewDigestReaderImpl (NewDigestReaderImpl (view r) []) []) []).
  assert (valid (view r)) as Hs by (simpl; by apply offset_law).
  assert (valid d) as Hd0 by exact Hr. assert (valid s) as Hs0 by exact Hs.
  destruct (refines_parseHeaderBody true d Hd0) as [Hvd Hd].
  destruct (refines_parseHeaderBody true s Hs0) as [Hvs Hss].
  change (view s) with (view d) in Hss. rewrite Hd in Hss. injection Hss as Ho Hrest Hoff.
  pose proof (maintains_parseHeaderBody (hashing (rest r)) (hashing_maintained (rest r)) true d) as Hmd.
  pose proof (maintains_parseHeaderBody (hashing (rest r)) (hashing_maintained (R:=stream) (rest r)) true s) as Hms.
  unfold parseHeader, parseMainHeader. fold d. fold s.
  destruct (parseHeaderBody true d) as [o d'], (parseHeaderBody true s) as [o' s']. simpl in *. subst o'.
  destruct Hmd as ((_ & Ad) & Ed1 & Ed2); [done|]. destruct Hms as ((_ & As) & Es1 & Es2); [done|].
  assert (digest d' = digest s') as Heq.
  { apply (app_inv_tail (rest (source (source (source d'))))). rewrite Hrest at 2.
    transitivity (rest r); [exact Ad|symmetry; exact As]. }
  split; [by destruct o|]. rewrite Ed1, Ed2, Es1, Es2, Heq. unfold view. rewrite Hrest, Hoff.
  assert (mkStream (st_rest (source (source (source s')))) (st_off (source (source (source s')))) =
    source (source (source s'))) as -> by (by destruct (source (source (source s')))).
  by destruct o.
Qed.

Lemma refines_readPayload size hashed :
  eager R -> refines (R:=R) (readPayload (u32 size) hashed) (readPayload (u32 size) hashed).
Proof.
  intros He r Hr. set (d := NewDigestReaderImpl r hashed). set (s := NewDigestReaderImpl (view r) hashed).
  assert (valid s) as Hs by (simpl; by apply offset_law).
  destruct (refines_readAhead (R:=DigestReaderImpl R) (eager_digest He) (u32 size) d Hr) as [Hvd Hd].
  destruct (refines_readAhead (R:=DigestReaderImpl stream) (eager_digest eager_stream) (u32 size) s Hs) as [Hvs Hss].
  change (view s) with (view d) in Hss. rewrite Hd in Hss. injection Hss as Ho Hrest Hoff.
  pose proof (maintains_readAhead (hashed_since hashed r) (hashed_since_maintained hashed r) (u32 size) d) as Hmd.
  pose proof (maintains_readAhead (hashed_since (R:=stream) hashed (view r)) (hashed_since_maintained (R:=stream) hashed (view r))
    (u32 size) s) as Hms.
  destruct Hmd as (_ & bd & Ed & Rd); [split; [done|exists []; by rewrite app_nil_r]|].
  destruct Hms as (_ & bs & Es & Rs); [split; [done|exists []; by rewrite app_nil_r]|].
  unfold readPayload. fold d. fold s.
  destruct (readAhead (u32 size) d) as [o d'], (readAhead (u32 size) s) as [o' s']. simpl in *. subst o'.
  assert (bd = bs) as ->.
  { apply (app_inv_tail (rest (source d'))). rewrite Hrest at 2. transitivity (rest r); [by symmetry|exact Rs]. }
  assert (view (source d') = source s') as Hv.
  { unfold view. rewrite Hrest, Hoff. by destruct (source s'). }
  split; [by destruct o|]. rewrite <- Hv, Ed, Es. by destruct o.
Qed.

Lemma refines_ParseRPM_when b : (b = true -> eager R) -> refines (R:=R) (ParseRPM b) (ParseRPM b).
Proof.
  intros He. unfold ParseRPM. apply refines_bind; [apply refines_parseLead|]. intros lead.
  apply refines_bind; [apply refines_parseSignatureHeader|].
  intros sig. apply refines_bind; [apply refines_parseMainHeader|]. intros mainh.
  apply refines_bind; [apply refines_lift|]. intros se.
  apply refines_bind; [apply refines_offset|]. intros off.
  apply refines_bind; [apply refines_lift|]. intros size. cbv zeta.
  apply refines_bind.
  { destruct b; [|apply refines_ret]. apply refines_bind; [by apply refines_readPayload, He|]. intros. apply refines_ret. }
  intros rpm. apply refines_bind; [apply refines_lift|]. intros. apply refines_ret.
Qed.

Lemma refines_ParseRPM : refines (R:=R) (ParseRPM false) (ParseRPM false).
Proof. by apply refines_ParseRPM_when. Qed.
End OnReader.
End Files.

(** ** Properties *)

(** C4. What [RpmFile.Write] emits for a valid file, [ParseRPM] reads back, on
    every writer that does not fail and every reader, however it cuts the bytes
    into pieces: the same lead, the same entries of both headers at the same
    offsets, the region of the signature header, the bytes of the main header as
    input of its digests, and the payload left unread where the file says. *)
Theorem file_roundtrip `{Runtime} `{Hashes} {W P R} `{LawfulWriter W} `{LawfulReader P} `{LawfulReader R}
    fuel f (w : W) (p : P) :
  file_valid f -> wvalid w -> valid p -> (length (rest p) + 1 < fuel)%nat ->
  exists w' p', WriteRPM fuel f (w, p) = (Ok tt, (w', p')) /\
    forall r : R, valid r -> Offset r = 0 -> written w' = written w ++ rest r ->
    exists f' r', ParseRPM false r = (Ok f', r') /\ rest r' = rest p /\
      Lead f' = Lead f /\ entries (SignatureHeader f') = entries (SignatureHeader f) /\
      entries (MainHeader f') = entries (MainHeader f) /\
      signedRegion (SignatureHeader f') = parsed_region 96 (SignatureHeader f) /\
      Sha256Digest (MainHeader f') = header_bytes (MainHeader f) /\
      PayloadStartOffset f' + Zlen (rest p) = Zlen (rest r).
Proof.
  intros Hf Hw Hp Hfuel.
  destruct (WriteRPM_run fuel f w p (fv_lead _ Hf) (fv_sig _ Hf) (fv_main _ Hf) Hw Hp Hfuel)
    as (w' & p' & Hrun & Hwr).
  exists w', p'. split; [done|]. intros r Hr Ho Hrest. rewrite Hwr in Hrest. apply app_inv_head in Hrest.
  destruct (ParseRPM_run f (rest p) r Hf Hr Ho (eq_sym Hrest))
    as (f' & r' & Hparse & _ & Hrest' & ? & ? & ? & Hs & [off Hm] & Hoff).
  exists f', r'. split_and!; try done; [by rewrite Hs|by rewrite Hm|]. by rewrite Hoff, <- Hrest, Zlen_app.
Qed.

(** C5. A successful [ParseRPM], whatever the input: what was read is a lead of 96
    bytes, a signature header, its padding, the main header and, with validation of the
    payload, as much payload as the file says. A header reaches from its magic number to
    the end of its data store and has the length its own two counters give. The digests
    of the main header are over exactly its bytes, every SHA-1 and SHA-256 entry of the
    signature header holds the digest of those bytes in hexadecimal, with validation the
    MD5 entry holds the digest of main header and payload, at least one digest is there,
    the signed region covers all the entries, and the format version is supported. *)
Theorem ParseRPM_sound `{Runtime} `{Hashes} {R} `{LawfulReader R} b f (r r' : R) :
  valid r -> ParseRPM b r = (Ok f, r') ->
  exists lead sig pad header payload, rest r = lead ++ sig ++ pad ++ header ++ payload ++ rest r' /\
    length lead = 96%nat /\ take 4 lead = leadMagic /\
    header_block (SignatureHeader f) sig /\ Zlen pad = pad_to 8 (Offset r + 96 + Zlen sig) /\
    header_block (MainHeader f) header /\
    (if b then Zlen payload = u32 (CompressedPayloadSize f) else payload = []) /\
    Sha256Digest (MainHeader f) = header /\ Sha1Digest (MainHeader f) = header /\
    Md5Digest (MainHeader f) = header ++ payload /\
    (forall e, find_entry SigTagSHA256Header (SignatureHeader f) = Some e -> holds_digest e (sha256 header)) /\
    (forall e, find_entry SigTagSHA1Header (SignatureHeader f) = Some e -> holds_digest e (sha1 header)) /\
    (forall e, b = true -> find_entry SigTagMD5 (SignatureHeader f) = Some e ->
       ie_payload e = md5 (header ++ payload)) /\
    digests_checked f b.
Proof.
  intros Hr Hrun. destruct (ParseRPM_ok b f r r' Hr Hrun)
    as (lead & sig & pad & pay & Hrest & Hl & Hlm & Hsig & Hpad & Hmain & Hs1 & Hm5 & Hb & Hd).
  exists lead, sig, pad, (Sha256Digest (MainHeader f)), pay. pose proof Hd as [D256 D1 Dm Dsome Dreg Dver].
  split; [done|]. split; [done|]. split; [done|]. split; [done|]. split; [done|]. split; [done|]. split; [done|].
  split; [done|]. split; [done|]. split; [done|]. split; [done|]. split; [|split; [|done]].
  - intros e He. rewrite <- Hs1. by apply D1.
  - intros e Ht He. rewrite <- Hm5. apply Dm; [done|]. by rewrite He.
Qed.

(** C17. The outcome of [ParseRPM] and the input it leaves depend only on the bytes and
    the offset of the reader: without validation of the payload not on how the reader
    delivers the bytes, and with it among the readers that fill the buffer they are given
    as long as they can. For others that does not hold: a payload that comes in
    short reads is rejected as truncated ([readAhead_rejects_short_reads]). *)
Theorem ParseRPM_reader_independent `{Runtime} `{Hashes} {R S} `{LawfulReader R} `{LawfulReader S}
    b (r : R) (s : S) :
  (b = true -> eager R /\ eager S) ->
  valid r -> valid s -> rest r = rest s -> Offset r = Offset s ->
  (ParseRPM b r).1 = (ParseRPM b s).1 /\
  rest (ParseRPM b r).2 = rest (ParseRPM b s).2 /\
  Offset (ParseRPM b r).2 = Offset (ParseRPM b s).2.
Proof.
  intros He Hr Hs Hrest Hoff.
  destruct (refines_ParseRPM_when b (fun Hb => proj1 (He Hb)) r Hr) as [_ Er].
  destruct (refines_ParseRPM_when b (fun Hb => proj2 (He Hb)) s Hs) as [_ Es].
  assert (view r = view s) as Hv by (unfold view; by rewrite Hrest, Hoff).
  rewrite Hv, Es in Er. injection Er as Eo Erest Eoff. done.
Qed.

(** ** Witnesses *)

(** Hash functions of one byte, the sum of the input; SHA-256 also takes its
    length into account. *)
Definition checksums : Hashes := {|
  md5 l := [u8 (foldr Z.add 0 l)];
  sha1 l := [u8 (foldr Z.add 0 l)];
  sha256 l := [u8 (foldr Z.add 0 l); u8 (Zlen l)];
|}.

#[local] Existing Instance checksums.
#[local] Existing Instance doubling.

Definition sample_header_of (main : bool) (es : list IndexEntry) : RpmHeader :=
  (finish (mkHeader headerMagic 1 [0; 0; 0; 0] (Zlen es) 0 main (mkSlice es (length es) 0)
     0 0 0 None [] [] [])).2.

Definition sample_main : RpmHeader := sample_header_of true
  [mkEntry true 1000 6 0 1 [102; 111; 111; 0]; mkEntry true 1009 4 0 1 [0; 0; 1; 44]].

Definition hexDigit (d : Z) : Z := if d <? 10 then 48 + d else 87 + d.
Definition hexString (l : list Z) : list Z :=
  (l ≫= fun b => [hexDigit (Z.shiftr b 4); hexDigit (Z.land b 15)]) ++ [0].

Definition sample_payload : list Z := [10; 20; 30].

Definition sample_signature : RpmHeader := sample_header_of false
  [mkEntry false 62 7 0 16 (trailer_payload 5);
   mkEntry false 269 6 0 1 (hexString (sha1 (header_bytes sample_main)));
   mkEntry false 273 6 0 1 (hexString (sha256 (header_bytes sample_main)));
   mkEntry false 1000 4 0 1 (be32 (Zlen (header_bytes sample_main ++ sample_payload)));
   mkEntry false 1004 7 0 1 (md5 (header_bytes sample_main ++ sample_payload))].

Definition sample_file : RpmFile := mkRpmFile sample_lead sample_signature sample_main 0 0.

(** The sample file, delivered eight bytes at a time. *)
Definition sample_input : IOReaderWithOffset chunkedReader :=
  NewIOReaderWithOffset (mkChunked 7 (file_bytes sample_file ++ sample_payload)).

Definition sample_array : arrayReader := NewArrayReader (file_bytes sample_file ++ sample_payload).

Lemma sample_input_valid : valid sample_input.
Proof. by vm_compute. Qed.

Ltac by_payload ss := first
  [ apply (payload_strings _ _ _ ss); [set_solver|reflexivity|repeat constructor; lia|reflexivity|reflexivity]
  | apply (payload_int _ _ _ 4); [set_solver|reflexivity]
  | apply (payload_int _ _ _ 1); [set_solver|reflexivity] ].

Lemma sample_writable : writable false sample_signature /\ writable true sample_main.
Proof.
  split; constructor; try reflexivity; try (by apply header_wfb_ok);
    constructor; try reflexivity.
  - apply Forall_fold_right. vm_compute fold_right.
    split_and!; [by_payload (@nil (list Z))|by_payload [[56; 101]]|by_payload [[56; 101; 51; 56]]
      |by_payload (@nil (list Z))|by_payload (@nil (list Z))|done].
  - intros e _ He Ht. vm_compute in He.
    repeat (apply elem_of_cons in He as [->|He]; [by vm_compute in Ht |- *|]). by apply not_elem_of_nil in He.
  - apply Forall_fold_right. vm_compute fold_right.
    split_and!; [by_payload [[102; 111; 111]]|by_payload (@nil (list Z))|done].
  - discriminate.
Qed.

Lemma sample_file_valid : file_valid sample_file.
Proof.
  destruct sample_writable as [Hs Hm]. constructor; try first [exact Hs|exact Hm].
  - constructor; by vm_compute.
  - by left.
  - by exists (mkVersion 3 0).
  - by eexists.
  - eexists _, _. by split.
  - constructor.
    + intros e He. vm_compute in He. injection He as <-. by eexists.
    + intros e He. vm_compute in He. injection He as <-. by eexists.
    + right. right. left. by eexists.
Qed.

Lemma file_roundtrip_witness :
  exists w' p', WriteRPM 10 sample_file (NewArrayWriter, NewArrayReader sample_payload) = (Ok tt, (w', p')) /\
    forall r : IOReaderWithOffset chunkedReader, valid r -> Offset r = 0 ->
      written w' = written NewArrayWriter ++ rest r ->
    exists f' r', ParseRPM false r = (Ok f', r') /\ rest r' = rest (NewArrayReader sample_payload) /\
      Lead f' = Lead sample_file /\ entries (SignatureHeader f') = entries (SignatureHeader sample_file) /\
      entries (MainHeader f') = entries (MainHeader sample_file) /\
      signedRegion (SignatureHeader f') = parsed_region 96 (SignatureHeader sample_file) /\
      Sha256Digest (MainHeader f') = header_bytes (MainHeader sample_file) /\
      PayloadStartOffset f' + Zlen (rest (NewArrayReader sample_payload)) = Zlen (rest r).
Proof.
  apply (file_roundtrip (W:=ArrayWriter) (P:=arrayReader) (R:=IOReaderWithOffset chunkedReader)
    10 sample_file NewArrayWriter (NewArrayReader sample_payload));
    [exact sample_file_valid|by vm_compute|apply Nat.leb_le; reflexivity|apply Nat.ltb_lt; reflexivity].
Defined.

(** The parse of the sample file, payload included. *)
Definition sample_parse := ParseRPM true sample_input.
Definition sample_parsed : RpmFile :=
  match sample_parse.1 with Ok f => f | _ => sample_file end.

Lemma ParseRPM_sound_witness :
  exists lead sig pad header payload, rest sample_input = lead ++ sig ++ pad ++ header ++ payload ++ rest sample_parse.2 /\
    length lead = 96%nat /\ header_block (SignatureHeader sample_parsed) sig /\
    header_block (MainHeader sample_parsed) header /\ Zlen payload = u32 (CompressedPayloadSize sample_parsed) /\
    (forall e, true = true -> find_entry SigTagMD5 (SignatureHeader sample_parsed) = Some e ->
       ie_payload e = md5 (header ++ payload)).
Proof.
  destruct (ParseRPM_sound true sample_parsed sample_input sample_parse.2)
    as (lead & sig & pad & header & payload & Hrest & Hlead & _ & Hsig & _ & Hmain & Hpay & _ & _ & _ & _ & _ & Hmd5 & _);
    [exact sample_input_valid|vm_compute; reflexivity|].
  exists lead, sig, pad, header, payload. split; [exact Hrest|]. split; [exact Hlead|]. split; [exact Hsig|].
  split; [exact Hmain|]. split; [exact Hpay|exact Hmd5].
Defined.

Definition sample_stream : stream := mkStream (file_bytes sample_file ++ sample_payload) 0.

Lemma ParseRPM_reader_independent_witness :
  (ParseRPM false sample_input).1 = (ParseRPM false sample_array).1 /\
  rest (ParseRPM false sample_input).2 = rest (ParseRPM false sample_array).2 /\
  (ParseRPM true sample_array).1 = (ParseRPM true sample_stream).1.
Proof.
  destruct (ParseRPM_reader_independent false sample_input sample_array) as (Ho & Hrest & _);
    [discriminate|exact sample_input_valid|apply Nat.leb_le; reflexivity|vm_compute; reflexivity|reflexivity|].
  split; [exact Ho|]. split; [exact Hrest|].
  destruct (ParseRPM_reader_independent true sample_array sample_stream) as (Hp & _);
    [split; [exact eager_array|exact eager_stream]|apply Nat.leb_le; reflexivity|split; done
    |vm_compute; reflexivity|vm_compute; reflexivity|].
  exact Hp.
Defined.
