(* ===== verification/ParseTotal.v ===== *)
(** The parser on arbitrary input ([src/common/rpmparser.go],
    [src/common/serializer.go]): it always ends, and if it panics then in a statement
    that says so. *)
From S2P Require Import Prelude Utils Bitmap Serializer Tags Header Layout Payload HeaderCodec RpmFile FileTheorems Allocation.

(** ** Triples for programs that end

    From a state in [I], [m] ends: with a value and a state in [J], with an error, or
    with a panic in [Q]. *)
Definition ends {S A} (Q : string -> Prop) (I : S -> Prop) (m : M S A) (J : A -> S -> Prop) : Prop :=
  forall s, I s -> match m s with
                   | (Ok a, s') => J a s'
                   | (Err _, _) => True
                   | (Panic p, _) => Q p
                   | (Diverge, _) => False
                   end.

(** The same for an outcome on its own. *)
Definition outcome_ends {A} (Q : string -> Prop) (P : A -> Prop) (o : outcome A) : Prop :=
  match o with Ok a => P a | Err _ => True | Panic p => Q p | Diverge => False end.

Section Ends.
Context {S : Type} (Q : string -> Prop).

Lemma ends_ret {A} (I : S -> Prop) (J : A -> S -> Prop) a : (forall s, I s -> J a s) -> ends Q I (mret a) J.
Proof. intros HJ s Hs. by apply HJ. Qed.

Lemma ends_lift {A} (I : S -> Prop) (P : A -> Prop) o :
  outcome_ends Q P o -> ends Q I (lift o) (fun a s => P a /\ I s).
Proof. intros Ho s Hs. unfold lift. by destruct o. Qed.

Lemma ends_raise {A} (I : S -> Prop) (J : A -> S -> Prop) e : ends Q I (raise e) J.
Proof. by intros s Hs. Qed.

Lemma ends_panic {A} (I : S -> Prop) (J : A -> S -> Prop) p : Q p -> ends Q I (panic p) J.
Proof. by intros Hp s Hs. Qed.

Lemma ends_bind {A B} (I : S -> Prop) (J : A -> S -> Prop) (K : B -> S -> Prop) m f :
  ends Q I m J -> (forall a, ends Q (J a) (f a) K) -> ends Q I (m ≫= f) K.
Proof.
  intros Hm Hf s Hs. specialize (Hm s Hs). unfold mbind, M_bind.
  destruct (m s) as [[a|e|p|] s']; try done. by apply Hf.
Qed.

Lemma ends_weaken {A} (I I' : S -> Prop) (J J' : A -> S -> Prop) m :
  ends Q I m J -> (forall s, I' s -> I s) -> (forall a s, J a s -> J' a s) -> ends Q I' m J'.
Proof. intros Hm HI HJ s Hs. specialize (Hm s (HI s Hs)). destruct (m s) as [[] ?]; auto. Qed.

(** A fact that does not depend on the state moves out of the precondition. *)
Lemma ends_pure {A} (P : Prop) (I : S -> Prop) (J : A -> S -> Prop) m :
  (P -> ends Q I m J) -> ends Q (fun s => P /\ I s) m J.
Proof. intros Hm s [HP Hs]. by apply Hm. Qed.

Lemma ends_wrap_err {A} (I : S -> Prop) (J : A -> S -> Prop) e (m : M S A) :
  ends Q I m J -> ends Q I (wrap_err e m) J.
Proof. intros Hm s Hs. specialize (Hm s Hs). unfold wrap_err. by destruct (m s) as [[] ?]. Qed.
End Ends.

Lemma ends_run_local {S T A} Q (I : S -> Prop) (I' : T -> Prop) (J : A -> T -> Prop) (P : A -> Prop) t (m : M T A) :
  ends Q I' m J -> I' t -> (forall a t, J a t -> P a) -> ends Q I (run_local t m) (fun a s => P a /\ I s).
Proof.
  intros Hm Ht HJ. apply ends_lift. specialize (Hm t Ht). unfold outcome_ends.
  destruct (m t) as [[] ?]; simpl in *; eauto.
Qed.

(** ** Reading *)

(** A usable reader with at most [k] bytes left. *)
Definition at_most {R} `{FallibleReader R} (k : nat) (r : R) : Prop := usable r /\ (length (pending r) <= k)%nat.

(** [takes n m]: [m] ends, and succeeds only if it can consume [n] bytes. *)
Definition takes {R A} `{FallibleReader R} (n : nat) (m : M R A) : Prop :=
  forall Q k, ends Q (at_most k) m (fun _ r => (n <= k)%nat /\ at_most (k - n) r).

Section Reading.
Context {R : Type} `{FallibleReader R} (Q : string -> Prop).

Lemma ends_offset k : ends Q (at_most k) offset_ (fun off r => in_width 64 off /\ at_most k r).
Proof. intros r [Hv Hk]. split; [by apply fallible_offset|done]. Qed.

Lemma ends_fillLoop n fuel : forall remaining buf k,
  (remaining < fuel)%nat -> (length buf + remaining = n)%nat ->
  ends Q (at_most k) (fillLoop fuel remaining buf)
    (fun buf r => length buf = n /\ (remaining <= k)%nat /\ at_most (k - remaining) r).
Proof.
  induction fuel as [|fuel IH]; intros remaining buf k Hfuel Hn; [lia|]. cbn [fillLoop].
  destruct (Nat.eqb_spec remaining 0) as [->|Hz].
  { apply ends_ret. intros r Hr. rewrite Nat.sub_0_r. split; [lia|]. split; [lia|done]. }
  intros r [Hv Hk]. unfold mbind, M_bind, read_.
  destruct (fallible_law remaining r Hv) as (bs & err & r' & -> & Hv' & Hrest & Hl & _ & _ & He).
  rewrite Hrest, length_app in Hk. destruct He as [[-> Hp]|[[-> Hnil]|[[e ->] _]]]; [..|done].
  - assert (bs <> []) as Hb by by destruct Hp. destruct bs as [|b bs]; [done|]. simpl in Hl, Hk.
    specialize (IH (remaining - length (b :: bs))%nat (buf ++ b :: bs) (k - length (b :: bs))%nat
      ltac:(simpl; lia) ltac:(rewrite length_app; simpl; lia)).
    assert (at_most (k - length (b :: bs)) r') as Hr' by (split; [done|simpl; lia]).
    specialize (IH r' Hr'). destruct (fillLoop _ _ _ r') as [[a|e|p|] r'']; try done.
    destruct IH as (? & ? & ? & ?). simpl in *. repeat split; try done; lia.
  - destruct (Nat.ltb_spec 0 (remaining - length bs)); [done|]. unfold mret, M_ret. rewrite length_app.
    split; [lia|]. split; [lia|]. split; [done|]. rewrite Hnil. simpl. lia.
Qed.

Lemma ends_FillBuffer n k :
  ends Q (at_most k) (FillBuffer n) (fun buf r => length buf = n /\ (n <= k)%nat /\ at_most (k - n) r).
Proof. apply ends_fillLoop; simpl; lia. Qed.

Lemma at_most_weaken j k (r : R) : at_most j r -> (j <= k)%nat -> at_most k r.
Proof. intros [Hv Hj] Hk. split; [done|lia]. Qed.

End Reading.

Section Integers.
Context {R : Type} `{FallibleReader R}.

Lemma takes_bind {A B} n n' (m : M R A) (f : A -> M R B) :
  takes n m -> (forall a, takes n' (f a)) -> takes (n + n') (m ≫= f).
Proof.
  intros Hm Hf Q k. eapply ends_bind; [apply Hm|]. intros a. cbv beta. apply ends_pure. intros Hk.
  eapply ends_weaken; [apply Hf|done|]. intros b r [Hk' Hr]. split; [lia|]. by rewrite Nat.sub_add_distr.
Qed.

Lemma takes_ret {A} (a : A) : takes 0 (mret a).
Proof. intros Q k. apply ends_ret. intros r Hr. rewrite Nat.sub_0_r. split; [lia|done]. Qed.

(** A buffer is filled, and some of its bytes are used. *)
Lemma takes_indexed {A} n (f : list Z -> M R A) :
  (forall buf, length buf = n -> takes 0 (f buf)) -> takes n (buf ← FillBuffer n; f buf).
Proof.
  intros Hf Q k. eapply ends_bind; [apply ends_FillBuffer|]. intros buf. cbv beta. apply ends_pure. intros Hn.
  apply ends_pure. intros Hk. eapply ends_weaken; [by apply Hf|done|]. intros a r [_ Hr].
  rewrite Nat.sub_0_r in Hr. done.
Qed.

Lemma takes_index buf i : (i < length buf)%nat -> takes (R:=R) 0 (lift (at_index buf i)).
Proof.
  intros Hi Q k r Hr. unfold lift, at_index. destruct (lookup_lt_is_Some_2 buf i Hi) as [b ->].
  rewrite Nat.sub_0_r. split; [lia|done].
Qed.

Lemma takes_readByte : takes (R:=R) 1 readByte.
Proof. apply takes_indexed. intros buf Hl. apply takes_index. lia. Qed.

Lemma takes_readShort : takes (R:=R) 2 readShort.
Proof.
  apply takes_indexed. intros buf Hl. apply (takes_bind 0 0); [apply takes_index; lia|]. intros b0.
  apply (takes_bind 0 0); [apply takes_index; lia|]. intros b1. apply takes_ret.
Qed.

Lemma takes_readWord : takes (R:=R) 4 readWord.
Proof.
  apply (takes_bind 2 2); [apply takes_readShort|]. intros h. apply (takes_bind 2 0); [apply takes_readShort|].
  intros l. apply takes_ret.
Qed.

Lemma takes_readLongWord : takes (R:=R) 8 readLongWord.
Proof.
  apply (takes_bind 4 4); [apply takes_readWord|]. intros h. apply (takes_bind 4 0); [apply takes_readWord|].
  intros l. apply takes_ret.
Qed.

(** What only has to end. *)
Lemma takes_ends {A} n (m : M R A) Q k : takes n m -> ends Q (at_most k) m (fun _ => at_most k).
Proof.
  intros Hm. eapply ends_weaken; [apply Hm|done|]. intros a r [Hk Hr]. eapply at_most_weaken; [exact Hr|lia].
Qed.

Lemma takes_readNullTerminatedString fuel : forall result Q k,
  (k < fuel)%nat -> ends Q (at_most k) (readNullTerminatedString (R:=R) fuel result)
    (fun _ r => (1 <= k)%nat /\ at_most (k - 1) r).
Proof.
  induction fuel as [|fuel IH]; intros result Q k Hk; [lia|]. cbn [readNullTerminatedString].
  eapply ends_bind; [apply takes_readByte|]. intros b. cbv beta. apply ends_pure. intros H1.
  case_match; [by apply ends_ret|]. eapply ends_weaken; [apply (IH _ Q (k - 1)%nat); lia|done|].
  intros s r [? Hr]. split; [lia|]. eapply at_most_weaken; [exact Hr|lia].
Qed.

Lemma ends_readString fuel Q k : (k < fuel)%nat -> ends Q (at_most k) (readString (R:=R) fuel) (fun _ => at_most k).
Proof.
  intros Hk r Hr. unfold readString. pose proof (takes_readNullTerminatedString fuel [] Q k Hk r Hr) as He.
  destruct (readNullTerminatedString fuel [] r) as [[a|e|p|] r']; try done.
  - destruct He as [_ He]. eapply at_most_weaken; [exact He|lia].
  - by destruct (Offset r' =? Offset r).
Qed.

Lemma ends_readStrings fuel : forall cnt payload Q k,
  (k < fuel)%nat -> ends Q (at_most k) (readStrings (R:=R) fuel cnt payload) (fun _ => at_most k).
Proof.
  induction fuel as [|fuel IH]; intros cnt payload Q k Hk; [lia|]. cbn [readStrings].
  destruct (cnt >? 0); [|by apply ends_ret].
  eapply ends_bind; [by apply takes_readNullTerminatedString|]. intros s. cbv beta. apply ends_pure. intros H1.
  eapply ends_weaken; [apply (IH _ _ Q (k - 1)%nat); lia|done|]. intros p r Hr. eapply at_most_weaken; [exact Hr|lia].
Qed.
End Integers.

(** *** Skipping *)

Section Skipping.
Context {R : Type} `{FallibleReader R} (Q : string -> Prop).

Lemma ends_readAheadLoop fuel : forall remaining cap k,
  0 <= remaining < 2 ^ 32 -> 0 < cap -> (0 < fuel)%nat -> remaining <= cap * (Z.of_nat fuel - 1) ->
  ends Q (at_most k) (readAheadLoop (R:=R) fuel remaining cap) (fun _ => at_most k).
Proof.
  induction fuel as [|fuel IH]; intros remaining cap k Hr Hc Hf Hle; [lia|]. cbn [readAheadLoop].
  destruct (Z.gtb_spec remaining 0) as [Hpos|]; [|by apply ends_ret].
  set (cap' := if remaining <? cap then remaining else cap).
  assert (0 < cap' <= remaining /\ (cap' = remaining \/ cap' = cap)) as [Hc' Hcase]
    by (unfold cap'; destruct (Z.ltb_spec remaining cap); lia).
  intros r [Hv Hk]. unfold mbind, M_bind, read_.
  destruct (fallible_law (Z.to_nat cap') r Hv) as (bs & err & r' & -> & Hv' & Hrest & Hl & _).
  assert (at_most k r') as Hr' by (split; [done|]; rewrite Hrest, length_app in Hk; lia).
  assert (0 <= Zlen bs <= cap') as Hbs by (unfold Zlen; lia).
  rewrite (wrap_small 32 (remaining - Zlen bs)) by (unfold in_width; lia).
  assert (0 < fuel)%nat as Hfuel by (destruct fuel; [simpl in Hle; lia|lia]). clearbody cap'.
  assert (cap' <= Zlen bs -> remaining - Zlen bs <= cap' * (Z.of_nat fuel - 1)) as Hnext
    by (intros ?; destruct Hcase as [Heq|Heq]; rewrite Heq in *; nia).
  destruct err as [[|e]|]; [| exact I |]; (destruct (Z.ltb_spec (Zlen bs) cap') as [|Hfull]; [exact Hr'|]);
    (apply (IH (remaining - Zlen bs) cap' k); [lia|lia|exact Hfuel|auto|exact Hr']).
Qed.

Lemma ends_readAhead n k : n < 2 ^ 32 -> ends Q (at_most k) (readAhead (R:=R) n) (fun _ => at_most k).
Proof.
  intros Hn. unfold readAhead. destruct (n =? 0); [by apply ends_ret|].
  destruct (Z.leb_spec n scratchSize) as [|Hbig].
  - eapply ends_bind; [apply ends_FillBuffer|]. intros buf. cbv beta. apply ends_ret. intros r (_ & _ & Hr).
    eapply at_most_weaken; [exact Hr|lia].
  - unfold scratchSize in *.
    eapply ends_bind; [apply (ends_readAheadLoop _ n (100 * 1024) k); try lia|].
    + pose proof (Z.div_mod n (100 * 1024) ltac:(lia)). pose proof (Z.mod_pos_bound n (100 * 1024) ltac:(lia)). lia.
    + intros rem. cbv beta. destruct (rem >? 0); [apply ends_raise|by apply ends_ret].
Qed.

Lemma ends_advance k : ends Q (at_most k) (advanceToNext8ByteBoundary (R:=R)) (fun _ => at_most k).
Proof.
  eapply ends_bind; [apply ends_offset|]. intros off. cbv beta. apply ends_pure. intros Hoff.
  eapply (ends_bind _ _ (fun n r => n < 2 ^ 32 /\ at_most k r)).
  - apply ends_lift. rewrite CalcAlignmentByteCount_pow2 by (done || by apply (bool_decide_unpack (8 ∈ alignments))).
    simpl. pose proof (Z.mod_pos_bound (- off) 8). lia.
  - intros n. cbv beta. apply ends_pure. intros Hn. case_match; [by apply ends_readAhead|by apply ends_ret].
Qed.
End Skipping.

(** ** The panics of the parser

    The messages of the [panic] calls that [ParseRPM] can reach. *)
Definition parser_panics : list string := [
  "Payload too short on %s";
  "String payload count mismatch on %s. Expected %d strings but only got %d";
  "Already past start of entry ?";
  "Empty payload?";
  "Invalid SigTagHeaderSignatures entry (tag value)";
  "Invalid SigTagHeaderSignatures entry (type)";
  "Invalid SigTagHeaderSignatures entry (negative offset)";
  "Invalid SigTagHeaderSignatures entry (size)";
  "Failed to find SIG_SIZE entry";
  "Int32Value() called on IndexEntry of type %d , expected type %d";
  "StringValue() called on IndexEntry of type %d , expected type %d";
  "StringValue() found more than one string?";
  "RPM has unknown package type";
  "Signature header contained no signed/immutable region marker?";
  "Sorry, RPM file format version %s is currently unsupported";
  "RPM has been tampered with ? Signature covers %d index entries but signature header has %d";
  "Failed to hex-decode SHA1 hash?";
  "Failed to hex-decode SHA256 hash?";
  "MD5 checksum validation failed, expected %s but got %s";
  "SHA1 checksum validation failed, expected %s but got %s";
  "SHA256 checksum validation failed, expected %s but got %s";
  "failed to find any recognized digest (MD5 / SHA1 / SHA256) inside signature header";
  "Compressed payload seems to be truncated, expected at least %d bytes of payload"
].

Definition deliberate (p : string) : Prop := p ∈ parser_panics.

(** Membership is decided by computation. *)
Ltac deliberate := by apply (bool_decide_unpack (_ ∈ parser_panics)).

(** ** Printing *)

Definition known_format (e : IndexEntry) : Prop := 0 <= ie_formatType e <= 9.

Lemma ends_readValues n fuel : forall cnt (read : M arrayReader Z) fmt values k,
  takes (S n) read -> (k < fuel)%nat ->
  ends deliberate (at_most k) (readValues fuel cnt read fmt values) (fun _ _ => True).
Proof.
  induction fuel as [|fuel IH]; intros cnt read fmt values k Hread Hk; [lia|]. cbn [readValues].
  destruct (cnt >? 0); [|by apply ends_ret]. intros r Hr. specialize (Hread deliberate k r Hr) as He.
  destruct (read r) as [[a|e|p|] r']; try done; [|deliberate]. destruct He as [H1 Hr'].
  refine (IH (cnt - 1) read fmt (values ++ [fmt a]) (k - S n)%nat Hread _ r' Hr'). lia.
Qed.

Lemma ends_printValues n e (read : M arrayReader Z) w :
  takes (S n) read -> outcome_ends deliberate (fun _ => True) (printValues e read w).
Proof.
  intros Hread. unfold printValues.
  assert (at_most (length (ie_payload e)) (NewArrayReader (ie_payload e))) as Hr
    by (split; [apply Nat.le_0_l|simpl; by rewrite drop_0]).
  pose proof (ends_readValues n (S (length (ie_payload e))) (ie_dataItemCnt e) read
    (fun x => decimal (signed w x)) [] _ Hread (Nat.lt_succ_diag_r _) _ Hr) as He.
  by destruct (readValues _ _ _ _ _ _) as [[a|err|p|] r'].
Qed.

Lemma ends_PayloadAsPrettyString e :
  known_format e -> outcome_ends deliberate (fun _ => True) (PayloadAsPrettyString e).
Proof.
  intros Hf. unfold PayloadAsPrettyString, known_format in *.
  repeat (case_match; [try done; first [apply (ends_printValues 1), takes_readShort
    |apply (ends_printValues 3), takes_readWord|apply (ends_printValues 7), takes_readLongWord
    |by case_match; [deliberate|]]|]).
  exfalso. rewrite ?orb_false_iff, ?Z.eqb_neq in *. unfold FORMAT_TYPE_NULL, FORMAT_TYPE_CHAR, FORMAT_TYPE_INT8,
    FORMAT_TYPE_INT16, FORMAT_TYPE_INT32, FORMAT_TYPE_INT64, FORMAT_TYPE_STRING, FORMAT_TYPE_BINARY,
    FORMAT_TYPE_STRING_ARRAY, FORMAT_TYPE_I18N_STRING_ARRAY in *. lia.
Qed.

(** ** Entries *)

(** An entry after its payload was read. *)
Definition populated (e : IndexEntry) : Prop :=
  known_format e /\ (ie_formatType e = FORMAT_TYPE_INT32 -> ie_payload e <> [] -> (4 <= length (ie_payload e))%nat).

Section Entries.
Context {R : Type} `{FallibleReader R}.

Lemma ends_with_payload e (m : M R (list Z)) k (P : list Z -> Prop) Q :
  known_format e -> ends Q (at_most k) m (fun p r => P p /\ at_most k r) ->
  (forall p, P p -> ie_formatType e = FORMAT_TYPE_INT32 -> p <> [] -> (4 <= length p)%nat) ->
  ends Q (at_most k) (p ← m; mret (set_payload p e)) (fun e' r => populated e' /\ at_most k r).
Proof.
  intros Hf Hm HP. eapply ends_bind; [exact Hm|]. intros p. cbv beta. apply ends_pure. intros Hp.
  apply ends_ret. intros r Hr. split; [|done]. split; [exact Hf|]. exact (HP p Hp).
Qed.

Lemma ends_populatePayload fuel e k Q :
  (k < fuel)%nat -> ends Q (at_most k) (populatePayload (R:=R) fuel e) (fun e' r => populated e' /\ at_most k r).
Proof.
  intros Hk. unfold populatePayload.
  assert (forall n, ends Q (at_most k) (readByteArray (R:=R) n) (fun p r => length p = Z.to_nat n /\ at_most k r)) as Hr.
  { intros n. eapply ends_weaken; [apply ends_FillBuffer|done|]. intros p r (Hl & _ & Hr). split; [done|].
    eapply at_most_weaken; [exact Hr|lia]. }
  assert (forall m : M R (list Z), ends Q (at_most k) m (fun _ => at_most k) ->
    ends Q (at_most k) m (fun p r => True /\ at_most k r)) as Hany
    by (intros m Hm; eapply ends_weaken; [exact Hm|done|done]).
  unfold FORMAT_TYPE_INT32 in *.
  destruct (Z.eqb_spec (ie_formatType e) 0) as [E|].
  { apply ends_ret. intros r Hr'. split; [|done]. split; [unfold known_format; lia|]. unfold FORMAT_TYPE_INT32. lia. }
  repeat (match goal with |- context [if ?f =? ?c then _ else _] => destruct (Z.eqb_spec f c) as [E|] end;
    [apply ends_with_payload with (P := fun p => ie_formatType e = 4 -> p <> [] -> (4 <= length p)%nat);
      [unfold known_format; lia| |auto]|]).
  all: try (eapply ends_weaken; [apply Hr|done|]; intros p r [Hl Hr']; split; [|exact Hr']; intros E4; try lia).
  - intros Hne. unfold wrap in Hl.
    replace (ie_dataItemCnt e * 4) with (4 * ie_dataItemCnt e) in Hl by lia.
    change (2 ^ 32) with (4 * 2 ^ 30) in Hl. rewrite Z.mul_mod_distr_l in Hl by lia.
    pose proof (Z.mod_pos_bound (ie_dataItemCnt e) (2 ^ 30)). destruct p; [done|]. simpl in *. lia.
  - eapply ends_weaken; [by apply ends_readString|done|]. intros p r Hr'. split; [lia|exact Hr'].
  - destruct ((ie_formatType e =? 8) || (ie_formatType e =? 9)) eqn:E; [|apply ends_raise].
    apply orb_true_iff in E. rewrite !Z.eqb_eq in E.
    apply ends_with_payload with (P := fun _ => True); [unfold known_format; lia| |unfold FORMAT_TYPE_INT32; lia].
    by apply Hany, ends_readStrings.
Qed.

Lemma ends_expect_word ok msg k :
  deliberate msg -> ends deliberate (at_most k) (expect_word ok msg) (fun _ => at_most k).
Proof.
  intros Hmsg r Hr. unfold expect_word. pose proof (takes_ends 4 readWord deliberate k takes_readWord r Hr) as He.
  destruct (readWord r) as [[v|e|p|] r']; try done. by destruct (ok v).
Qed.

Lemma ends_parseSignedRegion start size k :
  ends deliberate (at_most k) (parseSignedRegion start size) (fun _ _ => True).
Proof.
  unfold parseSignedRegion. repeat (eapply ends_bind; [apply ends_expect_word; deliberate|intros ?; cbv beta]).
  by apply ends_ret.
Qed.

Lemma ends_populateEntry fuel b start size e k :
  (k < fuel)%nat ->
  ends deliberate (at_most k) (populateEntry (R:=R) fuel b start size e)
    (fun x r => populated x.1 /\ ie_payload x.1 <> [] /\ at_most k r).
Proof.
  intros Hk. unfold populateEntry. eapply ends_bind; [apply ends_offset|]. intros off. cbv beta. apply ends_pure.
  intros Hoff. eapply (ends_bind _ _ (fun _ => at_most k)).
  { destruct (off >? ie_offset e); [apply ends_panic; deliberate|].
    destruct (off <? ie_offset e); [|by apply ends_ret]. apply ends_readAhead. apply wrap_range. lia. }
  intros _. eapply ends_bind; [by apply ends_populatePayload|]. intros e'. cbv beta. apply ends_pure. intros He'.
  eapply ends_bind; [apply ends_lift, ends_PayloadAsPrettyString, He'|]. intros ?. cbv beta. apply ends_pure. intros _.
  destruct (Z.eqb_spec (Zlen (ie_payload e')) 0) as [|Hne]; [apply ends_panic; deliberate|].
  assert (ie_payload e' <> []) as Hp by by intros E; rewrite E in Hne.
  case_match; [|by apply ends_ret; intros r Hr].
  eapply ends_bind; [eapply (ends_run_local _ _ (at_most (length (ie_payload e'))) _ (fun _ => True));
    [apply ends_parseSignedRegion|split; [apply Nat.le_0_l|simpl; by rewrite drop_0]|done]|].
  intros region. cbv beta. apply ends_pure. intros _. by apply ends_ret; intros r Hr.
Qed.
End Entries.

(** ** Headers *)

Definition readable (e : IndexEntry) : Prop := populated e /\ ie_payload e <> [].

Section Headers.
Context {R : Type} `{FallibleReader R} `{Runtime}.

(** The entries that are not still to come are readable. *)
Lemma ends_populateAll fuel b start size order : forall es region k,
  (k < fuel)%nat -> (forall i, i ∈ order -> (i < length (elems es))%nat) ->
  (forall i e, elems es !! i = Some e -> i ∈ order \/ readable e) ->
  ends deliberate (at_most k) (populateAll (R:=R) fuel b start size order es region)
    (fun x _ => Forall readable (elems x.1)).
Proof.
  induction order as [|idx order IH]; intros es region k Hk Hin Hes; cbn [populateAll].
  { apply ends_ret. intros r _. apply Forall_lookup. intros i e He. destruct (Hes i e He) as [Hno|]; [|done].
    by apply not_elem_of_nil in Hno. }
  destruct (lookup_lt_is_Some_2 (elems es) idx) as [e ->]; [apply Hin; by left|].
  eapply ends_bind; [by apply (ends_lift _ _ (fun _ => True))|]. intros e0. cbv beta. apply ends_pure. intros _.
  eapply ends_bind; [by apply (ends_populateEntry fuel b start size e0)|]. intros [e' r']. cbv beta.
  apply ends_pure. intros Hpop. apply ends_pure. intros Hne. simpl in Hpop, Hne. apply IH; [done| |].
  - intros i Hi. simpl. rewrite length_insert. apply Hin. by right.
  - intros i e1. simpl. destruct (decide (i = idx)) as [->|Hi].
    + intros He1. right. apply list_lookup_insert_Some in He1 as [(_ & <- & _)|(? & _)]; [by split|done].
    + rewrite list_lookup_insert_ne by done. intros He1. destruct (Hes i e1 He1) as [Ho|]; [|by right].
      apply elem_of_cons in Ho as [->|]; [done|by left].
Qed.

Lemma ends_parseEntries n b : forall acc Q k,
  ends Q (at_most k) (parseEntries (R:=R) n b acc) (fun _ => at_most k).
Proof.
  induction n as [|n IH]; intros acc Q k; [by apply ends_ret|]. cbn [parseEntries].
  eapply ends_bind; [|intros e; apply IH]. unfold parseIndexEntry.
  repeat (eapply ends_bind; [apply (takes_ends 4), takes_readWord|intros ?; cbv beta]). by apply ends_ret.
Qed.

Lemma sortedEntryIndices_all l i : i ∈ sortedEntryIndices l <-> (i < length l)%nat.
Proof. unfold sortedEntryIndices. rewrite merge_sort_Permutation, elem_of_seq. lia. Qed.

End Headers.

Section Bodies.
Context {R : Type} `{FallibleReader R} `{Runtime}.

Lemma ends_parseHeaderBody b k :
  ends deliberate (at_most k) (parseHeaderBody (R:=R) b) (fun h r => Forall readable (entries h) /\ at_most k r).
Proof.
  unfold parseHeaderBody.
  assert (forall n Q, ends Q (at_most k) (readBytes (R:=R) n) (fun _ => at_most k)) as Hb.
  { intros n Q. eapply ends_weaken; [apply ends_FillBuffer|done|]. intros p r (_ & _ & Hr).
    eapply at_most_weaken; [exact Hr|lia]. }
  assert (forall Q, ends Q (at_most k) (offset_ (R:=R)) (fun _ => at_most k)) as Ho
    by (intros Q; eapply ends_weaken; [apply ends_offset|done|]; by intros a r [_ Hr]).
  eapply ends_bind; [apply Ho|intros start; cbv beta]. eapply ends_bind; [apply Hb|intros magic; cbv beta].
  case_match; [apply ends_raise|].
  eapply ends_bind; [apply (takes_ends 1), takes_readByte|intros ver; cbv beta].
  eapply ends_bind; [apply Hb|intros res; cbv beta].
  eapply ends_bind; [apply (takes_ends 4), takes_readWord|intros cnt; cbv beta].
  eapply ends_bind; [apply (takes_ends 4), takes_readWord|intros size; cbv beta].
  eapply ends_bind; [apply Ho|intros indices; cbv beta].
  eapply ends_bind; [apply ends_parseEntries|intros es; cbv beta].
  eapply ends_bind; [apply Ho|intros store; cbv beta].
  eapply ends_bind; [apply ends_wrap_err, Hb|intros data; cbv beta].
  eapply ends_bind.
  - eapply (ends_run_local _ _ (at_most (R:=arrayReader) (length data)) _ (fun x => Forall readable (elems x.1)));
      [apply (ends_populateAll (R:=arrayReader)); [lia|by intros i Hi%sortedEntryIndices_all|]
      |by split; [apply Nat.le_0_l|simpl; rewrite drop_0]|done].
    intros i e He. left. apply sortedEntryIndices_all. by eapply lookup_lt_Some.
  - intros [es' region]. cbv beta. apply ends_pure. intros Hes. by apply ends_ret.
Qed.

Lemma ends_parseSignatureHeader k :
  ends deliberate (at_most k) (parseHeader (R:=R) false) (fun h r => Forall readable (entries h) /\ at_most k r).
Proof.
  eapply ends_bind; [apply ends_parseHeaderBody|]. intros h. cbv beta. apply ends_pure. intros Hh.
  eapply ends_bind; [apply ends_advance|]. intros ?. by apply ends_ret.
Qed.
End Bodies.

(** ** Files *)

Section Files.
Context {R : Type} `{FallibleReader R} `{Runtime} `{Hashes}.

Lemma ends_parseMainHeader k :
  ends deliberate (at_most k) (parseHeader (R:=R) true) (fun h r => Forall readable (entries h) /\ at_most k r).
Proof.
  intros r Hr. unfold parseHeader, parseMainHeader.
  set (d := NewDigestReaderImpl (NewDigestReaderImpl (NewDigestReaderImpl r []) []) []).
  pose proof (ends_parseHeaderBody (R:=DigestReaderImpl (DigestReaderImpl (DigestReaderImpl R))) true k d Hr) as He.
  destruct (parseHeaderBody true d) as [[h|e|p|] d']; try done.
Qed.

Lemma ends_readPayload size hashed k :
  size < 2 ^ 32 -> ends deliberate (at_most k) (readPayload (R:=R) size hashed) (fun _ => at_most k).
Proof.
  intros Hs r Hr. unfold readPayload.
  pose proof (ends_readAhead (R:=DigestReaderImpl R) deliberate size k Hs (NewDigestReaderImpl r hashed) Hr) as He.
  destruct (readAhead size _) as [[u|e|p|] d]; try done. deliberate.
Qed.

Lemma find_readable {T} `{TagValue T} (t : T) h e :
  Forall readable (entries h) -> find_entry t h = Some e -> readable e.
Proof.
  intros Hh. unfold find_entry. destruct (FindIndexEntry t h) as [i|]; [|done]. simpl.
  intros He. by eapply Forall_lookup_1.
Qed.

Lemma readWord_long p : (4 <= length p)%nat -> exists v, (readWord (NewArrayReader p)).1 = Ok v.
Proof.
  intros Hp. destruct (refines_readWord (NewArrayReader p)) as [_ Hw]; [apply Nat.le_0_l|].
  destruct (reads_readWord (take 4 p) (drop 4 p) 0) as [v Hv]; [rewrite length_take; lia|by split|].
  rewrite take_drop in Hv. unfold view in Hw. simpl rest in Hw. rewrite drop_0 in Hw.
  change (Offset (NewArrayReader p)) with 0 in Hw. rewrite Hv in Hw. exists v. by injection Hw.
Qed.

Lemma ends_Int32Value e : readable e -> outcome_ends deliberate (fun _ => True) (Int32Value e).
Proof.
  intros [[_ H4] Hne]. unfold Int32Value. destruct (Z.eqb_spec (ie_formatType e) FORMAT_TYPE_INT32) as [Hf|];
    simpl; [|deliberate].
  destruct (readWord_long (ie_payload e)) as [v ->]; [by apply H4|done].
Qed.

Lemma ends_StringValue e : outcome_ends deliberate (fun _ => True) (StringValue e).
Proof. unfold StringValue. repeat case_match; try done; deliberate. Qed.

Lemma ends_outcome_bind {A B} (P : A -> Prop) (P' : B -> Prop) (o : outcome A) f :
  outcome_ends deliberate P o -> (forall a, P a -> outcome_ends deliberate P' (f a)) ->
  outcome_ends deliberate P' (o ≫= f).
Proof. intros Ho Hf. destruct o; simpl in *; try done. by apply Hf. Qed.

Lemma ends_hexValue e msg : deliberate msg -> outcome_ends deliberate (fun _ => True) (hexValue e msg).
Proof.
  intros Hm. destruct e as [e|]; [|done]. eapply ends_outcome_bind; [apply ends_StringValue|].
  intros s _. by case_match.
Qed.

Lemma ends_check_digest e b x y msg : deliberate msg -> outcome_ends deliberate (fun _ => True) (check_digest e b x y msg).
Proof. intros Hm. unfold check_digest. by case_match. Qed.

Lemma ends_validate f b :
  Forall readable (entries (MainHeader f)) -> outcome_ends deliberate (fun _ => True) (validate f b).
Proof.
  intros Hmain. unfold validate, validateDigests. eapply (ends_outcome_bind (fun _ => True)).
  { unfold GetPackageType. repeat case_match; try done. deliberate. }
  intros _ _. case_match; [|deliberate]. eapply (ends_outcome_bind (fun _ => True)).
  { unfold GetFileFormatVersion. destruct (find_entry _ _) as [e|] eqn:E; [|done].
    eapply ends_outcome_bind; [by apply ends_Int32Value; eapply find_readable|done]. }
  intros v _. case_match; [deliberate|]. case_match; [deliberate|]. cbv zeta.
  do 2 (eapply ends_outcome_bind; [apply ends_hexValue; deliberate|intros ? _]).
  do 3 (eapply ends_outcome_bind; [apply ends_check_digest; deliberate|intros ? _]).
  repeat case_match; try done; deliberate.
Qed.

Lemma ends_ParseRPM b k : ends deliberate (at_most k) (ParseRPM (R:=R) b) (fun _ => at_most k).
Proof.
  unfold ParseRPM. eapply (ends_bind _ _ (fun _ => at_most k)); [unfold parseLead|].
  { assert (forall n Q, ends Q (at_most k) (readBytes (R:=R) n) (fun _ => at_most k)) as Hb.
    { intros n Q. eapply ends_weaken; [apply ends_FillBuffer|done|]. intros p r (_ & _ & Hr).
      eapply at_most_weaken; [exact Hr|lia]. }
    eapply ends_bind; [apply Hb|intros magic; cbv beta]. case_match; [apply ends_raise|].
    repeat (eapply ends_bind; [first [apply Hb|by apply (takes_ends 1), takes_readByte
      |by apply (takes_ends 2), takes_readShort]|intros ?; cbv beta]). by apply ends_ret. }
  intros lead. eapply ends_bind; [apply ends_parseSignatureHeader|intros sig; cbv beta]. apply ends_pure. intros Hsig.
  eapply ends_bind; [apply ends_parseMainHeader|intros main; cbv beta]. apply ends_pure. intros Hmain.
  eapply ends_bind; [apply (ends_lift _ _ readable)|intros size; cbv beta].
  { destruct (find_entry SigTagSigSize sig) as [e|] eqn:E; [exact (find_readable _ _ _ Hsig E)|].
    destruct (find_entry SigTagSize sig) as [e|] eqn:E'; [exact (find_readable _ _ _ Hsig E')|deliberate]. }
  apply ends_pure. intros Hsize.
  eapply ends_bind; [apply ends_offset|intros off; cbv beta]. apply ends_pure. intros Hoff.
  eapply ends_bind; [by apply ends_lift, ends_Int32Value|intros sz; cbv beta]. apply ends_pure. intros _. cbv zeta.
  set (f := mkRpmFile _ _ _ _ _).
  eapply (ends_bind _ _ (fun f r => Forall readable (entries (MainHeader f)) /\ at_most k r)).
  { destruct b; [|by apply ends_ret; intros r Hr]. eapply ends_bind; [apply ends_readPayload, wrap_range; lia|].
    intros hashed. cbv beta. apply ends_ret. by intros r Hr. }
  intros rpm. cbv beta. apply ends_pure. intros Hrpm.
  eapply ends_bind; [by apply ends_lift, ends_validate|intros ?; cbv beta]. apply ends_pure. intros _. by apply ends_ret.
Qed.
End Files.

(** ** The theorem *)

(** 130 bytes: a lead of zeroes behind its magic number, and a signature header whose
    only entry is one string that claims to be two. *)
Definition crafted : list Z :=
  leadMagic ++ zeros 92 ++ headerMagic ++ [1; 0; 0; 0; 0; 0; 0; 0; 1; 0; 0; 0; 2] ++
  [0; 0; 3; 232; 0; 0; 0; 6; 0; 0; 0; 0; 0; 0; 0; 2] ++ [97; 0].

(** C6. [ParseRPM] ends on every input, however malformed and however it is delivered,
    whether or not a read fails, with and without validation, in particular within the
    fuel the model gives its loops: it returns a file or an error, or it panics with one of the messages the
    code passes to [panic]; no index is out of range and no loop runs on. The panics do
    happen: a crafted file of 130 bytes makes it panic instead of returning an error. *)
Theorem ParseRPM_ends `{Runtime} `{Hashes} {R} `{FallibleReader R} b (r : R) :
  usable r ->
  match (ParseRPM b r).1 with
  | Ok _ | Err _ => True
  | Panic p => p ∈ parser_panics
  | Diverge => False
  end /\
  (ParseRPM b (NewArrayReader crafted)).1 =
    Panic "String payload count mismatch on %s. Expected %d strings but only got %d".
Proof.
  intros Hr. split; [|by destruct b; vm_compute].
  pose proof (ends_ParseRPM b (length (pending r)) r (conj Hr (Nat.le_refl _))) as He.
  by destruct (ParseRPM b r) as [[] ?].
Qed.

Section Witness.
#[local] Existing Instance checksums.
#[local] Existing Instance doubling.

Lemma ParseRPM_ends_witness :
  match (ParseRPM true (NewArrayReader crafted)).1 with
  | Ok _ | Err _ => True
  | Panic p => p ∈ parser_panics
  | Diverge => False
  end.
Proof.
  assert (valid (NewArrayReader crafted)) as Hr by apply Nat.le_0_l.
  pose proof (ParseRPM_ends true (NewArrayReader crafted) Hr) as [Hp _]. exact Hp.
Defined.
End Witness.
