(* ===== verification/Signing.v ===== *)
(** Signing and verification ([src/common/signing.go], and [SignDigest],
    [GetKeyType] and [VerifySignature] of [src/common/openpgp.go]). The OpenPGP
    library is a parameter: what its keys contain, what signing a digest and
    serializing a signature give, and which signatures it accepts. *)
From S2P Require Import Prelude Utils Serializer Tags Header HeaderCodec RpmFile.

(** [packet.Signature] as [CreateSignaturePacket] fills it in. *)
Record Signature := mkSignature {
  sig_Version : Z;
  sig_SigType : Z;
  sig_PubKeyAlgo : Z;
  sig_Hash : Z;
  sig_CreationTime : Z;
  sig_IssuerKeyId : Z;
}.

(** [github.com/ProtonMail/go-crypto/openpgp], as far as it is called. [Sign]
    takes the bytes hashed so far and returns what the hash contains afterwards. *)
Class OpenPGP := {
  PrivateKey : Type;
  pk_Version : PrivateKey -> Z;
  pk_PubKeyAlgo : PrivateKey -> Z;
  pk_KeyId : PrivateKey -> Z;
  PubKeyAlgoRSA : Z;
  PubKeyAlgoRSASignOnly : Z;
  PubKeyAlgoRSAEncryptOnly : Z;
  PubKeyAlgoDSA : Z;
  SigTypeBinary : Z;
  Config_Hash : Z;
  SignedPacket : Type;
  Sign : Signature -> PrivateKey -> list Z -> outcome SignedPacket * list Z;
  Serialize : SignedPacket -> outcome (list Z);
  Entity : Type;
  CheckDetachedSignature : list Entity -> list Z -> list Z -> outcome Entity;
}.

(** [openpgp.EntityList] *)
Definition EntityList `{OpenPGP} : Type := list Entity.

(** ** Keys *)

Record KeyType := mkKeyType { kt_id : Z; kt_Label : string }.

#[export] Instance KeyType_eq_dec : EqDecision KeyType.
Proof. solve_decision. Defined.

Definition KEY_TYPE_RSA := mkKeyType 1 "RSA".
Definition KEY_TYPE_DSA := mkKeyType 2 "DSA".
Definition KEY_TYPE_OTHER := mkKeyType 3 "other key type".

Section Keys.
Context `{OpenPGP}.

Definition GetKeyType (privateKey : PrivateKey) : KeyType :=
  let algo := pk_PubKeyAlgo privateKey in
  if (algo =? PubKeyAlgoRSA) || (algo =? PubKeyAlgoRSASignOnly) || (algo =? PubKeyAlgoRSAEncryptOnly)
  then KEY_TYPE_RSA
  else if algo =? PubKeyAlgoDSA then KEY_TYPE_DSA
  else KEY_TYPE_OTHER.

Definition CreateSignaturePacket (privKey : PrivateKey) (now : Z) : Signature :=
  mkSignature (pk_Version privKey) SigTypeBinary (pk_PubKeyAlgo privKey) Config_Hash now (pk_KeyId privKey).

(** [now] is the time of the call. *)
Definition SignDigest (now : Z) (privKey : PrivateKey) : M (list Z) (list Z) :=
  let keyType := GetKeyType privKey in
  if negb (bool_decide (keyType = KEY_TYPE_RSA)) && negb (bool_decide (keyType = KEY_TYPE_DSA))
  then raise "signing requires an RSA or DSA key, got algorithm ID: %d"
  else
    let sig := CreateSignaturePacket privKey now in
    signed ← wrap_err "failed to sign header: " (Sign sig privKey);
    wrap_err "failed to serialize signature packet: " (lift (Serialize signed)).

Definition VerifySignature (pubKeyRing : EntityList) (signedData signatureData : list Z) : outcome Entity :=
  match CheckDetachedSignature pubKeyRing signedData signatureData with
  | Err e => Err ("RPM signature verification failed: " +:+ e)
  | o => o
  end.

(** ** Signing a file *)

(** An operation on one part of a file. *)
Definition on_SignatureHeader {A} (m : M RpmHeader A) : M RpmFile A := fun f =>
  let '(o, h) := m (SignatureHeader f) in
  (o, mkRpmFile (Lead f) h (MainHeader f) (PayloadStartOffset f) (CompressedPayloadSize f)).

Definition set_Sha256Digest (d : list Z) (h : RpmHeader) : RpmHeader :=
  mkHeader (Magic h) (version h) (reserved h) (indexEntryCount h) (storeSizeInBytes h)
    (IsMainHeader h) (IndexEntries h) (headerStartOffset h) (IndicesStartOffset h)
    (DataStoreStartOffset h) (signedRegion h) (Md5Digest h) (Sha1Digest h) d.

Definition on_Sha256Digest {A} (m : M (list Z) A) : M RpmFile A := fun f =>
  let '(o, d) := m (Sha256Digest (MainHeader f)) in
  (o, set_MainHeader (set_Sha256Digest d (MainHeader f)) f).

Context `{Runtime}.

Definition SignRpm (now : Z) (privateKey : PrivateKey) : M RpmFile unit :=
  let keyType := GetKeyType privateKey in
  openPgpPacketData ← wrap_err "failed to load sign digest: " (on_Sha256Digest (SignDigest now privateKey));
  newEntryTag ←
    (if bool_decide (keyType = KEY_TYPE_RSA) then
       _ ← on_SignatureHeader (DeleteIndexEntryIfExists SigTagDSAHeader);
       mret SigTagRSAHeader
     else if bool_decide (keyType = KEY_TYPE_DSA) then
       _ ← on_SignatureHeader (DeleteIndexEntryIfExists SigTagRSAHeader);
       mret SigTagDSAHeader
     else raise "sorry, only private keys of type RSA or DSA are supported for signing");
  _ ← on_SignatureHeader (DeleteIndexEntryIfExists SigTagPGP);
  _ ← on_SignatureHeader (DeleteIndexEntryIfExists SigTagPGP5);
  _ ← on_SignatureHeader (DeleteIndexEntryIfExists SigTagGPG);
  let newEntrySize := u32 (Zlen openPgpPacketData) in
  on_SignatureHeader
    (SetOrAddIndexEntry newEntryTag FORMAT_TYPE_BINARY newEntrySize openPgpPacketData).

(** The file is passed by value: its changes are not the caller's. *)
Definition SignRpmAndWrite {W P} `{WriterWithOffset W} `{ReaderWithOffset P} `{shares : !Shares W P} (fuel : nat)
    (rpmFile : RpmFile) (now : Z) (privateKey : PrivateKey) : M (W * P) unit := fun wp =>
  match SignRpm now privateKey rpmFile with
  | (Ok _, rpmFile) => WriteRPM fuel rpmFile wp
  | (Err e, _) => (Err e, wp)
  | (Panic p, _) => (Panic p, wp)
  | (Diverge, _) => (Diverge, wp)
  end.
End Keys.

(** ** [io.ReadAll] *)

Section ReadAll.
Context {R : Type} `{IOReader R} `{Runtime}.

(** [buf] is the part of the buffer in use, [cap] its capacity. *)
Fixpoint ReadAllLoop (fuel : nat) (buf : list Z) (cap : nat) : M R (list Z) :=
  match fuel with
  | O => lift Diverge
  | S fuel => fun r =>
      let '((bs, err), r) := ioRead (cap - length buf) r in
      let buf := buf ++ bs in
      match err with
      | Some EOF => (Ok buf, r)
      | Some (IOError e) => (Err e, r)
      | None => ReadAllLoop fuel buf (if (length buf =? cap)%nat then growcap (cap + 1) else cap) r
      end
  end.

Definition ReadAll (fuel : nat) : M R (list Z) := ReadAllLoop fuel [] 512.
End ReadAll.

(** ** Verification *)

Section Verify.
Context `{OpenPGP} `{Hashes} `{Runtime} {P : Type} `{IOReader P}.

Record SignatureVerifierImpl := mkVerifier {
  rpmFile : RpmFile;
  mainHeaderData : arrayReader;
  payloadReader : P;
  gpgPublicKeys : EntityList;
}.

Definition NewSignatureVerifier (f : RpmFile) (p : P) (keys : EntityList) : outcome SignatureVerifierImpl :=
  data ← GetData_ (MainHeader f);
  mret (mkVerifier f (NewArrayReader data) p keys).

Definition on_mainHeaderData {A} (m : M arrayReader A) : M SignatureVerifierImpl A := fun v =>
  let '(o, d) := m (mainHeaderData v) in
  (o, mkVerifier (rpmFile v) d (payloadReader v) (gpgPublicKeys v)).

Definition on_payloadReader {A} (m : M P A) : M SignatureVerifierImpl A := fun v =>
  let '(o, p) := m (payloadReader v) in
  (o, mkVerifier (rpmFile v) (mainHeaderData v) p (gpgPublicKeys v)).

(** [if tag != nil { if _, err = VerifySignature(...); err != nil { return ... } }];
    [msg] replaces the error where the source replaces it. *)
Definition check_signature (tag : option IndexEntry) (data : list Z) (msg : option string)
    : M SignatureVerifierImpl unit := fun v =>
  match tag with
  | None => (Ok tt, v)
  | Some e =>
      match VerifySignature (gpgPublicKeys v) data (ie_payload e) with
      | Ok _ => (Ok tt, v)
      | Err err => (Err (default err msg), v)
      | Panic p => (Panic p, v)
      | Diverge => (Diverge, v)
      end
  end.

Definition VerifyV3Signature (fuel : nat) : M SignatureVerifierImpl unit :=
  sigHeader ← gets (fun v => Ok (SignatureHeader (rpmFile v)));
  let pgpTag := find_entry SigTagPGP sigHeader in
  let dsaTag := find_entry SigTagGPG sigHeader in
  match pgpTag, dsaTag with
  | None, None => raise "Signature header contains neither a RPMSIGTAG_PGP nor a RPMSIGTAG_GPG tag"
  | _, _ =>
      match find_entry SigTagMD5 sigHeader with
      | None => raise "Signature header does not contain a RPMSIGTAG_MD5 tag"
      | Some md5Tag =>
          _ ← on_mainHeaderData (modify Rewind);
          headerData ← on_mainHeaderData (ReadAll fuel);
          payload ← on_payloadReader (ReadAll fuel);
          let combined := headerData ++ payload in
          let actualMd5 := md5 combined in
          if negb (bool_decide (actualMd5 = ie_payload md5Tag)) then raise "MD5 hash mismatch"
          else
            _ ← check_signature pgpTag combined (Some "RPMSIGTAG_PGP verification failure");
            check_signature dsaTag combined (Some "RPMSIGTAG_GPG verification failure")
      end
  end.

Definition VerifyV4Signature (fuel : nat) : M SignatureVerifierImpl unit :=
  sigHeader ← gets (fun v => Ok (SignatureHeader (rpmFile v)));
  let rsaHeaderTag := find_entry SigTagRSAHeader sigHeader in
  let dsaHeaderTag := find_entry SigTagDSAHeader sigHeader in
  match rsaHeaderTag, dsaHeaderTag with
  | None, None => raise "Signature header contains neither a SigTagRSAHeader nor a SigTagDSAHeader tag"
  | _, _ =>
      _ ← on_mainHeaderData (modify Rewind);
      headerData ← on_mainHeaderData (ReadAll fuel);
      _ ← check_signature rsaHeaderTag headerData None;
      check_signature dsaHeaderTag headerData None
  end.

Definition VerifyV6Signature : M SignatureVerifierImpl unit := raise "implement me".

Definition VerifySignatures (fuel : nat) (toVerify : gset SignatureVersion) : M SignatureVerifierImpl unit :=
  if GoSet.IsEmpty toVerify
  then raise "signature version set cannot be empty, need at least one signature version to verify"
  else
    _ ← (if GoSet.Contains SIGNATURE_VERSION_V3 toVerify then VerifyV3Signature fuel else mret tt);
    _ ← (if GoSet.Contains SIGNATURE_VERSION_V4 toVerify then VerifyV4Signature fuel else mret tt);
    _ ← (if GoSet.Contains SIGNATURE_VERSION_V6 toVerify then VerifyV6Signature else mret tt);
    mret tt.
End Verify.
