(* ===== verification/SigningTheorems.v ===== *)
(** Theorems about signing and verifying ([src/common/signing.go]): what
    [SignRpm] leaves in the signature header, that a signed file survives writing
    and parsing and verifies, and exactly when [VerifySignatures] accepts. *)
From S2P Require Import Prelude Utils Bitmap DynArray Serializer Tags Header Layout HeaderSpec HeaderOps.
From S2P Require Import Allocation IndexUpdate Payload HeaderCodec Codec HeaderRoundtrip RpmFile FileRoundtrip FileTheorems Signing.

(** ** Reading everything *)

Section ReadAll.
Context `{Runtime}.

(** Everything is read, or a read fails. *)
Lemma ReadAllLoop_cases {R} `{FallibleReader R} fuel buf cap (r : R) :
  (length (pending r) + 1 < fuel)%nat -> (length buf < cap)%nat -> usable r ->
  exists o r', ReadAllLoop fuel buf cap r = (o, r') /\ usable r' /\
    (o = Ok (buf ++ pending r) /\ pending r' = [] \/ (exists e, o = Err e) /\ may_fail r).
Proof.
  revert buf cap r. induction fuel as [|fuel IH]; intros buf cap r Hf Hc Hr; [lia|]. cbn [ReadAllLoop].
  destruct (fallible_law (cap - length buf) r Hr) as (bs & err & r' & Hrd & Hv & Hrest & Hlen & _ & Hmf & He).
  change (ioRead (cap - length buf) r) with (Read (cap - length buf) r). rewrite Hrd.
  destruct He as [[-> Hp]|[[-> Hend]|[[e ->] Hfail]]].
  - assert (bs <> []) as Hne by (destruct Hp; [lia|done]).
    assert (0 < length bs)%nat by (destruct bs; [done|simpl; lia]).
    rewrite Hrest, length_app in Hf. pose proof (growcap_ge (cap + 1)).
    destruct (IH (buf ++ bs) (if (length (buf ++ bs) =? cap)%nat then growcap (cap + 1) else cap) r')
      as (o & r2 & Hrun & Hv2 & Hres); [lia| |done|].
    { rewrite length_app. destruct (Nat.eqb_spec (length buf + length bs) cap); lia. }
    exists o, r2. split; [done|]. split; [done|]. destruct Hres as [[-> He2]|[He2 Hm2]]; [left|right; tauto].
    by rewrite Hrest, <- app_assoc.
  - do 2 eexists. split; [done|]. split; [done|]. left. by rewrite Hrest, Hend, app_nil_r.
  - do 2 eexists. split; [done|]. split; [done|]. right. split; [by eexists|done].
Qed.

Lemma ReadAll_cases {R} `{FallibleReader R} fuel (r : R) :
  (length (pending r) + 1 < fuel)%nat -> usable r ->
  exists o r', ReadAll fuel r = (o, r') /\ usable r' /\
    (o = Ok (pending r) /\ pending r' = [] \/ (exists e, o = Err e) /\ may_fail r).
Proof. intros Hf Hr. exact (ReadAllLoop_cases fuel [] 512 r Hf ltac:(simpl; lia) Hr). Qed.

Lemma ReadAll_run {R} `{LawfulReader R} fuel (r : R) :
  (length (rest r) + 1 < fuel)%nat -> valid r ->
  exists r', ReadAll fuel r = (Ok (rest r), r') /\ valid r' /\ rest r' = [].
Proof.
  intros Hf Hr. pose proof (ReadAll_cases (R:=R) fuel r) as Hc.
  destruct (Hc Hf Hr) as (o & r' & Hrun & Hv & [[-> He]|[_ []]]). by exists r'.
Qed.
End ReadAll.

Lemma GetData_run main h : writable main h -> GetData_ h = Ok (header_bytes h).
Proof.
  intros [Hwf Hp Hf _ _]. unfold GetData_.
  destruct (emits_header (W:=offsetTrackingWriter ArrayWriter) h Hwf Hp Hf
    (NewOffsetTrackingWriter NewArrayWriter)) as (w & -> & _ & Hw & _); [done|].
  change (aw_Data (otw_writer w)) with (written w). by rewrite Hw.
Qed.

(** ** Verification *)

Section Verify.
Context `{OpenPGP} `{Hashes} `{Runtime} {P : Type} `{ReaderWithOffset P}.

(** The signature in [e], if there is one, is good for [data]. *)
Definition accepts (keys : EntityList) (e : option IndexEntry) (data : list Z) : Prop :=
  match e with
  | None => True
  | Some e => exists ent, CheckDetachedSignature keys data (ie_payload e) = Ok ent
  end.

(** The two forms of a signature over the main header only, and the two over main
    header and payload. *)
Definition v4_accepts (keys : EntityList) (sig : RpmHeader) (header : list Z) : Prop :=
  (is_Some (find_entry SigTagRSAHeader sig) \/ is_Some (find_entry SigTagDSAHeader sig)) /\
  accepts keys (find_entry SigTagRSAHeader sig) header /\
  accepts keys (find_entry SigTagDSAHeader sig) header.

Definition v3_accepts (keys : EntityList) (sig : RpmHeader) (data : list Z) : Prop :=
  (is_Some (find_entry SigTagPGP sig) \/ is_Some (find_entry SigTagGPG sig)) /\
  (exists e, find_entry SigTagMD5 sig = Some e /\ ie_payload e = md5 data) /\
  accepts keys (find_entry SigTagPGP sig) data /\ accepts keys (find_entry SigTagGPG sig) data.

Abbreviation verifier := (SignatureVerifierImpl (P:=P)).

Lemma check_signature_run e data msg (v : verifier) :
  (check_signature e data msg v).2 = v /\
  ((check_signature e data msg v).1 = Ok tt <-> accepts (gpgPublicKeys v) e data).
Proof.
  unfold check_signature, accepts, VerifySignature. destruct e as [e|]; [|done].
  destruct (CheckDetachedSignature _ _ _) as [ent|x|x|]; simpl; (split; [done|]);
    (split; [by intros [=]; eexists|by intros [? [=]]]).
Qed.

Lemma check_signatures_run e1 e2 data m1 m2 (v : verifier) :
  ((_ ← check_signature e1 data m1; check_signature e2 data m2) v).2 = v /\
  (((_ ← check_signature e1 data m1; check_signature e2 data m2) v).1 = Ok tt <->
   accepts (gpgPublicKeys v) e1 data /\ accepts (gpgPublicKeys v) e2 data).
Proof.
  destruct (check_signature_run e1 data m1 v) as [Hs1 Hr1], (check_signature_run e2 data m2 v) as [Hs2 Hr2].
  rewrite <- Hr1, <- Hr2. unfold mbind, M_bind.
  destruct (check_signature e1 data m1 v) as [[[]|x|x|] v1]; simpl in *; subst v1; try done; split;
    try done; split; try done; tauto || by intros [[=] _].
Qed.

(** What a verifier keeps. *)
Definition same_verifier (v v' : verifier) : Prop :=
  rpmFile v' = rpmFile v /\ gpgPublicKeys v' = gpgPublicKeys v /\ src (mainHeaderData v') = src (mainHeaderData v).

Lemma headerData_run fuel (v : verifier) :
  (length (src (mainHeaderData v)) + 1 < fuel)%nat ->
  exists d, (_ ← on_mainHeaderData (modify Rewind); on_mainHeaderData (ReadAll fuel)) v =
    (Ok (src (mainHeaderData v)), mkVerifier (rpmFile v) d (payloadReader v) (gpgPublicKeys v)) /\
    src d = src (mainHeaderData v).
Proof.
  intros Hf. set (d0 := Rewind (mainHeaderData v)).
  rewrite (M_bind_ok _ _ v tt (mkVerifier (rpmFile v) d0 (payloadReader v) (gpgPublicKeys v))) by done.
  destruct (ReadAll_run (R:=arrayReader) fuel d0) as (d & Hrun & _ & _); [done|simpl; lia|].
  unfold on_mainHeaderData. cbn [mainHeaderData]. rewrite Hrun. exists d. split; [done|].
  assert (forall fuel buf cap (r : arrayReader), src (ReadAllLoop fuel buf cap r).2 = src r) as Hsrc.
  { clear. intros fuel. induction fuel as [|fuel IH]; intros buf cap r; [done|]. cbn [ReadAllLoop].
    unfold ioRead, reader_as_ioreader. simpl.
    assert (forall n, src (arrayReader_Read n r).2 = src r) as Hr.
    { intros n. unfold arrayReader_Read. by case_match. }
    specialize (Hr (cap - length buf)%nat). destruct (arrayReader_Read _ r) as [[bs [[|e]|]] r']; simpl in *; try done.
    by rewrite IH. }
  pose proof (Hsrc fuel [] 512%nat d0) as Hs. unfold ReadAll in Hrun. by rewrite Hrun in Hs.
Qed.

Lemma VerifyV4_run fuel (v : verifier) :
  (length (src (mainHeaderData v)) + 1 < fuel)%nat ->
  ((VerifyV4Signature fuel v).1 = Ok tt <->
   v4_accepts (gpgPublicKeys v) (SignatureHeader (rpmFile v)) (src (mainHeaderData v))) /\
  same_verifier v (VerifyV4Signature fuel v).2 /\
  payloadReader (VerifyV4Signature fuel v).2 = payloadReader v.
Proof.
  intros Hf. unfold VerifyV4Signature, v4_accepts. erewrite M_bind_ok by done. cbv beta zeta.
  set (sig := SignatureHeader (rpmFile v)). set (rsa := find_entry SigTagRSAHeader sig).
  set (dsa := find_entry SigTagDSAHeader sig).
  destruct (headerData_run fuel v Hf) as (d & Hrun & Hsrc).
  set (v1 := mkVerifier (rpmFile v) d (payloadReader v) (gpgPublicKeys v)) in Hrun.
  assert (forall m : list Z -> M verifier unit,
    (_ ← on_mainHeaderData (modify Rewind); hd ← on_mainHeaderData (ReadAll fuel); m hd) v =
    m (src (mainHeaderData v)) v1) as Hread.
  { intros m. rewrite <- (M_bind_assoc _ _ m). by rewrite (M_bind_ok _ _ _ _ _ Hrun). }
  destruct (check_signatures_run rsa dsa (src (mainHeaderData v)) None None v1) as [Hst Hres].
  destruct rsa as [e1|] eqn:Er, dsa as [e2|] eqn:Ed; cbv iota;
    rewrite ?Hread, ?Hst, ?Hres; split_and!; try done.
  1-3: split; [intros Ha; split; [eauto|exact Ha]|by intros [_ Ha]].
  split; [done|]. by intros [[[? [=]]|[? [=]]] _].
Qed.

Lemma VerifyV3_run `{!LawfulReader P} fuel (v : verifier) :
  (length (src (mainHeaderData v)) + 1 < fuel)%nat -> (length (rest (payloadReader v)) + 1 < fuel)%nat ->
  valid (payloadReader v) ->
  ((VerifyV3Signature fuel v).1 = Ok tt <->
   v3_accepts (gpgPublicKeys v) (SignatureHeader (rpmFile v)) (src (mainHeaderData v) ++ rest (payloadReader v))) /\
  same_verifier v (VerifyV3Signature fuel v).2.
Proof.
  intros Hf Hfp Hvp. unfold VerifyV3Signature, v3_accepts. erewrite M_bind_ok by done. cbv beta zeta.
  set (sig := SignatureHeader (rpmFile v)). set (pgp := find_entry SigTagPGP sig).
  set (gpg := find_entry SigTagGPG sig). set (hd := src (mainHeaderData v)). set (data := hd ++ rest (payloadReader v)).
  destruct (headerData_run fuel v Hf) as (d & Hrun & Hsrc). fold hd in Hrun, Hsrc.
  destruct (ReadAll_run fuel (payloadReader v) Hfp Hvp) as (p & Hp & _ & _).
  set (v1 := mkVerifier (rpmFile v) d (payloadReader v) (gpgPublicKeys v)) in Hrun.
  set (v2 := mkVerifier (rpmFile v) d p (gpgPublicKeys v)).
  assert (forall m : list Z -> list Z -> M verifier unit,
    (_ ← on_mainHeaderData (modify Rewind); hd ← on_mainHeaderData (ReadAll fuel);
     pl ← on_payloadReader (ReadAll fuel); m hd pl) v = m hd (rest (payloadReader v)) v2) as Hread.
  { intros m. rewrite <- M_bind_assoc, (M_bind_ok _ _ _ _ _ Hrun).
    apply M_bind_ok. unfold on_payloadReader. simpl. by rewrite Hp. }
  destruct (check_signatures_run pgp gpg data (Some "RPMSIGTAG_PGP verification failure")
    (Some "RPMSIGTAG_GPG verification failure") v2) as [Hst Hres]. simpl gpgPublicKeys in Hres.
  destruct (decide (is_Some pgp \/ is_Some gpg)) as [Hsome|Hnone]; cycle 1.
  { destruct pgp; [by destruct Hnone; left|]. destruct gpg; [by destruct Hnone; right|].
    split; [|done]. split; [done|tauto]. }
  assert (forall a b : M verifier unit,
    match pgp, gpg with None, None => a | _, _ => b end = b) as ->.
  { intros. destruct pgp, gpg; try done. by destruct Hsome as [[? [=]]|[? [=]]]. }
  destruct (find_entry SigTagMD5 sig) as [m|]; cycle 1.
  { split; [|done]. split; [done|]. by intros (_ & (? & [=] & _) & _). }
  rewrite Hread. fold data. destruct (decide (md5 data = ie_payload m)) as [Hm|Hm].
  - rewrite bool_decide_eq_true_2 by done. cbn [negb]. rewrite Hst, Hres. split; [|done].
    split; [intros Ha; split_and!; [done|by exists m|apply Ha..]|by intros (_ & _ & Ha)].
  - rewrite bool_decide_eq_false_2 by done. split; [|done]. split; [done|].
    intros (_ & (? & [= <-] & Hm') & _). by destruct Hm.
Qed.
End Verify.

(** ** Lookups through the abstract header *)

Lemma find_entry_contents {T} `{TagValue T} (t : T) h :
  header_base h -> item_of <$> find_entry t h = contents (entries h) !! ID t.
Proof.
  intros Hb. rewrite find_tag_contents by apply sorted_nodup, Hb. done.
Qed.

Lemma find_entry_user {T} `{TagValue T} (t : T) h :
  header_base h -> ID t <> trailer_tag h -> item_of <$> find_entry t h = user_entries h !! ID t.
Proof.
  intros Hb Ht. unfold user_entries. rewrite lookup_delete_ne by done. by apply find_entry_contents.
Qed.

(** Two entries with the same item have the same values. *)
Lemma StringValue_item e e' : item_of e = item_of e' -> StringValue e = StringValue e'.
Proof. intros [= Hf Hc Hp]. unfold StringValue. by rewrite Hf, Hp. Qed.

Lemma Int32Value_item e e' : item_of e = item_of e' -> Int32Value e = Int32Value e'.
Proof. intros [= Hf Hc Hp]. unfold Int32Value. by rewrite Hf, Hp. Qed.

Lemma reserved_present h :
  trailer_tag h <> TAG_RESERVEDSPACE ->
  is_Some (user_entries h !! TAG_RESERVEDSPACE) -> TAG_RESERVEDSPACE ∈ ie_tag <$> entries h.
Proof.
  intros Ht [it Hit]. unfold user_entries in Hit. rewrite lookup_delete_ne in Hit by done.
  apply contents_Some in Hit as (e & He & <- & _). by apply list_elem_of_fmap_2.
Qed.

(** ** Signing *)

Section Sign.
Context `{OpenPGP} `{Runtime}.

(** The tag a key's signature is stored under, and the one it replaces. *)
Definition signature_tags (key : PrivateKey) : option (SignatureTagValue * SignatureTagValue) :=
  if bool_decide (GetKeyType key = KEY_TYPE_RSA) then Some (SigTagRSAHeader, SigTagDSAHeader)
  else if bool_decide (GetKeyType key = KEY_TYPE_DSA) then Some (SigTagDSAHeader, SigTagRSAHeader)
  else None.

(** The signature can be stored: there is room, and a signature that is already
    there is binary and is not outgrown unless there is reserved space. *)
Record signable (sig : RpmHeader) (tag : SignatureTagValue) (data : list Z) : Prop := {
  sg_wf : header_wf sig;
  sg_packed : packed sig;
  sg_main : IsMainHeader sig = false;
  sg_room : room sig data;
  sg_data : data <> [];
  sg_bytes : bytes_ok data;
  sg_replace it : user_entries sig !! ID tag = Some it ->
    it_format it = FORMAT_TYPE_BINARY /\
    (Zlen data <= Zlen (it_payload it) \/ is_Some (user_entries sig !! TAG_RESERVEDSPACE));
}.

(** The items of a signature header without the signatures that signing removes. *)
Definition unsigned_items (other : SignatureTagValue) (u : gmap Z item) : gmap Z item :=
  delete (ID SigTagGPG) (delete (ID SigTagPGP5) (delete (ID SigTagPGP) (delete (ID other) u))).

Record signed_header (sig sig' : RpmHeader) (tag other : SignatureTagValue) (data : list Z) : Prop := {
  sh_wf : header_wf sig';
  sh_packed : packed sig';
  sh_frame : frame sig' = frame sig;
  sh_user : delete TAG_RESERVEDSPACE (user_entries sig') =
    <[ID tag := mkItem FORMAT_TYPE_BINARY (Zlen data) data]>
      (delete TAG_RESERVEDSPACE (unsigned_items other (user_entries sig)));
  sh_trailer n : fix_trailer false n (trailer_of sig') = fix_trailer false n (trailer_of sig);
  sh_kept : kept sig sig';
  sh_fits : fits sig' 0;
}.

(** A computation on the signature header ends with [h]. *)
Lemma on_SignatureHeader_ok {A} (m : M RpmHeader A) f a h :
  m (SignatureHeader f) = (Ok a, h) ->
  on_SignatureHeader m f =
    (Ok a, mkRpmFile (Lead f) h (MainHeader f) (PayloadStartOffset f) (CompressedPayloadSize f)).
Proof. intros Hm. unfold on_SignatureHeader. by rewrite Hm. Qed.

(** What a run of deletions has left of a header. *)
Record stripped (h h' : RpmHeader) (u : gmap Z item) : Prop := {
  sp_wf : header_wf h';
  sp_packed : packed h';
  sp_frame : frame h' = frame h;
  sp_user : user_entries h' = u;
  sp_trailer n : fix_trailer (IsMainHeader h) n (trailer_of h') = fix_trailer (IsMainHeader h) n (trailer_of h);
  sp_kept : kept h h';
  sp_size : total_size (entries h') <= total_size (entries h);
}.

Lemma stripped_delete (t : SignatureTagValue) h h1 u :
  stripped h h1 u -> fits h 0 -> ID t <> trailer_tag h ->
  exists h2, DeleteIndexEntryIfExists t h1 = (Ok tt, h2) /\ stripped h h2 (delete (ID t) u).
Proof.
  intros [Hwf Hp Hf Hu Ht Hk Hs] Hfit Hne. unfold fits in Hfit.
  destruct (Delete_run t h1) as (h2 & Hrun & ? & ? & Hf2 & _ & Hu2 & Ht2 & Hk2 & ?); [done|done| |unfold fits; lia|].
  { by rewrite (frame_trailer_tag _ _ Hf). }
  exists h2. split; [done|]. constructor; try done.
  - by rewrite Hf2.
  - by rewrite Hu2, Hu.
  - intros n. rewrite <- Ht, <- (frame_main _ _ Hf). apply Ht2.
  - by etrans.
  - lia.
Qed.

Lemma sign_header_run sig tag other data :
  (tag, other) ∈ [(SigTagRSAHeader, SigTagDSAHeader); (SigTagDSAHeader, SigTagRSAHeader)] ->
  signable sig tag data ->
  exists h1 h2 h3 h4 sig',
    DeleteIndexEntryIfExists other sig = (Ok tt, h1) /\
    DeleteIndexEntryIfExists SigTagPGP h1 = (Ok tt, h2) /\
    DeleteIndexEntryIfExists SigTagPGP5 h2 = (Ok tt, h3) /\
    DeleteIndexEntryIfExists SigTagGPG h3 = (Ok tt, h4) /\
    SetOrAddIndexEntry tag FORMAT_TYPE_BINARY (u32 (Zlen data)) data h4 = (Ok tt, sig') /\
    signed_header sig sig' tag other data.
Proof.
  intros Htags [Hwf Hp Hm Hroom Hne Hb Hrep].
  assert (trailer_tag sig = 62) as Htt by (unfold trailer_tag; by rewrite Hm).
  pose proof (total_size_nonneg (entries sig)). pose proof (Zlen_nonneg data). pose proof (Zlen_pos _ Hne).
  unfold room, fits in Hroom.
  assert (fits sig 0) as Hfit by (unfold fits; lia).
  assert (stripped sig sig (user_entries sig)) as S0 by (constructor; done).
  assert (ID tag <> 62 /\ ID tag <> 63 /\ ID tag <> 1008 /\ in_width 32 (ID tag) /\ ID tag <> ID other /\
    ID tag <> 1002 /\ ID tag <> 1005 /\ ID tag <> 1006 /\ ID other <> 62 /\ ID other <> 1008) as Hids.
  { rewrite !elem_of_cons in Htags. by destruct Htags as [[= -> ->]|[[= -> ->]|?%not_elem_of_nil]]. }
  destruct Hids as (Ht1 & Ht2 & Ht3 & Htw & Hto & Hta & Htb & Htc & Ho1 & Ho2).
  destruct (stripped_delete other _ _ _ S0 Hfit) as (h1 & E1 & S1); [by rewrite Htt|].
  destruct (stripped_delete SigTagPGP _ _ _ S1 Hfit) as (h2 & E2 & S2); [by rewrite Htt|].
  destruct (stripped_delete SigTagPGP5 _ _ _ S2 Hfit) as (h3 & E3 & S3); [by rewrite Htt|].
  destruct (stripped_delete SigTagGPG _ _ _ S3 Hfit) as (h4 & E4 & [W4 P4 F4 U4 T4 K4 Z4]); [by rewrite Htt|].
  fold (unsigned_items other (user_entries sig)) in U4.
  assert (trailer_tag h4 = 62) as Htt4 by (by rewrite (frame_trailer_tag _ _ F4)).
  assert (user_entries h4 !! ID tag = user_entries sig !! ID tag) as Hlk.
  { rewrite U4. unfold unsigned_items. by rewrite !lookup_delete_ne by done. }
  assert (user_entries h4 !! TAG_RESERVEDSPACE = user_entries sig !! TAG_RESERVEDSPACE) as Hlr.
  { rewrite U4. unfold unsigned_items. by rewrite !lookup_delete_ne by done. }
  rewrite wrap_small by (unfold in_width; lia).
  assert (storable h4 (ID tag) FORMAT_TYPE_BINARY (Zlen data) data) as Hst.
  { assert (known_format FORMAT_TYPE_BINARY) as Hkf by by apply (bool_decide_unpack _).
    split; [exact Htw|by rewrite Htt4|exact Ht3|exact Ht1|exact Hkf|unfold in_width; lia|exact Hne|exact Hb]. }
  destruct (SetOrAddIndexEntry_stored tag FORMAT_TYPE_BINARY (Zlen data) data h4) as (sig' & E5 & Hs);
    [done|done|done|unfold room, fits; lia| |].
  { intros e He. pose proof (find_entry_user tag h4 (hw_base _ W4)) as Hfe. rewrite He, Hlk in Hfe.
    destruct (Hrep (item_of e)) as [Hfm Hcase]; [symmetry; apply Hfe; by rewrite Htt4|].
    split; [done|]. destruct Hcase as [|Hr]; [by left|right; right].
    apply reserved_present; [by rewrite Htt4|by rewrite Hlr]. }
  exists h1, h2, h3, h4, sig'. split_and!; try done. destruct Hs as [Ws Ps Fs _ Us Ts Ks Zs].
  pose proof (frame_main _ _ F4) as Hm4. rewrite Hm in T4, Hm4. rewrite Hm4 in Ts. constructor; try done.
  - by rewrite Fs.
  - by rewrite Us, U4.
  - intros n. by rewrite Ts.
  - by etrans.
  - unfold fits. simpl in Zs. lia.
Qed.

(** [SignRpm] signs what the digest of the main header has hashed. *)
Lemma SignRpm_run now key f tag other data d' :
  signature_tags key = Some (tag, other) ->
  SignDigest now key (Sha256Digest (MainHeader f)) = (Ok data, d') ->
  signable (SignatureHeader f) tag data ->
  exists sig', signed_header (SignatureHeader f) sig' tag other data /\
    SignRpm now key f =
      (Ok tt, mkRpmFile (Lead f) sig' (set_Sha256Digest d' (MainHeader f))
                (PayloadStartOffset f) (CompressedPayloadSize f)).
Proof.
  intros Htags Hsign Hok.
  assert ((tag, other) ∈ [(SigTagRSAHeader, SigTagDSAHeader); (SigTagDSAHeader, SigTagRSAHeader)]) as Hin.
  { unfold signature_tags in Htags. rewrite !elem_of_cons. repeat case_match; simplify_eq; auto. }
  destruct (sign_header_run _ tag other data Hin Hok) as (h1 & h2 & h3 & h4 & sig' & E1 & E2 & E3 & E4 & E5 & Hs).
  exists sig'. split; [done|]. unfold SignRpm. cbv zeta.
  set (main := set_Sha256Digest d' (MainHeader f)).
  set (file h := mkRpmFile (Lead f) h main (PayloadStartOffset f) (CompressedPayloadSize f)).
  rewrite (M_bind_ok _ _ _ data (file (SignatureHeader f)))
    by (unfold wrap_err, on_Sha256Digest; by rewrite Hsign).
  assert (forall {A} (m : M RpmHeader A) h a h', m h = (Ok a, h') ->
    on_SignatureHeader m (file h) = (Ok a, file h')) as Hon.
  { intros A m h a h' Hm. by rewrite (on_SignatureHeader_ok m (file h) a h'). }
  rewrite (M_bind_ok _ _ _ tag (file h1)); cycle 1.
  { unfold signature_tags in Htags.
    destruct (bool_decide (GetKeyType key = KEY_TYPE_RSA)) eqn:Ek; simplify_eq.
    - by rewrite (M_bind_ok _ _ _ _ _ (Hon _ _ _ _ _ E1)).
    - destruct (bool_decide (GetKeyType key = KEY_TYPE_DSA)); simplify_eq.
      by rewrite (M_bind_ok _ _ _ _ _ (Hon _ _ _ _ _ E1)). }
  rewrite (M_bind_ok _ _ _ _ _ (Hon _ _ _ _ _ E2)), (M_bind_ok _ _ _ _ _ (Hon _ _ _ _ _ E3)),
    (M_bind_ok _ _ _ _ _ (Hon _ _ _ _ _ E4)).
  exact (Hon _ _ _ _ _ E5).
Qed.

(** ** The signed header can be written and parsed *)

Lemma last_encode_strings ss : encode_strings ss <> [] -> last (encode_strings ss) = Some 0.
Proof.
  intros Hne. destruct (decide (ss = [])) as [->|Hs]; [done|].
  destruct (exists_last Hs) as (ss' & s & ->). unfold encode_strings.
  rewrite fmap_app, join_app. simpl. rewrite app_nil_r, app_assoc. apply last_snoc.
Qed.

(** A trailer is not a list of strings, so only its length matters. *)
Lemma trailer_payload_ok f c n m : payload_ok f c (trailer_payload n) -> payload_ok f c (trailer_payload m).
Proof.
  intros [Hf Hl|k Hk Hl|ss Hf Hp _ _ _].
  - by eapply payload_char.
  - by eapply payload_int.
  - exfalso. pose proof (last_encode_strings ss) as Hlast. rewrite <- Hp in Hlast.
    specialize (Hlast ltac:(done)). done.
Qed.

Lemma region_payload_trailer n m : region_payload n (trailer_payload m) = trailer_payload n.
Proof. done. Qed.

Lemma region_payload_current n p :
  length p = 16%nat -> take 4 (drop 8 p) = be32 (u32 (- (16 * n))) -> region_payload n p = p.
Proof.
  intros Hl Hc. unfold region_payload. rewrite <- Hc.
  rewrite <- (take_drop 8 p) at 4. f_equal. rewrite <- (take_drop 4 (drop 8 p)) at 2. f_equal.
  by rewrite drop_drop.
Qed.

(** [codec_ok], told of the items. *)
Lemma codec_ok_items h :
  header_base h -> Magic h = headerMagic -> length (reserved h) = 4%nat ->
  (forall t it, user_entries h !! t = Some it -> payload_ok (it_format it) (it_count it) (it_payload it)) ->
  (forall it, trailer_of h = Some it -> payload_ok (it_format it) (it_count it) (it_payload it) /\
     (IsMainHeader h = false -> it_payload it = trailer_payload (Zlen (entries h)))) ->
  codec_ok h.
Proof.
  intros Hb Hm Hr Hu Ht.
  assert (forall e, e ∈ entries h -> contents (entries h) !! ie_tag e = Some (item_of e)) as Hin.
  { intros e He. apply contents_in; [apply sorted_nodup, Hb|done]. }
  constructor; [done|done| |].
  - apply Forall_forall. intros e He. specialize (Hin e He).
    destruct (decide (ie_tag e = trailer_tag h)) as [Hte|Hte].
    + rewrite Hte in Hin. apply (Ht _ Hin).
    + apply (Hu (ie_tag e) (item_of e)). unfold user_entries. by rewrite lookup_delete_ne.
  - intros e Hmain He Hte. specialize (Hin e He). apply (Ht (item_of e)); [|done].
    unfold trailer_of, trailer_tag. rewrite Hmain. by rewrite <- Hin, Hte.
Qed.

Lemma codec_ok_entry h t it :
  codec_ok h -> contents (entries h) !! t = Some it -> payload_ok (it_format it) (it_count it) (it_payload it).
Proof.
  intros Hck (e & He & _ & <-)%contents_Some. pose proof (ck_payloads _ Hck) as Hall.
  rewrite Forall_forall in Hall. by apply Hall.
Qed.

Lemma codec_ok_current h : codec_ok h -> region_current h.
Proof.
  intros Hck Hm it. unfold trailer_of, trailer_tag. rewrite Hm. intros (e & He & Ht & <-)%contents_Some.
  simpl. by rewrite (ck_trailer _ Hck e Hm He Ht).
Qed.

Lemma codec_ok_signed sig sig' tag other data :
  signed_header sig sig' tag other data -> header_base sig -> codec_ok sig -> reserved_binary sig ->
  IsMainHeader sig = false -> codec_ok sig'.
Proof.
  intros [Hwf Hp Hf Hu Ht Hk Hfit] Hb Hck Hrb Hm.
  pose proof (frame_main _ _ Hf) as Hm'. rewrite Hm in Hm'.
  apply codec_ok_items.
  - apply Hwf.
  - transitivity (Magic sig); [by injection Hf|apply Hck].
  - rewrite <- (ck_reserved _ Hck). by injection Hf as _ _ ->.
  - intros t it Hit. destruct (decide (t = TAG_RESERVEDSPACE)) as [->|Hne].
    + rewrite (kp_reserved _ _ Hk Hrb it Hit).
      unfold user_entries in Hit. rewrite lookup_delete_ne in Hit by (unfold trailer_tag; by rewrite Hm').
      apply contents_Some in Hit as (e & He & Hte & <-).
      pose proof (hb_entries _ (hw_base _ Hwf)) as Hall. rewrite Forall_forall in Hall.
      pose proof (ew_reserved _ _ (Hall e He) Hte) as Hcnt.
      apply (payload_int _ _ _ 1); [set_solver|]. simpl. lia.
    + assert (delete TAG_RESERVEDSPACE (user_entries sig') !! t = Some it) as Hd
        by (by rewrite lookup_delete_ne).
      rewrite Hu in Hd. apply lookup_insert_Some in Hd as [[<- <-]|[_ Hd]].
      * apply (payload_int _ _ _ 1); [set_solver|]. simpl. lia.
      * unfold unsigned_items, user_entries in Hd. repeat apply lookup_delete_Some in Hd as [_ Hd]. by apply (codec_ok_entry sig t).
  - intros it Hit. set (n := Zlen (entries sig')).
    pose proof (trailer_length sig' it (hw_base _ Hwf) Hm' Hit) as Hlen.
    pose proof (kp_region _ _ Hk (codec_ok_current _ Hck) Hm' it Hit) as Hcur.
    specialize (Ht n). rewrite Hit in Ht. simpl in Ht. symmetry in Ht.
    apply fmap_Some in Ht as (it0 & Hit0 & Heq). injection Heq as Hfm Hcn Hpl.
    rewrite region_payload_current in Hpl by done.
    assert (exists m, it_payload it0 = trailer_payload m) as [m Hm0].
    { unfold trailer_of, trailer_tag in Hit0. rewrite Hm in Hit0.
      apply contents_Some in Hit0 as (e & He & Hte & <-). eexists. by apply (ck_trailer _ Hck). }
    rewrite Hm0, region_payload_trailer in Hpl. split; [|done].
    rewrite Hfm, Hcn, Hpl. apply (trailer_payload_ok _ _ m). rewrite <- Hm0.
    unfold trailer_of in Hit0. by apply (codec_ok_entry sig (trailer_tag sig)).
Qed.
End Sign.

(** ** Signed files *)

Lemma header_wf_same h h' :
  header_wf h -> IndexEntries h' = IndexEntries h -> indexEntryCount h' = indexEntryCount h ->
  IsMainHeader h' = IsMainHeader h -> signedRegion h' = signedRegion h -> header_wf h'.
Proof.
  intros [[Hc Hs He Hr] Hrc] Hi Hn Hm Hsr.
  constructor; [constructor|]; rewrite ?Hi, ?Hn, ?Hm, ?Hsr; done.
Qed.

Lemma writable_set_Sha256Digest main d h : writable main h -> writable main (set_Sha256Digest d h).
Proof.
  intros [Hwf Hp Hf Hc Hm]. constructor; try done; [by apply (header_wf_same h)|].
  by destruct Hc; constructor.
Qed.

Lemma writable_parsed `{Runtime} main bs off h :
  writable main h -> writable main (with_digests bs (parsed_header off h)).
Proof.
  intros [Hwf Hp Hf Hc Hm]. constructor; try done; [|by destruct Hc; constructor].
  destruct Hwf as [[Hn Hs He _] _]. constructor; [constructor|]; try done.
  - simpl. unfold parsed_region. intros [r Hr]. destruct (existsb _ _) eqn:Ex; [|done].
    apply existsb_exists in Ex as (e & Hin & Ht). unfold is_trailer in Ht.
    apply andb_true_iff in Ht as [Hmain%negb_true_iff Htag%Z.eqb_eq].
    split; [done|]. change 62 with (ID SigTagHeaderSignatures). rewrite <- Htag. apply list_elem_of_fmap_2. by apply list_elem_of_In.
  - intros r. simpl. unfold parsed_region. by destruct (existsb _ _); intros [= <-].
Qed.

Section Files.
Context `{OpenPGP} `{Hashes} `{Runtime}.

(** The entries signing does not touch keep their items. *)
Lemma signed_lookup {T} `{TagValue T} (t : T) sig sig' tag other data :
  signed_header sig sig' tag other data -> header_base sig -> IsMainHeader sig = false ->
  ID t ∉ [ID tag; ID other; 1002; 1006; 1005; TAG_RESERVEDSPACE; TAG_HEADERSIGNATURES] ->
  item_of <$> find_entry t sig' = item_of <$> find_entry t sig.
Proof.
  intros [Hwf _ Hf Hu _ _ _] Hb Hm Hnot. rewrite !not_elem_of_cons in Hnot.
  destruct Hnot as (N1 & N2 & N3 & N4 & N5 & N6 & N7 & _).
  assert (trailer_tag sig = TAG_HEADERSIGNATURES) as Htt by (unfold trailer_tag; by rewrite Hm).
  pose proof (frame_trailer_tag _ _ Hf) as Htt'.
  rewrite !find_entry_user by (apply Hwf || done || congruence).
  apply (f_equal (lookup (ID t))) in Hu. revert Hu. unfold unsigned_items.
  by rewrite lookup_insert_ne, !lookup_delete_ne by done.
Qed.

(** The tags [ParseRPM] looks at, apart from the trailer. *)
Definition checked_tags : list Z := [269; 273; 1004; 261; 257; 1000].

Lemma same_item_back (o o' : option IndexEntry) e' :
  item_of <$> o' = item_of <$> o -> o' = Some e' -> exists e, o = Some e /\ item_of e = item_of e'.
Proof. intros Ho ->. simpl in Ho. symmetry in Ho. apply fmap_Some in Ho as (e & -> & ->). by exists e. Qed.

Lemma same_item_some (o o' : option IndexEntry) :
  item_of <$> o' = item_of <$> o -> is_Some o -> is_Some o'.
Proof. intros Ho [e ->]. apply (fmap_is_Some item_of). by rewrite Ho. Qed.

Section Signed.
Context (f : RpmFile) (sig' : RpmHeader) (tag other : SignatureTagValue) (data : list Z).
Hypothesis Hf : file_valid f.
Hypothesis Htags : (tag, other) ∈ [(SigTagRSAHeader, SigTagDSAHeader); (SigTagDSAHeader, SigTagRSAHeader)].
Hypothesis Hsh : signed_header (SignatureHeader f) sig' tag other data.

Lemma signed_checked {T} `{TagValue T} (t : T) :
  ID t ∈ checked_tags -> item_of <$> find_entry t sig' = item_of <$> find_entry t (SignatureHeader f).
Proof.
  intros Hin. pose proof (fv_sig _ Hf) as Hs.
  eapply signed_lookup; [exact Hsh|apply (hw_base _ (wr_wf _ _ Hs))|apply (wr_main _ _ Hs)|].
  clear - Hin Htags. rewrite !elem_of_cons in Htags. intros Hx. unfold checked_tags in Hin.
  rewrite !elem_of_cons, elem_of_nil in Hin. repeat rewrite elem_of_cons in Hx. rewrite elem_of_nil in Hx.
  destruct Htags as [[= -> ->]|[[= -> ->]|?%not_elem_of_nil]]; [| |done]; simpl in Hin, Hx; lia.
Qed.

Lemma signed_size_entry :
  exists e v, size_entry sig' = Some e /\ Int32Value e = Ok v.
Proof.
  destruct (fv_size _ Hf) as (e & v & He & Hv). unfold size_entry in *.
  pose proof (signed_checked SigTagSigSize ltac:(by apply (bool_decide_unpack _))) as H1'.
  pose proof (signed_checked SigTagSize ltac:(by apply (bool_decide_unpack _))) as H2'.
  assert (forall o o', item_of <$> o' = item_of <$> o -> o = Some e ->
    exists e' : IndexEntry, o' = Some e' /\ Int32Value e' = Ok v) as Hsame.
  { intros o o' Ho ->. destruct (same_item_some _ _ Ho) as [e' ->]; [done|].
    exists e'. split; [done|]. rewrite <- Hv. apply Int32Value_item. simpl in Ho. congruence. }
  destruct (find_entry SigTagSigSize (SignatureHeader f)) as [e0|] eqn:E1.
  - injection He as ->. destruct (Hsame _ _ H1' eq_refl) as (e' & -> & Hv'). by exists e', v.
  - destruct (find_entry SigTagSigSize sig'); [done|].
    destruct (Hsame _ _ H2' He) as (e' & He' & Hv'). by exists e', v.
Qed.

Lemma signed_digests : digests_match sig' (header_bytes (MainHeader f)).
Proof.
  destruct (fv_digests _ Hf) as [D1 D2 D3].
  assert (forall {T} `{TagValue T} (t : T) e' d, ID t ∈ checked_tags ->
    (forall e, find_entry t (SignatureHeader f) = Some e -> holds_digest e d) ->
    find_entry t sig' = Some e' -> holds_digest e' d) as Hd.
  { intros T HT t e' d Hin Hall He'.
    destruct (same_item_back _ _ e' (signed_checked t Hin) He') as (e & He & Heq).
    destruct (Hall e He) as (s & Hs1 & Hs2). exists s. by rewrite <- (StringValue_item e). }
  constructor.
  - intros e He. refine (Hd _ _ SigTagSHA1Header e _ _ D1 He). by apply (bool_decide_unpack _).
  - intros e He. refine (Hd _ _ SigTagSHA256Header e _ _ D2 He). by apply (bool_decide_unpack _).
  - destruct D3 as [D|[D|[D|D]]]; [left|right; left|right; right; left|right; right; right];
      (eapply same_item_some; [apply signed_checked; by apply (bool_decide_unpack _)|exact D]).
Qed.

Lemma signed_trailer : is_Some (find_entry SigTagHeaderSignatures sig').
Proof.
  pose proof (wr_main _ _ (fv_sig _ Hf)) as Hmain. pose proof (fv_trailer _ Hf) as Htr.
  apply (fmap_is_Some item_of). rewrite find_entry_contents by apply Hsh.
  pose proof (sh_trailer _ _ _ _ _ Hsh 0) as Htl. unfold trailer_of, trailer_tag in Htl.
  rewrite (frame_main _ _ (sh_frame _ _ _ _ _ Hsh)), Hmain in Htl. simpl in Htl |- *.
  apply (fmap_is_Some (fix_item 0)). rewrite Htl. apply fmap_is_Some.
  apply (fmap_is_Some item_of) in Htr. rewrite find_entry_contents in Htr; [done|].
  apply (hw_base _ (wr_wf _ _ (fv_sig _ Hf))).
Qed.

(** A file whose signature header has been signed is still valid. *)
Lemma file_valid_signed d :
  reserved_binary (SignatureHeader f) ->
  file_valid (mkRpmFile (Lead f) sig' (set_Sha256Digest d (MainHeader f))
                (PayloadStartOffset f) (CompressedPayloadSize f)).
Proof.
  intros Hrb. pose proof (fv_sig _ Hf) as Hs. pose proof (wr_main _ _ Hs) as Hmain.
  assert (IsMainHeader sig' = false) as Hmain' by (by rewrite (frame_main _ _ (sh_frame _ _ _ _ _ Hsh))).
  split; simpl.
  - apply Hf.
  - split; [apply Hsh|apply Hsh|apply Hsh| |done].
    eapply codec_ok_signed; try done; [apply (hw_base _ (wr_wf _ _ Hs))|apply Hs].
  - apply writable_set_Sha256Digest, Hf.
  - apply Hf.
  - apply Hf.
  - exact signed_trailer.
  - exact signed_size_entry.
  - exact signed_digests.
Qed.
End Signed.
End Files.

(** ** The versions of the signatures present *)

Definition has_tag {T} `{TagValue T} (t : T) (h : RpmHeader) : Prop := is_Some (find_entry t h).

Lemma FindIndexEntry_find_entry {T} `{TagValue T} (t : T) h : is_Some (FindIndexEntry t h) <-> has_tag t h.
Proof.
  unfold has_tag, find_entry. split.
  - intros [i Hi]. rewrite Hi. destruct (find_tag_lookup _ _ _ Hi) as (e & He & _). simpl. by exists e.
  - intros [e He]. destruct (FindIndexEntry t h); [by eexists|done].
Qed.

Lemma elem_of_Add {T} `{Countable T} (b : bool) (v x : T) (s : gset T) :
  x ∈ (if b then (GoSet.Add v s).2 else s) <-> (b = true /\ x = v) \/ x ∈ s.
Proof.
  unfold GoSet.Add, GoSet.Contains. destruct b; [|by split; [right|intros [[[=] _]|]]].
  case_bool_decide; simpl; [|rewrite elem_of_union, elem_of_singleton; tauto].
  split; [by right|]. by intros [[_ ->]|].
Qed.

Lemma elem_of_GetSignatureVersions v f :
  let sig := SignatureHeader f in
  v ∈ GetSignatureVersions f <->
    (v = SIGNATURE_VERSION_V3 /\ (has_tag SigTagPGP sig \/ has_tag SigTagGPG sig)) \/
    (v = SIGNATURE_VERSION_V4 /\ (has_tag SigTagRSAHeader sig \/ has_tag SigTagDSAHeader sig)) \/
    (v = SIGNATURE_VERSION_V6 /\ has_tag SigTagOpenPGP sig).
Proof.
  intros sig. unfold GetSignatureVersions. rewrite !elem_of_Add, !orb_true_iff, !bool_decide_eq_true.
  rewrite !FindIndexEntry_find_entry. unfold GoSet.NewSet. fold sig. rewrite elem_of_empty. tauto.
Qed.

Section Versions.
Context `{OpenPGP}.

Lemma has_tag_user {T} `{TagValue T} (t : T) h :
  header_base h -> ID t <> trailer_tag h -> ID t <> TAG_RESERVEDSPACE ->
  has_tag t h <-> is_Some (delete TAG_RESERVEDSPACE (user_entries h) !! ID t).
Proof.
  intros Hb Ht Hr. unfold has_tag. rewrite <- (fmap_is_Some item_of), find_entry_user by done.
  by rewrite lookup_delete_ne.
Qed.

(** After signing there is a signature of version 4 and none of version 3. *)
Lemma signed_versions sig sig' tag other data f :
  (tag, other) ∈ [(SigTagRSAHeader, SigTagDSAHeader); (SigTagDSAHeader, SigTagRSAHeader)] ->
  signed_header sig sig' tag other data -> IsMainHeader sig = false -> SignatureHeader f = sig' ->
  SIGNATURE_VERSION_V4 ∈ GetSignatureVersions f /\ SIGNATURE_VERSION_V3 ∉ GetSignatureVersions f.
Proof.
  intros Htags Hsh Hm Hs. rewrite !elem_of_GetSignatureVersions, Hs.
  pose proof (hw_base _ (sh_wf _ _ _ _ _ Hsh)) as Hb.
  assert (trailer_tag sig' = TAG_HEADERSIGNATURES) as Htt.
  { unfold trailer_tag. by rewrite (frame_main _ _ (sh_frame _ _ _ _ _ Hsh)), Hm. }
  assert (forall t : SignatureTagValue, ID t <> 62 -> ID t <> 1008 ->
    (has_tag t sig' <-> is_Some ((<[ID tag := mkItem FORMAT_TYPE_BINARY (Zlen data) data]>
      (delete TAG_RESERVEDSPACE (unsigned_items other (user_entries sig)))) !! ID t))) as Hlk.
  { intros t H1' H2'. rewrite has_tag_user by (done || by rewrite Htt). by rewrite (sh_user _ _ _ _ _ Hsh). }
  rewrite !Hlk by done. rewrite !elem_of_cons in Htags.
  destruct Htags as [[= -> ->]|[[= -> ->]|?%not_elem_of_nil]]; [| |done].
  all: (split; [right; left; split; [done|]|]).
  - left. by rewrite lookup_insert_eq.
  - intros [[_ [[x Hx]|[x Hx]]]|[[[=] _]|[[=] _]]]; unfold unsigned_items in Hx;
      (rewrite lookup_insert_ne, lookup_delete_ne in Hx by done); by simplify_map_eq.
  - right. by rewrite lookup_insert_eq.
  - intros [[_ [[x Hx]|[x Hx]]]|[[[=] _]|[[=] _]]]; unfold unsigned_items in Hx;
      (rewrite lookup_insert_ne, lookup_delete_ne in Hx by done); by simplify_map_eq.
Qed.
End Versions.

Lemma signature_tags_pair `{OpenPGP} key tag other :
  signature_tags key = Some (tag, other) ->
  (tag, other) ∈ [(SigTagRSAHeader, SigTagDSAHeader); (SigTagDSAHeader, SigTagRSAHeader)].
Proof. unfold signature_tags. rewrite !elem_of_cons. repeat case_match; intros; simplify_eq; auto. Qed.

(** [VerifySignatures], on a verifier for [f]. *)
Lemma VerifySignatures_run `{OpenPGP} `{Hashes} `{Runtime} {P} `{LawfulReader P} f (p : P) keys :
  writable true (MainHeader f) ->
  let header := header_bytes (MainHeader f) in
  exists v, NewSignatureVerifier f p keys = Ok v /\
    forall fuel toVerify, (length header + 1 < fuel)%nat ->
    (SIGNATURE_VERSION_V3 ∈ toVerify -> valid p /\ (length (rest p) + 1 < fuel)%nat) ->
    (VerifySignatures fuel toVerify v).1 = Ok tt <->
     toVerify <> ∅ /\ (SIGNATURE_VERSION_V6 ∉ toVerify) /\
     (SIGNATURE_VERSION_V3 ∈ toVerify -> v3_accepts keys (SignatureHeader f) (header ++ rest p)) /\
     (SIGNATURE_VERSION_V4 ∈ toVerify -> v4_accepts keys (SignatureHeader f) header).
Proof.
  intros Hw header. set (v := mkVerifier f (NewArrayReader header) p keys).
  exists v. split; [unfold NewSignatureVerifier; by rewrite (GetData_run true) by done|].
  intros fuel toVerify Hf1 Hf3.
  unfold VerifySignatures, GoSet.IsEmpty, GoSet.Size, GoSet.Contains.
  destruct (decide (toVerify = ∅)) as [->|Hne].
  { rewrite size_empty. split; [done|tauto]. }
  destruct (Z.eqb_spec (Z.of_nat (size toVerify)) 0) as [Hz|_].
  { destruct Hne. apply leibniz_equiv, size_empty_inv. lia. }
  set (m3 := if bool_decide (SIGNATURE_VERSION_V3 ∈ toVerify) then VerifyV3Signature fuel else mret tt).
  assert ((m3 v).1 = Ok tt <-> (SIGNATURE_VERSION_V3 ∈ toVerify -> v3_accepts keys (SignatureHeader f) (header ++ rest p))) as Hm3.
  { unfold m3. case_bool_decide as Hv3; [|split; [done|by intros _]].
    destruct (Hf3 Hv3) as [Hp Hf2]. destruct (VerifyV3_run fuel v Hf1 Hf2 Hp) as [-> _]. tauto. }
  assert (same_verifier v (m3 v).2) as Sm3.
  { unfold m3. case_bool_decide as Hv3; [|done]. destruct (Hf3 Hv3). by apply VerifyV3_run. }
  destruct (m3 v) as [o3 v3] eqn:E3. simpl in Hm3, Sm3. destruct Sm3 as (Ef & Ek & Es).
  pose proof (VerifyV4_run fuel v3) as HV4. rewrite Es, Ef, Ek in HV4. destruct (HV4 Hf1) as [HV4' _].
  set (m4 := if bool_decide (SIGNATURE_VERSION_V4 ∈ toVerify) then VerifyV4Signature fuel else mret tt).
  assert ((m4 v3).1 = Ok tt <-> (SIGNATURE_VERSION_V4 ∈ toVerify -> v4_accepts keys (SignatureHeader f) header)) as Hm4.
  { unfold m4. case_bool_decide; [rewrite HV4'; tauto|]. split; [done|by intros _]. }
  unfold mbind, M_bind. rewrite E3, <- Hm3, <- Hm4.
  destruct o3 as [[]| | |]; [|by split; [|intros (_ & _ & [=] & _)]..].
  destruct (m4 v3) as [[[]| | |] v4]; simpl; [|by split; [|intros (_ & _ & _ & [=])]..].
  unfold VerifyV6Signature, raise, lift, mret, M_ret. case_bool_decide; simpl; [|done].
  split; [done|]. by intros (_ & ? & _).
Qed.

(** The signature that was stored is the only one version 4 verification checks. *)
Lemma signed_v4_accepts `{OpenPGP} keys sig sig' tag other data header :
  (tag, other) ∈ [(SigTagRSAHeader, SigTagDSAHeader); (SigTagDSAHeader, SigTagRSAHeader)] ->
  signed_header sig sig' tag other data -> IsMainHeader sig = false ->
  (exists ent, CheckDetachedSignature keys header data = Ok ent) -> v4_accepts keys sig' header.
Proof.
  intros Htags Hsh Hm Hent. pose proof (hw_base _ (sh_wf _ _ _ _ _ Hsh)) as Hb.
  assert (trailer_tag sig' = TAG_HEADERSIGNATURES) as Htt.
  { unfold trailer_tag. by rewrite (frame_main _ _ (sh_frame _ _ _ _ _ Hsh)), Hm. }
  assert (forall t : SignatureTagValue, ID t <> 62 -> ID t <> 1008 ->
    item_of <$> find_entry t sig' = (<[ID tag := mkItem FORMAT_TYPE_BINARY (Zlen data) data]>
      (delete TAG_RESERVEDSPACE (unsigned_items other (user_entries sig)))) !! ID t) as Hlk.
  { intros t Ht1 Ht2. rewrite find_entry_user by (done || by rewrite Htt).
    rewrite <- (sh_user _ _ _ _ _ Hsh). by rewrite lookup_delete_ne. }
  assert (exists e, find_entry tag sig' = Some e /\ ie_payload e = data) as (e & He & Hpl).
  { specialize (Hlk tag). rewrite lookup_insert_eq in Hlk. apply fmap_Some in Hlk as (e & He & Hit).
    - exists e. split; [done|]. by injection Hit.
    - rewrite !elem_of_cons in Htags. by destruct Htags as [[= -> ->]|[[= -> ->]|?%not_elem_of_nil]].
    - rewrite !elem_of_cons in Htags. by destruct Htags as [[= -> ->]|[[= -> ->]|?%not_elem_of_nil]]. }
  assert (find_entry other sig' = None) as Hno.
  { rewrite !elem_of_cons in Htags.
    destruct Htags as [[= -> ->]|[[= -> ->]|?%not_elem_of_nil]]; [| |done];
      apply (fmap_None item_of); rewrite Hlk by done; unfold unsigned_items;
      (rewrite lookup_insert_ne, lookup_delete_ne by done); by simplify_map_eq. }
  unfold v4_accepts. rewrite !elem_of_cons in Htags.
  destruct Htags as [[= -> ->]|[[= -> ->]|?%not_elem_of_nil]]; [| |done]; rewrite He, Hno; simpl; rewrite Hpl;
    (split_and!; [|done..]); [by left; eexists|by right; eexists].
Qed.

(** ** Properties *)

(** C9. [SignRpm] with an RSA or DSA key stores the signature of what the digest
    of the main header has hashed under the tag for the type of the key, removes
    the signature of the other type and all version 3 signatures, leaves every
    other item but the reserved space and the lead as they were, and the header
    stays well formed and packed. *)
Theorem SignRpm_correct `{OpenPGP} `{Runtime} now key f tag other data d' :
  signature_tags key = Some (tag, other) ->
  SignDigest now key (Sha256Digest (MainHeader f)) = (Ok data, d') ->
  signable (SignatureHeader f) tag data ->
  exists f', SignRpm now key f = (Ok tt, f') /\
    Lead f' = Lead f /\ MainHeader f' = set_Sha256Digest d' (MainHeader f) /\
    signed_header (SignatureHeader f) (SignatureHeader f') tag other data /\
    layout_ok (regionTrailerEntry (SignatureHeader f')) (entries (SignatureHeader f'))
      (storeSizeInBytes (SignatureHeader f')) /\
    SIGNATURE_VERSION_V4 ∈ GetSignatureVersions f' /\ SIGNATURE_VERSION_V3 ∉ GetSignatureVersions f'.
Proof.
  intros Htags Hsign Hok. destruct (SignRpm_run now key f tag other data d' Htags Hsign Hok) as (sig' & Hsh & Hrun).
  eexists. split; [exact Hrun|].
  destruct (signed_versions _ _ _ _ _ (mkRpmFile (Lead f) sig' (set_Sha256Digest d' (MainHeader f))
    (PayloadStartOffset f) (CompressedPayloadSize f)) (signature_tags_pair _ _ _ Htags) Hsh
    (sg_main _ _ _ Hok) eq_refl) as [H4 H3].
  split_and!; try done. apply packed_ok, Hsh.
Qed.

(** C33. [SignRpm] with a key of any other type is an error and leaves the file,
    its digests included, as it was. *)
Theorem SignRpm_other_key `{OpenPGP} `{Runtime} now key f :
  signature_tags key = None ->
  SignRpm now key f =
    (Err "failed to load sign digest: signing requires an RSA or DSA key, got algorithm ID: %d", f).
Proof.
  unfold signature_tags, SignRpm, SignDigest. intros Hk.
  destruct (bool_decide (GetKeyType key = KEY_TYPE_RSA)); [done|].
  destruct (bool_decide (GetKeyType key = KEY_TYPE_DSA)); [done|].
  cbn. unfold mbind, M_bind, wrap_err, on_Sha256Digest. cbn. destruct f as [l s [] ? ?]. done.
Qed.

(** C10. [VerifySignatures] on a file whose main header can be written accepts
    exactly when versions are asked for, version 6 is not among them, and for
    versions 3 and 4, if asked for, a signature is present and every one present
    is good: over the bytes of the main header for version 4; over these bytes and
    the payload for version 3, whose MD5 sum has to match as well. *)
Theorem VerifySignatures_correct `{OpenPGP} `{Hashes} `{Runtime} {P} `{LawfulReader P} f (p : P) keys fuel toVerify :
  writable true (MainHeader f) -> (length (header_bytes (MainHeader f)) + 1 < fuel)%nat ->
  (SIGNATURE_VERSION_V3 ∈ toVerify -> valid p /\ (length (rest p) + 1 < fuel)%nat) ->
  exists v, NewSignatureVerifier f p keys = Ok v /\
    ((VerifySignatures fuel toVerify v).1 = Ok tt <->
     toVerify <> ∅ /\ (SIGNATURE_VERSION_V6 ∉ toVerify) /\
     (SIGNATURE_VERSION_V3 ∈ toVerify ->
        v3_accepts keys (SignatureHeader f) (header_bytes (MainHeader f) ++ rest p)) /\
     (SIGNATURE_VERSION_V4 ∈ toVerify ->
        v4_accepts keys (SignatureHeader f) (header_bytes (MainHeader f)))).
Proof.
  intros Hw Hf1 Hf2. destruct (VerifySignatures_run f p keys Hw) as (v & Hnew & Hv).
  exists v. split; [done|]. by apply Hv.
Qed.

(** C3. Signing works end to end: a valid file is signed and written, whatever
    the writer, and what is written is parsed again, whatever the reader. The
    parsed file has the payload and the main header of the original and its
    signature items with the signature added; it counts as signed with version 4
    and not with version 3; and version 4 verification accepts it with every key
    ring that accepts the signature for the bytes of the main header. *)
Theorem sign_write_parse_verify `{OpenPGP} `{Hashes} `{Runtime} {W P R Q}
    `{LawfulWriter W} `{LawfulReader P} `{LawfulReader R} `{LawfulReader Q}
    fuel now key f tag other data d' keys (w : W) (p : P) (q : Q) :
  file_valid f -> reserved_binary (SignatureHeader f) ->
  Sha256Digest (MainHeader f) = header_bytes (MainHeader f) ->
  signature_tags key = Some (tag, other) ->
  SignDigest now key (header_bytes (MainHeader f)) = (Ok data, d') ->
  signable (SignatureHeader f) tag data ->
  (exists ent, CheckDetachedSignature keys (header_bytes (MainHeader f)) data = Ok ent) ->
  wvalid w -> valid p -> (length (rest p) + 1 < fuel)%nat ->
  exists w' p', SignRpmAndWrite fuel f now key (w, p) = (Ok tt, (w', p')) /\
    forall r : R, valid r -> Offset r = 0 -> written w' = written w ++ rest r ->
    exists f' r' v, ParseRPM false r = (Ok f', r') /\ rest r' = rest p /\
      Lead f' = Lead f /\ entries (MainHeader f') = entries (MainHeader f) /\
      delete TAG_RESERVEDSPACE (user_entries (SignatureHeader f')) =
        <[ID tag := mkItem FORMAT_TYPE_BINARY (Zlen data) data]>
          (delete TAG_RESERVEDSPACE (unsigned_items other (user_entries (SignatureHeader f)))) /\
      SIGNATURE_VERSION_V4 ∈ GetSignatureVersions f' /\ (SIGNATURE_VERSION_V3 ∉ GetSignatureVersions f') /\
      NewSignatureVerifier f' q keys = Ok v /\
      forall fuel', (length (header_bytes (MainHeader f)) + 1 < fuel')%nat ->
        (VerifySignatures fuel' {[ SIGNATURE_VERSION_V4 ]} v).1 = Ok tt.
Proof.
  intros Hf Hrb Hdig Htags Hsign Hok Hent Hw Hp Hfuel.
  rewrite <- Hdig in Hsign.
  destruct (SignRpm_run now key f tag other data d' Htags Hsign Hok) as (sig' & Hsh & Hrun).
  set (f1 := mkRpmFile _ sig' _ _ _) in Hrun.
  pose proof (signature_tags_pair _ _ _ Htags) as Hpair.
  pose proof (file_valid_signed f sig' tag other data Hf Hpair Hsh d' Hrb) as Hf1. fold f1 in Hf1.
  destruct (WriteRPM_run fuel f1 w p (fv_lead _ Hf1) (fv_sig _ Hf1) (fv_main _ Hf1) Hw Hp Hfuel)
    as (w' & p' & Hwrite & Hwr).
  exists w', p'. split; [unfold SignRpmAndWrite; by rewrite Hrun|]. intros r Hr Ho Hrest.
  rewrite Hwr in Hrest. apply app_inv_head in Hrest.
  destruct (ParseRPM_run f1 (rest p) r Hf1 Hr Ho (eq_sym Hrest))
    as (f' & r' & Hparse & _ & Hrest' & HL & HEs & HEm & HS & [off HM] & _).
  assert (entries (SignatureHeader f') = entries sig' /\ trailer_tag (SignatureHeader f') = trailer_tag sig')
    as [He Htt] by (by rewrite HS).
  assert (user_entries (SignatureHeader f') = user_entries sig') as Hu
    by (unfold user_entries; by rewrite He, Htt).
  assert (writable true (MainHeader f')) as Hw'.
  { rewrite HM. apply writable_parsed. exact (fv_main _ Hf1). }
  assert (header_bytes (MainHeader f') = header_bytes (MainHeader f)) as Hhb by (by rewrite HM).
  assert (forall v, v ∈ GetSignatureVersions f' <-> v ∈ GetSignatureVersions f1) as Hver.
  { intros v. rewrite !elem_of_GetSignatureVersions. unfold has_tag. by rewrite !(find_entry_entries _ _ _ He). }
  destruct (signed_versions _ _ _ _ _ f1 Hpair Hsh (sg_main _ _ _ Hok) eq_refl) as [H4' H3'].
  destruct (VerifySignatures_run f' q keys Hw') as (v & Hnew & Hv).
  exists f', r', v. split_and!; try done.
  - rewrite Hu. apply Hsh.
  - by apply Hver.
  - by rewrite Hver.
  - intros fuel' Hfl. rewrite Hhb in Hv.
    assert (forall x, x ∈ ({[ SIGNATURE_VERSION_V4 ]} : gset SignatureVersion) -> x = SIGNATURE_VERSION_V4) as Hx
      by (intros x; apply elem_of_singleton).
    apply Hv; [done|by intros Hin%Hx|]. split_and!; [|by intros Hin%Hx|by intros Hin%Hx|].
    + apply non_empty_singleton_L.
    + intros _. unfold v4_accepts. rewrite !(find_entry_entries _ _ _ He).
      exact (signed_v4_accepts keys (SignatureHeader f) sig' tag other data _ Hpair Hsh (sg_main _ _ _ Hok) Hent).
Qed.

(** ** Witnesses *)

(** A signature scheme of three bytes: the version of the key, its algorithm and
    the sum of what has been hashed. Signing appends two bytes to the hash, as the
    library does with the trailer of the signature. *)
Definition checksum_pgp : OpenPGP := {|
  PrivateKey := Z;
  pk_Version _ := 4;
  pk_PubKeyAlgo key := key;
  pk_KeyId _ := 77;
  PubKeyAlgoRSA := 1;
  PubKeyAlgoRSASignOnly := 3;
  PubKeyAlgoRSAEncryptOnly := 2;
  PubKeyAlgoDSA := 17;
  SigTypeBinary := 0;
  Config_Hash := 5;
  SignedPacket := list Z;
  Sign sig _ d := (Ok [sig_Version sig; sig_PubKeyAlgo sig; u8 (foldr Z.add 0 d)], d ++ [4; 0]);
  Serialize := Ok;
  Entity := unit;
  CheckDetachedSignature _ d s :=
    if bool_decide (last s = Some (u8 (foldr Z.add 0 d))) then Ok tt else Err "bad signature";
|}.

#[local] Existing Instance checksums.
#[local] Existing Instance doubling.
#[local] Existing Instance checksum_pgp.

(** The sample file, as [ParseRPM] returns it: with the digests. *)
Definition sample_parsed_file : RpmFile :=
  set_MainHeader (set_Sha256Digest (header_bytes sample_main) sample_main) sample_file.

Lemma sample_parsed_valid : file_valid sample_parsed_file.
Proof.
  destruct sample_file_valid. split; try done. by apply writable_set_Sha256Digest.
Qed.

Definition sample_rsa_key : PrivateKey := (1 : Z).
Definition sample_ecc_key : PrivateKey := (22 : Z).
Definition sample_keys : EntityList := [tt].
Definition sample_signature_data : list Z :=
  match (SignDigest 0 sample_rsa_key (header_bytes sample_main)).1 with Ok d => d | _ => [] end.
Definition sample_hash_after : list Z := (SignDigest 0 sample_rsa_key (header_bytes sample_main)).2.

Lemma sample_signable : signable sample_signature SigTagRSAHeader sample_signature_data.
Proof.
  split; try reflexivity; [by apply header_wfb_ok|discriminate| |].
  - by apply (bool_decide_unpack _).
  - intros it Hit. by vm_compute in Hit.
Qed.

Lemma sample_reserved_binary : reserved_binary (SignatureHeader sample_parsed_file).
Proof. intros it Hit. by vm_compute in Hit. Qed.

Lemma sign_write_parse_verify_witness :
  exists w' p', SignRpmAndWrite (W:=ArrayWriter) (P:=arrayReader) 10 sample_parsed_file 0 sample_rsa_key (NewArrayWriter, NewArrayReader sample_payload) =
      (Ok tt, (w', p')) /\
    forall r : IOReaderWithOffset chunkedReader, valid r -> Offset r = 0 ->
      written w' = written NewArrayWriter ++ rest r ->
    exists f' r' v, ParseRPM false r = (Ok f', r') /\ rest r' = rest (NewArrayReader sample_payload) /\
      Lead f' = Lead sample_parsed_file /\ entries (MainHeader f') = entries (MainHeader sample_parsed_file) /\
      delete 1008 (user_entries (SignatureHeader f')) =
        <[ID SigTagRSAHeader := mkItem FORMAT_TYPE_BINARY (Zlen sample_signature_data) sample_signature_data]>
          (delete 1008 (unsigned_items SigTagDSAHeader (user_entries (SignatureHeader sample_parsed_file)))) /\
      SIGNATURE_VERSION_V4 ∈ GetSignatureVersions f' /\ (SIGNATURE_VERSION_V3 ∉ GetSignatureVersions f') /\
      NewSignatureVerifier (P:=arrayReader) f' (NewArrayReader []) sample_keys = Ok v /\
      forall fuel', (length (header_bytes (MainHeader sample_parsed_file)) + 1 < fuel')%nat ->
        (VerifySignatures fuel' {[ SIGNATURE_VERSION_V4 ]} v).1 = Ok tt.
Proof.
  apply (sign_write_parse_verify (W:=ArrayWriter) (P:=arrayReader) (R:=IOReaderWithOffset chunkedReader)
    (Q:=arrayReader) 10 0 sample_rsa_key sample_parsed_file SigTagRSAHeader SigTagDSAHeader sample_signature_data
    sample_hash_after sample_keys NewArrayWriter (NewArrayReader sample_payload) (NewArrayReader []));
    [exact sample_parsed_valid|exact sample_reserved_binary|reflexivity|reflexivity|reflexivity
    |exact sample_signable|exists tt; vm_compute; reflexivity|by vm_compute
    |apply Nat.leb_le; reflexivity|apply Nat.ltb_lt; reflexivity].
Defined.

Lemma SignRpm_correct_witness :
  exists f', SignRpm 0 sample_rsa_key sample_parsed_file = (Ok tt, f') /\
    Lead f' = Lead sample_parsed_file /\
    MainHeader f' = set_Sha256Digest sample_hash_after (MainHeader sample_parsed_file) /\
    signed_header (SignatureHeader sample_parsed_file) (SignatureHeader f') SigTagRSAHeader SigTagDSAHeader
      sample_signature_data /\
    layout_ok (regionTrailerEntry (SignatureHeader f')) (entries (SignatureHeader f'))
      (storeSizeInBytes (SignatureHeader f')) /\
    SIGNATURE_VERSION_V4 ∈ GetSignatureVersions f' /\ SIGNATURE_VERSION_V3 ∉ GetSignatureVersions f'.
Proof.
  apply (SignRpm_correct 0 sample_rsa_key sample_parsed_file);
    [reflexivity|reflexivity|exact sample_signable].
Defined.

Lemma SignRpm_other_key_witness :
  SignRpm 0 sample_ecc_key sample_parsed_file =
    (Err "failed to load sign digest: signing requires an RSA or DSA key, got algorithm ID: %d", sample_parsed_file).
Proof. apply (SignRpm_other_key 0 sample_ecc_key sample_parsed_file). reflexivity. Defined.

Lemma VerifySignatures_correct_witness :
  exists v, NewSignatureVerifier (P:=arrayReader) sample_parsed_file (NewArrayReader sample_payload) sample_keys = Ok v /\
    ((VerifySignatures 600 {[ SIGNATURE_VERSION_V3 ]} v).1 = Ok tt <->
     ({[ SIGNATURE_VERSION_V3 ]} : gset SignatureVersion) <> ∅ /\
     (SIGNATURE_VERSION_V6 ∉ ({[ SIGNATURE_VERSION_V3 ]} : gset SignatureVersion)) /\
     (SIGNATURE_VERSION_V3 ∈ ({[ SIGNATURE_VERSION_V3 ]} : gset SignatureVersion) ->
        v3_accepts sample_keys (SignatureHeader sample_parsed_file)
          (header_bytes (MainHeader sample_parsed_file) ++ rest (NewArrayReader sample_payload))) /\
     (SIGNATURE_VERSION_V4 ∈ ({[ SIGNATURE_VERSION_V3 ]} : gset SignatureVersion) ->
        v4_accepts sample_keys (SignatureHeader sample_parsed_file) (header_bytes (MainHeader sample_parsed_file)))).
Proof.
  apply (VerifySignatures_correct (P:=arrayReader) sample_parsed_file (NewArrayReader sample_payload) sample_keys 600
    {[ SIGNATURE_VERSION_V3 ]});
    [exact (fv_main _ sample_parsed_valid)|apply Nat.ltb_lt; vm_compute; reflexivity
    |intros _; split; [apply Nat.leb_le; reflexivity|apply Nat.ltb_lt; reflexivity]].
Defined.
