(* ===== verification/Frame.v ===== *)
(** Two facts about programs that stream ([src/common/serializer.go],
    [src/common/rpmparser.go]): a parser looks only at the bytes it consumes, so
    it returns the same on every input that starts with them; and what a writer is
    sent does not depend on the writer. *)
From S2P Require Import Prelude Utils Bitmap DynArray Serializer Tags Header Layout HeaderSpec HeaderOps.
From S2P Require Import Allocation Payload HeaderCodec Codec HeaderRoundtrip RpmFile FileRoundtrip FileTheorems.

(** ** Parsers look only at what they consume *)

(** When [m] succeeds it has consumed a front [bs] of the stream, and it succeeds
    in the same way whatever follows [bs]. *)
Definition framed {A} (m : M stream A) : Prop :=
  forall s a s', in_width 64 (st_off s) -> m s = (Ok a, s') ->
    in_width 64 (st_off s') /\ exists bs, st_rest s = bs ++ st_rest s' /\
    forall tl, m (mkStream (bs ++ tl) (st_off s)) = (Ok a, mkStream tl (st_off s')).

Create HintDb framed.

Lemma framed_lift {A} (o : outcome A) : framed (lift o).
Proof. intros s a s' Hs [= -> <-]. split; [done|]. by exists []. Qed.

Lemma framed_ret {A} (a : A) : framed (mret a).
Proof. apply (framed_lift (Ok a)). Qed.

Lemma framed_offset : framed offset_.
Proof. intros s a s' Hs [= <- <-]. split; [done|]. by exists []. Qed.

Lemma framed_bind {A B} (m : M stream A) (f : A -> M stream B) :
  framed m -> (forall a, framed (f a)) -> framed (m ≫= f).
Proof.
  intros Hm Hf s b s2 Hs Hrun. apply M_bind_inv in Hrun as (a & s1 & E1 & E2).
  destruct (Hm s a s1 Hs E1) as (Hs1 & b1 & R1 & F1). destruct (Hf a s1 b s2 Hs1 E2) as (Hs2 & b2 & R2 & F2).
  split; [done|]. exists (b1 ++ b2). split; [by rewrite R1, R2, app_assoc|].
  intros tl. rewrite <- app_assoc. by rewrite (M_bind_ok _ _ _ _ _ (F1 (b2 ++ tl))), F2.
Qed.

Lemma framed_fill n : framed (FillBuffer n).
Proof.
  intros s a s' Hs Hrun. rewrite FillBuffer_stream in Hrun by done. unfold fill_result in Hrun.
  destruct (Nat.leb_spec n (length (st_rest s))) as [Hle|]; [|done]. injection Hrun as <- <-. simpl.
  split; [apply wrap_range; lia|]. exists (take n (st_rest s)). split; [by rewrite take_drop|].
  intros tl. apply FillBuffer_app; [|done]. rewrite length_take. lia.
Qed.

Lemma framed_wrap_err {A} prefix (m : M stream A) : framed m -> framed (wrap_err prefix m).
Proof.
  intros Hm s a s' Hs Hrun. unfold wrap_err in Hrun. destruct (m s) as [[x|e|p|] s1] eqn:E; simplify_eq.
  destruct (Hm s a s' Hs E) as (Hs' & bs & R & F). split; [done|]. exists bs. split; [done|].
  intros tl. unfold wrap_err. by rewrite F.
Qed.

#[export] Hint Resolve framed_lift framed_ret framed_offset framed_fill framed_wrap_err : framed.

(** Every step of a program is one of the above. *)
Ltac framed_steps :=
  repeat (apply framed_bind; [solve [eauto with framed]|intros]); eauto with framed.

Lemma framed_readByte : framed readByte.
Proof. unfold readByte, readBytes. framed_steps. Qed.

Lemma framed_readShort : framed readShort.
Proof. unfold readShort, readBytes. framed_steps. Qed.
#[export] Hint Resolve framed_readByte framed_readShort : framed.

Lemma framed_readWord : framed readWord.
Proof. unfold readWord. framed_steps. Qed.
#[export] Hint Resolve framed_readWord : framed.

Lemma framed_advance : framed advanceToNext8ByteBoundary.
Proof.
  intros s a s' Hs Hrun. unfold advanceToNext8ByteBoundary in *.
  rewrite (M_bind_ok _ _ _ (st_off s) s) in Hrun by done.
  rewrite CalcAlignmentByteCount_pow2 in Hrun by (done || by apply (bool_decide_unpack _)).
  pose proof (Z.mod_pos_bound (- st_off s) 8). set (k := (- st_off s) mod 8) in *.
  assert (framed (if negb (k =? 0) then readAhead k else mret tt)) as Hfr.
  { case_match; [|apply framed_ret]. unfold readAhead. case_match; [apply framed_ret|].
    rewrite (proj2 (Z.leb_le _ _)) by (unfold scratchSize; lia). framed_steps. }
  rewrite (M_bind_ok _ _ _ k s) in Hrun by done.
  destruct (Hfr s a s' Hs Hrun) as (Hs' & bs & R & F). split; [done|]. exists bs. split; [done|].
  intros tl. rewrite (M_bind_ok _ _ _ (st_off s) (mkStream (bs ++ tl) (st_off s))) by done.
  rewrite CalcAlignmentByteCount_pow2 by (done || by apply (bool_decide_unpack _)). fold k.
  by rewrite (M_bind_ok _ _ _ k (mkStream (bs ++ tl) (st_off s))) by done.
Qed.

Lemma framed_parseLead : framed parseLead.
Proof. unfold parseLead, readBytes. apply framed_bind; [apply framed_fill|]. intros. case_match; framed_steps. Qed.

Section Framed.
Context `{Runtime} `{Hashes}.

Lemma framed_parseEntries n main acc : framed (parseEntries n main acc).
Proof.
  revert acc. induction n as [|n IH]; intros acc; simpl; [apply framed_ret|].
  apply framed_bind; [unfold parseIndexEntry; framed_steps|]. intros. apply IH.
Qed.
#[local] Hint Resolve framed_parseEntries : framed.

Lemma framed_parseHeaderBody main : framed (parseHeaderBody main).
Proof.
  unfold parseHeaderBody, readBytes. apply framed_bind; [apply framed_offset|]. intros.
  apply framed_bind; [apply framed_fill|]. intros. case_match; [apply framed_lift|].
  repeat (apply framed_bind; [solve [eauto with framed]|intros]). case_match. apply framed_ret.
Qed.

(** The digest readers on top of a stream. *)
Abbreviation digests s :=
  (NewDigestReaderImpl (NewDigestReaderImpl (NewDigestReaderImpl (s : stream) []) []) []).

Lemma view_digests (s : stream) : view (digests s) = s.
Proof. by destruct s. Qed.

(** A run through the digest readers, seen from the stream. *)
Lemma parseMainHeader_stream (s s' : stream) h :
  in_width 64 (st_off s) ->
  parseHeader true s = (Ok h, s') <->
  exists h0 bs, parseHeaderBody true s = (Ok h0, s') /\ h = with_digests bs h0 /\ st_rest s = bs ++ st_rest s'.
Proof.
  intros Hs. assert (valid (digests s)) as Hd by exact Hs.
  destruct (refines_parseHeaderBody true (digests s) Hd) as [Hv Hview]. rewrite view_digests in Hview.
  pose proof (maintains_parseHeaderBody (hashing (st_rest s)) (hashing_maintained (R:=stream) (st_rest s))
    true (digests s)) as Hmt.
  unfold parseHeader, parseMainHeader.
  destruct (parseHeaderBody true (digests s)) as [o d'] eqn:E. simpl in Hview. rewrite Hview.
  destruct Hmt as ((_ & Hall) & E1 & E2); [done|]. simpl in Hall, E1, E2.
  assert (digest d' ++ st_rest (source (source (source d'))) = st_rest s) as Hall' by exact Hall.
  assert (view d' = source (source (source d'))) as Hvd.
  { change (mkStream (st_rest (source (source (source d')))) (st_off (source (source (source d')))) =
      source (source (source d'))). by destruct (source (source (source d'))). }
  rewrite Hvd, E1, E2. split.
  - destruct o as [h0|e|p|]; intros [= <- <-]. exists h0, (digest d'). done.
  - intros (h0 & bs & [= -> <-] & -> & Hbs). rewrite <- Hall' in Hbs. apply app_inv_tail in Hbs as ->. done.
Qed.

Lemma framed_parseMainHeader : framed (parseHeader true).
Proof.
  intros s h s' Hs (h0 & bs & Hrun & -> & Hbs)%parseMainHeader_stream; [|done].
  destruct (framed_parseHeaderBody true s h0 s' Hs Hrun) as (Hs' & bs' & R & F).
  rewrite R in Hbs. apply app_inv_tail in Hbs as ->. split; [done|]. exists bs. split; [done|].
  intros tl. apply parseMainHeader_stream; [done|]. by exists h0, bs.
Qed.

Lemma framed_ParseRPM : framed (ParseRPM false).
Proof.
  unfold ParseRPM. apply framed_bind; [apply framed_parseLead|]. intros lead.
  apply framed_bind.
  { apply framed_bind; [apply framed_parseHeaderBody|]. intros. apply framed_bind; [apply framed_advance|].
    intros. apply framed_ret. }
  intros sig. apply framed_bind; [apply framed_parseMainHeader|]. intros mainh. framed_steps.
Qed.

(** The same from one reader to another. *)
Lemma ParseRPM_frame {R S} `{LawfulReader R} `{LawfulReader S} f (r r' : R) :
  valid r -> ParseRPM false r = (Ok f, r') ->
  exists bs, rest r = bs ++ rest r' /\
    forall (s : S) tl, valid s -> Offset s = Offset r -> rest s = bs ++ tl ->
    exists s', ParseRPM false s = (Ok f, s') /\ valid s' /\ rest s' = tl.
Proof.
  intros Hr Hrun. destruct (refines_ParseRPM r Hr) as [Hv Hview]. rewrite Hrun in Hview. simpl in Hview.
  destruct (framed_ParseRPM (view r) f (view r')) as (_ & bs & Hbs & F); [by apply offset_law|done|].
  exists bs. split; [done|]. intros s tl Hs Ho Hrest.
  destruct (refines_ParseRPM s Hs) as [Hvs Hvw]. specialize (F tl). simpl in F.
  assert (view s = mkStream (bs ++ tl) (Offset r)) as Es by (unfold view; by rewrite Hrest, Ho).
  rewrite Es, F in Hvw. destruct (ParseRPM false s) as [o s'] eqn:E. simpl in *. injection Hvw as Ho' Hr' _.
  exists s'. by rewrite <- Ho'.
Qed.

(** What a reader under the parser maintains. *)
Lemma maintains_ParseRPM {R} `{ReaderWithOffset R} (I : R -> Prop) :
  (forall n r, I r -> I (Read n r).2) -> maintains I (ParseRPM false).
Proof.
  intros HI. unfold ParseRPM. apply maintains_bind; [by apply maintains_parseLead|]. intros lead.
  apply maintains_bind; [by apply maintains_parseSignatureHeader|]. intros sig.
  apply maintains_bind.
  { intros r Hr. unfold parseHeader, parseMainHeader.
    set (d := NewDigestReaderImpl (NewDigestReaderImpl (NewDigestReaderImpl r []) []) []).
    pose proof (maintains_parseHeaderBody (R:=DigestReaderImpl (DigestReaderImpl (DigestReaderImpl R)))
      (fun d => I (source (source (source d))))) as Hm.
    assert (forall n (d : DigestReaderImpl (DigestReaderImpl (DigestReaderImpl R))),
      I (source (source (source d))) -> I (source (source (source (Read n d).2)))) as Hd.
    { intros n [[[r0 h0] h1] h2] H0'. simpl in *. unfold DigestReaderImpl_Read. simpl.
      unfold DigestReaderImpl_Read. simpl. unfold DigestReaderImpl_Read. simpl.
      specialize (HI n r0 H0'). by destruct (Read n r0) as [[bs e] r1]. }
    specialize (Hm Hd true d Hr). by destruct (parseHeaderBody true d) as [[] d']. }
  intros mainh. repeat (apply maintains_bind; [first [apply maintains_lift|apply maintains_offset|apply maintains_ret]|intros]).
  apply maintains_ret.
Qed.
End Framed.

(** ** Writers receive the same bytes *)

(** [m1], on a writer that may fail, and [m2], on one that does not, started at the same
    offset: they come to the same result and send their writers the same bytes, or the
    first writer fails, and [m1] with it. *)
Definition oblivious {W1 W2} `{FallibleWriter W1} `{LawfulWriter W2} {A} (m1 : M W1 A) (m2 : M W2 A) : Prop :=
  forall w1 w2, wusable w1 -> wvalid w2 -> wOffset w1 = wOffset w2 ->
    wusable (m1 w1).2 /\ (may_fail_write (m1 w1).2 -> may_fail_write w1) /\
    ((m1 w1).1 = (m2 w2).1 /\ wvalid (m2 w2).2 /\ wOffset (m1 w1).2 = wOffset (m2 w2).2 /\
     (exists bs, stored (m1 w1).2 = stored w1 ++ bs /\ written (m2 w2).2 = written w2 ++ bs) \/
     (exists e, (m1 w1).1 = Err e) /\ may_fail_write w1).

Section Oblivious.
Context {W1 W2 : Type} `{FallibleWriter W1} `{LawfulWriter W2}.

Lemma oblivious_lift {A} (o : outcome A) : oblivious (W1:=W1) (W2:=W2) (lift o) (lift o).
Proof. intros w1 w2 V1 V2 Ho. split; [done|]. split; [done|]. left. split_and!; try done. exists []. by rewrite !app_nil_r. Qed.

Lemma oblivious_ret {A} (a : A) : oblivious (W1:=W1) (W2:=W2) (mret a) (mret a).
Proof. apply (oblivious_lift (Ok a)). Qed.

Lemma oblivious_bind {A B} (m1 : M W1 A) (m2 : M W2 A) (f1 : A -> M W1 B) (f2 : A -> M W2 B) :
  oblivious m1 m2 -> (forall a, oblivious (f1 a) (f2 a)) -> oblivious (m1 ≫= f1) (m2 ≫= f2).
Proof.
  intros Hm Hf w1 w2 V1 V2 Ho. destruct (Hm w1 w2 V1 V2 Ho) as (V1' & F1 & Hres).
  unfold mbind, M_bind. destruct (m1 w1) as [o1 w1'], (m2 w2) as [o2 w2']. simpl in *.
  destruct Hres as [(-> & V2' & Ho' & b1 & R1 & R2)|[[e ->] Hbad]]; [|split; [done|]; split; [done|]; right; split; [by eexists|done]].
  destruct o2 as [a|e|p|]; simpl; [|split; [done|]; split; [done|]; left; split_and!; try done; by exists b1..].
  destruct (Hf a w1' w2' V1' V2' Ho') as (V1'' & F1' & [(E2 & V2'' & Ho'' & b2 & R1' & R2')|[He Hbad]]);
    (split; [done|]; split; [tauto|]); [left|right; tauto].
  split_and!; try done. exists (b1 ++ b2). by rewrite R1', R2', R1, R2, !app_assoc.
Qed.

Lemma oblivious_woffset : oblivious (W1:=W1) (W2:=W2) woffset_ woffset_.
Proof.
  intros w1 w2 V1 V2 Ho. unfold woffset_. simpl. split; [done|]. split; [done|]. left. split_and!; try done; [by rewrite Ho|].
  exists []. by rewrite !app_nil_r.
Qed.

(** A write whose error is passed on. *)
Lemma oblivious_write {A} p (k : Z -> outcome A) :
  oblivious (W1:=W1) (W2:=W2)
    (x ← write_ p; let '(n, err) := (x : Z * option string) in match err with Some e => raise e | None => lift (k n) end)
    (x ← write_ p; let '(n, err) := (x : Z * option string) in match err with Some e => raise e | None => lift (k n) end).
Proof.
  intros w1 w2 V1 V2 Ho. unfold mbind, M_bind, write_.
  destruct (fallible_write p w1 V1) as (n & err & w1' & -> & V1' & F1 & Hres), (write_law p w2 V2) as (w2' & -> & V2' & R2 & O2).
  simpl. destruct Hres as [(-> & -> & R1 & O1)|[[e ->] Hbad]]; simpl; (split; [done|]; split; [done|]);
    [left|right; split; [by eexists|done]].
  split_and!; try done; [by rewrite O1, O2, Ho|]. by exists p.
Qed.

Lemma oblivious_ext {A} (m1 m1' : M W1 A) (m2 m2' : M W2 A) :
  (forall w, m1 w = m1' w) -> (forall w, m2 w = m2' w) -> oblivious m1' m2' -> oblivious m1 m2.
Proof. intros E1 E2 Hm w1 w2. rewrite E1, E2. apply Hm. Qed.

Lemma oblivious_writeBytes p : oblivious (W1:=W1) (W2:=W2) (writeBytes p) (writeBytes p).
Proof.
  eapply oblivious_ext; [..|apply (oblivious_write p (fun n => if negb (n =? Zlen p) then Err ErrShortWrite else Ok tt))];
    intros w; unfold writeBytes, mbind, M_bind; destruct (write_ p w) as [[[n [e|]]|e|x|] w']; try done; by case_match.
Qed.

Lemma oblivious_writeByte d : oblivious (W1:=W1) (W2:=W2) (writeByte d) (writeByte d).
Proof.
  eapply oblivious_ext; [..|apply (oblivious_write [d] (fun n => if negb (u32 n =? 1) then Err ErrShortWrite else Ok tt))];
    intros w; unfold writeByte, mbind, M_bind; destruct (write_ [d] w) as [[[n [e|]]|e|x|] w']; try done; by case_match.
Qed.

Lemma oblivious_writeShort d : oblivious (W1:=W1) (W2:=W2) (writeShort d) (writeShort d).
Proof. apply oblivious_bind; intros; apply oblivious_writeByte. Qed.

Lemma oblivious_writeWord d : oblivious (W1:=W1) (W2:=W2) (writeWord d) (writeWord d).
Proof. apply oblivious_bind; intros; apply oblivious_writeShort. Qed.

Lemma oblivious_writeAlignTo a : oblivious (W1:=W1) (W2:=W2) (writeAlignTo a) (writeAlignTo a).
Proof.
  unfold writeAlignTo. apply oblivious_bind; [apply oblivious_woffset|]. intros off.
  apply oblivious_bind; [apply oblivious_lift|]. intros n. destruct (negb (n =? 0)); [|apply oblivious_ret]. cbv zeta.
  exact (oblivious_writeBytes (zeros (Z.to_nat n))).
Qed.

Lemma oblivious_writeEntries l da : oblivious (W1:=W1) (W2:=W2) (writeEntries l da) (writeEntries l da).
Proof.
  revert da. induction l as [|e l IH]; intros da; simpl; [apply oblivious_ret|].
  repeat first [apply oblivious_lift | apply oblivious_writeWord | apply IH
               | apply oblivious_bind; [|intros] | case_match].
Qed.

Lemma oblivious_Write h main : oblivious (W1:=W1) (W2:=W2) (Write_ h main) (Write_ h main).
Proof.
  unfold Write_. apply oblivious_bind; [case_match; [apply oblivious_writeAlignTo|apply oblivious_ret]|intros].
  repeat (apply oblivious_bind;
    [first [apply oblivious_writeBytes|apply oblivious_writeByte|apply oblivious_writeWord|apply oblivious_writeEntries]
    |intros]).
  apply oblivious_writeBytes.
Qed.

Lemma oblivious_write_lead l : oblivious (W1:=W1) (W2:=W2) (write_lead l) (write_lead l).
Proof.
  unfold write_lead.
  repeat (apply oblivious_bind;
    [first [apply oblivious_writeBytes|apply oblivious_writeByte|apply oblivious_writeShort]|intros]).
  apply oblivious_writeBytes.
Qed.
End Oblivious.

(** The offset tracker fails when the writer below it does. *)
#[export, refine] Instance offsetTrackingWriter_fallible {W} `{FallibleWriter W}
    : FallibleWriter (offsetTrackingWriter W) := {
  stored w := stored (otw_writer w);
  wusable w := wusable (otw_writer w) /\ in_width 64 (otw_currentOffset w);
  may_fail_write w := may_fail_write (otw_writer w);
}.
Proof.
  - intros p [w o] [Hw Ho]. simpl in *. destruct (fallible_write p w Hw) as (n & err & w' & Hrun & Hv & Hf & Hres).
    exists n, err, (mkOffsetTracking w' (u64 (o + u64 n))). unfold offsetTrackingWriter_Write. simpl.
    change (ioWrite p w) with (wWrite p w). rewrite Hrun. simpl. split; [done|]. split; [split; [done|apply wrap_range; lia]|].
    split; [done|]. destruct Hres as [(-> & -> & Hs & _)|Hbad]; [left|by right]. split_and!; try done.
    rewrite (Z.add_comm o), wrap_add_l, Z.add_comm by lia. done.
  - intros [w o] [_ Ho]. done.
Defined.

(** ** The headers of a file, written into memory *)

Definition write_headers {W} `{WriterWithOffset W} (f : RpmFile) : M W unit :=
  _ ← write_lead (Lead f);
  _ ← Write_ (SignatureHeader f) false;
  Write_ (MainHeader f) true.

(** The outcome of writing everything in front of the payload, and the bytes. *)
Definition headers_of (f : RpmFile) : outcome unit * list Z :=
  let '(o, w) := write_headers f (NewOffsetTrackingWriter NewArrayWriter) in
  (o, written w).

Lemma oblivious_write_headers {W1 W2} `{FallibleWriter W1} `{LawfulWriter W2} f :
  oblivious (W1:=W1) (W2:=W2) (write_headers f) (write_headers f).
Proof.
  unfold write_headers. apply oblivious_bind; [apply oblivious_write_lead|intros].
  apply oblivious_bind; intros; apply oblivious_Write.
Qed.

(** [RpmFile.Write] up to the payload. *)
Lemma WriteRPM_split {W P} `{WriterWithOffset W} `{ReaderWithOffset P} `{shares : !Shares W P} fuel f (w : W) (p : P) :
  WriteRPM fuel f (w, p) =
    match with_serializer (write_headers f) (w, p) with
    | (Ok _, wp) => (_ ← io_Copy fuel 0; mret tt) wp
    | (Err e, wp) => (Err e, wp) | (Panic s, wp) => (Panic s, wp) | (Diverge, wp) => (Diverge, wp)
    end.
Proof. done. Qed.

(** Writing the headers, whatever the writer: as into memory, or the writer fails. *)
Lemma write_headers_run {W} `{FallibleWriter W} {P} f (w : W) (p : P) :
  wusable w ->
  exists o w', with_serializer (write_headers f) (w, p) = (o, (w', p)) /\ wusable w' /\
    (may_fail_write w' -> may_fail_write w) /\
    (o = (headers_of f).1 /\ stored w' = stored w ++ (headers_of f).2 \/ (exists e, o = Err e) /\ may_fail_write w).
Proof.
  intros Hw.
  destruct (oblivious_write_headers (W1:=offsetTrackingWriter W) (W2:=offsetTrackingWriter ArrayWriter) f
    (NewOffsetTrackingWriter w) (NewOffsetTrackingWriter NewArrayWriter)) as ([V1 _] & F1 & Hres);
    [by split|done..|].
  unfold headers_of, with_serializer.
  destruct (write_headers f (NewOffsetTrackingWriter NewArrayWriter)) as [o2 a].
  destruct (write_headers f (NewOffsetTrackingWriter w)) as [o1 s1]. simpl in V1, F1, Hres.
  exists o1, (otw_writer s1). split; [done|]. split; [done|]. split; [done|].
  destruct Hres as [(-> & _ & _ & bs & R1 & R2)|Hbad]; [left|by right]. simpl in R1, R2 |- *. by rewrite R1, R2.
Qed.

(** [RpmFile.Write], whatever the writer and the reader of the payload, as long as they
    have nothing in common: the headers as they are written into memory, and if that
    succeeds the payload; or one of the two fails. *)
Lemma WriteRPM_fallible {W P} `{FallibleWriter W} `{FallibleReader P} fuel f (w : W) (p : P) :
  wusable w -> usable p -> (length (pending p) + 1 < fuel)%nat ->
  exists o w' p', WriteRPM fuel f (w, p) = (o, (w', p')) /\ wusable w' /\
    (o = (headers_of f).1 /\ stored w' = stored w ++ (headers_of f).2 ++
        match (headers_of f).1 with Ok _ => pending p | _ => [] end \/
     (exists e, o = Err e) /\ (may_fail_write w \/ may_fail p)).
Proof.
  intros Hw Hp Hfuel. rewrite WriteRPM_split.
  destruct (write_headers_run f w p Hw) as (o & w1 & -> & V1 & F1 & [[-> R1]|[[e ->] Hbad]]);
    [|exists (Err e), w1, p; split_and!; try done; right; split; [by eexists|by left]].
  destruct ((headers_of f).1) as [[]|e|x|] eqn:Ho;
    [|by eexists _, w1, p; split_and!; try done; left; rewrite app_nil_r..].
  pose proof (io_Copy_fallible fuel 0 w1 p Hfuel V1 Hp) as (o & w' & p' & Hc & Hv & Hf & Hres).
  unfold mbind, M_bind. rewrite Hc. destruct Hres as [[[m ->] R2]|[[e ->] Hbad]].
  - exists (Ok tt), w', p'. split_and!; try done. left. split; [done|]. by rewrite R2, R1, <- app_assoc.
  - exists (Err e), w', p'. split_and!; try done. right. split; [by eexists|tauto].
Qed.

Lemma WriteRPM_headers {W P} `{LawfulWriter W} `{LawfulReader P} fuel f (w : W) (p : P) :
  wvalid w -> valid p -> (length (rest p) + 1 < fuel)%nat ->
  exists w' p', WriteRPM fuel f (w, p) = ((headers_of f).1, (w', p')) /\ wvalid w' /\
    written w' = written w ++ (headers_of f).2 ++
      match (headers_of f).1 with Ok _ => rest p | _ => [] end.
Proof.
  intros Hw Hp Hfuel. pose proof (WriteRPM_fallible (W:=W) (P:=P) fuel f w p) as Hc.
  destruct (Hc Hw Hp Hfuel) as (o & w' & p' & Hrun & Hv & [[-> Hs]|[_ [[]|[]]]]). by exists w', p'.
Qed.
