(* ===== verification/Files.v ===== *)
(** Files ([FileExists] and [WriteFileAtomically] of [src/common/utils.go],
    [CreateDestinationFile] and [SignRpmAndWriteToFile] of
    [src/common/signing.go], [WriteToFile] of [src/common/rpmparser.go]) over a model of
    the file system in which every call can fail. *)
From S2P Require Import Prelude Utils Serializer Tags Header HeaderCodec RpmFile Signing.

(** ** The file system

    Regular files, by name; links, directories and file modes are left out, so two
    names are two files. A handle is a name: the sources use no handle after renaming
    or removing its file, apart from closing it. *)
Abbreviation filemap := (gmap string (list Z)).

(** [history] has the contents after every call so far: what a crash leaves. *)
Record World := mkWorld { files : filemap; history : list filemap }.

(** The operating system: [fault i] says whether call [i] fails, and how many
    bytes a write stores before it does; [temp_name] is the name
    [os.CreateTemp(dir, ".tmp-*")] picks, which no file has. *)
Class OS := {
  fault : nat -> option (string * nat);
  filepath_Dir : string -> string;
  temp_name : filemap -> string -> string;
  temp_name_fresh m dir : m !! temp_name m dir = None;
}.

(** Nothing fails. *)
Class Reliable `{OS} := no_fault i : fault i = None.

(** The errors the sources tell apart ([os.IsNotExist]). *)
Inductive os_error := NotExist | OtherError (e : string).

Section Calls.
Context `{OS}.

(** The number of the next call. *)
Definition clock (w : World) : nat := length (history w).

Definition after (m : filemap) (w : World) : World := mkWorld m (history w ++ [m]).

(** A call that changes the files to [f files] unless it fails. *)
Definition syscall {A} (f : filemap -> outcome A * filemap) : M World A := fun w =>
  match fault (clock w) with
  | Some (e, _) => (Err e, after (files w) w)
  | None => let '(o, m) := f (files w) in (o, after m w)
  end.

Definition os_Stat (name : string) : M World (option os_error) := fun w =>
  match fault (clock w) with
  | Some (e, _) => (Ok (Some (OtherError e)), after (files w) w)
  | None => (Ok (match files w !! name with Some _ => None | None => Some NotExist end), after (files w) w)
  end.

(** [os.Create]: truncates a file that exists. *)
Definition os_Create (name : string) : M World string :=
  syscall (fun m => (Ok name, <[name := []]> m)).

Definition os_CreateTemp (dir : string) : M World string :=
  syscall (fun m => let name := temp_name m dir in (Ok name, <[name := []]> m)).

Definition os_Remove (name : string) : M World unit :=
  syscall (fun m => match m !! name with
                    | Some _ => (Ok tt, delete name m)
                    | None => (Err "no such file or directory", m)
                    end).

Definition os_Rename (old new : string) : M World unit :=
  syscall (fun m => match m !! old with
                    | Some c => (Ok tt, <[new := c]> (delete old m))
                    | None => (Err "no such file or directory", m)
                    end).

(** [Chmod], [Sync] and [Close] of a file leave the contents alone. *)
Definition os_Chmod (name : string) (perm : Z) : M World unit := syscall (fun m => (Ok tt, m)).
Definition os_Sync (name : string) : M World unit := syscall (fun m => (Ok tt, m)).
Definition os_Close (name : string) : M World unit := syscall (fun m => (Ok tt, m)).

(** [os.Open] and what is read through it; [os.ReadFile]. *)
Definition os_Open (name : string) : M World (list Z) :=
  syscall (fun m => match m !! name with
                    | Some c => (Ok c, m)
                    | None => (Err "no such file or directory", m)
                    end).

(** [File.Read] where [content] is what is left of the file: nothing at its end. *)
Definition os_Read (n : nat) (content : list Z) : M World (list Z) := syscall (fun m => (Ok (take n content), m)).

(** [File.Write] at the end of the file; a call that fails may have stored a part. *)
Definition os_Write (name : string) (data : list Z) : World -> (Z * option string) * World := fun w =>
  let content := default [] (files w !! name) in
  match fault (clock w) with
  | Some (e, n) =>
      ((Zlen (take n data), Some e), after (<[name := content ++ take n data]> (files w)) w)
  | None => ((Zlen data, None), after (<[name := content ++ data]> (files w)) w)
  end.
End Calls.

(** A statement whose failure is ignored. *)
Definition ignore {S A} (m : M S A) : M S unit := fun s =>
  match m s with
  | (Ok _, s) | (Err _, s) => (Ok tt, s)
  | (Panic p, s) => (Panic p, s)
  | (Diverge, s) => (Diverge, s)
  end.

(** [defer func() { if err != nil { cleanup } }()] *)
Definition on_error {S A} (m : M S A) (cleanup : M S unit) : M S A := fun s =>
  match m s with
  | (Err e, s) => let '(_, s) := cleanup s in (Err e, s)
  | r => r
  end.

(** ** Operations *)

(** A file opened for writing, with the world it is in. *)
Record OsFile := mkOsFile { of_name : string; of_world : World }.

(** An [*os.File] that was opened for reading: [os_File name content] is at its start,
    [Seek] is [Seek(offset, 0)], and [reread] is the same open file when the files have
    become others. *)
Class FileReader (F : Type) := {
  os_File : string -> list Z -> F;
  Seek : nat -> F -> F;
  reread : filemap -> F -> F;
}.

(** A file that is read sees what is written to the files meanwhile, however it is
    wrapped. *)
#[export] Instance FileReader_shares {F} `{!FileReader F} : Shares OsFile F :=
  fun f r => reread (files (of_world f)) r.

#[export] Instance IOReaderWithOffset_shares {F} `{!Shares OsFile F} : Shares OsFile (IOReaderWithOffset F) :=
  fun f r => mkIOReader (refresh f (ior_file r)) (ior_currentOffset r).

Section Files.
Context `{OS}.

Definition FileExists (path : string) : M World bool :=
  err ← os_Stat path;
  match err with
  | Some NotExist => mret false
  | Some (OtherError e) => raise e
  | None => mret true
  end.

Definition WriteFileAtomically (filename : string) (data : list Z) (perm : Z) (overwrite : bool)
    : M World unit :=
  destinationExists ← FileExists filename;
  if destinationExists && negb overwrite
  then raise "destination file %s already exists and overwriting not enabled"
  else
    let dir := filepath_Dir filename in
    tmpFile ← wrap_err "failed to create temp file: " (os_CreateTemp dir);
    on_error
      (_ ← wrap_err "failed to write to temp file: "
             (fun w => let '((_, err), w) := os_Write tmpFile data w in
                       (match err with Some e => Err e | None => Ok tt end, w));
       _ ← wrap_err "failed to set permissions: " (os_Chmod tmpFile perm);
       _ ← wrap_err "failed to sync temp file: " (os_Sync tmpFile);
       _ ← wrap_err "failed to close temp file: " (os_Close tmpFile);
       _ ← wrap_err "failed to replace target file: " (os_Rename tmpFile filename);
       mret tt)
      (_ ← ignore (os_Close tmpFile); ignore (os_Remove tmpFile)).

Definition CreateDestinationFile (destinationFileName : string) (overwriteDestinationFile : bool)
    : M World string :=
  err ← os_Stat destinationFileName;
  _ ← (match err with
       | Some NotExist => mret tt
       | Some (OtherError e) => raise ("failed to stat() destination file %s. Error: " +:+ e)
       | None =>
           if negb overwriteDestinationFile
           then raise "refusing to overwrite destination file %s. Use -f or --overwrite to avoid this error"
           else mret tt
       end);
  wrap_err "failed to create destination file %s. Error: " (os_Create destinationFileName).

#[export] Instance OsFile_writer : IOWriter OsFile := fun p f =>
  let '(r, w) := os_Write (of_name f) p (of_world f) in (r, mkOsFile (of_name f) w).

Definition NewFileWriterWithOffset {F} (file : F) : FileWriterWithOffset F := mkFileWriter file 0.

Context `{OpenPGP} `{Runtime} {P : Type} `{ReaderWithOffset P} `{shares : !Shares OsFile P}.

(** [WriteToFile] of [src/common/rpmparser.go]. Its deferred [Close] fails when the
    file is closed already, which nobody sees. Here and below the payload may be read
    from the file that is written: [Shares] says what the reader sees of it. *)
Definition WriteToFile (fuel : nat) (f : RpmFile) (outputName : string) : M (World * P) unit := fun '(w, p) =>
  match wrap_err "failed to open() output file %v - " (os_Create outputName) w with
  | (Ok outFile, w) =>
      let writer := NewFileWriterWithOffset (mkOsFile outFile w) in
      let '(o, (writer, p)) := wrap_err "failed to write() %v - " (WriteRPM fuel f) (writer, p) in
      let w := of_world (fw_file writer) in
      let '(o, w) := match o with
                     | Ok _ => wrap_err "failed to close() %v - " (os_Close outFile) w
                     | o => (o, w)
                     end in
      let '(_, w) := ignore (os_Close outFile) w in
      (o, (w, p))
  | (o, w) => (match o with Err e => Err e | Panic s => Panic s | _ => Diverge end, (w, p))
  end.

Definition SignRpmAndWriteToFile (fuel : nat) (rpmFile : RpmFile) (destinationFileName : string)
    (overwriteDestinationFile : bool) (now : Z) (privateKey : PrivateKey) : M (World * P) unit := fun '(w, p) =>
  match CreateDestinationFile destinationFileName overwriteDestinationFile w with
  | (Ok destinationFile, w) =>
      let writer := NewFileWriterWithOffset (mkOsFile destinationFile w) in
      let '(o, (writer, p)) := SignRpmAndWrite fuel rpmFile now privateKey (writer, p) in
      let w := of_world (fw_file writer) in
      match o with
      | Err e =>
          let '(_, w) := os_Remove destinationFileName w in
          let '(_, w) := os_Close destinationFile w in
          (Err e, (w, p))
      | Ok _ => let '(o, w) := os_Close destinationFile w in (o, (w, p))
      | o => (o, (w, p))
      end
  | (o, w) => (match o with Err e => Err e | Panic s => Panic s | _ => Diverge end, (w, p))
  end.
End Files.
