(* ===== verification/FilesTheorems.v ===== *)
(** Theorems about files: [WriteFileAtomically] at every point where it can fail
    or be interrupted, what [SignRpmAndWriteToFile] leaves behind, and the round trip
    through a file of [WriteToFile]. *)
From S2P Require Import Prelude Utils Serializer Tags Header Layout HeaderSpec HeaderOps Allocation IndexUpdate Payload.
From S2P Require Import HeaderCodec Codec HeaderRoundtrip RpmFile FileRoundtrip FileTheorems Signing SigningTheorems.
From S2P Require Import Frame Files.

(** ** Runs of calls *)

(** From [w] to [w'] every state of the files satisfies [Q]. *)
Definition passes (Q : filemap -> Prop) (w w' : World) : Prop :=
  exists hs, history w' = history w ++ hs /\ Forall Q hs.

Section Runs.
Context `{OS} (Q : filemap -> Prop).

Lemma passes_refl w : passes Q w w.
Proof. exists []. by rewrite app_nil_r. Qed.

Lemma passes_after m w w' : passes Q w w' -> Q m -> passes Q w (after m w').
Proof.
  intros (hs & Hw & Hh) Hm. exists (hs ++ [m]). simpl. rewrite Hw, app_assoc. split; [done|].
  apply Forall_app. auto.
Qed.
End Runs.

Section Atomic.
Context `{OS} (filename : string) (data : list Z) (perm : Z) (overwrite : bool).

(** The part of [WriteFileAtomically] after the temporary file has been created. *)
Definition fill_and_rename (tmp : string) : M World unit :=
  on_error
    (_ ← wrap_err "failed to write to temp file: "
           (fun w => let '((_, err), w) := os_Write tmp data w in
                     (match err with Some e => Err e | None => Ok tt end, w));
     _ ← wrap_err "failed to set permissions: " (os_Chmod tmp perm);
     _ ← wrap_err "failed to sync temp file: " (os_Sync tmp);
     _ ← wrap_err "failed to close temp file: " (os_Close tmp);
     _ ← wrap_err "failed to replace target file: " (os_Rename tmp filename);
     mret tt)
    (_ ← ignore (os_Close tmp); ignore (os_Remove tmp)).

(** Nothing but the temporary file differs from [m0]. *)
Definition only_temp (m0 : filemap) (tmp : string) (m : filemap) : Prop :=
  exists part, m = <[tmp := part]> m0.

(** What a call of [os.WriteFile] may have done: everything, or nothing, or nothing
    but leaving the temporary file because it could not be removed. *)
Definition written_or_not (m0 : filemap) (tmp : string) (o : outcome unit) (w : World) : Prop :=
  match o with
  | Ok _ => files w = <[filename := data]> m0
  | Err _ => files w = m0 \/ only_temp m0 tmp (files w) /\ is_Some (fault (pred (clock w)))
  | _ => False
  end.

Lemma clock_after m w : clock (after m w) = S (clock w).
Proof. unfold clock, after. simpl. rewrite length_app. simpl. lia. Qed.

(** Cleaning up. *)
Lemma ignore_Close name w : ignore (os_Close name) w = (Ok tt, after (files w) w).
Proof. unfold ignore, os_Close, syscall. by destruct (fault (clock w)) as [[e n]|]. Qed.

Lemma cleanup_run m0 tmp w :
  m0 !! tmp = None -> only_temp m0 tmp (files w) ->
  exists w', (_ ← ignore (os_Close tmp); ignore (os_Remove tmp)) w = (Ok tt, w') /\
    (files w' = m0 \/ only_temp m0 tmp (files w') /\ is_Some (fault (pred (clock w')))) /\
    history w' = history w ++ [files w; files w'].
Proof.
  intros Hfresh [part Hot]. rewrite (M_bind_ok _ _ _ _ _ (ignore_Close tmp w)).
  unfold ignore, os_Remove, syscall. destruct (fault (clock (after (files w) w))) as [[e n]|] eqn:Hf.
  - eexists. split; [done|]. rewrite clock_after. simpl. rewrite Hf, <- app_assoc. split; [|done]. right.
    split; [by exists part|by eexists].
  - simpl. rewrite Hot, lookup_insert_eq, delete_insert_id by done. eexists. split; [done|].
    simpl. rewrite <- app_assoc. split; [by left|done].
Qed.

(** ** One call after the other

    [finishes w0 m w]: [m], started in [w], does everything or nothing, and at
    every point since [w0] the destination is the old one or the new one. *)
Definition old_or_new (m0 m : filemap) : Prop := m !! filename = m0 !! filename \/ m !! filename = Some data.

Definition finishes (m0 : filemap) (tmp : string) (w0 : World) (m : M World unit) (w : World) : Prop :=
  written_or_not m0 tmp (m w).1 (m w).2 /\ passes (old_or_new m0) w0 (m w).2 /\
  ((m w).1 = Ok tt \/ exists i, is_Some (fault i)).

Context (m0 : filemap) (tmp : string) (Hfresh : m0 !! tmp = None) (Hother : tmp <> filename).
Abbreviation cleanup := (_ ← ignore (os_Close tmp); ignore (os_Remove tmp)).

Lemma only_temp_old m : only_temp m0 tmp m -> old_or_new m0 m.
Proof. intros [part ->]. left. by apply lookup_insert_ne. Qed.

(** A call succeeds. *)
Lemma ok_finishes {A} w0 (m : M World A) (k : A -> M World unit) pre w a w1 :
  m w = (Ok a, w1) -> finishes m0 tmp w0 (on_error (k a) cleanup) w1 ->
  finishes m0 tmp w0 (on_error (a ← wrap_err pre m; k a) cleanup) w.
Proof.
  intros Hm Hk. unfold finishes, on_error in *.
  by rewrite (M_bind_ok _ _ _ a w1) by (unfold wrap_err; by rewrite Hm).
Qed.

(** A call fails: the file is removed. *)
Lemma fails_finishes {A} w0 (m : M World A) (k : A -> M World unit) (pre e : string) w w1 :
  m w = (Err e, w1) -> is_Some (fault (clock w)) -> only_temp m0 tmp (files w1) -> passes (old_or_new m0) w0 w1 ->
  finishes m0 tmp w0 (on_error (a ← wrap_err pre m; k a) cleanup) w.
Proof.
  intros Hm Hi Hot Hp. unfold finishes, on_error. rewrite (M_bind_err _ _ _ (pre +:+ e) w1) by (unfold wrap_err; by rewrite Hm).
  destruct (cleanup_run m0 tmp w1 Hfresh Hot) as (w2 & -> & Hw & Hh). split; [done|]. split; [|by right; eexists].
  destruct Hp as (hs & Hw1 & Hhs). exists (hs ++ [files w1; files w2]). simpl. rewrite Hh, Hw1, app_assoc.
  split; [done|]. apply Forall_app. split; [done|]. apply Forall_cons. split; [by apply only_temp_old|]. apply Forall_singleton.
  destruct Hw as [->|[Hw _]]; [by left|by apply only_temp_old].
Qed.

(** A call that leaves the files alone. *)
Lemma quiet_finishes w0 (pre : string) (m k : M World unit) w :
  m = syscall (fun m => (Ok tt, m)) -> only_temp m0 tmp (files w) -> passes (old_or_new m0) w0 w ->
  (forall w1, files w1 = files w -> passes (old_or_new m0) w0 w1 -> finishes m0 tmp w0 (on_error k cleanup) w1) ->
  finishes m0 tmp w0 (on_error (_ ← wrap_err pre m; k) cleanup) w.
Proof.
  intros -> Hot Hp Hk. assert (passes (old_or_new m0) w0 (after (files w) w)) as Hp1
    by by apply passes_after, only_temp_old.
  destruct (fault (clock w)) as [[e n]|] eqn:Hf.
  - eapply fails_finishes; [unfold syscall; by rewrite Hf|by eexists|done..].
  - eapply (ok_finishes _ _ (fun _ => k)); [unfold syscall; by rewrite Hf|]. by apply Hk.
Qed.

Lemma rename_finishes w0 w :
  files w = <[tmp := data]> m0 -> passes (old_or_new m0) w0 w ->
  finishes m0 tmp w0
    (on_error (_ ← wrap_err "failed to replace target file: " (os_Rename tmp filename); mret tt) cleanup) w.
Proof.
  intros Hw Hp. destruct (fault (clock w)) as [[e n]|] eqn:Hf.
  - eapply fails_finishes; [unfold os_Rename, syscall; by rewrite Hf|by eexists|by exists data|].
    apply passes_after; [done|]. rewrite Hw. apply only_temp_old. by exists data.
  - set (w1 := after (<[filename := data]> m0) w).
    assert (os_Rename tmp filename w = (Ok tt, w1)) as Hr.
    { unfold os_Rename, syscall. rewrite Hf, Hw, lookup_insert_eq, delete_insert_id by done. done. }
    apply (ok_finishes _ _ (fun _ => mret tt) _ _ tt w1 Hr). split; [done|]. split; [|by left]. apply passes_after; [done|]. right. apply lookup_insert_eq.
Qed.

Lemma fill_and_rename_finishes w0 w :
  files w = <[tmp := []]> m0 -> passes (old_or_new m0) w0 w ->
  finishes m0 tmp w0 (fill_and_rename tmp) w.
Proof.
  intros Hw Hp. unfold fill_and_rename.
  set (wr := fun w => let '((_, err), w) := os_Write tmp data w in
    (match err with Some e => Err e | None => Ok tt end, w)).
  destruct (fault (clock w)) as [[e n]|] eqn:Hf.
  - eapply (fails_finishes _ wr); [unfold wr, os_Write; by rewrite Hf|by eexists|..]; simpl; rewrite Hw, insert_insert_eq.
    + by eexists.
    + apply passes_after; [done|]. apply only_temp_old. by eexists.
  - set (w1 := after (<[tmp := data]> m0) w).
    assert (wr w = (Ok tt, w1)) as Hwr.
    { unfold wr, os_Write. by rewrite Hf, Hw, lookup_insert_eq, insert_insert_eq. }
    assert (only_temp m0 tmp (files w1)) as Hot by by exists data.
    assert (passes (old_or_new m0) w0 w1) as Hp1 by by apply passes_after, only_temp_old.
    apply (ok_finishes _ wr (fun _ => _) _ _ tt w1 Hwr). apply quiet_finishes; [done..|]. intros w2 Hf2 Hp2.
    apply quiet_finishes; [done|by rewrite Hf2|done|]. intros w3 Hf3 Hp3.
    apply quiet_finishes; [done|by rewrite Hf3, Hf2|done|]. intros w4 Hf4 Hp4.
    apply rename_finishes; [by rewrite Hf4, Hf3, Hf2|done].
Qed.
End Atomic.

(** [WriteFileAtomically] up to the temporary file. *)
Lemma WriteFileAtomically_run `{OS} filename data perm overwrite w :
  WriteFileAtomically filename data perm overwrite w =
  match fault (clock w) with
  | Some (e, _) => (Err e, after (files w) w)
  | None =>
      let w1 := after (files w) w in
      if bool_decide (is_Some (files w !! filename)) && negb overwrite
      then (Err "destination file %s already exists and overwriting not enabled", w1)
      else
        let tmp := temp_name (files w) (filepath_Dir filename) in
        match fault (clock w1) with
        | Some (e, _) => (Err ("failed to create temp file: " +:+ e), after (files w) w1)
        | None => fill_and_rename filename data perm tmp (after (<[tmp := []]> (files w)) w1)
        end
  end.
Proof.
  unfold WriteFileAtomically, FileExists. rewrite M_bind_assoc. unfold os_Stat at 1, mbind at 1, M_bind at 1.
  destruct (fault (clock w)) as [[e n]|] eqn:Hf; [done|]. cbv zeta.
  assert (forall b, (if b && negb overwrite
      then raise "destination file %s already exists and overwriting not enabled"
      else tmpFile ← wrap_err "failed to create temp file: " (os_CreateTemp (filepath_Dir filename));
           fill_and_rename filename data perm tmpFile) (after (files w) w) =
    if b && negb overwrite
    then (Err "destination file %s already exists and overwriting not enabled", after (files w) w)
    else match fault (clock (after (files w) w)) with
         | Some (e, _) => (Err ("failed to create temp file: " +:+ e), after (files w) (after (files w) w))
         | None => fill_and_rename filename data perm (temp_name (files w) (filepath_Dir filename))
             (after (<[temp_name (files w) (filepath_Dir filename) := []]> (files w)) (after (files w) w))
         end) as Hrest.
  { intros b. destruct (b && negb overwrite); [done|].
    unfold mbind, M_bind, wrap_err, os_CreateTemp, syscall.
    by destruct (fault (clock (after (files w) w))) as [[e n]|]. }
  destruct (files w !! filename) as [c|].
  - exact (Hrest true).
  - exact (Hrest false).
Qed.

Lemma syscall_ok `{OS} `{!Reliable} {A} (f : filemap -> outcome A * filemap) w :
  syscall f w = ((f (files w)).1, after (f (files w)).2 w).
Proof. unfold syscall. rewrite no_fault. by destruct (f (files w)). Qed.

(** ** Writing to one file *)

(** Only the file [name] differs from [m0]. *)
Definition only_file (m0 : filemap) (name : string) (w : World) : Prop := exists c, files w = <[name := c]> m0.

(** Some call fails. *)
Definition faulty `{OS} : Prop := exists i, is_Some (fault i).

Lemma reliable_not_faulty `{OS} `{!Reliable} : ~ faulty.
Proof. intros [i Hi]. rewrite no_fault in Hi. by apply is_Some_None in Hi. Qed.

Section Output.
Context `{OS} (m0 : filemap) (name : string).

#[local, refine] Instance OsFile_fallible : FallibleWriter (FileWriterWithOffset OsFile) := {
  stored wr := default [] (files (of_world (fw_file wr)) !! name);
  wusable wr := of_name (fw_file wr) = name /\ in_width 64 (fw_currentOffset wr) /\
    only_file m0 name (of_world (fw_file wr));
  may_fail_write _ := faulty;
}.
Proof.
  - intros p [[n w] o] (Hn & Ho & c & Hc). simpl in *. subst n. unfold FileWriterWithOffset_Write. simpl.
    unfold ioWrite, OsFile_writer, os_Write. simpl.
    destruct (fault (clock w)) as [[e k]|] eqn:Hf; simpl; rewrite Hc, lookup_insert_eq, insert_insert_eq; simpl.
    + exists (Zlen (take k p)), (Some e). eexists. split; [done|]. split; [split_and!; [done|done|by eexists]|].
      split; [done|]. right. split; [by eexists|]. exists (clock w). by rewrite Hf.
    + rewrite Z.eqb_refl. simpl. exists (Zlen p), None. eexists. split; [done|]. simpl.
      split; [split_and!; [done|apply wrap_range; lia|by eexists]|]. split; [done|]. left.
      split_and!; [done|done|by rewrite lookup_insert_eq|]. unfold wrap. rewrite Zplus_mod_idemp_r. done.
  - by intros wr (_ & Ho & _).
Defined.

(** Copying to the end of the file: everything is there, or a call has failed. *)
Lemma io_Copy_to_file {P} `{FallibleReader P} fuel n (wr : FileWriterWithOffset OsFile) (p : P) c :
  of_name (fw_file wr) = name -> in_width 64 (fw_currentOffset wr) ->
  files (of_world (fw_file wr)) = <[name := c]> m0 -> usable p -> (length (pending p) + 1 < fuel)%nat ->
  exists o wr' p', io_Copy fuel n (wr, p) = (o, (wr', p')) /\
    of_name (fw_file wr') = name /\ in_width 64 (fw_currentOffset wr') /\ only_file m0 name (of_world (fw_file wr')) /\
    ((exists k, o = Ok k) /\ files (of_world (fw_file wr')) = <[name := c ++ pending p]> m0 \/
     (exists e, o = Err e) /\ (faulty \/ may_fail p)).
Proof.
  intros Hn Ho Hw Hp Hfuel.
  destruct (io_Copy_fallible fuel n wr p Hfuel) as (o & wr' & p' & Hrun & (Hn' & Ho' & c' & Hc') & _ & Hres); [|done|].
  { simpl. split; [done|]. split; [done|by exists c]. }
  exists o, wr', p'. split; [done|]. split; [done|]. split; [done|]. split; [by exists c'|].
  destruct Hres as [[Hok Hs]|Hbad]; [left|by right]. split; [done|]. simpl in Hs.
  rewrite Hc', Hw, !lookup_insert_eq in Hs. simpl in Hs. by rewrite Hc', Hs.
Qed.

(** Writing the headers and the payload to a new file. *)
Lemma WriteRPM_to_file {P} `{FallibleReader P} fuel f w (p : P) c :
  files w = <[name := c]> m0 -> usable p -> (length (pending p) + 1 < fuel)%nat ->
  exists o wr' p', WriteRPM fuel f (NewFileWriterWithOffset (mkOsFile name w), p) = (o, (wr', p')) /\
    of_name (fw_file wr') = name /\ only_file m0 name (of_world (fw_file wr')) /\
    (o = (headers_of f).1 /\ files (of_world (fw_file wr')) =
      <[name := c ++ (headers_of f).2 ++ match (headers_of f).1 with Ok _ => pending p | _ => [] end]> m0 \/
     (exists e, o = Err e) /\ (faulty \/ may_fail p)).
Proof.
  intros Hw Hp Hfuel.
  destruct (WriteRPM_fallible fuel f (NewFileWriterWithOffset (mkOsFile name w)) p)
    as (o & wr' & p' & Hrun & (Hn & _ & c' & Hc') & Hres); [|done..|].
  { simpl. split; [done|]. split; [done|by exists c]. }
  exists o, wr', p'. split; [done|]. split; [done|]. split; [by exists c'|].
  destruct Hres as [[Ho Hs]|Hbad]; [left|by right]. split; [done|]. simpl in Hs.
  rewrite Hc', Hw, !lookup_insert_eq in Hs. simpl in Hs. by rewrite Hc', Hs.
Qed.

(** *** Readers that the output does not reach *)

Context {P : Type} `{ReaderWithOffset P} `{shares : !Shares OsFile P}.

(** Whatever is written to the file [name], the reader stays what it is. *)
Definition separate (p : P) : Prop :=
  exists J : P -> Prop, J p /\ (forall n p, J p -> J (Read n p).2) /\
    (forall f p, of_name f = name -> only_file m0 name (of_world f) -> J p -> refresh f p = p).

Lemma io_Copy_separate fuel : forall n (wr : FileWriterWithOffset OsFile) (p : P),
  wusable wr -> separate p -> io_Copy fuel n (wr, p) = io_Copy (shares:=apart) fuel n (wr, p).
Proof.
  induction fuel as [|fuel IH]; intros n wr p Hwr (J & Hp & Hread & Hsame); [done|]. cbn [io_Copy].
  assert (refresh wr p = p) as -> by by apply Hsame; [apply Hwr..|].
  change (refresh (Shares:=apart) wr p) with p. specialize (Hread (Z.to_nat 32768) p Hp) as Hp'.
  destruct (Read (Z.to_nat 32768) p) as [[bs er] p'].
  assert (wusable (if 0 <? Zlen bs then wWrite bs wr else ((0, None), wr)).2) as Hwr'.
  { destruct (0 <? Zlen bs); [|done]. destruct (fallible_write bs wr Hwr) as (k & e & wr' & -> & Hv & _). done. }
  destruct (if 0 <? Zlen bs then wWrite bs wr else ((0, None), wr)) as [[nw ew] wr'].
  repeat (case_match; try done). apply IH; [done|]. by exists J.
Qed.

Lemma WriteRPM_separate fuel f w (p : P) :
  only_file m0 name w -> separate p ->
  WriteRPM fuel f (NewFileWriterWithOffset (mkOsFile name w), p) =
    WriteRPM (shares:=apart) fuel f (NewFileWriterWithOffset (mkOsFile name w), p).
Proof.
  intros Hw Hp. rewrite (WriteRPM_split (shares:=apart)), (WriteRPM_split (shares:=FileWriterWithOffset_shares)).
  destruct (write_headers_run f (NewFileWriterWithOffset (mkOsFile name w)) p) as (o & w1 & -> & V1 & _); [done|].
  destruct o as [[]|e|x|]; try done. unfold mbind, M_bind. by rewrite io_Copy_separate.
Qed.
End Output.

(** The destination is there for writing, or nothing has been touched. *)
Lemma CreateDestinationFile_cases `{OS} dest overwrite w :
  exists o w', CreateDestinationFile dest overwrite w = (o, w') /\
    (o = Ok dest /\ files w' = <[dest := []]> (files w) /\ (overwrite = true \/ files w !! dest = None) \/
     (exists e, o = Err e) /\ files w' = files w /\
       (faulty \/ overwrite = false /\ is_Some (files w !! dest))).
Proof.
  unfold CreateDestinationFile. unfold mbind at 1, M_bind at 1, os_Stat.
  destruct (fault (clock w)) as [[e n]|] eqn:Hf.
  { do 2 eexists. split; [done|]. right. split; [by eexists|]. split; [done|]. left. exists (clock w). by rewrite Hf. }
  set (w1 := after (files w) w).
  assert (overwrite = true \/ files w !! dest = None -> exists o w',
    wrap_err "failed to create destination file %s. Error: " (os_Create dest) w1 = (o, w') /\
    (o = Ok dest /\ files w' = <[dest := []]> (files w) /\ (overwrite = true \/ files w !! dest = None) \/
     (exists e, o = Err e) /\ files w' = files w /\
       (faulty \/ overwrite = false /\ is_Some (files w !! dest)))) as Hcreate.
  { intros Hmay. unfold wrap_err, os_Create, syscall.
    destruct (fault (clock w1)) as [[e n]|] eqn:Hf1; do 2 eexists; (split; [done|]); [right|by left].
    split; [by eexists|]. split; [done|]. left. exists (clock w1). by rewrite Hf1. }
  destruct (files w !! dest) as [c|] eqn:Hd.
  - destruct overwrite; [by rewrite (M_bind_ok _ _ _ tt w1) by done; apply Hcreate; left|].
    do 2 eexists. split; [done|]. right. split; [by eexists|]. split; [done|]. by right.
  - rewrite (M_bind_ok _ _ _ tt w1) by done. apply Hcreate. by right.
Qed.

(** ** Everything or nothing *)

(** What an operation that writes [content] to [dest] may leave: after success the
    content, after an error what was there, or no such file; but the content if only
    closing the file failed, and a part of it if removing the file failed, which was call
    [remove]. *)
Definition content_or_cleaned `{OS} (m0 : filemap) (dest : string) (content : outcome (list Z)) (remove : nat)
    (o : outcome unit) (w : World) : Prop :=
  match o with
  | Ok _ => exists c, content = Ok c /\ files w = <[dest := c]> m0
  | Err _ =>
      files w = m0 \/ files w = delete dest m0 \/
      (exists c, content = Ok c /\ files w = <[dest := c]> m0 /\ is_Some (fault (pred (clock w)))) \/
      (only_file m0 dest w /\ is_Some (fault remove))
  | Panic _ | Diverge => only_file m0 dest w
  end.

Lemma os_Close_cases `{OS} name w :
  exists o w', os_Close name w = (o, w') /\ files w' = files w /\ clock w' = S (clock w) /\
    (o = Ok tt \/ (exists e, o = Err e) /\ is_Some (fault (clock w))).
Proof.
  unfold os_Close, syscall. destruct (fault (clock w)) as [[e n]|]; do 2 eexists; (split; [done|]);
    (split; [done|]); (split; [apply clock_after|]); [right|by left]. split; by eexists.
Qed.

Lemma os_Remove_cases `{OS} m0 name w :
  only_file m0 name w ->
  exists o w', os_Remove name w = (o, w') /\ clock w' = S (clock w) /\
    (o = Ok tt /\ files w' = delete name m0 \/
     (exists e, o = Err e) /\ files w' = files w /\ is_Some (fault (clock w))).
Proof.
  intros [c Hc]. unfold os_Remove, syscall. rewrite Hc, lookup_insert_eq, delete_insert_eq.
  destruct (fault (clock w)) as [[e n]|]; do 2 eexists; (split; [done|]); (split; [apply clock_after|]); [right|by left].
  split; [by eexists|]. split; [done|by eexists].
Qed.

Section ToFile.
Context `{OS} `{OpenPGP} `{Runtime}.

(** The file that signing makes of [f] and [payload]. *)
Definition signed_content (now : Z) (key : PrivateKey) (f : RpmFile) (payload : list Z) : outcome (list Z) :=
  match SignRpm now key f with
  | (Ok _, f') => _ ← (headers_of f').1; Ok ((headers_of f').2 ++ payload)
  | (Err e, _) => Err e
  | (Panic s, _) => Panic s
  | (Diverge, _) => Diverge
  end.

Lemma SignRpmAndWrite_to_file {P} `{FallibleReader P} fuel f now key w (p : P) m0 name :
  files w = <[name := []]> m0 -> usable p -> (length (pending p) + 1 < fuel)%nat ->
  exists o wr' p', SignRpmAndWrite fuel f now key (NewFileWriterWithOffset (mkOsFile name w), p) = (o, (wr', p')) /\
    only_file m0 name (of_world (fw_file wr')) /\
    (o = (_ ← signed_content now key f (pending p); Ok tt) /\
       (forall c, signed_content now key f (pending p) = Ok c -> files (of_world (fw_file wr')) = <[name := c]> m0) \/
     (exists e, o = Err e) /\ (faulty \/ may_fail p)).
Proof.
  intros Hw Hp Hfuel. unfold SignRpmAndWrite, signed_content.
  destruct (SignRpm now key f) as [[[]|e|s|] f'];
    [|do 3 eexists; split; [done|]; (split; [by exists []|]); left; by split..].
  destruct (WriteRPM_to_file m0 name fuel f' w p [] Hw Hp Hfuel) as (o & wr' & p' & Hrun & _ & Hof & Hres).
  exists o, wr', p'. split; [done|]. split; [done|]. destruct Hres as [[-> Hs]|Hbad]; [left|by right].
  destruct ((headers_of f').1) as [[]|e|s|]; split; try done. intros c [= <-]. done.
Qed.

(** Every outcome of [SignRpmAndWriteToFile], whichever calls and reads fail. *)
Lemma SignRpmAndWriteToFile_cases {P} `{FallibleReader P} fuel f dest overwrite now key w (p : P) :
  usable p -> (length (pending p) + 1 < fuel)%nat ->
  exists o w' p', SignRpmAndWriteToFile fuel f dest overwrite now key (w, p) = (o, (w', p')) /\
    content_or_cleaned (files w) dest (signed_content now key f (pending p)) (pred (pred (clock w'))) o w' /\
    (overwrite = false -> is_Some (files w !! dest) -> (exists e, o = Err e) /\ files w' = files w) /\
    (overwrite = true \/ files w !! dest = None -> ~ faulty -> ~ may_fail p ->
      o = (_ ← signed_content now key f (pending p); Ok tt) /\ (forall e, o = Err e -> files w' = delete dest (files w))).
Proof.
  intros Hp Hfuel. unfold SignRpmAndWriteToFile.
  destruct (CreateDestinationFile_cases dest overwrite w) as (o & w1 & -> & [(-> & Hw1 & Hmay)|([e ->] & Hw1 & Hwhy)]).
  2:{ do 3 eexists. split; [done|]. split; [by left|]. split; [intros _ _; split; [by eexists|done]|].
      intros Hmay Hf _. exfalso. destruct Hwhy as [|[-> [c Hc]]]; [done|]. destruct Hmay; congruence. }
  assert (overwrite = false -> is_Some (files w !! dest) -> False) as Hno
    by (intros -> [c Hc]; destruct Hmay; congruence).
  destruct (SignRpmAndWrite_to_file fuel f now key w1 p (files w) dest Hw1 Hp Hfuel) as (o & wr & p' & Hrun & Hof & Hres).
  cbv zeta. rewrite Hrun. destruct o as [[]|e|s|].
  - destruct (os_Close_cases dest (of_world (fw_file wr))) as (o & w2 & -> & Hw2 & Hclock & Ho).
    destruct Hres as [[Hc Hs]|[[e [=]] _]]. destruct (signed_content now key f (pending p)) as [c|e|s|]; try done.
    specialize (Hs c eq_refl). exists o, w2, p'. split; [done|]. destruct Ho as [->|[[e ->] Hf]].
    + split; [exists c; split; [done|by rewrite Hw2]|]. split; [by intros ? ?; exfalso; eapply Hno|]. done.
    + split; [right; right; left; exists c; rewrite Hclock; simpl; split_and!; [done|by rewrite Hw2|done]|].
      split; [by intros ? ?; exfalso; eapply Hno|]. intros _ Hnf. destruct Hnf. by eexists.
  - destruct (os_Remove_cases (files w) dest (of_world (fw_file wr)) Hof) as (o2 & w2 & -> & Hclock2 & Hrm).
    destruct (os_Close_cases dest w2) as (o3 & w3 & -> & Hw3 & Hclock3 & _). exists (Err e), w3, p'. split; [done|].
    split; [|split; [by intros ? ?; exfalso; eapply Hno|]].
    + rewrite Hclock3, Hclock2. simpl. destruct Hrm as [[_ Hrm]|(_ & Hrm & Hf)].
      * right. left. by rewrite Hw3.
      * right. right. right. split; [|done]. unfold only_file. by rewrite Hw3, Hrm.
    + intros _ Hnf Hmf. destruct Hres as [[Hc _]|[_ [?|?]]]; [|done..]. split; [done|]. intros e' [= <-].
      destruct Hrm as [[_ Hrm]|(_ & _ & Hf)]; [by rewrite Hw3|]. destruct Hnf. by eexists.
  - do 3 eexists. split; [done|]. split; [done|]. split; [by intros ? ?; exfalso; eapply Hno|].
    intros _ _ _. destruct Hres as [[Hc _]|[[e [=]] _]]. done.
  - do 3 eexists. split; [done|]. split; [done|]. split; [by intros ? ?; exfalso; eapply Hno|].
    intros _ _ _. destruct Hres as [[Hc _]|[[e [=]] _]]. done.
Qed.

(** A payload the output does not reach is one that shares nothing with it. *)
Lemma SignRpmAndWriteToFile_separate {P} `{ReaderWithOffset P} `{shares : !Shares OsFile P}
    fuel f dest overwrite now key w (p : P) :
  separate (files w) dest p ->
  SignRpmAndWriteToFile fuel f dest overwrite now key (w, p) =
    SignRpmAndWriteToFile (shares:=apart) fuel f dest overwrite now key (w, p).
Proof.
  intros Hp. unfold SignRpmAndWriteToFile.
  destruct (CreateDestinationFile_cases dest overwrite w) as (o & w1 & -> & [(-> & Hw1 & _)|([e ->] & _)]); [|done].
  cbv zeta. unfold SignRpmAndWrite. destruct (SignRpm now key f) as [[[]|e|s|] f']; [|done..].
  rewrite (WriteRPM_separate (files w) dest fuel f' w1 p); [done|by exists []|done].
Qed.
End ToFile.

(** C13. [WriteFileAtomically] is atomic, whichever of its system calls fail: after
    every single call the destination has its old contents (or is still missing)
    or has all of the new data. It succeeds with the data in the destination and
    nothing else changed, or fails with nothing changed at all, except that the
    temporary file stays if removing it failed too. A file that exists is replaced
    only if overwriting is enabled, and if no call fails that is the only reason
    to fail. *)
Theorem WriteFileAtomically_atomic `{OS} filename data perm overwrite w o w' :
  (forall m dir, temp_name m dir <> filename) ->
  WriteFileAtomically filename data perm overwrite w = (o, w') ->
  written_or_not filename data (files w) (temp_name (files w) (filepath_Dir filename)) o w' /\
  passes (old_or_new filename data (files w)) w w' /\
  (o = Ok tt -> overwrite = true \/ files w !! filename = None) /\
  (Reliable -> overwrite = true \/ files w !! filename = None -> o = Ok tt).
Proof.
  intros Htmp Hrun. rewrite WriteFileAtomically_run in Hrun.
  pose proof (passes_refl (old_or_new filename data (files w)) w) as Hp.
  assert (old_or_new filename data (files w) (files w)) as Hold by by left.
  destruct (fault (clock w)) as [[e n]|] eqn:Hf.
  { injection Hrun as <- <-. split_and!; [by left|by apply passes_after|done|].
    intros Hr. rewrite (Hr (clock w)) in Hf. done. }
  cbv zeta in Hrun. destruct (bool_decide (is_Some (files w !! filename)) && negb overwrite) eqn:Hb.
  { injection Hrun as <- <-. split_and!; [by left|by apply passes_after|done|].
    apply andb_true_iff in Hb as [[c Hc]%bool_decide_eq_true Hov]. intros _ [->|Hn]; [done|congruence]. }
  assert (overwrite = true \/ files w !! filename = None) as Hmay.
  { apply andb_false_iff in Hb as [Hb|Hb]; [right|left; by destruct overwrite].
    apply bool_decide_eq_false in Hb. by apply eq_None_not_Some. }
  set (w1 := after (files w) w) in *.
  assert (passes (old_or_new filename data (files w)) w w1) as Hp1 by by apply passes_after.
  destruct (fault (clock w1)) as [[e n]|] eqn:Hf1.
  { injection Hrun as <- <-. split_and!; [by left|by apply passes_after|done|].
    intros Hr. rewrite (Hr (clock w1)) in Hf1. done. }
  set (tmp := temp_name (files w) (filepath_Dir filename)) in *.
  destruct (fill_and_rename_finishes filename data perm (files w) tmp (temp_name_fresh _ _) (Htmp _ _) w
    (after (<[tmp := []]> (files w)) w1)) as (Hres & Hpass & Hok); [done| |].
  { apply passes_after; [done|]. left. apply lookup_insert_ne, Htmp. }
  rewrite Hrun in Hres, Hpass, Hok. split_and!; [done..|]. intros Hr _.
  destruct Hok as [Hok|[i Hi]]; [done|]. rewrite (Hr i) in Hi. by apply is_Some_None in Hi.
Qed.

(** What [SignRpmAndWriteToFile] does if nothing fails. *)
Lemma SignRpmAndWriteToFile_run `{OS} `{!Reliable} `{OpenPGP} `{Runtime} {P} `{LawfulReader P}
    fuel f dest overwrite now key w (p : P) :
  valid p -> (length (rest p) + 1 < fuel)%nat ->
  exists o w' p', SignRpmAndWriteToFile fuel f dest overwrite now key (w, p) = (o, (w', p')) /\
    if bool_decide (is_Some (files w !! dest)) && negb overwrite then
      (exists e, o = Err e) /\ files w' = files w
    else
      o = (_ ← signed_content now key f (rest p); Ok tt) /\
      match signed_content now key f (rest p) with
      | Ok c => files w' = <[dest := c]> (files w)
      | Err _ => files w' = delete dest (files w)
      | _ => only_file (files w) dest w'
      end.
Proof.
  intros Hp Hfuel. pose proof (SignRpmAndWriteToFile_cases (P:=P) fuel f dest overwrite now key w p) as Hc.
  destruct (Hc Hp Hfuel) as (o & w' & p' & Hrun & Hleft & Hrefuse & Hdo). exists o, w', p'. split; [done|].
  case_match eqn:Hb.
  - apply andb_true_iff in Hb as [Hd%bool_decide_eq_true Hov]. apply Hrefuse; [by destruct overwrite|done].
  - destruct Hdo as [-> Herr].
    + destruct overwrite; [by left|right]. rewrite andb_true_r in Hb. apply bool_decide_eq_false in Hb. by apply eq_None_not_Some.
    + apply reliable_not_faulty.
    + intros [].
    + split; [done|]. change (pending p) with (rest p) in *. destruct (signed_content now key f (rest p)) as [c|e|s|]; simpl in *; try done.
      * by destruct Hleft as (c' & [= <-] & Hf).
      * by apply (Herr e).
Qed.

(** C18. [SignRpmAndWriteToFile] with a payload that is not read from the destination,
    whichever system calls and reads of the payload fail. Only the destination is ever
    touched, and one that exists only if it may be overwritten. After success the
    destination is the signed file: its headers and all of the payload. After an error it
    is what it was, or gone, unless closing the complete file or removing the partial one
    has failed. If nothing fails, the outcome is that of signing and of writing the
    headers, and an error removes the destination, also one that existed before. *)
Theorem SignRpmAndWriteToFile_correct `{OS} `{OpenPGP} `{Runtime} {P} `{FallibleReader P}
    fuel f dest overwrite now key w (p : P) :
  usable p -> (length (pending p) + 1 < fuel)%nat ->
  exists o w' p', SignRpmAndWriteToFile fuel f dest overwrite now key (w, p) = (o, (w', p')) /\
    content_or_cleaned (files w) dest (signed_content now key f (pending p)) (pred (pred (clock w'))) o w' /\
    (overwrite = false -> is_Some (files w !! dest) -> (exists e, o = Err e) /\ files w' = files w) /\
    (overwrite = true \/ files w !! dest = None -> ~ faulty -> ~ may_fail p ->
      o = (_ ← signed_content now key f (pending p); Ok tt) /\ (forall e, o = Err e -> files w' = delete dest (files w))).
Proof. apply SignRpmAndWriteToFile_cases. Qed.

(** What [WriteToFile] leaves when no call fails. *)
Lemma WriteToFile_run `{OS} `{!Reliable} {P} `{LawfulReader P} fuel f name w (p : P) :
  valid p -> (length (rest p) + 1 < fuel)%nat -> (headers_of f).1 = Ok tt ->
  exists w' p', WriteToFile fuel f name (w, p) = (Ok tt, (w', p')) /\
    files w' = <[name := (headers_of f).2 ++ rest p]> (files w).
Proof.
  intros Hp Hfuel Ho. unfold WriteToFile, wrap_err, os_Create. rewrite syscall_ok. cbn beta iota zeta delta [fst snd].
  pose proof (WriteRPM_to_file (P:=P) (files w) name fuel f (after (<[name := []]> (files w)) w) p []) as Hc.
  destruct (Hc eq_refl Hp Hfuel) as (o & wr & p' & Hrun & _ & _ & [[-> Hwr]|[_ [Hbad|[]]]]); [|by apply reliable_not_faulty in Hbad].
  rewrite Hrun, Ho. unfold os_Close at 1. rewrite syscall_ok. cbn beta iota zeta delta [fst snd]. rewrite ignore_Close.
  do 2 eexists. split; [done|]. simpl. by rewrite Hwr, Ho.
Qed.

(** C23. [WriteToFile], if no system call fails, leaves a valid file in the output,
    whatever it contained before, and changes no other file; and every reader over
    the new contents gives [ParseRPM] the same lead, the same entries of both headers,
    and the bytes of the main header as input of its digests, with the payload that
    was read left unread. *)
Theorem WriteToFile_roundtrip `{OS} `{!Reliable} `{Runtime} `{Hashes} {P R} `{LawfulReader P} `{LawfulReader R}
    fuel f name w (p : P) :
  file_valid f -> valid p -> (length (rest p) + 1 < fuel)%nat ->
  exists w' p' content, WriteToFile fuel f name (w, p) = (Ok tt, (w', p')) /\
    files w' = <[name := content]> (files w) /\
    forall r : R, valid r -> Offset r = 0 -> rest r = content ->
    exists f' r', ParseRPM false r = (Ok f', r') /\ rest r' = rest p /\
      Lead f' = Lead f /\ entries (SignatureHeader f') = entries (SignatureHeader f) /\
      entries (MainHeader f') = entries (MainHeader f) /\
      Sha256Digest (MainHeader f') = header_bytes (MainHeader f).
Proof.
  intros Hf Hp Hfuel. assert (wvalid NewArrayWriter) as Hwv by done.
  destruct (WriteRPM_run fuel f NewArrayWriter p (fv_lead _ Hf) (fv_sig _ Hf) (fv_main _ Hf) Hwv Hp Hfuel)
    as (wa & pa & Hra & Hwa).
  destruct (WriteRPM_headers fuel f NewArrayWriter p Hwv Hp Hfuel) as (wb & pb & Hrb & _ & Hwb).
  rewrite Hra in Hrb. injection Hrb as Ho <- <-. rewrite Hwa, <- Ho in Hwb. apply app_inv_head in Hwb.
  destruct (WriteToFile_run fuel f name w p Hp Hfuel (eq_sym Ho)) as (w' & p' & Hrun & Hfiles).
  exists w', p', ((headers_of f).2 ++ rest p). split_and!; [done..|]. rewrite <- Hwb. intros r Hr Hoff Hrest.
  destruct (ParseRPM_run f (rest p) r Hf Hr Hoff Hrest) as (f' & r' & Hparse & _ & Hrest' & ? & ? & ? & _ & [off Hm] & _).
  exists f', r'. split_and!; try done. by rewrite Hm.
Qed.

(** ** Witnesses *)

Section Witnesses.
(** A name longer than all names together. *)
Definition all_names (m : filemap) : string := map_fold (fun k _ acc => k +:+ acc) "" m.

Lemma length_string_app s t : String.length (s +:+ t) = (String.length s + String.length t)%nat.
Proof. induction s as [|c s IH]; simpl; [done|]. by rewrite IH. Qed.

Lemma all_names_long m k c : m !! k = Some c -> (String.length k <= String.length (all_names m))%nat.
Proof.
  revert k c. unfold all_names. apply (map_fold_weak_ind
    (fun acc m => forall k c, m !! k = Some c -> (String.length k <= String.length acc)%nat)).
  - intros k c. by rewrite lookup_empty.
  - intros i x m' acc Hi IH k c Hk. rewrite length_string_app.
    destruct (decide (i = k)) as [->|Hne]; [lia|]. rewrite lookup_insert_ne in Hk by done.
    specialize (IH k c Hk). lia.
Qed.

Definition sample_os (faults : nat -> option (string * nat)) : OS.
Proof.
  refine {| fault := faults; filepath_Dir _ := "."; temp_name m dir := ".tmp-" +:+ all_names m |}.
  intros m dir. destruct (m !! _) as [c|] eqn:E; [|done]. apply all_names_long in E.
  rewrite length_string_app in E. simpl in E. lia.
Defined.

(** The third call, the write, fails after one byte; so does removing the file. *)
Definition failing_os : OS := sample_os (fun i => match i with
  | 2%nat => Some ("disk full", 1%nat)
  | 4%nat => Some ("read-only file system", 0%nat)
  | _ => None
  end).
Definition reliable_os : OS := sample_os (fun _ => None).

Lemma temp_name_prefix faults m dir :
  String.prefix ".tmp-" (temp_name (OS:=sample_os faults) m dir) = true.
Proof. simpl. repeat (case_match; [|done]). by destruct (all_names m). Qed.

Definition sample_world : World := mkWorld {[ "out.rpm" := [1; 2; 3] ]} [].

Lemma WriteFileAtomically_atomic_witness :
  (WriteFileAtomically (H:=failing_os) "out.rpm" [7; 8] 420 true sample_world).1 =
    Err "failed to write to temp file: disk full" /\
  written_or_not (H:=failing_os) "out.rpm" [7; 8] (files sample_world) ".tmp-out.rpm"
    (WriteFileAtomically (H:=failing_os) "out.rpm" [7; 8] 420 true sample_world).1
    (WriteFileAtomically (H:=failing_os) "out.rpm" [7; 8] 420 true sample_world).2 /\
  (WriteFileAtomically (H:=reliable_os) "out.rpm" [7; 8] 420 true sample_world).1 = Ok tt.
Proof.
  split; [vm_compute; reflexivity|]. split.
  - apply (WriteFileAtomically_atomic (H:=failing_os) "out.rpm" [7; 8] 420 true sample_world
      (WriteFileAtomically (H:=failing_os) "out.rpm" [7; 8] 420 true sample_world).1
      (WriteFileAtomically (H:=failing_os) "out.rpm" [7; 8] 420 true sample_world).2);
      [|by destruct (WriteFileAtomically _ _ _ _ _)].
    intros m dir E. pose proof (temp_name_prefix (fun i => match i with
      | 2%nat => Some ("disk full", 1%nat) | 4%nat => Some ("read-only file system", 0%nat) | _ => None end) m dir) as Hp.
    unfold failing_os in E. rewrite E in Hp. discriminate Hp.
  - apply (WriteFileAtomically_atomic (H:=reliable_os) "out.rpm" [7; 8] 420 true sample_world
      (WriteFileAtomically (H:=reliable_os) "out.rpm" [7; 8] 420 true sample_world).1
      (WriteFileAtomically (H:=reliable_os) "out.rpm" [7; 8] 420 true sample_world).2);
      [|by destruct (WriteFileAtomically _ _ _ _ _)|by intros i|by left].
    intros m dir E. pose proof (temp_name_prefix (fun _ => None) m dir) as Hp.
    unfold reliable_os in E. rewrite E in Hp. discriminate Hp.
Defined.

#[local] Existing Instance reliable_os.
#[local] Existing Instance checksums.
#[local] Existing Instance doubling.
#[local] Existing Instance checksum_pgp.

(** A key that cannot sign costs the file that was to be overwritten. *)
Lemma SignRpmAndWriteToFile_correct_witness :
  exists w' p', SignRpmAndWriteToFile (P:=arrayReader) 10 sample_parsed_file "out.rpm" true 0 sample_ecc_key
      (sample_world, NewArrayReader sample_payload) =
    (Err "failed to load sign digest: signing requires an RSA or DSA key, got algorithm ID: %d", (w', p')) /\
    files w' = delete "out.rpm" (files sample_world).
Proof.
  assert (Reliable) as Hr by by intros i.
  destruct (SignRpmAndWriteToFile_correct (P:=arrayReader) 10 sample_parsed_file "out.rpm" true 0 sample_ecc_key
    sample_world (NewArrayReader sample_payload)) as (o & w' & p' & Hrun & _ & _ & Hres);
    [apply Nat.leb_le; reflexivity|apply Nat.ltb_lt; reflexivity|].
  destruct Hres as [Ho Herr]; [by left|exact reliable_not_faulty|by intros []|].
  assert (o = Err "failed to load sign digest: signing requires an RSA or DSA key, got algorithm ID: %d") as Ho'
    by (rewrite Ho; vm_compute; reflexivity).
  exists w', p'. rewrite Hrun. split; [by rewrite Ho'|by eapply Herr].
Defined.

Lemma WriteToFile_roundtrip_witness :
  exists w' p' content, WriteToFile 10 sample_file "out.rpm" (sample_world, NewArrayReader sample_payload) = (Ok tt, (w', p')) /\
    files w' = <["out.rpm" := content]> (files sample_world) /\
    forall r : IOReaderWithOffset chunkedReader, valid r -> Offset r = 0 -> rest r = content ->
    exists f' r', ParseRPM false r = (Ok f', r') /\ rest r' = rest (NewArrayReader sample_payload) /\
      Lead f' = Lead sample_file /\ entries (SignatureHeader f') = entries (SignatureHeader sample_file) /\
      entries (MainHeader f') = entries (MainHeader sample_file) /\
      Sha256Digest (MainHeader f') = header_bytes (MainHeader sample_file).
Proof.
  assert (Reliable) as Hr by by intros i.
  apply (WriteToFile_roundtrip (P:=arrayReader) (R:=IOReaderWithOffset chunkedReader)
    10 sample_file "out.rpm" sample_world (NewArrayReader sample_payload));
    [exact sample_file_valid|apply Nat.leb_le; reflexivity|apply Nat.ltb_lt; reflexivity].
Defined.
End Witnesses.
