(* ===== verification/Keys.v ===== *)
(** Keys and detached signatures ([src/common/openpgp.go]): loading public and
    private keys, and [SignGeneric]. The formats of keys and signatures are those of
    the OpenPGP library, hence parameters. *)
From S2P Require Import Prelude Utils Serializer Header HeaderCodec RpmFile FileRoundtrip FileTheorems Signing Files.

(** ** The library *)

Inductive packet `{OpenPGP} := PrivateKeyPacket (k : PrivateKey) | OtherPacket.

(** What [pkReader.Next()] returns: a packet, the end, or an error. *)
Inductive next_packet `{OpenPGP} := Packet (p : packet) | NoMorePackets | PacketError (e : string).

(** [armor.Decode] returns the contents of the block, or fails, and has then read
    some of its input in any case. A packet takes some of the input. *)
Class KeyFormat `{OpenPGP} := {
  ReadArmoredKeyRing : list Z -> outcome (list Entity);
  armor_Decode : list Z -> option (list Z) * nat;
  PacketReader : Type;
  NewReader : list Z -> PacketReader;
  Next : PacketReader -> next_packet * PacketReader;
  remaining : PacketReader -> nat;
  Next_consumes r p r' : Next r = (Packet p, r') -> (remaining r' < remaining r)%nat;
  Encrypted : PrivateKey -> bool;
  Decrypt : list Z -> PrivateKey -> outcome PrivateKey;
  PrepareSign : Signature -> outcome (list Z);
  armor_Encode : list Z -> outcome (list Z);
}.

(** ** A key file

    [SeekableReaderImpl] over an [*os.File]: seeking to an offset from the start
    is the file's [Seek]. *)
Record SeekableFile := mkSeekable { sf_content : list Z; sf_pos : nat }.

Definition SeekRelativeToStart (offset : nat) : M SeekableFile unit :=
  modify (fun f => mkSeekable (sf_content f) offset).

Section Keys.
Context `{KeyFormat}.

Definition LoadPublicKey (reader : list Z) : outcome EntityList :=
  match ReadArmoredKeyRing reader with
  | Err e => Err ("failed to parse public key: " +:+ e)
  | o => o
  end.

Definition Decode : M SeekableFile (list Z) := fun f =>
  let '(body, n) := armor_Decode (drop (sf_pos f) (sf_content f)) in
  (match body with Some body => Ok body | None => Err "no armored data found" end, mkSeekable (sf_content f) (sf_pos f + n)).

(** The loop over the packets, until the first private key. *)
Fixpoint findPrivateKey (fuel : nat) (pkReader : PacketReader) : outcome (option PrivateKey) :=
  match fuel with
  | O => Diverge
  | S fuel =>
      match Next pkReader with
      | (NoMorePackets, _) => Ok None
      | (PacketError e, _) => Err ("error reading packets: " +:+ e)
      | (Packet (PrivateKeyPacket k), _) => Ok (Some k)
      | (Packet OtherPacket, pkReader) => findPrivateKey fuel pkReader
      end
  end.

(** The packets of the armored block, or of the whole file if there is none. *)
Definition openPackets : M SeekableFile (list Z) := fun f =>
  match Decode f with
  | (Ok body, f) => (Ok body, f)
  | (Err _, f) => (_ ← SeekRelativeToStart 0; gets (fun f => Ok (drop (sf_pos f) (sf_content f)))) f
  | r => r
  end.

Definition LoadPrivateKey (passphrase : list Z) : M SeekableFile PrivateKey :=
  packetReader ← openPackets;
  let pkReader := NewReader packetReader in
  privKey ← lift (findPrivateKey (S (remaining pkReader)) pkReader);
  match privKey with
  | None => raise "no private key found"
  | Some privKey =>
      if Encrypted privKey then
        if Zlen passphrase =? 0
        then raise "private key is encrypted, but no passphrase was provided"
        else wrap_err "failed to decrypt private key (wrong passphrase?): " (lift (Decrypt passphrase privKey))
      else mret privKey
  end.

(** ** [SignGeneric] *)

Context {P : Type} `{ReaderWithOffset P}.

(** What the hash has been given is what it contains. *)
Definition SignGeneric (fuel : nat) (now : Z) (privKey : PrivateKey) : M P (list Z) :=
  let sig := CreateSignaturePacket privKey now in
  hasher ← wrap_err "failed to prepare signature: " (lift (PrepareSign sig));
  hashed ← (fun p =>
    let '(o, (w, p)) := io_Copy fuel 0 (mkArrayWriter hasher 0, p) in
    (match o with
     | Ok _ => Ok (aw_Data w)
     | Err e => Err ("failed to hash input data: " +:+ e)
     | Panic s => Panic s
     | Diverge => Diverge
     end, p));
  signed ← wrap_err "crypto signing failed: " (lift (Sign sig privKey hashed).1);
  packet ← wrap_err "failed to serialize signature: " (lift (Serialize signed));
  wrap_err "failed to close armor writer: " (lift (armor_Encode packet)).
End Keys.

(** ** Key files *)

Section KeyFiles.
Context `{OS} `{KeyFormat}.

Fixpoint LoadPublicKeysLoop (keyFiles : list string) (keyRing : EntityList) : M World EntityList :=
  match keyFiles with
  | [] => mret keyRing
  | keyFile :: keyFiles =>
      content ← os_Open keyFile;
      keys ← lift (LoadPublicKey content);
      LoadPublicKeysLoop keyFiles (keyRing ++ keys)
  end.

Definition LoadPublicKeys (keyFiles : list string) : M World EntityList := LoadPublicKeysLoop keyFiles [].

Definition LoadPrivateKeyFromFile (privateKeyFilename : string) (passphrase : list Z) : M World PrivateKey :=
  content ← wrap_err "failed to load private key from %s : " (os_Open privateKeyFilename);
  wrap_err "failed to load private key from %s : "
    (run_local (mkSeekable content 0) (LoadPrivateKey passphrase)).
End KeyFiles.

(** ** Theorems *)

Section Theorems.
Context `{KeyFormat}.

(** What reading packets leads to. *)
Inductive first_key : PacketReader -> outcome PrivateKey -> Prop :=
| first_key_end r r' : Next r = (NoMorePackets, r') -> first_key r (Err "no private key found")
| first_key_error r e r' : Next r = (PacketError e, r') -> first_key r (Err ("error reading packets: " +:+ e))
| first_key_found r k r' : Next r = (Packet (PrivateKeyPacket k), r') -> first_key r (Ok k)
| first_key_skip r r' o : Next r = (Packet OtherPacket, r') -> first_key r' o -> first_key r o.

(** The packets of a key file: those of the armored block, if the file is one. *)
Definition key_packets (content : list Z) : list Z :=
  default content (armor_Decode content).1.

(** A key that is protected needs its passphrase. *)
Definition unlock (passphrase : list Z) (k : PrivateKey) : outcome PrivateKey :=
  if Encrypted k then
    match passphrase, Decrypt passphrase k with
    | [], _ => Err "private key is encrypted, but no passphrase was provided"
    | _, Err e => Err ("failed to decrypt private key (wrong passphrase?): " +:+ e)
    | _, o => o
    end
  else Ok k.

Lemma findPrivateKey_run fuel r :
  (remaining r < fuel)%nat -> exists o, first_key r o /\
  (findPrivateKey fuel r ≫= (fun k => match k with None => Err "no private key found" | Some k => Ok k end)) = o /\
  findPrivateKey fuel r <> Diverge.
Proof.
  revert r. induction fuel as [|fuel IH]; intros r Hr; [lia|]. simpl.
  destruct (Next r) as [[[k|]| |e] r'] eqn:E.
  - exists (Ok k). split; [by eapply first_key_found|done].
  - apply Next_consumes in E as Hlt. destruct (IH r') as (o & Ho & Hrun); [lia|].
    exists o. split; [by eapply first_key_skip|done].
  - eexists. split; [by eapply first_key_end|done].
  - eexists. split; [by eapply first_key_error|done].
Qed.


Lemma LoadPrivateKey_run content passphrase :
  exists o, first_key (NewReader (key_packets content)) o /\
  (LoadPrivateKey passphrase (mkSeekable content 0)).1 = (o ≫= unlock passphrase).
Proof.
  set (r := NewReader (key_packets content)).
  destruct (findPrivateKey_run (S (remaining r)) r) as (o & Ho & Hrun & Hnd); [lia|].
  exists o. split; [done|]. unfold LoadPrivateKey.
  assert (exists f, openPackets (mkSeekable content 0) = (Ok (key_packets content), f)) as [f Hf].
  { unfold openPackets, Decode, key_packets. simpl. rewrite drop_0. destruct (armor_Decode content) as [[body|] n]; eexists; reflexivity. }
  rewrite (M_bind_ok _ _ _ _ _ Hf). fold r. clear Hf.
  unfold mbind at 1, M_bind at 1, lift at 1.
  destruct (findPrivateKey (S (remaining r)) r) as [[k|]|e|p|]; simpl in Hrun; subst o; simpl; try done.
  unfold unlock. destruct (Encrypted k); [|done]. destruct passphrase as [|b l]; [done|].
  replace (Zlen (b :: l) =? 0) with false by (symmetry; apply Z.eqb_neq; zlen).
  unfold wrap_err, lift. by destruct (Decrypt (b :: l) k).
Qed.

Definition prefixed {A} (prefix : string) (o : outcome A) : outcome A :=
  match o with Err e => Err (prefix +:+ e) | o => o end.

(** The armored signature of some bytes. *)
Definition armored_signature (now : Z) (key : PrivateKey) (data : list Z) : outcome (list Z) :=
  let sig := CreateSignaturePacket key now in
  hasher ← prefixed "failed to prepare signature: " (PrepareSign sig);
  signed ← prefixed "crypto signing failed: " (Sign sig key (hasher ++ data)).1;
  packet ← prefixed "failed to serialize signature: " (Serialize signed);
  prefixed "failed to close armor writer: " (armor_Encode packet).

(** [SignGeneric] on any reader: the signature of everything the reader has, or a read
    fails. *)
Lemma SignGeneric_cases {P} `{FallibleReader P} fuel now key (p : P) :
  usable p -> (length (pending p) + 1 < fuel)%nat ->
  (SignGeneric fuel now key p).1 = armored_signature now key (pending p) \/
  (exists e, (SignGeneric fuel now key p).1 = Err e) /\ may_fail p.
Proof.
  intros Hp Hfuel. unfold SignGeneric, armored_signature. cbv zeta.
  set (sig := CreateSignaturePacket key now).
  destruct (PrepareSign sig) as [hasher|e|s|] eqn:Hprep; try by left.
  rewrite (M_bind_ok _ _ p hasher p) by done. simpl.
  pose proof (io_Copy_fallible (W:=ArrayWriter) (P:=P) fuel 0 (mkArrayWriter hasher 0) p Hfuel) as Hcopy.
  destruct Hcopy as (o & w' & p' & Hc & _ & _ & Hres); [done|done|].
  destruct Hres as [[[m ->] Hwr]|[[e ->] [[]|Hf]]].
  - left. erewrite M_bind_ok by (rewrite Hc; done). simpl in Hwr. rewrite Hwr. unfold mbind, M_bind, outcome_bind, wrap_err, lift.
    destruct (Sign sig key (hasher ++ pending p)) as [[signed|e|s|] h]; try done. simpl.
    destruct (Serialize signed) as [pk|e|s|]; try done. simpl. by destruct (armor_Encode pk).
  - right. erewrite M_bind_err by (rewrite Hc; done). split; [by eexists|done].
Qed.

Lemma SignGeneric_run {P} `{LawfulReader P} fuel now key (p : P) :
  valid p -> (length (rest p) + 1 < fuel)%nat ->
  (SignGeneric fuel now key p).1 = armored_signature now key (rest p).
Proof.
  intros Hp Hfuel. pose proof (SignGeneric_cases (P:=P) fuel now key p) as Hc.
  by destruct (Hc Hp Hfuel) as [Ho|[_ []]].
Qed.
End Theorems.

Lemma os_Open_run `{OS} name w :
  os_Open name w =
    (match fault (clock w), files w !! name with
     | None, Some c => Ok c
     | None, None => Err "no such file or directory"
     | Some (e, _), _ => Err e
     end, after (files w) w).
Proof. unfold os_Open, syscall. destruct (fault (clock w)) as [[e n]|]; [done|]. by destruct (files w !! name). Qed.

Lemma LoadPrivateKeyFromFile_run `{OS} `{KeyFormat} name passphrase w :
  LoadPrivateKeyFromFile name passphrase w =
    (prefixed "failed to load private key from %s : "
       (content ← (os_Open name w).1; (LoadPrivateKey passphrase (mkSeekable content 0)).1),
     after (files w) w).
Proof.
  unfold LoadPrivateKeyFromFile, mbind, M_bind, wrap_err, run_local, lift. rewrite os_Open_run.
  destruct (fault (clock w)) as [[e n]|]; [by destruct (files w !! name)|].
  destruct (files w !! name) as [content|]; [|done]. simpl.
  by destruct (LoadPrivateKey passphrase (mkSeekable content 0)) as [[] f].
Qed.

(** C29. [LoadPrivateKeyFromFile] returns the first private key among the packets of
    the file: of its armored block, or of the whole file, from its start, if it has
    none, however much of it was read to find that out. A protected key is
    decrypted with the passphrase, which must not be empty. Without a private key, or
    on a packet that cannot be read, there is an error; the search ends in any case,
    and no file is changed. *)
Theorem LoadPrivateKeyFromFile_correct `{OS} `{KeyFormat} name passphrase w :
  files (LoadPrivateKeyFromFile name passphrase w).2 = files w /\
  match files w !! name, fault (clock w) with
  | Some content, None => exists o, first_key (NewReader (key_packets content)) o /\
      (LoadPrivateKeyFromFile name passphrase w).1 =
        prefixed "failed to load private key from %s : " (o ≫= unlock passphrase)
  | _, _ => exists e, (LoadPrivateKeyFromFile name passphrase w).1 = Err e
  end.
Proof.
  rewrite LoadPrivateKeyFromFile_run. split; [done|]. rewrite os_Open_run. simpl.
  destruct (fault (clock w)) as [[e n]|]; [destruct (files w !! name); by eexists|].
  destruct (files w !! name) as [content|]; [|by eexists]. simpl.
  destruct (LoadPrivateKey_run content passphrase) as (o & Ho & Hrun). exists o. by rewrite Hrun.
Qed.
