(* ===== verification/Http.v ===== *)
(** What the server and the client use of [net/http] and [net/url]: the encoding of
    queries, requests, and response writers as an interface. *)
From S2P Require Import Prelude.
From Stdlib Require Import Ascii.

(** ** Text

    A Go string is a sequence of bytes, which is what a [string] is. *)
Definition byte_of (c : ascii) : Z := Z.of_N (N_of_ascii c).
Definition char_of (b : Z) : ascii := ascii_of_N (Z.to_N b).

Fixpoint bytes_of (s : string) : list Z :=
  match s with EmptyString => [] | String c s => byte_of c :: bytes_of s end.

Fixpoint text_of (l : list Z) : string :=
  match l with [] => EmptyString | b :: l => String (char_of b) (text_of l) end.

(** [strings.Cut] at a byte: what is before it, and what is after it if it occurs. *)
Fixpoint Cut (sep : ascii) (s : string) : string * option string :=
  match s with
  | EmptyString => (EmptyString, None)
  | String c s =>
      if Ascii.eqb c sep then (EmptyString, Some s)
      else let '(before, after) := Cut sep s in (String c before, after)
  end.

Fixpoint Split (sep : ascii) (s : string) : list string :=
  match s with
  | EmptyString => [EmptyString]
  | String c s =>
      if Ascii.eqb c sep then EmptyString :: Split sep s
      else match Split sep s with
           | [] => [String c EmptyString]
           | part :: parts => String c part :: parts
           end
  end.

Fixpoint ContainsByte (c : ascii) (s : string) : bool :=
  match s with EmptyString => false | String d s => Ascii.eqb d c || ContainsByte c s end.

(** ** Queries *)

Definition in_range (lo hi : ascii) (c : ascii) : bool :=
  (byte_of lo <=? byte_of c) && (byte_of c <=? byte_of hi).

Definition shouldEscape (c : ascii) : bool :=
  negb (in_range "a" "z" c || in_range "A" "Z" c || in_range "0" "9" c ||
        existsb (Ascii.eqb c) ["-"; "_"; "."; "~"]%char).

Definition upperhex (d : Z) : ascii := char_of (if d <? 10 then 48 + d else 55 + d).

(** [url.QueryEscape] and [url.QueryUnescape] *)
Definition escape_char (c : ascii) (s : string) : string :=
  if Ascii.eqb c " " then String "+" s
  else if shouldEscape c
  then String "%" (String (upperhex (Z.shiftr (byte_of c) 4)) (String (upperhex (Z.land (byte_of c) 15)) s))
  else String c s.

Fixpoint QueryEscape (s : string) : string :=
  match s with EmptyString => EmptyString | String c s => escape_char c (QueryEscape s) end.

Definition unhex (c : ascii) : option Z :=
  if in_range "0" "9" c then Some (byte_of c - 48)
  else if in_range "a" "f" c then Some (byte_of c - 97 + 10)
  else if in_range "A" "F" c then Some (byte_of c - 65 + 10)
  else None.

Fixpoint QueryUnescape (s : string) : option string :=
  match s with
  | EmptyString => Some EmptyString
  | String c s =>
      if Ascii.eqb c "%" then
        match s with
        | String a (String b s) =>
            a ← unhex a;
            b ← unhex b;
            t ← QueryUnescape s;
            mret (String (char_of (Z.lor (Z.shiftl a 4) b)) t)
        | _ => None
        end
      else
        t ← QueryUnescape s;
        mret (String (if Ascii.eqb c "+" then " "%char else c) t)
  end.

(** [url.ParseQuery], which skips the settings it cannot parse: [URL.Query] drops
    the error. *)
Definition parse_setting (part : string) : option (string * string) :=
  if ContainsByte ";" part then None
  else if String.eqb part "" then None
  else
    let '(key, value) := Cut "=" part in
    key ← QueryUnescape key;
    value ← QueryUnescape (default EmptyString value);
    mret (key, value).

Abbreviation Values := (list (string * string)).

Definition ParseQuery (query : string) : Values := omap parse_setting (Split "&" query).

Definition Get (key : string) (v : Values) : string :=
  default EmptyString (snd <$> head (filter (fun kv => fst kv = key) v)).

Definition Has (key : string) (v : Values) : bool := existsb (fun kv => String.eqb (fst kv) key) v.

(** [url.Values{key: {value}}.Encode()] *)
Definition EncodeSetting (key value : string) : string :=
  (QueryEscape key +:+ "=" +:+ QueryEscape value)%string.

(** *** Round trip *)

Lemma QueryUnescape_escape_char c s :
  QueryUnescape (escape_char c s) = (t ← QueryUnescape s; mret (String c t)).
Proof. destruct c as [[] [] [] [] [] [] [] []]; reflexivity. Qed.

Lemma QueryUnescape_escape s : QueryUnescape (QueryEscape s) = Some s.
Proof. induction s as [|c s IH]; [done|]. simpl QueryEscape. by rewrite QueryUnescape_escape_char, IH. Qed.

(** Neither [&] nor [;] nor [=] occurs in what is escaped. *)
Definition plain (c : ascii) : Prop := c ∈ ["&"; ";"; "="]%char.

Lemma ContainsByte_escape c s : plain c -> ContainsByte c (QueryEscape s) = false.
Proof.
  intros Hc. induction s as [|d s IH]; [done|]. simpl QueryEscape.
  assert (ContainsByte c (escape_char d (QueryEscape s)) = ContainsByte c (QueryEscape s)) as ->; [|done].
  unfold plain in Hc. rewrite !elem_of_cons, elem_of_nil in Hc.
  destruct Hc as [->|[->|[->|[]]]]; destruct d as [[] [] [] [] [] [] [] []]; reflexivity.
Qed.

Lemma ContainsByte_app c s t : ContainsByte c (s +:+ t) = ContainsByte c s || ContainsByte c t.
Proof. induction s as [|d s IH]; simpl; [done|]. by rewrite IH, orb_assoc. Qed.

Lemma Split_none sep s : ContainsByte sep s = false -> Split sep s = [s].
Proof.
  induction s as [|c s IH]; simpl; [done|]. intros [-> Hs]%orb_false_iff. by rewrite IH.
Qed.

Lemma Cut_first sep s t :
  ContainsByte sep s = false -> Cut sep (s +:+ String sep t) = (s, Some t).
Proof.
  induction s as [|c s IH]; simpl; [intros _; by rewrite Ascii.eqb_refl|].
  intros [-> Hs]%orb_false_iff. by rewrite IH.
Qed.

Lemma ParseQuery_Encode key value :
  ParseQuery (EncodeSetting key value) = [(key, value)].
Proof.
  unfold ParseQuery, EncodeSetting.
  assert (forall c, plain c -> c <> "="%char ->
    ContainsByte c (QueryEscape key +:+ "=" +:+ QueryEscape value)%string = false) as Hno.
  { intros c Hc Hne. rewrite !ContainsByte_app, !ContainsByte_escape by done.
    change (ContainsByte c "=") with (Ascii.eqb "=" c || false).
    destruct (Ascii.eqb_spec "=" c) as [Heq|]; [by subst|reflexivity]. }
  rewrite Split_none by (apply Hno; [by apply (bool_decide_unpack _)|done]).
  assert (parse_setting (QueryEscape key +:+ "=" +:+ QueryEscape value)%string = Some (key, value)) as Hp.
  { unfold parse_setting. rewrite Hno by (done || by apply (bool_decide_unpack _)).
    destruct (String.eqb_spec (QueryEscape key +:+ "=" +:+ QueryEscape value)%string "") as [Hnil|_];
      [by destruct (QueryEscape key)|].
    assert (Cut "=" (QueryEscape key +:+ "=" +:+ QueryEscape value)%string =
      (QueryEscape key, Some (QueryEscape value))) as Hc.
    { apply (Cut_first "=" (QueryEscape key) (QueryEscape value)), ContainsByte_escape.
      by apply (bool_decide_unpack _). }
    rewrite Hc. simpl. by rewrite !QueryUnescape_escape. }
  simpl. by rewrite Hp.
Qed.

(** Whether a character may stand in a query as it is. *)
Definition query_safe (c : ascii) : Prop :=
  in_range "a" "z" c = true \/ in_range "A" "Z" c = true \/ in_range "0" "9" c = true \/
  c ∈ ["-"; "_"; "."; "~"; "+"; "%"]%char.

#[export] Instance query_safe_dec c : Decision (query_safe c).
Proof. unfold query_safe. apply _. Defined.

Fixpoint all_chars (P : ascii -> Prop) (s : string) : Prop :=
  match s with EmptyString => True | String c s => P c /\ all_chars P s end.

Lemma escape_char_safe c s : all_chars query_safe s -> all_chars query_safe (escape_char c s).
Proof.
  intros Hs. unfold escape_char. destruct (Ascii.eqb c " "); [split; [by apply (bool_decide_unpack _)|done]|].
  destruct (shouldEscape c) eqn:E.
  - simpl. split; [by apply (bool_decide_unpack _)|].
    destruct c as [[] [] [] [] [] [] [] []]; (split; [by apply (bool_decide_unpack _)|]);
      (split; [by apply (bool_decide_unpack _)|done]).
  - simpl. split; [|done]. clear Hs.
    destruct c as [[] [] [] [] [] [] [] []]; first [discriminate E | by apply (bool_decide_unpack _)].
Qed.

(** A setting survives encoding, whatever bytes it contains, and the encoded value
    needs no further escaping. *)
Lemma query_roundtrip (key value : string) :
  ParseQuery (EncodeSetting key value) = [(key, value)] /\
  Get key (ParseQuery (EncodeSetting key value)) = value /\
  QueryUnescape (QueryEscape value) = Some value /\
  all_chars query_safe (QueryEscape value).
Proof.
  rewrite ParseQuery_Encode. split_and!; [done| |apply QueryUnescape_escape|].
  - unfold Get. by rewrite filter_cons_True by done.
  - induction value as [|c s IH]; [done|]. by apply escape_char_safe.
Qed.

(** ** Response writers *)

Abbreviation headers := (gmap string string).

(** [http.ResponseWriter] *)
Class ResponseWriter (W : Type) := {
  Header : W -> headers;
  SetHeader : string -> string -> W -> W;
  WriteHeader : Z -> W -> W;
  WriteBody : list Z -> W -> (Z * option string) * W;
}.

(** [http.Error]: the message and a newline, as plain text. *)
Definition http_Error {W} `{ResponseWriter W} (msg : string) (code : Z) (w : W) : W :=
  let w := SetHeader "Content-Type" "text/plain; charset=utf-8" w in
  let w := SetHeader "X-Content-Type-Options" "nosniff" w in
  let w := WriteHeader code w in
  (WriteBody (bytes_of msg ++ [10]) w).2.

(** The server's own response writer. The first call of [WriteHeader], or else the
    first write, sends the status and the headers as they are then; later changes have
    no effect. [r_limit] is how much of the body the connection takes before it
    breaks, and [r_head] whether the request has the method [HEAD]: [net/http] then
    reports writes to the body as done and sends none of it. *)
Record response := mkResponse {
  r_header : headers;
  r_sent : option (Z * headers);
  r_body : list Z;
  r_limit : option nat;
  r_head : bool;
}.

Definition new_response (limit : option nat) : response := mkResponse ∅ None [] limit false.

(** The reply to a request with that method. *)
Definition response_to (method : string) (limit : option nat) : response :=
  mkResponse ∅ None [] limit (String.eqb method "HEAD").

Definition response_WriteHeader (code : Z) (r : response) : response :=
  match r_sent r with
  | Some _ => r
  | None => mkResponse (r_header r) (Some (code, r_header r)) (r_body r) (r_limit r) (r_head r)
  end.

Definition StatusOK : Z := 200.
Definition StatusBadRequest : Z := 400.
Definition StatusForbidden : Z := 403.
Definition StatusNotFound : Z := 404.
Definition StatusMethodNotAllowed : Z := 405.
Definition StatusInternalServerError : Z := 500.

Definition response_Write (p : list Z) (r : response) : (Z * option string) * response :=
  let r := response_WriteHeader StatusOK r in
  if r_head r then ((Zlen p, None), r)
  else
    let room := match r_limit r with Some n => (n - length (r_body r))%nat | None => length p end in
    if (length p <=? room)%nat
    then ((Zlen p, None), mkResponse (r_header r) (r_sent r) (r_body r ++ p) (r_limit r) (r_head r))
    else ((Z.of_nat room, Some "write: broken pipe"),
          mkResponse (r_header r) (r_sent r) (r_body r ++ take room p) (r_limit r) (r_head r)).

#[export] Instance response_writer : ResponseWriter response := {
  Header := r_header;
  SetHeader k v r := mkResponse (<[k := v]> (r_header r)) (r_sent r) (r_body r) (r_limit r) (r_head r);
  WriteHeader := response_WriteHeader;
  WriteBody := response_Write;
}.

(** What the client gets to see: nothing written means an empty 200. *)
Definition status (r : response) : Z := match r_sent r with Some (code, _) => code | None => StatusOK end.
