(* ===== verification/Server.v ===== *)
(** The signing server ([src/server/server.go]): its configuration, its handlers and
    the routes. A handler is a program over an [Exchange]: the files of the server,
    the response writer and the body of the request. *)
From S2P Require Import Prelude Utils Serializer Header HeaderCodec RpmFile Signing Files Keys Http.
From Stdlib Require Import Ascii.

(** ** Configuration *)

Definition Architecture := string.
Definition ARCH_X86 : Architecture := "x86".
Definition ARCH_ARM64 : Architecture := "arm64".

Record AppConfig := mkAppConfig {
  Verbose : bool;
  DebugMode : bool;
  GpgPublicKeyPath : string;
  GpgPrivateKeyPath : string;
  GpgPrivateKeyPassword : list Z;
  ApiSigningToken : string;
  ListenAddress : string;
  RpmSignClientBinary : gmap Architecture string;
  AccessLogPath : string;
}.

Section ServerKeys.
Context `{OS} `{KeyFormat}.

Definition LoadGpgPrivateKey (app : AppConfig) : M World PrivateKey :=
  _ ← os_Open (GpgPublicKeyPath app);
  LoadPrivateKeyFromFile (GpgPrivateKeyPath app) (GpgPrivateKeyPassword app).

Definition LoadGpgPublicKeyAsBytes (app : AppConfig) : M World (list Z) := os_Open (GpgPublicKeyPath app).

Definition LoadGpgPublicKey (app : AppConfig) : M World EntityList :=
  content ← os_Open (GpgPublicKeyPath app);
  lift (LoadPublicKey content).
End ServerKeys.

(** ** Exchanges *)

Record Exchange (W B : Type) := mkExchange { x_world : World; x_writer : W; x_body : B }.
Arguments mkExchange {W B} x_world x_writer x_body.
Arguments x_world {W B} e.
Arguments x_writer {W B} e.
Arguments x_body {W B} e.

Section Lenses.
Context {W B A : Type}.

Definition on_world (m : M World A) : M (Exchange W B) A := fun x =>
  let '(o, w) := m (x_world x) in (o, mkExchange w (x_writer x) (x_body x)).

Definition on_body (m : M B A) : M (Exchange W B) A := fun x =>
  let '(o, b) := m (x_body x) in (o, mkExchange (x_world x) (x_writer x) b).

Definition on_streams (m : M (W * B) A) : M (Exchange W B) A := fun x =>
  let '(o, (w, b)) := m (x_writer x, x_body x) in (o, mkExchange (x_world x) w b).

Definition on_writer (f : W -> W) : M (Exchange W B) unit := fun x =>
  (Ok tt, mkExchange (x_world x) (f (x_writer x)) (x_body x)).
End Lenses.

(** [subtle.ConstantTimeCompare] *)
Definition ConstantTimeCompare (x y : list Z) : Z :=
  if negb (length x =? length y)%nat then 0
  else if fold_left (fun v p => Z.lor v (Z.lxor p.1 p.2)) (combine x y) 0 =? 0 then 1 else 0.

(** [strings.ToLower] on ASCII text. No other character has [x86] or [arm64] for
    its lower case, the only texts the result is compared with. *)
Definition lower (c : ascii) : ascii :=
  if in_range "A" "Z" c then char_of (byte_of c + 32) else c.

Fixpoint ToLower (s : string) : string :=
  match s with EmptyString => EmptyString | String c s => String (lower c) (ToLower s) end.

(** [filepath.Base]: the last element of a path. *)
Fixpoint strip_slashes (l : list ascii) : list ascii :=
  match l with c :: l' => if Ascii.eqb c "/" then strip_slashes l' else l | [] => [] end.

Fixpoint until_slash (l : list ascii) : list ascii :=
  match l with c :: l => if Ascii.eqb c "/" then [] else c :: until_slash l | [] => [] end.

Definition filepath_Base (path : string) : string :=
  if String.eqb path "" then "."
  else
    match strip_slashes (rev (String.list_ascii_of_string path)) with
    | [] => "/"
    | l => String.string_of_list_ascii (rev (until_slash l))
    end.

(** ** Signing the body of a request *)

Section SignRpmData.
Context `{OS} `{KeyFormat} `{Hashes} `{Runtime} {R W : Type} `{ReaderWithOffset R} `{WriterWithOffset W}.

Definition signRpmData (fuel : nat) (now : Z) (config : AppConfig) : M (Exchange W R) unit :=
  rpmFile ← on_body (ParseRPMFromReader false);
  privateKey ← on_world (LoadGpgPrivateKey config);
  on_streams (SignRpmAndWrite fuel rpmFile now privateKey).
End SignRpmData.

(** ** Handlers *)

Section Handlers.
Context `{OS} `{KeyFormat} `{Hashes} `{Runtime}.

(** [%q] of the [fmt] package, and the time the server was started. *)
Context (Quote : string -> string) (serverStart AppVersion GitRef : string).
Context {W B : Type} `{ResponseWriter W} `{IOReader B}.

Definition initBinaryUncacheableHttpResponse (w : W) : W :=
  let w := SetHeader "Content-Type" "application/octet-stream" w in
  let w := SetHeader "Cache-Control" "no-store, no-cache, must-revalidate" w in
  let w := SetHeader "Pragma" "no-cache" w in
  SetHeader "Expires" "0" w.

Definition sendHttpError (code : Z) (msg : string) (w : W) : W := http_Error msg code w.

(** What is written to the response, and what is done if that fails. *)
Definition write_response (p : list Z) (failed : W -> W) (w : W) : W :=
  let '((_, err), w) := WriteBody p w in
  match err with Some _ => failed w | None => w end.

(** [on_fail m f k]: [if err != nil { f; return }] after [m], else [k]. *)
Definition on_fail {A} (m : M (Exchange W B) A) (f : W -> W) (k : A -> M (Exchange W B) unit)
    : M (Exchange W B) unit := fun x =>
  match m x with
  | (Ok a, x) => k a x
  | (Err _, x) => on_writer f x
  | (Panic p, x) => (Panic p, x)
  | (Diverge, x) => (Diverge, x)
  end.

Definition handlePublicKey (appConfig : AppConfig) : M (Exchange W B) unit :=
  on_fail (on_world (LoadGpgPublicKeyAsBytes appConfig))
    (sendHttpError StatusInternalServerError "failed to load GPG public key")
    (fun publicKey => on_writer (fun w =>
       write_response publicKey (sendHttpError StatusBadRequest "failed to read request body")
         (initBinaryUncacheableHttpResponse w))).

(** [SignGeneric] reads [r.Body] itself; the offset kept here is not used. *)
Definition through_offset {A} (m : M (IOReaderWithOffset B) A) : M B A := fun b =>
  let '(o, r) := m (NewIOReaderWithOffset b) in (o, ior_file r).

Definition doSigDetached (fuel : nat) (now : Z) (appConfig : AppConfig) : M (Exchange W B) (list Z) :=
  privateKey ← on_world (LoadGpgPrivateKey appConfig);
  on_body (through_offset (SignGeneric fuel now privateKey)).

Definition REQUEST_PARAM_AUTH_TOKEN : string := "authToken".

(** The check in front of both signing handlers. *)
Definition with_token (query : string) (appConfig : AppConfig) (k : M (Exchange W B) unit)
    : M (Exchange W B) unit :=
  let token := Get REQUEST_PARAM_AUTH_TOKEN (ParseQuery query) in
  if negb (ConstantTimeCompare (bytes_of token) (bytes_of (ApiSigningToken appConfig)) =? 1)
  then on_writer (sendHttpError StatusForbidden "missing or invalid authToken")
  else k.

Definition handleSignDetached (fuel : nat) (now : Z) (query : string) (appConfig : AppConfig)
    : M (Exchange W B) unit :=
  with_token query appConfig
    (on_fail (doSigDetached fuel now appConfig)
       (sendHttpError StatusBadRequest "failed to sign data")
       (fun signature => on_writer (fun w =>
          write_response signature id (initBinaryUncacheableHttpResponse w)))).

(** [signRpmData] into a buffer. *)
Definition sign_into_buffer (fuel : nat) (now : Z) (appConfig : AppConfig) : M (Exchange W B) (list Z) := fun x =>
  let '(o, s) := signRpmData (R:=IOReaderWithOffset B) fuel now appConfig
    (mkExchange (x_world x) (NewOffsetTrackingWriter NewArrayWriter) (NewIOReaderWithOffset (x_body x))) in
  (_ ← o; mret (aw_Data (otw_writer (x_writer s))), mkExchange (x_world s) (x_writer x) (ior_file (x_body s))).

Definition handleSignRpmHeader (fuel : nat) (now : Z) (query : string) (appConfig : AppConfig)
    : M (Exchange W B) unit :=
  with_token query appConfig
    (on_fail (sign_into_buffer fuel now appConfig)
       (sendHttpError StatusBadRequest "failed to sign RPM data")
       (fun signedData => on_writer (fun w =>
          write_response signedData id (initBinaryUncacheableHttpResponse w)))).

Definition quoted (s : string) : string :=
  let quote := String (char_of 34) EmptyString in (quote +:+ s +:+ quote)%string.
Definition newline : string := String (char_of 10) EmptyString.

Definition handleVersionRequest : M (Exchange W B) unit :=
  on_writer (fun w =>
    let json := ("{ " +:+ quoted "application" +:+ ": " +:+ quoted "rpm-signing" +:+ ", " +:+ newline +:+
                 quoted "serverStart" +:+ ": " +:+ quoted serverStart +:+ ", " +:+
                 quoted "version" +:+ ":" +:+ quoted AppVersion +:+ ", " +:+
                 quoted "gitRef" +:+ ": " +:+ quoted GitRef +:+ "}")%string in
    write_response (bytes_of json) id
      (SetHeader "Content-Type" "application/json" (initBinaryUncacheableHttpResponse w))).

(** [io.Copy] of an open file, of which [content] is still to be read, to the response:
    every read is a system call, takes at most the 32 KiB of the buffer, and finds the
    end of the file when it takes nothing. [fuel] bounds the number of reads. *)
Fixpoint copy_file (fuel : nat) (content : list Z) : M (Exchange W B) unit :=
  match fuel with
  | O => lift Diverge
  | S fuel =>
      bs ← on_world (os_Read (Z.to_nat 32768) content);
      if (length bs =? 0)%nat then mret tt
      else fun x =>
        let '((n, err), w) := WriteBody bs (x_writer x) in
        let x := mkExchange (x_world x) w (x_body x) in
        match err with
        | Some e => (Err e, x)
        | None =>
            if (n <? 0) || (Zlen bs <? n) then (Err "invalid write result", x)
            else if negb (n =? Zlen bs) then (Err ErrShortWrite, x)
            else copy_file fuel (drop (length bs) content) x
        end
  end.

Definition handleClientDownload (query : string) (appConfig : AppConfig) : M (Exchange W B) unit :=
  if bool_decide (size (RpmSignClientBinary appConfig) = 0%nat)
  then on_writer (sendHttpError StatusBadRequest "no client binary configured")
  else
    let queryParams := ParseQuery query in
    let architecture :=
      if Has "arch" queryParams then
        let archValue := Get "arch" queryParams in
        if String.eqb (ToLower archValue) "x86" then Some ARCH_X86
        else if String.eqb (ToLower archValue) "arm64" then Some ARCH_ARM64
        else None
      else Some ARCH_X86 in
    match architecture with
    | None => on_writer (sendHttpError StatusBadRequest "Unsupported architecture")
    | Some architecture =>
        match RpmSignClientBinary appConfig !! architecture with
        | None => on_writer (sendHttpError StatusBadRequest "no client binary configured")
        | Some binaryPath =>
            on_fail (on_world (os_Open binaryPath))
              (sendHttpError StatusInternalServerError "failed to open client binary")
              (fun file =>
                 _ ← on_writer (fun w =>
                       SetHeader "Content-Disposition" ("attachment; filename=" +:+ Quote (filepath_Base binaryPath))
                         (initBinaryUncacheableHttpResponse w));
                 ignore (copy_file (S (length file)) file))
        end
    end.

(** ** Routes *)

Definition PubKeyDownloadEndpoint : string := "/publicKey".
Definition ClientDownloadEndpoint : string := "/clientDownload".
Definition SignRpmHeaderEndpoint : string := "/signRpmHeader".
Definition SignDetached : string := "/signDetached".
Definition InfoEndpoint : string := "/info".

(** A request but for its body. The path is clean: for others the mux redirects. *)
Record Request := mkRequest {
  req_Method : string;
  req_Path : string;
  req_RawQuery : string;
}.

(** A pattern with the method [GET] also matches [HEAD]. *)
Definition method_matches (pattern method : string) : bool :=
  String.eqb pattern method || (String.eqb pattern "GET" && String.eqb method "HEAD").

(** The routes [startHttpServer] registers. *)
Definition routes (fuel : nat) (now : Z) (query : string) (appConfig : AppConfig)
    : list (string * string * M (Exchange W B) unit) :=
  [("GET", PubKeyDownloadEndpoint, handlePublicKey appConfig);
   ("POST", SignRpmHeaderEndpoint, handleSignRpmHeader fuel now query appConfig);
   ("POST", SignDetached, handleSignDetached fuel now query appConfig);
   ("GET", ClientDownloadEndpoint, handleClientDownload query appConfig);
   ("GET", InfoEndpoint, handleVersionRequest)].

(** [http.ServeMux]: the handler of the path; 405 if the path has another method, 404
    if it has none. *)
Definition ServeMux (fuel : nat) (now : Z) (appConfig : AppConfig) (req : Request) : M (Exchange W B) unit :=
  match filter (fun r => r.1.2 = req_Path req) (routes fuel now (req_RawQuery req) appConfig) with
  | [] => on_writer (http_Error "404 page not found" StatusNotFound)
  | (method, _, handler) :: _ =>
      if method_matches method (req_Method req) then handler
      else on_writer (fun w => http_Error "Method Not Allowed" StatusMethodNotAllowed
             (SetHeader "Allow" (if String.eqb method "GET" then "GET, HEAD" else method) w))
  end.
End Handlers.

(** ** The access log middleware *)

(** [responseWriterWrapper] *)
Record responseWriterWrapper (W : Type) := mkWrapper { rw_ResponseWriter : W; statusCode : Z; bytesWritten : Z }.
Arguments mkWrapper {W} rw_ResponseWriter statusCode bytesWritten.
Arguments rw_ResponseWriter {W} r.
Arguments statusCode {W} r.
Arguments bytesWritten {W} r.

#[export] Instance wrapper_writer {W} `{ResponseWriter W} : ResponseWriter (responseWriterWrapper W) := {
  Header rw := Header (rw_ResponseWriter rw);
  SetHeader k v rw := mkWrapper (SetHeader k v (rw_ResponseWriter rw)) (statusCode rw) (bytesWritten rw);
  WriteHeader code rw := mkWrapper (WriteHeader code (rw_ResponseWriter rw)) code (bytesWritten rw);
  WriteBody b rw :=
    let '((n, err), w) := WriteBody b (rw_ResponseWriter rw) in
    ((n, err), mkWrapper w (statusCode rw) (bytesWritten rw + n));
}.

(** [AccessLogMiddleware]: the handler behind a wrapper, and what is logged of the
    reply: its status and its size. A handler that panics is not logged. *)
Definition AccessLogMiddleware {W B} `{ResponseWriter W}
    (next : M (Exchange (responseWriterWrapper W) B) unit) : M (Exchange W B) (Z * Z) := fun x =>
  let '(o, x') := next (mkExchange (x_world x) (mkWrapper (x_writer x) StatusOK 0) (x_body x)) in
  (_ ← o; mret (statusCode (x_writer x'), bytesWritten (x_writer x')),
   mkExchange (x_world x') (rw_ResponseWriter (x_writer x')) (x_body x')).
