(* ===== verification/AccessLog.v ===== *)
(** The access log of the server ([writeAccessLog] in [src/server/server.go]): two
    variables shared by the goroutines that serve requests, without a lock. The
    function as it runs alone, and the same function one access at a time. *)
From S2P Require Import Prelude.
From stdpp Require Import relations.
#[local] Open Scope Z_scope.

(** [accessLog] is a handle, that is a position in the file; [log_file] is what the
    file at [AccessLogPath] contains, if there is one; [console] are the
    formats [RootLogger] was asked to print instead: the line is the format of an
    [Infof] without arguments, so a percent sign in it is not printed as it is. *)
Record LogState := mkLogState {
  log_file : option (list Z);
  accessLog : option nat;
  attemptedAccessLogOpen : bool;
  console : list (list Z);
}.

(** What the operating system answers: whether [os.Create] fails, and whether a
    write fails, and after how many bytes. *)
Record answers := mkAnswers { create_fails : bool; write_fails : option nat }.
Definition no_failure : answers := mkAnswers false None.

Definition set_accessLog (h : option nat) (s : LogState) : LogState :=
  mkLogState (log_file s) h (attemptedAccessLogOpen s) (console s).
Definition set_attempted (b : bool) (s : LogState) : LogState :=
  mkLogState (log_file s) (accessLog s) b (console s).
Definition print (line : list Z) (s : LogState) : LogState :=
  mkLogState (log_file s) (accessLog s) (attemptedAccessLogOpen s) (console s ++ [line]).

(** A write at a position of a file. *)
Definition write_at (pos : nat) (p content : list Z) : list Z :=
  take pos (content ++ zeros (pos - length content)) ++ p ++ drop (pos + length p) content.

(** [accessLog, err = os.Create(path)]: an empty file, or no handle. *)
Definition create (a : answers) (s : LogState) : bool * LogState :=
  if create_fails a then (false, set_accessLog None s)
  else (true, mkLogState (Some []) (Some 0%nat) (attemptedAccessLogOpen s) (console s)).

(** [accessLog.Write(line)]: a write through no handle fails. *)
Definition write_line (a : answers) (line : list Z) (s : LogState) : bool * LogState :=
  match accessLog s with
  | None => (false, s)
  | Some pos =>
      let p := match write_fails a with Some n => take n line | None => line end in
      (bool_decide (write_fails a = None),
       mkLogState (Some (write_at pos p (default [] (log_file s)))) (Some (pos + length p)%nat)
         (attemptedAccessLogOpen s) (console s))
  end.

(** ** The function *)

(** [noPath]: [len(appConfig.AccessLogPath) == 0]. *)
Definition writeAccessLog (noPath : bool) (a : answers) (logLine : list Z) (s : LogState) : LogState :=
  let write_or_close s :=
    match write_line a logLine s with
    | (true, s) => s
    | (false, s) => set_accessLog None s
    end in
  match accessLog s with
  | None =>
      if noPath || attemptedAccessLogOpen s then print logLine s
      else
        let '(ok, s) := create a s in
        let s := set_attempted true s in
        if ok then write_or_close s else s
  | Some _ => write_or_close s
  end.

(** ** One access at a time *)

(** Where a goroutine is: what it does next. *)
Inductive pc :=
| CheckLog (line : list Z)
| CheckAttempted (line : list Z)
| CreateLog (line : list Z)
| MarkAttempted (line : list Z) (ok : bool)
| WriteLine (line : list Z)
| ForgetLog
| Done.

#[export] Instance pc_eq_dec : EqDecision pc.
Proof. solve_decision. Defined.

Definition access (noPath : bool) (a : answers) (p : pc) (s : LogState) : pc * LogState :=
  match p with
  | CheckLog l => (match accessLog s with None => CheckAttempted l | Some _ => WriteLine l end, s)
  | CheckAttempted l =>
      if noPath || attemptedAccessLogOpen s then (Done, print l s) else (CreateLog l, s)
  | CreateLog l => let '(ok, s) := create a s in (MarkAttempted l ok, s)
  | MarkAttempted l ok => (if ok then WriteLine l else Done, set_attempted true s)
  | WriteLine l => let '(ok, s) := write_line a l s in (if ok then Done else ForgetLog, s)
  | ForgetLog => (Done, set_accessLog None s)
  | Done => (Done, s)
  end.

(** A step of the server: any goroutine makes an access. *)
Inductive step (noPath : bool) : list pc * LogState -> list pc * LogState -> Prop :=
| step_access ps s i a p p' s' :
    ps !! i = Some p -> p <> Done -> access noPath a p s = (p', s') ->
    step noPath (ps, s) (<[i := p']> ps, s').

(** ** Theorems *)

(** [runs p s s']: alone, with these answers, a goroutine at [p] gets from [s] to [s']. *)
Inductive runs (noPath : bool) (a : answers) : pc -> LogState -> LogState -> Prop :=
| runs_done s : runs noPath a Done s s
| runs_access p s s' :
    p <> Done -> runs noPath a (access noPath a p s).1 (access noPath a p s).2 s' -> runs noPath a p s s'.

Lemma runs_writeAccessLog noPath a l s : runs noPath a (CheckLog l) s (writeAccessLog noPath a l s).
Proof.
  unfold writeAccessLog.
  assert (forall s, runs noPath a (WriteLine l) s
    match write_line a l s with (true, s) => s | (false, s) => set_accessLog None s end) as Hw.
  { intros s0. apply runs_access; [done|]. simpl. destruct (write_line a l s0) as [[] s1]; [apply runs_done|].
    apply runs_access; [done|]. apply runs_done. }
  apply runs_access; [done|]. simpl. destruct (accessLog s) eqn:Hlog; [apply Hw|].
  apply runs_access; [done|]. simpl. destruct (noPath || attemptedAccessLogOpen s); [apply runs_done|].
  apply runs_access; [done|]. simpl. destruct (create a s) as [ok s1].
  apply runs_access; [done|]. simpl. destruct ok; [apply Hw|apply runs_done].
Qed.

Lemma runs_steps noPath a ps i p s s' :
  ps !! i = Some p -> runs noPath a p s s' -> rtc (step noPath) (ps, s) (<[i := Done]> ps, s').
Proof.
  intros Hi Hr. revert ps Hi. induction Hr as [s|p s s' Hne Hr IH]; intros ps Hi.
  - by rewrite list_insert_id.
  - eapply rtc_l; [eapply step_access; [done|done|apply surjective_pairing]|].
    specialize (IH (<[i := (access noPath a p s).1]> ps)). rewrite list_insert_insert_eq in IH. apply IH. apply list_lookup_insert_eq. by eapply lookup_lt_Some.
Qed.

(** Lines logged one after the other. *)
Definition log_all (noPath : bool) (a : answers) (lines : list (list Z)) (s : LogState) : LogState :=
  fold_left (fun s l => writeAccessLog noPath a l s) lines s.

Definition idle (content : option (list Z)) : LogState := mkLogState content None false [].

Lemma write_at_end p content : write_at (length content) p content = content ++ p.
Proof.
  unfold write_at. rewrite Nat.sub_diag, app_nil_r, take_ge by lia. rewrite drop_ge, app_nil_r by lia. done.
Qed.

Lemma log_all_open lines content att cons :
  log_all false no_failure lines (mkLogState (Some content) (Some (length content)) att cons) =
  mkLogState (Some (content ++ concat lines)) (Some (length (content ++ concat lines))) att cons.
Proof.
  revert content. induction lines as [|l lines IH]; intros content; simpl; [by rewrite app_nil_r|].
  unfold writeAccessLog, write_line. simpl. rewrite write_at_end, <- length_app, IH. by rewrite <- app_assoc.
Qed.

(** Lines that are logged one after the other all end up in the access log, in
    order, and nowhere else, whatever the file contained before, if no call fails.
    The code can also be run one access at a time by several goroutines, and when
    each finishes before the next begins, the result is the same. *)
Theorem access_log_sequential (lines : list (list Z)) (content : option (list Z)) :
  lines <> [] ->
  log_file (log_all false no_failure lines (idle content)) = Some (concat lines) /\
  console (log_all false no_failure lines (idle content)) = [] /\
  rtc (step false) (CheckLog <$> lines, idle content)
    ((fun _ => Done) <$> lines, log_all false no_failure lines (idle content)).
Proof.
  intros Hne. destruct lines as [|l lines]; [done|]. clear Hne.
  assert (log_all false no_failure (l :: lines) (idle content) =
    log_all false no_failure lines (mkLogState (Some l) (Some (length l)) true [])) as Hfirst.
  { simpl. unfold writeAccessLog, write_line, create, write_at. simpl. by rewrite drop_nil, app_nil_r. }
  rewrite Hfirst, log_all_open. split_and!; [done..|]. rewrite <- log_all_open, <- Hfirst. clear Hfirst.
  generalize (idle content). generalize (l :: lines). clear l lines.
  intros lines. rewrite <- (app_nil_l (CheckLog <$> lines)), <- (app_nil_l ((fun _ => Done) <$> lines)).
  generalize (@nil pc). induction lines as [|l lines IH]; intros ps s; [done|].
  etrans.
  - eapply (runs_steps _ no_failure _ (length ps)); [|apply runs_writeAccessLog].
    by rewrite lookup_app_r, Nat.sub_diag by lia.
  - rewrite insert_app_r_alt, Nat.sub_diag by lia. simpl. specialize (IH (ps ++ [Done]) (writeAccessLog false no_failure l s)).
    by rewrite <- !app_assoc in IH.
Qed.

Lemma access_log_sequential_witness :
  log_file (log_all false no_failure [[1; 2]; [3]] (idle (Some [9; 9; 9]))) = Some [1; 2; 3].
Proof. apply (access_log_sequential [[1; 2]; [3]] (Some [9; 9; 9])). discriminate. Defined.

Lemma rtc_access noPath a i p ps s t :
  ps !! i = Some p -> p <> Done ->
  rtc (step noPath) (<[i := (access noPath a p s).1]> ps, (access noPath a p s).2) t -> rtc (step noPath) (ps, s) t.
Proof. intros Hi Hne Ht. eapply rtc_l; [|exact Ht]. eapply step_access; [done|done|apply surjective_pairing]. Qed.

(** C31. Two goroutines that log at the same time can lose a line although no call
    fails: both find no open file, both create it, and the second creation truncates
    what the first goroutine has written by then. *)
Theorem access_log_race (a b : list Z) (content : option (list Z)) :
  exists s, rtc (step false) ([CheckLog a; CheckLog b], idle content) ([Done; Done], s) /\
    log_file s = Some b /\ console s = [].
Proof.
  eexists. split; [|split].
  - do 2 (eapply (rtc_access _ no_failure 0%nat); [reflexivity|done|]; simpl).
    do 2 (eapply (rtc_access _ no_failure 1%nat); [reflexivity|done|]; simpl).
    do 3 (eapply (rtc_access _ no_failure 0%nat); [reflexivity|done|]; simpl).
    do 3 (eapply (rtc_access _ no_failure 1%nat); [reflexivity|done|]; simpl).
    apply rtc_refl.
  - simpl. unfold write_at. simpl. by rewrite drop_nil, app_nil_r.
  - done.
Qed.

(** *** Every request gets its turn *)

(** The accesses a goroutine still makes at most. *)
Definition accesses_left (p : pc) : nat :=
  match p with
  | CheckLog _ => 6 | CheckAttempted _ => 5 | CreateLog _ => 4 | MarkAttempted _ _ => 3
  | WriteLine _ => 2 | ForgetLog => 1 | Done => 0
  end.

Lemma access_decreases noPath a p s : p <> Done -> (accesses_left (access noPath a p s).1 < accesses_left p)%nat.
Proof. intros Hne. destruct p; simpl; repeat case_match; simplify_eq/=; first [done | lia]. Qed.

Lemma step_decreases noPath ps s ps' s' :
  step noPath (ps, s) (ps', s') ->
  (sum_list (accesses_left <$> ps') < sum_list (accesses_left <$> ps))%nat /\ length ps' = length ps.
Proof.
  intros Hst. inversion Hst as [? ? i a p p' ? Hi Hne Ha]; subst. rewrite length_insert. split; [|done].
  pose proof (access_decreases noPath a p s Hne) as Hlt. rewrite Ha in Hlt. simpl in Hlt.
  rewrite insert_take_drop by (by eapply lookup_lt_Some).
  rewrite <- (take_drop_middle ps i p Hi) at 3. rewrite !fmap_app, !fmap_cons. clear -Hlt. induction (accesses_left <$> take i ps) as [|x xs IH]; simpl in *; lia.
Qed.

(** Lines nobody has started to write, when there is no file to open. *)
Definition unprinted (p : pc) : list (list Z) :=
  match p with CheckLog l | CheckAttempted l => [l] | _ => [] end.

Definition only_prints (p : pc) : Prop :=
  match p with CheckLog _ | CheckAttempted _ | Done => True | _ => False end.

Definition printing (noPath : bool) (lines : list (list Z)) (s0 : LogState) (t : list pc * LogState) : Prop :=
  accessLog t.2 = None /\ noPath || attemptedAccessLogOpen t.2 = true /\ log_file t.2 = log_file s0 /\
  Forall only_prints t.1 /\ console t.2 ++ (t.1 ≫= unprinted) ≡ₚ console s0 ++ lines.

Lemma printing_step noPath lines s0 t t' :
  printing noPath lines s0 t -> step noPath t t' -> printing noPath lines s0 t'.
Proof.
  intros (Hn & Ha & Hf & Hp & Hc) Hst. inversion Hst as [ps s i a p p' s' Hi Hne Hacc]; subst. simpl in *.
  pose proof (Forall_lookup_1 _ _ _ _ Hp Hi) as Hop.
  assert (only_prints p' /\ accessLog s' = None /\ attemptedAccessLogOpen s' = attemptedAccessLogOpen s /\
    log_file s' = log_file s /\ console s' ++ unprinted p' ≡ₚ console s ++ unprinted p) as (Hp' & Hn' & Ha' & Hf' & Hc').
  { destruct p; try done; simpl in Hacc; rewrite ?Hn, ?Ha in Hacc; simplify_eq/=; [done|].
    split_and!; try done. by rewrite app_nil_r. }
  split_and!; simpl; [done|by rewrite Ha'|by rewrite Hf'|by apply Forall_insert|].
  rewrite <- Hc, insert_take_drop by (by eapply lookup_lt_Some).
  rewrite <- (take_drop_middle ps i p Hi) at 3. rewrite !bind_app, !bind_cons.
  rewrite (Permutation_app_comm (take i ps ≫= unprinted)), (Permutation_app_comm (take i ps ≫= unprinted)).
  rewrite <- !app_assoc. rewrite !(app_assoc (console _)). by rewrite Hc'.
Qed.

Lemma printing_rtc noPath lines s t :
  accessLog s = None -> noPath || attemptedAccessLogOpen s = true ->
  rtc (step noPath) (CheckLog <$> lines, s) t -> printing noPath lines s t.
Proof.
  intros Hn Ha. revert t. apply rtc_ind_r; [|intros t t' _ Hst Hp; by eapply printing_step].
  split_and!; try done; simpl.
  - apply Forall_fmap, Forall_true. done.
  - apply Permutation_app; [done|]. clear. by induction lines; simpl; [|f_equiv].
Qed.

Lemma accesses_left_start lines : sum_list (accesses_left <$> (CheckLog <$> lines)) = (6 * length lines)%nat.
Proof. induction lines as [|l lines IH]; [done|]. rewrite !fmap_cons. cbn [sum_list_with length]. simpl. lia. Qed.

Lemma nsteps_bounded noPath n ps s t :
  nsteps (step noPath) n (ps, s) t -> (n <= sum_list (accesses_left <$> ps))%nat.
Proof.
  revert ps s. induction n as [|n IH]; intros ps s Hn; [lia|].
  inversion Hn as [|? ? [ps' s'] ? Hst Hn']; subst.
  apply IH in Hn'. apply step_decreases in Hst as [? _]. lia.
Qed.

Lemma rtc_length noPath t t' : rtc (step noPath) t t' -> length t'.1 = length t.1.
Proof.
  induction 1 as [|[ps s] [ps' s'] t' Hst _ IH]; [done|].
  apply step_decreases in Hst as [_ Hl]. simpl in *. congruence.
Qed.

Lemma all_done_or_step noPath ps s : (exists t', step noPath (ps, s) t') \/ Forall (fun p => p = Done) ps.
Proof.
  destruct (decide (Forall (fun p => p = Done) ps)) as [Hd|Hd]; [by right|left].
  apply not_Forall_Exists, Exists_exists in Hd as (p & Hin & Hp); [|apply _].
  apply list_elem_of_lookup in Hin as [i Hi].
  eexists. eapply (step_access _ _ _ i no_failure); [done|done|apply surjective_pairing].
Qed.

(** C30. Every request gets its turn: however the goroutines interleave and whatever
    calls fail, they make at most six accesses each, and the only states in which
    none can go on are those in which all have finished. When there is no file to
    open (no path is configured, or opening one has failed before), no interleaving
    loses a line: each is handed to the logger exactly once, and the file is left alone. *)
Theorem access_log_ends (noPath : bool) (lines : list (list Z)) (s : LogState) :
  (forall n t, nsteps (step noPath) n (CheckLog <$> lines, s) t -> (n <= 6 * length lines)%nat) /\
  (forall t, rtc (step noPath) (CheckLog <$> lines, s) t ->
    (exists t', step noPath t t') \/ t.1 = ((fun _ => Done) <$> lines)) /\
  (accessLog s = None -> noPath || attemptedAccessLogOpen s = true ->
    forall t, rtc (step noPath) (CheckLog <$> lines, s) t -> t.1 = ((fun _ => Done) <$> lines) ->
    console t.2 ≡ₚ console s ++ lines /\ log_file t.2 = log_file s).
Proof.
  split_and!.
  - intros n t Hn. apply nsteps_bounded in Hn. by rewrite accesses_left_start in Hn.
  - intros [ps' s'] Hr. apply rtc_length in Hr as Hlen. simpl in Hlen. rewrite length_fmap in Hlen.
    destruct (all_done_or_step noPath ps' s') as [Hst|Hd]; [by left|right].
    simpl. clear Hr. revert lines Hlen. induction Hd as [|p ps -> _ IH]; intros [|l lines] Hlen; try done.
    rewrite fmap_cons. f_equal. apply IH. simpl in Hlen. lia.
  - intros Hn Ha t Hr Ht. apply (printing_rtc noPath lines s) in Hr as (_ & _ & Hf & _ & Hc); [|done..].
    rewrite <- Hc, Ht. split; [|done]. clear. induction lines; simpl; [by rewrite app_nil_r|done].
Qed.

(** The second goroutine overtakes the first. *)
Lemma access_log_ends_witness :
  let t := ([Done; Done], mkLogState None None false [[2]; [1]]) in
  rtc (step true) ([CheckLog [1]; CheckLog [2]], idle None) t /\
  console t.2 ≡ₚ [[1]; [2]] /\ log_file t.2 = None.
Proof.
  intros t.
  assert (rtc (step true) ([CheckLog [1]; CheckLog [2]], idle None) t) as Hr.
  { eapply (rtc_access _ no_failure 0%nat); [reflexivity|done|]; simpl.
    do 2 (eapply (rtc_access _ no_failure 1%nat); [reflexivity|done|]; simpl).
    eapply (rtc_access _ no_failure 0%nat); [reflexivity|done|]; simpl. apply rtc_refl. }
  split; [exact Hr|]. by apply (access_log_ends true [[1]; [2]] (idle None)).
Defined.
