(* ===== verification/ServerTheorems.v ===== *)
(** Theorems about the server: only requests with the right token are answered with a
    signature, and with which; no request changes a file; what is logged is what is
    sent, but for the size of a reply to [HEAD]. *)
From S2P Require Import Prelude Utils Serializer Tags Header Layout HeaderSpec HeaderOps Allocation IndexUpdate Payload.
From S2P Require Import HeaderCodec Codec HeaderRoundtrip RpmFile FileRoundtrip FileTheorems Signing SigningTheorems.
From S2P Require Import Frame Files FilesTheorems Keys Http Server.
From Stdlib Require Import Ascii.

(** ** Tokens *)

Lemma fold_lor_zero (l : list (Z * Z)) v :
  fold_left (fun v p => Z.lor v (Z.lxor p.1 p.2)) l v = 0 <-> v = 0 /\ Forall (fun p => p.1 = p.2) l.
Proof.
  revert v. induction l as [|[a b] l IH]; intros v; simpl; [rewrite Forall_nil; tauto|].
  rewrite IH, Forall_cons, Z.lor_eq_0_iff, Z.lxor_eq_0_iff. simpl. tauto.
Qed.

Lemma combine_eq (x y : list Z) : length x = length y -> Forall (fun p => p.1 = p.2) (combine x y) <-> x = y.
Proof.
  revert y. induction x as [|a x IH]; intros [|b y] Hl; simpl in *; try done.
  rewrite Forall_cons, IH by lia. simpl. split; [by intros [-> ->]|by intros [= -> ->]].
Qed.

Lemma ConstantTimeCompare_spec x y : ConstantTimeCompare x y = if bool_decide (x = y) then 1 else 0.
Proof.
  unfold ConstantTimeCompare. destruct (Nat.eqb_spec (length x) (length y)) as [Hl|Hl]; simpl.
  - assert (fold_left (fun v p => Z.lor v (Z.lxor p.1 p.2)) (combine x y) 0 = 0 <-> x = y) as Hiff.
    { rewrite fold_lor_zero, combine_eq by done. tauto. }
    case_bool_decide as Hxy; [by rewrite (proj2 (Z.eqb_eq _ _)) by by apply Hiff|].
    by rewrite (proj2 (Z.eqb_neq _ _)) by (by intros ->%Hiff).
  - case_bool_decide as Hxy; [|done]. by subst.
Qed.

Lemma char_of_byte_of c : char_of (byte_of c) = c.
Proof. unfold char_of, byte_of. by rewrite N2Z.id, ascii_N_embedding. Qed.

Lemma text_of_bytes_of s : text_of (bytes_of s) = s.
Proof. induction s as [|c s IH]; simpl; [done|]. by rewrite char_of_byte_of, IH. Qed.

#[export] Instance bytes_of_inj : Inj (=) (=) bytes_of.
Proof. intros s t E. by rewrite <- (text_of_bytes_of s), E, text_of_bytes_of. Qed.

(** The token a request has: the first [authToken] of its query. *)
Definition authorized (query : string) (appConfig : AppConfig) : Prop :=
  Get "authToken" (ParseQuery query) = ApiSigningToken appConfig.

#[export] Instance authorized_dec query appConfig : Decision (authorized query appConfig).
Proof. unfold authorized. apply _. Defined.

Lemma with_token_run {W B} `{ResponseWriter W} query appConfig (k : M (Exchange W B) unit) :
  with_token query appConfig k =
  if bool_decide (authorized query appConfig) then k
  else on_writer (sendHttpError StatusForbidden "missing or invalid authToken").
Proof.
  unfold with_token. rewrite ConstantTimeCompare_spec.
  destruct (decide (authorized query appConfig)) as [Ha|Ha].
  - rewrite !bool_decide_eq_true_2; [done|done|by rewrite <- Ha].
  - rewrite !bool_decide_eq_false_2; [done|done|]. by intros E%(inj bytes_of).
Qed.

(** ** Signing the body *)

Section Body.
Context `{OS} `{!Reliable} `{KeyFormat} `{Hashes} `{Runtime}.

(** The private key of the server, with the files [m]. *)
Definition server_key (appConfig : AppConfig) (m : filemap) : outcome PrivateKey :=
  match m !! GpgPublicKeyPath appConfig with
  | None => Err "no such file or directory"
  | Some _ =>
      prefixed "failed to load private key from %s : "
        (match m !! GpgPrivateKeyPath appConfig with
         | None => Err "no such file or directory"
         | Some content => (LoadPrivateKey (GpgPrivateKeyPassword appConfig) (mkSeekable content 0)).1
         end)
  end.

Lemma LoadGpgPrivateKey_run appConfig w :
  exists w', LoadGpgPrivateKey appConfig w = (server_key appConfig (files w), w') /\ files w' = files w.
Proof.
  unfold LoadGpgPrivateKey, server_key, mbind, M_bind. rewrite os_Open_run, no_fault.
  destruct (files w !! GpgPublicKeyPath appConfig); [|by eexists].
  rewrite LoadPrivateKeyFromFile_run, os_Open_run, no_fault. simpl.
  destruct (files w !! GpgPrivateKeyPath appConfig); by eexists.
Qed.

(** What the server makes of a body: the headers of the signed file and what was
    behind the headers of the file. *)
Definition signed_body (now : Z) (appConfig : AppConfig) (m : filemap) (body : list Z) : outcome (list Z) :=
  let '(o, r) := ParseRPM false (mkStream body 0) in
  f ← o;
  key ← server_key appConfig m;
  match SignRpm now key f with
  | (Ok _, f) => _ ← (headers_of f).1; Ok ((headers_of f).2 ++ st_rest r)
  | (Err e, _) => Err e
  | (Panic s, _) => Panic s
  | (Diverge, _) => Diverge
  end.

Lemma ParseRPM_view {R} `{LawfulReader R} (r : R) :
  valid r -> exists o r', ParseRPM false r = (o, r') /\ valid r' /\
    ParseRPM false (view r) = (o, view r').
Proof.
  intros Hr. destruct (refines_ParseRPM r Hr) as [Hv Hview]. exists (ParseRPM false r).1, (ParseRPM false r).2.
  split_and!; [apply surjective_pairing|done|done].
Qed.

Lemma on_body_eq {W B A} (m : M B A) (x : Exchange W B) o b :
  m (x_body x) = (o, b) -> on_body m x = (o, mkExchange (x_world x) (x_writer x) b).
Proof. intros E. unfold on_body. by rewrite E. Qed.

Lemma signRpmData_run {R W} `{LawfulReader R} `{LawfulWriter W} fuel now appConfig w (wr : W) (r : R) :
  valid r -> Offset r = 0 -> wvalid wr -> written wr = [] -> (length (rest r) + 1 < fuel)%nat ->
  exists x, signRpmData fuel now appConfig (mkExchange w wr r) =
      (_ ← signed_body now appConfig (files w) (rest r); Ok tt, x) /\
    files (x_world x) = files w /\
    (forall d, signed_body now appConfig (files w) (rest r) = Ok d -> written (x_writer x) = d).
Proof.
  intros Hr Ho Hw Hwr Hfuel. destruct (ParseRPM_view r Hr) as (o & r' & Hrun & Hr' & Hview).
  unfold view at 1 in Hview. rewrite Ho in Hview.
  unfold signed_body. rewrite Hview. unfold signRpmData, ParseRPMFromReader.
  assert (on_body (ParseRPM false) (mkExchange w wr r) = (o, mkExchange w wr r')) as Hb
    by by apply on_body_eq.
  unfold mbind at 1, M_bind at 1. rewrite Hb. destruct o as [f|e|s|]; try (by eexists). simpl.
  unfold mbind at 1, M_bind at 1, on_world. simpl.
  destruct (LoadGpgPrivateKey_run appConfig w) as (w' & -> & Hf).
  destruct (server_key appConfig (files w)) as [key|e|s|]; try (by eexists). simpl.
  unfold on_streams, SignRpmAndWrite. simpl.
  destruct (SignRpm now key f) as [[u|e|s|] f']; try (by eexists).
  assert (length (rest r') <= length (rest r))%nat as Hle.
  { pose proof (framed_ParseRPM (mkStream (rest r) 0) f (view r')) as Hfr. simpl in Hfr.
    destruct Hfr as (_ & bs & Hbs & _); [done|exact Hview|]. rewrite Hbs, length_app. lia. }
  destruct (WriteRPM_headers fuel f' wr r') as (wr' & p' & Hwrite & Hv & Hwritten); [done..|lia|].
  rewrite Hwrite. destruct ((headers_of f').1) as [[]|e|s|] eqn:Hh; try (by eexists).
  eexists. split; [done|]. split; [done|]. intros d [= <-]. simpl. by rewrite Hwritten, Hwr.
Qed.

Lemma sign_into_buffer_run {W B} `{ResponseWriter W} `{LawfulIOReader B} fuel now appConfig (x : Exchange W B) :
  (length (io_rest (x_body x)) + 1 < fuel)%nat ->
  exists x', sign_into_buffer fuel now appConfig x =
      (signed_body now appConfig (files (x_world x)) (io_rest (x_body x)), x') /\
    files (x_world x') = files (x_world x) /\ x_writer x' = x_writer x.
Proof.
  intros Hfuel. unfold sign_into_buffer.
  destruct (signRpmData_run fuel now appConfig (x_world x) (NewOffsetTrackingWriter NewArrayWriter)
    (NewIOReaderWithOffset (x_body x))) as (s & -> & Hf & Hd); [done..|].
  exists (mkExchange (x_world s) (x_writer x) (ior_file (x_body s))). split; [|done]. f_equal.
  change (rest (NewIOReaderWithOffset (x_body x))) with (io_rest (x_body x)) in *.
  destruct (signed_body now appConfig (files (x_world x)) (io_rest (x_body x))) as [d|e|p|]; try done.
  simpl. f_equal. by rewrite <- (Hd d eq_refl).
Qed.

Lemma doSigDetached_run {W B} `{ResponseWriter W} `{LawfulIOReader B} fuel now appConfig (x : Exchange W B) :
  (length (io_rest (x_body x)) + 1 < fuel)%nat ->
  exists x', doSigDetached fuel now appConfig x =
      (key ← server_key appConfig (files (x_world x)); armored_signature now key (io_rest (x_body x)), x') /\
    files (x_world x') = files (x_world x) /\ x_writer x' = x_writer x.
Proof.
  intros Hfuel. unfold doSigDetached, mbind at 1, M_bind at 1, on_world.
  destruct (LoadGpgPrivateKey_run appConfig (x_world x)) as (w' & -> & Hf).
  destruct (server_key appConfig (files (x_world x))) as [key|e|p|]; try (by eexists). simpl.
  unfold on_body, through_offset. simpl.
  pose proof (SignGeneric_run fuel now key (NewIOReaderWithOffset (x_body x))) as Hs.
  destruct (SignGeneric fuel now key (NewIOReaderWithOffset (x_body x))) as [o r].
  simpl in Hs. rewrite Hs by done. by eexists.
Qed.

(** A reply, as the client sees it. *)
Definition replies (code : Z) (body : list Z) (r : response) : Prop := status r = code /\ r_body r = body.

Lemma http_Error_replies msg code :
  replies code (bytes_of msg ++ [10]) (http_Error msg code (new_response None)).
Proof.
  unfold http_Error, replies, WriteBody, SetHeader, WriteHeader. simpl.
  unfold response_Write, response_WriteHeader. simpl. by rewrite Nat.leb_refl.
Qed.

Lemma write_response_replies p f (r : response) :
  r_sent r = None -> r_body r = [] -> r_limit r = None -> r_head r = false ->
  replies StatusOK p (write_response p f r).
Proof.
  intros Hs Hb Hl Hh. unfold write_response, replies, WriteBody. simpl. unfold response_Write, response_WriteHeader.
  rewrite Hs. simpl. by rewrite Hh, Hl, Nat.leb_refl, Hb.
Qed.

(** A handler that replies with what [m] returns, or with an error. *)
Lemma on_fail_replies {B} (m : M (Exchange response B) (list Z)) code msg f (x x1 : Exchange response B) (o : outcome (list Z)) :
  x_writer x = new_response None -> m x = (o, x1) -> x_writer x1 = x_writer x ->
  exists x', on_fail m (sendHttpError code msg)
      (fun d => on_writer (fun w => write_response d f (initBinaryUncacheableHttpResponse w))) x =
        (_ ← (match o with Err _ => Ok [] | o => o end); Ok tt, x') /\
    x_world x' = x_world x1 /\
    match o with
    | Ok d => replies StatusOK d (x_writer x')
    | Err _ => replies code (bytes_of msg ++ [10]) (x_writer x')
    | _ => x_writer x' = x_writer x
    end.
Proof.
  intros Hx Hm Hw. unfold on_fail. rewrite Hm. destruct o as [d|e|p|]; try (by eexists).
  - eexists. split; [done|]. split; [done|]. simpl. rewrite Hw, Hx. by apply write_response_replies.
  - eexists. split; [done|]. split; [done|]. simpl. rewrite Hw, Hx. apply http_Error_replies.
Qed.
End Body.

(** ** Every request *)

Definition set_headers {W} `{ResponseWriter W} (hs : list (string * string)) (w : W) : W :=
  fold_left (fun w h => SetHeader h.1 h.2 w) hs w.

(** Some pieces written one after the other. *)
Inductive writes {W} `{ResponseWriter W} (w : W) : W -> Prop :=
| writes_none : writes w w
| writes_more p w' : writes (WriteBody p w).2 w' -> writes w w'.

(** A handler leaves the writer alone, reports one error, or writes one reply, at once
    or in pieces. *)
Inductive single_reply {W} `{ResponseWriter W} (w : W) : W -> Prop :=
| reply_none : single_reply w w
| reply_error hs msg code : single_reply w (http_Error msg code (set_headers hs w))
| reply_body hs p f : single_reply w (write_response p f (set_headers hs w))
| reply_copied hs w' : writes (set_headers hs w) w' -> single_reply w w'.

Section Mux.
Context `{OS} `{KeyFormat} `{Hashes} `{Runtime}.
Context (Quote : string -> string) (serverStart AppVersion GitRef : string).
Context {W B : Type} `{ResponseWriter W} `{IOReader B}.

(** [m] neither changes a file nor writes a reply. *)
Definition quiet {A} (m : M (Exchange W B) A) : Prop :=
  forall x, files (x_world (m x).2) = files (x_world x) /\ x_writer (m x).2 = x_writer x.

Definition well_behaved (m : M (Exchange W B) unit) : Prop :=
  forall x, files (x_world (m x).2) = files (x_world x) /\ single_reply (x_writer x) (x_writer (m x).2).

Lemma quiet_bind {A C} (m : M (Exchange W B) A) (k : A -> M (Exchange W B) C) :
  quiet m -> (forall a, quiet (k a)) -> quiet (m ≫= k).
Proof.
  intros Hm Hk x. specialize (Hm x). unfold mbind, M_bind. destruct (m x) as [[a|e|p|] x1]; try done.
  destruct (Hk a x1) as [-> ->]. done.
Qed.

Lemma quiet_on_body {A} (m : M B A) : quiet (on_body m).
Proof. intros x. unfold on_body. by destruct (m (x_body x)). Qed.

Lemma os_Open_keeps name w : files (os_Open name w).2 = files w.
Proof. by rewrite os_Open_run. Qed.

Lemma LoadGpgPrivateKey_keeps appConfig w : files (LoadGpgPrivateKey appConfig w).2 = files w.
Proof.
  unfold LoadGpgPrivateKey, mbind, M_bind. rewrite os_Open_run.
  destruct (match fault (clock w) with Some _ => _ | None => _ end); try done.
  by rewrite LoadPrivateKeyFromFile_run.
Qed.

Lemma quiet_on_world {A} (m : M World A) : (forall w, files (m w).2 = files w) -> quiet (on_world m).
Proof. intros Hm x. specialize (Hm (x_world x)). unfold on_world. by destruct (m (x_world x)). Qed.

Lemma quiet_doSigDetached fuel now appConfig : quiet (doSigDetached fuel now appConfig).
Proof.
  apply quiet_bind; [by apply quiet_on_world, LoadGpgPrivateKey_keeps|]. intros key. apply quiet_on_body.
Qed.

Lemma quiet_sign_into_buffer fuel now appConfig : quiet (sign_into_buffer fuel now appConfig).
Proof.
  intros x. unfold sign_into_buffer.
  set (y := mkExchange (x_world x) (NewOffsetTrackingWriter NewArrayWriter) (NewIOReaderWithOffset (x_body x))).
  assert (files (x_world (signRpmData fuel now appConfig y).2) = files (x_world y)) as Hf.
  { unfold signRpmData, mbind, M_bind, on_body, on_world, on_streams.
    destruct (ParseRPMFromReader false (x_body y)) as [[f|e|p|] b]; try done. simpl.
    pose proof (LoadGpgPrivateKey_keeps appConfig (x_world x)) as Hk.
    destruct (LoadGpgPrivateKey appConfig (x_world x)) as [[key|e|p|] w]; try done. simpl in *.
    by destruct (SignRpmAndWrite fuel f now key _) as [o [wr r]]. }
  destruct (signRpmData fuel now appConfig y) as [o z]. done.
Qed.

Lemma well_behaved_writer (f : W -> W) : (forall w, single_reply w (f w)) -> well_behaved (on_writer f).
Proof. intros Hf x. split; [done|]. apply Hf. Qed.

Lemma well_behaved_error code msg : well_behaved (on_writer (sendHttpError code msg)).
Proof. apply well_behaved_writer. intros w. apply (reply_error w []). Qed.

Lemma well_behaved_on_fail {A} (m : M (Exchange W B) A) code msg k :
  quiet m -> (forall a, well_behaved (k a)) -> well_behaved (on_fail m (sendHttpError code msg) k).
Proof.
  intros Hm Hk x. unfold on_fail. destruct (Hm x) as [Hf Hw]. destruct (m x) as [[a|e|p|] x1]; simpl in *.
  - destruct (Hk a x1) as [Hf1 Hs]. by rewrite Hf1, <- Hw.
  - destruct (well_behaved_error code msg x1) as [Hf1 Hs]. by rewrite <- Hw.
  - rewrite Hw. split; [done|apply reply_none].
  - rewrite Hw. split; [done|apply reply_none].
Qed.

Lemma initBinary_headers (w : W) : exists hs, initBinaryUncacheableHttpResponse w = set_headers hs w.
Proof.
  by exists [("Content-Type", "application/octet-stream");
    ("Cache-Control", "no-store, no-cache, must-revalidate"); ("Pragma", "no-cache"); ("Expires", "0")].
Qed.

Lemma SetHeader_headers k v hs (w : W) : SetHeader k v (set_headers hs w) = set_headers (hs ++ [(k, v)]) w.
Proof. unfold set_headers. by rewrite fold_left_app. Qed.

Lemma well_behaved_reply p f : well_behaved (on_writer (fun w => write_response p f (initBinaryUncacheableHttpResponse w))).
Proof. apply well_behaved_writer. intros w. destruct (initBinary_headers w) as [hs ->]. apply reply_body. Qed.

Lemma well_behaved_reply_with k v p f :
  well_behaved (on_writer (fun w => write_response p f (SetHeader k v (initBinaryUncacheableHttpResponse w)))).
Proof.
  apply well_behaved_writer. intros w. destruct (initBinary_headers w) as [hs ->].
  rewrite SetHeader_headers. apply reply_body.
Qed.

(** Copying a file to the response writes pieces of it, whatever fails. *)
Lemma copy_file_writes fuel content (x : Exchange W B) :
  files (x_world (copy_file fuel content x).2) = files (x_world x) /\
  writes (x_writer x) (x_writer (copy_file fuel content x).2).
Proof.
  revert content x. induction fuel as [|fuel IH]; intros content x; [split; [done|apply writes_none]|].
  cbn [copy_file]. unfold mbind, M_bind, on_world, os_Read, syscall.
  destruct (fault (clock (x_world x))) as [[e n]|]; simpl; [split; [done|apply writes_none]|].
  destruct (_ =? 0)%nat; [split; [done|apply writes_none]|]. simpl.
  set (bs := take _ content).
  destruct (WriteBody bs (x_writer x)) as [[n err] w] eqn:Hw.
  assert (forall w', writes w w' -> writes (x_writer x) w') as Hmore
    by (intros w' Hs; apply (writes_more _ bs); by rewrite Hw).
  destruct err as [e|]; [|destruct (_ || _); [|destruct (negb _)]];
    try (split; [done|apply Hmore, writes_none]).
  destruct (IH (drop (length bs) content) (mkExchange (after (files (x_world x)) (x_world x)) w (x_body x)))
    as [Hf Hws]. split; [exact Hf|by apply Hmore].
Qed.

Lemma well_behaved_copy k v fuel content :
  well_behaved (_ ← on_writer (fun w => SetHeader k v (initBinaryUncacheableHttpResponse w));
                ignore (copy_file fuel content)).
Proof.
  intros x. unfold mbind, M_bind, on_writer. destruct (initBinary_headers (x_writer x)) as [hs ->].
  rewrite SetHeader_headers. set (y := mkExchange _ _ _).
  destruct (copy_file_writes fuel content y) as [Hf Hw]. unfold ignore.
  destruct (copy_file fuel content y) as [[u|e|s|] z]; (split; [exact Hf|eapply reply_copied; exact Hw]).
Qed.

Lemma well_behaved_with_token query appConfig (k : M (Exchange W B) unit) :
  well_behaved k -> well_behaved (with_token query appConfig k).
Proof. intros Hk. rewrite with_token_run. case_bool_decide; [done|apply well_behaved_error]. Qed.

Lemma well_behaved_routes fuel now query appConfig r :
  r ∈ routes Quote serverStart AppVersion GitRef fuel now query appConfig -> well_behaved r.2.
Proof.
  assert (forall name, quiet (on_world (os_Open name))) as Hopen
    by (intros name; apply quiet_on_world, os_Open_keeps).
  unfold routes. rewrite !elem_of_cons, elem_of_nil. intros [->|[->|[->|[->|[->|[]]]]]]; simpl.
  - apply well_behaved_on_fail; [apply Hopen|]. intros. apply well_behaved_reply.
  - apply well_behaved_with_token, well_behaved_on_fail; [apply quiet_sign_into_buffer|].
    intros. apply well_behaved_reply.
  - apply well_behaved_with_token, well_behaved_on_fail; [apply quiet_doSigDetached|].
    intros. apply well_behaved_reply.
  - unfold handleClientDownload. repeat case_match; first [apply well_behaved_error
      | apply well_behaved_on_fail; [apply Hopen|]; intros; apply well_behaved_copy].
  - apply well_behaved_reply_with.
Qed.

Lemma well_behaved_ServeMux fuel now appConfig req :
  well_behaved (ServeMux Quote serverStart AppVersion GitRef fuel now appConfig req).
Proof.
  unfold ServeMux. set (rs := filter _ _).
  assert (forall r, r ∈ rs -> well_behaved r.2) as Hrs.
  { intros r [_ Hr]%list_elem_of_filter. by eapply well_behaved_routes. }
  destruct rs as [|[[method path] handler] rs].
  - apply well_behaved_writer. intros w. apply (reply_error w []).
  - case_match; [by apply (Hrs (method, path, handler)), elem_of_cons; left|].
    apply well_behaved_writer. intros w. apply (reply_error w [("Allow", _)]).
Qed.
End Mux.

(** The methods and paths the server knows. *)
Definition endpoints : list (string * string) :=
  [("GET", "/publicKey"); ("POST", "/signRpmHeader"); ("POST", "/signDetached"); ("GET", "/clientDownload");
   ("GET", "/info")].

Lemma ServeMux_unmatched `{OS} `{KeyFormat} `{Hashes} `{Runtime} {W B} `{ResponseWriter W} `{IOReader B}
    Quote serverStart AppVersion GitRef fuel now appConfig req (x : Exchange W B) :
  Forall (fun r => r.2 <> req_Path req \/ method_matches r.1 (req_Method req) = false) endpoints ->
  exists msg code hs, (code ∈ [StatusNotFound; StatusMethodNotAllowed]) /\
    ServeMux Quote serverStart AppVersion GitRef fuel now appConfig req x =
      on_writer (fun w => http_Error msg code (set_headers hs w)) x.
Proof.
  intros Hno. unfold ServeMux.
  set (rs := routes Quote serverStart AppVersion GitRef fuel now (req_RawQuery req) appConfig).
  assert (fst <$> rs = endpoints) as Hrs by done.
  destruct (filter (fun r => r.1.2 = req_Path req) rs) as [|[[method path] handler] l] eqn:E.
  - eexists _, _, []. split; [|done]. by apply (bool_decide_unpack _).
  - assert ((method, path, handler) ∈ filter (fun r => r.1.2 = req_Path req) rs) as [Hp Hin]%list_elem_of_filter
      by (rewrite E; by apply elem_of_cons; left).
    rewrite Forall_forall in Hno. destruct (Hno (method, path)) as [Hne|Hm].
    + rewrite <- Hrs. by apply (list_elem_of_fmap_2 fst) in Hin.
    + done.
    + simpl in Hm. rewrite Hm. eexists _, _, [("Allow", _)]. split; [|done]. by apply (bool_decide_unpack _).
Qed.

(** What the wrapper of the middleware has counted is what has been sent, if the
    connection does not break; of a reply to [HEAD] no body is sent. *)
Definition counted (head : bool) (rw : responseWriterWrapper response) : Prop :=
  let r := rw_ResponseWriter rw in
  statusCode rw = status r /\ r_limit r = None /\ r_head r = head /\
  if head then r_body r = [] else bytesWritten rw = Zlen (r_body r).

Lemma set_headers_wrapper hs (rw : responseWriterWrapper response) :
  set_headers hs rw = mkWrapper (set_headers hs (rw_ResponseWriter rw)) (statusCode rw) (bytesWritten rw).
Proof.
  unfold set_headers. revert rw. induction hs as [|h hs IH]; intros rw; simpl; [by destruct rw|]. by rewrite IH.
Qed.

Lemma set_headers_response hs (r : response) :
  r_sent (set_headers hs r) = r_sent r /\ r_body (set_headers hs r) = r_body r /\
  r_limit (set_headers hs r) = r_limit r /\ r_head (set_headers hs r) = r_head r.
Proof. unfold set_headers. revert r. induction hs as [|h hs IH]; intros r; [done|].
  exact (IH (SetHeader h.1 h.2 r)).
Qed.

Lemma http_Error_wrapper msg code (rw : responseWriterWrapper response) : statusCode (http_Error msg code rw) = code.
Proof. unfold http_Error. simpl. by destruct (response_Write _ _) as [[n err] w]. Qed.

Lemma set_headers_counted head hs rw : counted head rw -> counted head (set_headers hs rw).
Proof.
  rewrite set_headers_wrapper. unfold counted, status. simpl.
  by destruct (set_headers_response hs (rw_ResponseWriter rw)) as (-> & -> & -> & ->).
Qed.

Lemma WriteBody_counted head p rw :
  counted head rw -> counted head (WriteBody p rw).2 /\ (WriteBody p rw).1.2 = None.
Proof.
  destruct rw as [[h sent body limit hd] code n]. unfold counted. simpl. intros (-> & -> & -> & Hb).
  unfold response_Write, response_WriteHeader. destruct sent as [[c hs]|], head; simpl in *;
    rewrite ?Nat.leb_refl; simpl; (split; [|done]); rewrite ?Hb, ?Zlen_app; auto.
Qed.

Lemma WriteHeader_counted head code rw :
  counted head rw -> r_sent (rw_ResponseWriter rw) = None -> counted head (WriteHeader code rw).
Proof.
  destruct rw as [[h sent body limit hd] c n]. unfold counted. simpl. by intros (-> & -> & -> & Hb) ->.
Qed.

Lemma writes_counted head rw rw' : writes rw rw' -> counted head rw -> counted head rw'.
Proof. induction 1 as [|rw p rw' _ IH]; [done|]. intros Hc. by apply IH, WriteBody_counted. Qed.

Lemma single_reply_counted head rw rw' :
  single_reply rw rw' -> counted head rw -> r_sent (rw_ResponseWriter rw) = None -> counted head rw'.
Proof.
  intros Hs Hc Hn. assert (forall hs, counted head (set_headers hs rw)) as Hh by (intros hs; by apply set_headers_counted).
  assert (forall hs, r_sent (rw_ResponseWriter (set_headers hs rw)) = None) as Hns.
  { intros hs. rewrite set_headers_wrapper. simpl.
    by destruct (set_headers_response hs (rw_ResponseWriter rw)) as (-> & _). }
  destruct Hs as [|hs msg code|hs p f|hs w' Hw]; [done|..].
  - unfold http_Error. apply WriteBody_counted, WriteHeader_counted.
    + apply (set_headers_counted head [("Content-Type", "text/plain; charset=utf-8");
        ("X-Content-Type-Options", "nosniff")] _ (Hh hs)).
    + apply (Hns hs).
  - destruct (WriteBody_counted head p _ (Hh hs)) as [Hw Herr]. unfold write_response.
    destruct (WriteBody p (set_headers hs rw)) as [[n err] w]. simpl in *. by subst err.
  - by eapply writes_counted.
Qed.

(** [handleSignRpmHeader] with the right token, whatever the writer. *)
Lemma handleSignRpmHeader_writer `{OS} `{!Reliable} `{KeyFormat} `{Hashes} `{Runtime} {W B} `{ResponseWriter W}
    `{LawfulIOReader B} fuel now query appConfig (x : Exchange W B) :
  authorized query appConfig -> (length (io_rest (x_body x)) + 1 < fuel)%nat ->
  exists x', handleSignRpmHeader fuel now query appConfig x =
      (match signed_body now appConfig (files (x_world x)) (io_rest (x_body x)) with
       | Ok _ | Err _ => Ok tt | Panic s => Panic s | Diverge => Diverge end, x') /\
    x_writer x' =
      match signed_body now appConfig (files (x_world x)) (io_rest (x_body x)) with
      | Ok signed => write_response signed id (initBinaryUncacheableHttpResponse (x_writer x))
      | Err _ => sendHttpError StatusBadRequest "failed to sign RPM data" (x_writer x)
      | _ => x_writer x
      end.
Proof.
  intros Ha Hfuel. unfold handleSignRpmHeader. rewrite with_token_run, bool_decide_eq_true_2 by done.
  destruct (sign_into_buffer_run fuel now appConfig x Hfuel) as (x1 & Hs & Hf & Hw).
  unfold on_fail. rewrite Hs, <- Hw.
  by destruct (signed_body now appConfig (files (x_world x)) (io_rest (x_body x))); eexists.
Qed.

(** C11. [POST /signRpmHeader], with no I/O errors. Without the right token the reply
    is 403, and neither the files nor the body are even looked at. With it, the reply
    is the signed headers of the file in the body, followed by whatever was behind
    the headers; or, if parsing, the key or signing fails, 400 with a fixed message.
    When the parser panics nothing is sent. No file changes. *)
Theorem handleSignRpmHeader_correct `{OS} `{!Reliable} `{KeyFormat} `{Hashes} `{Runtime} {B} `{LawfulIOReader B}
    fuel now query appConfig w (body : B) :
  (length (io_rest body) + 1 < fuel)%nat ->
  exists o x', handleSignRpmHeader fuel now query appConfig (mkExchange w (new_response None) body) = (o, x') /\
    files (x_world x') = files w /\
    if bool_decide (authorized query appConfig) then
      match signed_body now appConfig (files w) (io_rest body) with
      | Ok signed => o = Ok tt /\ replies StatusOK signed (x_writer x')
      | Err _ => o = Ok tt /\ replies StatusBadRequest (bytes_of "failed to sign RPM data" ++ [10]) (x_writer x')
      | Panic s => o = Panic s /\ x_writer x' = new_response None
      | Diverge => o = Diverge /\ x_writer x' = new_response None
      end
    else
      o = Ok tt /\ x_world x' = w /\ x_body x' = body /\
      replies StatusForbidden (bytes_of "missing or invalid authToken" ++ [10]) (x_writer x').
Proof.
  intros Hfuel. unfold handleSignRpmHeader. rewrite with_token_run. case_bool_decide as Ha.
  - set (x := mkExchange w (new_response None) body).
    destruct (sign_into_buffer_run fuel now appConfig x Hfuel) as (x1 & Hs & Hf & Hw).
    destruct (on_fail_replies _ StatusBadRequest "failed to sign RPM data" id x x1 _ eq_refl Hs Hw)
      as (x' & Hrun & Hw' & Hrep).
    eexists _, x'. split; [exact Hrun|]. rewrite Hw'. split; [done|]. simpl in Hrep |- *.
    destruct (signed_body now appConfig (files w) (io_rest body)); (split; [reflexivity|exact Hrep]).
  - do 2 eexists. split; [done|]. split_and!; try done; apply http_Error_replies.
Qed.

(** C26. [POST /signDetached] likewise: the reply to an authorized request is the
    armored signature of exactly the body, with the server's key. *)
Theorem handleSignDetached_correct `{OS} `{!Reliable} `{KeyFormat} `{Hashes} `{Runtime} {B} `{LawfulIOReader B}
    fuel now query appConfig w (body : B) :
  (length (io_rest body) + 1 < fuel)%nat ->
  exists o x', handleSignDetached fuel now query appConfig (mkExchange w (new_response None) body) = (o, x') /\
    files (x_world x') = files w /\
    if bool_decide (authorized query appConfig) then
      match key ← server_key appConfig (files w); armored_signature now key (io_rest body) with
      | Ok signature => o = Ok tt /\ replies StatusOK signature (x_writer x')
      | Err _ => o = Ok tt /\ replies StatusBadRequest (bytes_of "failed to sign data" ++ [10]) (x_writer x')
      | Panic s => o = Panic s /\ x_writer x' = new_response None
      | Diverge => o = Diverge /\ x_writer x' = new_response None
      end
    else
      o = Ok tt /\ x_world x' = w /\ x_body x' = body /\
      replies StatusForbidden (bytes_of "missing or invalid authToken" ++ [10]) (x_writer x').
Proof.
  intros Hfuel. unfold handleSignDetached. rewrite with_token_run. case_bool_decide as Ha.
  - set (x := mkExchange w (new_response None) body).
    destruct (doSigDetached_run fuel now appConfig x Hfuel) as (x1 & Hs & Hf & Hw).
    destruct (on_fail_replies _ StatusBadRequest "failed to sign data" id x x1 _ eq_refl Hs Hw)
      as (x' & Hrun & Hw' & Hrep).
    eexists _, x'. split; [exact Hrun|]. rewrite Hw'. split; [done|]. simpl in Hrep |- *.
    destruct (key ← server_key appConfig (files w); armored_signature now key (io_rest body));
      (split; [reflexivity|exact Hrep]).
  - do 2 eexists. split; [done|]. split_and!; try done; apply http_Error_replies.
Qed.

(** C27. Every request, whatever fails on the server: no file of the server changes.
    On a connection that does not break, the access log has the status that was sent
    and the size of the body that was sent, except that of a reply to [HEAD] no body is
    sent at all, whatever size is logged. A request that is for no route gets 404
    or 405 and touches nothing else. *)
Theorem ServeMux_safe `{OS} `{KeyFormat} `{Hashes} `{Runtime} {B} `{IOReader B}
    Quote serverStart AppVersion GitRef fuel now appConfig req w (body : B) :
  let mux := ServeMux (W:=responseWriterWrapper response) Quote serverStart AppVersion GitRef fuel now appConfig req in
  let '(o, x') := AccessLogMiddleware mux (mkExchange w (response_to (req_Method req) None) body) in
  files (x_world x') = files w /\
  (forall code n, o = Ok (code, n) ->
     status (x_writer x') = code /\
     if String.eqb (req_Method req) "HEAD" then r_body (x_writer x') = [] else Zlen (r_body (x_writer x')) = n) /\
  (Forall (fun r => r.2 <> req_Path req \/ method_matches r.1 (req_Method req) = false) endpoints ->
   x_world x' = w /\ x_body x' = body /\ status (x_writer x') ∈ [StatusNotFound; StatusMethodNotAllowed]).
Proof.
  intros mux. unfold AccessLogMiddleware. simpl.
  set (r0 := response_to (req_Method req) None). set (x := mkExchange w (mkWrapper r0 StatusOK 0) body).
  destruct (well_behaved_ServeMux Quote serverStart AppVersion GitRef fuel now appConfig req x) as [Hf Hs].
  fold mux in Hf, Hs.
  assert (counted (String.eqb (req_Method req) "HEAD") (x_writer (mux x).2)) as Hc
    by (apply (single_reply_counted _ _ _ Hs); [|done]; unfold counted; simpl; split_and!; try done;
        by destruct (req_Method req =? "HEAD")%string).
  destruct (mux x) as [o x'] eqn:Hmux. simpl in *. split; [done|]. split.
  - intros code n Hcode. destruct o as [u|e|p|]; try done. injection Hcode as <- <-.
    destruct Hc as (Hst & _ & _ & Hb). split; [done|].
    by destruct (req_Method req =? "HEAD")%string.
  - intros Hno. assert (exists msg code hs, (code ∈ [StatusNotFound; StatusMethodNotAllowed]) /\
      mux x = on_writer (fun w => http_Error msg code (set_headers hs w)) x) as (msg & code & hs & Hcode & Hm).
    { unfold mux. apply (ServeMux_unmatched Quote serverStart AppVersion GitRef fuel now appConfig req x Hno). }
    rewrite Hmux in Hm. injection Hm as _ ->. split; [done|]. split; [done|].
    destruct Hc as (Hst & _). simpl in Hst |- *. by rewrite <- Hst, http_Error_wrapper.
Qed.
