(* ===== verification/Remote.v ===== *)
(** Remote signing ([src/client/remotesign.go]): the headers of the file are sent to the
    server, and its reply and the payload become the signed file. The server as the
    client sees it is the handler behind a connection that may break off. *)
From S2P Require Import Prelude Utils Serializer Header HeaderCodec RpmFile Signing Files Keys Http Server.
From Stdlib Require Import Ascii.

(** ** Capturing the headers *)

Record headerCapturingReader (F : Type) := mkCapture { hc_src : F; hc_buf : list Z; capturing : bool }.
Arguments mkCapture {F} hc_src hc_buf capturing.
Arguments hc_src {F} h.
Arguments hc_buf {F} h.
Arguments capturing {F} h.

Definition newHeaderCapturingReader {F} (src : F) : headerCapturingReader F := mkCapture src [] true.

Definition headerCapturingReader_Read {F} `{IOReader F} (n : nat) (h : headerCapturingReader F)
    : (list Z * option io_error) * headerCapturingReader F :=
  let '((bs, err), src) := ioRead n (hc_src h) in
  ((bs, err),
   mkCapture src (if capturing h && (Zlen bs >? 0) then hc_buf h ++ bs else hc_buf h) (capturing h)).

#[export] Instance headerCapturingReader_reader {F} `{IOReader F} : IOReader (headerCapturingReader F) :=
  headerCapturingReader_Read.

(** The file behind it is the one that may be written to. *)
#[export] Instance headerCapturingReader_shares {F} `{!Shares OsFile F} : Shares OsFile (headerCapturingReader F) :=
  fun f h => mkCapture (refresh f (hc_src h)) (hc_buf h) (capturing h).

Definition StopCapturing {F} (h : headerCapturingReader F) : headerCapturingReader F :=
  mkCapture (hc_src h) (hc_buf h) false.

Definition Bytes {F} (h : headerCapturingReader F) : list Z := hc_buf h.

(** ** URLs *)

(** [url.URL], as far as it matters here. *)
Record URL := mkURL {
  u_Scheme : string;
  u_User : string;
  u_Host : string;
  u_Path : string;
  u_RawQuery : string;
  u_Fragment : string;
}.

(** [url.Parse] and [URL.String] *)
Class NetURL := { url_Parse : string -> outcome URL; url_String : URL -> string }.

(** [strings.TrimSuffix(s, "/")] *)
Fixpoint TrimSlash (s : string) : string :=
  match s with
  | EmptyString => EmptyString
  | String c EmptyString => if Ascii.eqb c "/" then EmptyString else s
  | String c s => String c (TrimSlash s)
  end.

Definition signing_url (authToken : string) (parsed : URL) : URL :=
  mkURL (u_Scheme parsed) (u_User parsed) (u_Host parsed)
    (TrimSlash (u_Path parsed) +:+ SignRpmHeaderEndpoint)
    (EncodeSetting "authToken" authToken) (u_Fragment parsed).

Definition createSigningUrl `{NetURL} (serverBaseUrl authToken : string) : outcome string :=
  match url_Parse serverBaseUrl with
  | Err e => Err ("not a valid sign server URL '%s': " +:+ e)
  | Ok parsed =>
      if String.eqb (u_Host parsed) "" then Err "not a valid sign server URL '%s': missing host"
      else Ok (url_String (signing_url authToken parsed))
  | Panic p => Panic p
  | Diverge => Diverge
  end.

(** ** Signing *)

Section Sign.
Context `{OS} `{NetURL}.

(** [http.DefaultClient.Do] of a POST: the status and the body of the response. *)
Context {Body : Type} `{ReaderWithOffset Body} (Do : URL -> list Z -> outcome (Z * Body)).
Context {P : Type} `{ReaderWithOffset P} `{shares : !Shares OsFile P}.

(** [url.Parse] once more is what [http.NewRequest] does. *)
Definition post_header (serverBaseUrl authToken : string) (rpmHeader : list Z) : outcome (Z * Body) :=
  endpointUrl ← createSigningUrl serverBaseUrl authToken;
  url ← url_Parse endpointUrl;
  match Do url rpmHeader with
  | Err e => Err ("POST to sign server failed: " +:+ e)
  | o => o
  end.

(** [io.MultiReader] copies its readers one after the other. The response comes from
    the network and shares nothing with the output, the payload may. The offset the
    writer keeps is not used. *)
Definition copy_both (fuel : nat) (file : OsFile) (body : Body) (payload : P)
    : outcome unit * (World * P) :=
  match io_Copy fuel 0 (NewFileWriterWithOffset file, body) with
  | (Ok _, (f, _)) =>
      let '(o, (f, p)) := io_Copy fuel 0 (f, payload) in
      (_ ← o; Ok tt, (of_world (fw_file f), p))
  | (o, (f, _)) => (_ ← o; Ok tt, (of_world (fw_file f), payload))
  end.

Definition signRpmRemotely (fuel : nat) (serverBaseUrl authToken : string) (rpmHeader : list Z)
    (destinationFileName : string) (overwriteDestinationFile : bool) : M (World * P) unit := fun '(w, payload) =>
  match post_header serverBaseUrl authToken rpmHeader with
  | Ok (code, body) =>
      if negb (code =? StatusOK) then (Err "sign server responded with %s: %s", (w, payload))
      else
        match CreateDestinationFile destinationFileName overwriteDestinationFile w with
        | (Ok destinationFile, w) =>
            match copy_both fuel (mkOsFile destinationFile w) body payload with
            | (Ok _, (w, payload)) => let '(o, w) := os_Close destinationFile w in (o, (w, payload))
            | (Err e, (w, payload)) =>
                let '(_, w) := os_Close destinationFile w in
                let '(_, w) := os_Remove destinationFileName w in
                (Err ("failed to write %s: " +:+ e), (w, payload))
            | r => r
            end
        | (o, w) => (_ ← o; Ok tt, (w, payload))
        end
  | Err e => (Err e, (w, payload))
  | Panic p => (Panic p, (w, payload))
  | Diverge => (Diverge, (w, payload))
  end.
End Sign.

(** ** The server, as the client sees it *)

(** The body of a response: it comes in pieces, and if the connection breaks, as many
    bytes of it as [cn_left] says. *)
Record connection := mkConnection { cn_body : chunkedReader; cn_left : option nat }.

#[export] Instance connection_reader : IOReader connection := fun n c =>
  match cn_left c with
  | None => let '(res, body) := ioRead n (cn_body c) in (res, mkConnection body None)
  | Some O => (([], Some (IOError "unexpected EOF")), c)
  | Some k =>
      let '((bs, err), body) := ioRead (Nat.min n k) (cn_body c) in
      ((bs, err), mkConnection body (Some (k - length bs)%nat))
  end.

(** A request is answered by the server's routes; when a handler panics the server
    closes the connection. The reply may break off. *)
Definition serve `{OS} `{KeyFormat} `{Hashes} `{Runtime} (Quote : string -> string)
    (serverStart AppVersion GitRef : string) (fuel : nat) (now : Z) (appConfig : AppConfig) (srv : World)
    (chunk : nat) (breaks : option nat) (url : URL) (body : list Z) : outcome (Z * IOReaderWithOffset connection) :=
  let request := mkRequest "POST" (u_Path url) (u_RawQuery url) in
  let '(o, x) := AccessLogMiddleware (ServeMux Quote serverStart AppVersion GitRef fuel now appConfig request)
    (mkExchange srv (new_response None) (mkChunked chunk body)) in
  match o with
  | Ok _ => Ok (status (x_writer x), NewIOReaderWithOffset (mkConnection (mkChunked chunk (r_body (x_writer x))) breaks))
  | Err _ | Panic _ => Err "EOF"
  | Diverge => Diverge
  end.
