(* ===== verification/RemoteTheorems.v ===== *)
(** Theorems about remote signing: the request reaches the server with its token, the
    reader captures exactly the headers, a failure leaves no partial file, and what is
    written is what signing with the server's key writes. *)
From S2P Require Import Prelude Utils Serializer Tags Header Layout HeaderSpec HeaderOps Allocation IndexUpdate Payload.
From S2P Require Import HeaderCodec Codec HeaderRoundtrip RpmFile FileRoundtrip FileTheorems Signing SigningTheorems.
From S2P Require Import Frame Files FilesTheorems Keys Http Server ServerTheorems Remote.
From Stdlib Require Import Ascii.

(** ** Capturing *)

#[export, refine] Instance headerCapturingReader_lawful {F} `{LawfulIOReader F}
    : LawfulIOReader (headerCapturingReader F) := {
  io_rest h := io_rest (hc_src h);
}.
Proof.
  intros n [f buf c]. simpl. unfold ioRead, headerCapturingReader_reader, headerCapturingReader_Read. simpl.
  destruct (io_read_law n f) as (bs & err & f' & Hr & Hrest). rewrite Hr. do 3 eexists. split; [done|]. exact Hrest.
Defined.

#[export, refine] Instance headerCapturingReader_fallible {F} `{FallibleIOReader F}
    : FallibleIOReader (headerCapturingReader F) := {
  io_pending h := io_pending (hc_src h);
  io_may_fail h := io_may_fail (hc_src h);
}.
Proof.
  intros n [f buf c]. simpl. unfold ioRead, headerCapturingReader_reader, headerCapturingReader_Read. simpl.
  destruct (io_fallible_law n f) as (bs & err & f' & Hr & Hrest). rewrite Hr. do 3 eexists. split; [done|]. exact Hrest.
Defined.

(** A connection delivers what it has, unless it breaks. *)
#[export, refine] Instance connection_fallible : FallibleIOReader connection := {
  io_pending c := ck_rest (cn_body c);
  io_may_fail c := is_Some (cn_left c);
}.
Proof.
  intros n [body [[|k]|]]; unfold ioRead, connection_reader; cbn [cn_left cn_body].
  - do 3 eexists. split; [done|]. split; [done|]. split; [simpl; lia|]. split; [done|]. right. right. split; by eexists.
  - destruct (io_read_law (Nat.min n (S k)) body) as (bs & err & body' & -> & Hrest & Hl & He). do 3 eexists.
    split; [done|]. split; [exact Hrest|]. split; [lia|]. split; [by eexists|].
    destruct He as [[-> Hb]|[-> Hb]]; [left|right; by left]. split; [done|]. destruct Hb as [Hz|Hb]; [left; lia|by right].
  - destruct (io_read_law n body) as (bs & err & body' & -> & Hrest & Hl & He). do 3 eexists.
    split; [done|]. split; [exact Hrest|]. split; [done|]. split; [done|]. destruct He as [He|He]; [by left|right; by left].
Defined.

Section Capture.
Context {F : Type} `{LawfulIOReader F} `{Hashes} `{Runtime}.

(** While capturing, the buffer has what has been read. *)
Definition captures (all : list Z) (h : headerCapturingReader F) : Prop :=
  capturing h = true /\ hc_buf h ++ io_rest h = all.

Lemma captures_read all n h : captures all h -> captures all (ioRead n h).2.
Proof.
  destruct h as [f buf c]. intros [Hc Hall]. simpl in Hc, Hall. subst c.
  unfold ioRead, headerCapturingReader_reader, headerCapturingReader_Read. simpl.
  destruct (io_read_law n f) as (bs & err & f' & -> & Hrest & _). simpl. split; [done|]. simpl.
  destruct (Z.gtb_spec (Zlen bs) 0) as [Hz|Hz]; rewrite <- Hall, Hrest.
  - by rewrite app_assoc.
  - destruct bs; [done|]. exfalso. zlen.
Qed.

Definition captured (all : list Z) (r : IOReaderWithOffset (headerCapturingReader F)) : Prop :=
  captures all (ior_file r).

Lemma captured_read all n r : captured all r -> captured all (Read n r).2.
Proof.
  destruct r as [h o]. intros Hc. pose proof (captures_read all n h Hc) as Hr.
  simpl. unfold IOReaderWithOffset_Read. simpl. by destruct (ioRead n h) as [[bs err] h'].
Qed.

End Capture.

(** ** The server's reply *)

Section Serve.
Context `{OS} `{!Reliable} `{KeyFormat} `{Hashes} `{Runtime}.
Context (Quote : string -> string) (serverStart AppVersion GitRef : string).

Lemma authorized_Encode token appConfig :
  authorized (EncodeSetting "authToken" token) appConfig <-> token = ApiSigningToken appConfig.
Proof. unfold authorized. rewrite ParseQuery_Encode. done. Qed.

(** The answer to a signing request with the right token. *)
Lemma serve_signRpmHeader fuel now appConfig srv chunk breaks url body token :
  u_Path url = SignRpmHeaderEndpoint -> u_RawQuery url = EncodeSetting "authToken" token ->
  token = ApiSigningToken appConfig -> (length body + 1 < fuel)%nat ->
  exists reply, serve Quote serverStart AppVersion GitRef fuel now appConfig srv chunk breaks url body =
    match signed_body now appConfig (files srv) body with
    | Ok signed => Ok (StatusOK, NewIOReaderWithOffset (mkConnection (mkChunked chunk signed) breaks))
    | Err _ => Ok (StatusBadRequest, reply)
    | Panic _ => Err "EOF"
    | Diverge => Diverge
    end.
Proof.
  intros Hpath Hquery Htoken Hfuel. unfold serve, AccessLogMiddleware. rewrite Hpath, Hquery.
  set (req := mkRequest "POST" SignRpmHeaderEndpoint (EncodeSetting "authToken" token)).
  assert (ServeMux (W:=responseWriterWrapper response) (B:=chunkedReader) Quote serverStart AppVersion GitRef fuel now appConfig req =
    handleSignRpmHeader fuel now (EncodeSetting "authToken" token) appConfig) as -> by done.
  cbn [x_world x_writer x_body].
  destruct (handleSignRpmHeader_writer (W:=responseWriterWrapper response) fuel now (EncodeSetting "authToken" token) appConfig
    (mkExchange srv (mkWrapper (new_response None) StatusOK 0) (mkChunked chunk body))) as (x' & -> & Hw);
    [by apply authorized_Encode|done|].
  destruct x' as [w' wr' b']. cbn [x_world x_writer x_body io_rest] in Hw |- *. subst wr'.
  change (io_rest (mkChunked chunk body)) with body.
  destruct (signed_body now appConfig (files srv) body) as [signed|e|p|].
  - set (rw := write_response signed id _).
    assert (replies StatusOK signed (rw_ResponseWriter rw)) as [Hs Hb].
    { unfold rw, replies, write_response, WriteBody. simpl. unfold response_Write. simpl. by rewrite Nat.leb_refl. }
    exists (NewIOReaderWithOffset (mkConnection (mkChunked 0 []) None)).
    apply (eq_trans (y := Ok (status (rw_ResponseWriter rw),
      NewIOReaderWithOffset (mkConnection (mkChunked chunk (r_body (rw_ResponseWriter rw))) breaks))));
      [reflexivity|by rewrite Hs, Hb].
  - by eexists.
  - by eexists.
  - by eexists.
Unshelve. all: exact (NewIOReaderWithOffset (mkConnection (mkChunked 0 []) None)).
Qed.

(** What the server signs when it gets the headers of a file and nothing else. *)
Lemma signed_body_headers {R} `{LawfulReader R} now appConfig m (r r' : R) f :
  valid r -> Offset r = 0 -> ParseRPM false r = (Ok f, r') ->
  forall bs, rest r = bs ++ rest r' ->
  signed_body now appConfig m bs =
    (key ← server_key appConfig m;
     match SignRpm now key f with
     | (Ok _, f) => _ ← (headers_of f).1; Ok (headers_of f).2
     | (Err e, _) => Err e
     | (Panic s, _) => Panic s
     | (Diverge, _) => Diverge
     end).
Proof.
  intros Hr Ho Hrun bs Hbs.
  destruct (ParseRPM_frame (S:=stream) f r r' Hr Hrun) as (bs' & Hbs' & Hframe).
  rewrite Hbs in Hbs'. apply app_inv_tail in Hbs' as <-.
  destruct (Hframe (mkStream bs 0) []) as (s' & Hs' & _ & Hrest); [done|by rewrite Ho|by rewrite app_nil_r|].
  unfold signed_body. rewrite Hs'. simpl in Hrest. simpl.
  destruct (server_key appConfig m) as [key|e|p|]; try done. simpl.
  destruct (SignRpm now key f) as [[u|e|p|] f']; try done. by rewrite Hrest, app_nil_r.
Qed.
End Serve.

(** ** Writing the reply and the payload *)

Lemma copy_both_to_file `{OS} {Body P} `{FallibleReader Body} `{FallibleReader P}
    fuel m0 name w (body : Body) (payload : P) :
  files w = <[name := []]> m0 -> usable body -> usable payload ->
  (length (pending body) + 1 < fuel)%nat -> (length (pending payload) + 1 < fuel)%nat ->
  exists o w' p', copy_both fuel (mkOsFile name w) body payload = (o, (w', p')) /\ only_file m0 name w' /\
    (o = Ok tt /\ files w' = <[name := pending body ++ pending payload]> m0 \/
     (exists e, o = Err e) /\ (faulty \/ may_fail body \/ may_fail payload)).
Proof.
  intros Hw Hb Hp Hfb Hfp. unfold copy_both.
  pose proof (io_Copy_to_file m0 name fuel 0 (NewFileWriterWithOffset (mkOsFile name w)) body []) as Hc.
  destruct Hc as (o & wr & b' & -> & Hn & Ho & Hof & Hres); [done..|].
  destruct Hres as [[[k ->] Hf]|[[e ->] Hwhy]]; [|do 3 eexists; split; [done|]; split; [done|right; split; [by eexists|tauto]]].
  destruct (io_Copy_to_file m0 name fuel 0 wr payload (pending body)) as (o2 & wr2 & p2 & -> & _ & _ & Hof2 & Hres);
    [done..|].
  do 3 eexists. split; [done|]. split; [done|].
  destruct Hres as [[[k2 ->] Hf2]|[[e ->] Hwhy]]; [by left|right; split; [by eexists|tauto]].
Qed.

(** Whatever is read, copying leaves the writer usable. *)
Lemma io_Copy_usable {W P} `{FallibleWriter W} `{ReaderWithOffset P} `{shares : !Shares W P} fuel : forall n (w : W) (p : P),
  wusable w -> wusable (io_Copy fuel n (w, p)).2.1.
Proof.
  induction fuel as [|fuel IH]; intros n w p Hw; [done|]. cbn [io_Copy].
  destruct (Read (Z.to_nat 32768) (refresh w p)) as [[bs er] p'].
  assert (wusable (if 0 <? Zlen bs then wWrite bs w else ((0, None), w)).2) as Hw'.
  { destruct (0 <? Zlen bs); [|done]. destruct (fallible_write bs w Hw) as (k & e & w' & -> & Hv & _). done. }
  destruct (if 0 <? Zlen bs then wWrite bs w else ((0, None), w)) as [[nw ew] w'].
  repeat (case_match; try done). by apply IH.
Qed.

Lemma copy_both_separate `{OS} {Body P} `{ReaderWithOffset Body} `{ReaderWithOffset P} `{shares : !Shares OsFile P}
    fuel m0 name w (body : Body) (payload : P) :
  only_file m0 name w -> separate m0 name payload ->
  copy_both fuel (mkOsFile name w) body payload = copy_both (shares:=apart) fuel (mkOsFile name w) body payload.
Proof.
  intros Hw Hp. unfold copy_both. set (wr := NewFileWriterWithOffset (mkOsFile name w)).
  pose proof (io_Copy_usable (H0:=OsFile_fallible m0 name) fuel 0 wr body) as Hu.
  destruct (io_Copy fuel 0 (wr, body)) as [[k|e|s|] [wr' b']]; try done.
  rewrite (io_Copy_separate m0 name fuel 0 wr' payload); [done| |done]. apply Hu. by split_and!.
Qed.

Section Remote.
Context `{OS} `{NetURL} {Body P : Type} `{ReaderWithOffset Body} `{ReaderWithOffset P}.
Context (Do : URL -> list Z -> outcome (Z * Body)).

(** A payload the output does not reach is one that shares nothing with it. *)
Lemma signRpmRemotely_separate `{shares : !Shares OsFile P} fuel base token header dest overwrite w (payload : P) :
  separate (files w) dest payload ->
  signRpmRemotely Do fuel base token header dest overwrite (w, payload) =
    signRpmRemotely (shares:=apart) Do fuel base token header dest overwrite (w, payload).
Proof.
  intros Hp. unfold signRpmRemotely.
  destruct (post_header Do base token header) as [[code body]|e|p|]; [|done..]. destruct (negb _); [done|].
  destruct (CreateDestinationFile_cases dest overwrite w) as (o & w1 & -> & [(-> & Hw1 & _)|([e ->] & _)]); [|done].
  by rewrite (copy_both_separate fuel (files w) dest w1 body payload) by (by exists [] || done).
Qed.

(** Without a reply of status 200 nothing happens. *)
Lemma signRpmRemotely_refused fuel base token header dest overwrite w (payload : P) :
  (forall body, post_header Do base token header <> Ok (StatusOK, body)) ->
  exists o, signRpmRemotely Do fuel base token header dest overwrite (w, payload) = (o, (w, payload)) /\ o <> Ok tt.
Proof.
  intros Hpost. unfold signRpmRemotely.
  destruct (post_header Do base token header) as [[code body]|e|p|] eqn:E; try (by eexists).
  destruct (Z.eqb_spec code StatusOK) as [->|Hne]; [by destruct (Hpost body)|]. by eexists.
Qed.

(** With one, the output is complete, or it is cleaned up. *)
Lemma signRpmRemotely_cases `{!FallibleReader Body} `{!FallibleReader P}
    fuel base token header dest overwrite w (payload : P) body :
  post_header Do base token header = Ok (StatusOK, body) -> usable body -> usable payload ->
  (length (pending body) + 1 < fuel)%nat -> (length (pending payload) + 1 < fuel)%nat ->
  exists o w' p', signRpmRemotely Do fuel base token header dest overwrite (w, payload) = (o, (w', p')) /\
    content_or_cleaned (files w) dest (Ok (pending body ++ pending payload)) (pred (clock w')) o w' /\
    (o = Ok tt \/ exists e, o = Err e) /\
    (overwrite = false -> is_Some (files w !! dest) -> (exists e, o = Err e) /\ files w' = files w) /\
    (overwrite = true \/ files w !! dest = None -> ~ faulty -> o <> Ok tt ->
      (may_fail body \/ may_fail payload) /\ files w' = delete dest (files w)).
Proof.
  intros Hpost Hb Hp Hfb Hfp. unfold signRpmRemotely. rewrite Hpost.
  destruct (CreateDestinationFile_cases dest overwrite w) as (o & w1 & -> & [(-> & Hw1 & Hmay)|([e ->] & Hw1 & Hwhy)]).
  2:{ do 3 eexists. split; [done|]. split; [by left|]. split; [right; by eexists|]. split; [intros _ _; split; [by eexists|done]|].
      intros Hmay Hf. exfalso. destruct Hwhy as [|[-> [c Hc]]]; [done|]. destruct Hmay; congruence. }
  assert (overwrite = false -> is_Some (files w !! dest) -> False) as Hno
    by (intros -> [c Hc]; destruct Hmay; congruence).
  destruct (copy_both_to_file fuel (files w) dest w1 body payload) as (o & w2 & p2 & Hc & Hof & Hres); [done..|].
  simpl negb. cbv iota. rewrite Hc. destruct Hres as [[-> Hf]|[[e ->] Hwhy]].
  - destruct (os_Close_cases dest w2) as (o3 & w3 & -> & Hw3 & Hclock & Ho). exists o3, w3, p2. split; [done|].
    destruct Ho as [->|[[e ->] Hfail]].
    + split; [eexists; split; [done|by rewrite Hw3]|]. split; [by left|].
      split; [by intros ? ?; exfalso; eapply Hno|done].
    + split; [right; right; left; eexists; rewrite Hclock; split; [done|]; split; [by rewrite Hw3|done]|].
      split; [right; by eexists|]. split; [by intros ? ?; exfalso; eapply Hno|]. intros _ Hnf. destruct Hnf. by eexists.
  - destruct (os_Close_cases dest w2) as (o3 & w3 & -> & Hw3 & Hclock & _).
    assert (only_file (files w) dest w3) as Hof3 by (unfold only_file; by rewrite Hw3).
    destruct (os_Remove_cases (files w) dest w3 Hof3) as (o4 & w4 & -> & Hclock4 & Hrm).
    do 3 eexists. split; [done|]. split; [|split; [right; by eexists|split; [by intros ? ?; exfalso; eapply Hno|]]].
    + rewrite Hclock4. destruct Hrm as [[_ Hrm]|(_ & Hrm & Hfail)]; [right; by left|].
      right. right. right. split; [unfold only_file; by rewrite Hrm|done].
    + intros _ Hnf _. split; [tauto|].
      destruct Hrm as [[_ Hrm]|(_ & _ & Hfail)]; [done|]. destruct Hnf. by eexists.
Qed.
End Remote.

(** [TrimSlash] on a URL without a path. *)
Lemma signing_url_path token url :
  u_Path url = "" \/ u_Path url = "/" -> u_Path (signing_url token url) = SignRpmHeaderEndpoint.
Proof. intros [E|E]; unfold signing_url; simpl; rewrite E; done. Qed.

(** What the client asks the server, and what it gets. *)
Lemma post_header_serve `{OS} `{!Reliable} `{KeyFormat} `{Hashes} `{Runtime} `{NetURL}
    Quote serverStart AppVersion GitRef fuel now appConfig srv chunk breaks base token url header :
  url_Parse base = Ok url -> u_Host url <> "" -> u_Path url = "" \/ u_Path url = "/" ->
  url_Parse (url_String (signing_url token url)) = Ok (signing_url token url) ->
  token = ApiSigningToken appConfig -> (length header + 1 < fuel)%nat ->
  match signed_body now appConfig (files srv) header with
  | Ok signed =>
      post_header (serve Quote serverStart AppVersion GitRef fuel now appConfig srv chunk breaks) base token header =
        Ok (StatusOK, NewIOReaderWithOffset (mkConnection (mkChunked chunk signed) breaks))
  | _ => forall body,
      post_header (serve Quote serverStart AppVersion GitRef fuel now appConfig srv chunk breaks) base token header <>
        Ok (StatusOK, body)
  end.
Proof.
  intros Hbase Hhost Hpath Hurl Htoken Hfuel.
  set (do := serve Quote serverStart AppVersion GitRef fuel now appConfig srv chunk breaks).
  assert (post_header do base token header =
    match do (signing_url token url) header with Err e => Err ("POST to sign server failed: " +:+ e) | o => o end) as ->.
  { unfold post_header, createSigningUrl. rewrite Hbase.
    destruct (String.eqb_spec (u_Host url) ""); [done|]. simpl. by rewrite Hurl. }
  destruct (serve_signRpmHeader Quote serverStart AppVersion GitRef fuel now appConfig srv chunk breaks (signing_url token url)
    header token) as (reply & Hserve); [by apply signing_url_path|done..|].
  unfold do. rewrite Hserve. by destruct (signed_body now appConfig (files srv) header).
Qed.

(** Parsers of readers over the same bytes see and leave the same. *)
Lemma ParseRPM_same {R S} `{LawfulReader R} `{LawfulReader S} `{Hashes} `{Runtime} (r : R) (s : S) :
  valid r -> valid s -> view r = view s ->
  let p := ParseRPM false r in
  let q := ParseRPM false s in
  p.1 = q.1 /\ view p.2 = view q.2 /\ valid p.2 /\ valid q.2.
Proof.
  intros Hr Hs Hview p q. destruct (refines_ParseRPM r Hr) as [Hv1 H1'], (refines_ParseRPM s Hs) as [Hv2 H2'].
  rewrite <- Hview, H1' in H2'. split_and!; [..|done|done].
  - exact (f_equal fst H2').
  - exact (f_equal snd H2').
Qed.

Section Equivalence.
Context `{OS} `{!Reliable} `{KeyFormat} `{Hashes} `{Runtime} `{NetURL}.
Context (Quote : string -> string) (serverStart AppVersion GitRef : string).

(** Unless the reply breaks off, the outcomes agree on success. After a remote success
    the files are the same; a failure of remote signing changes nothing, but if the
    reply breaks off the output is gone. *)
Definition same_result (dest : string) (breaks : option nat) (w : World) (remote local : outcome unit * World) : Prop :=
  (breaks = None -> (remote.1 = Ok tt <-> local.1 = Ok tt)) /\
  (remote.1 = Ok tt -> local.1 = Ok tt /\ files remote.2 = files local.2) /\
  (remote.1 <> Ok tt -> files remote.2 = files w \/ breaks <> None /\ files remote.2 = delete dest (files w)).

Lemma same_result_fail dest breaks w (remote local : outcome unit * World) :
  remote.1 <> Ok tt -> local.1 <> Ok tt -> files remote.2 = files w -> same_result dest breaks w remote local.
Proof. intros Hr Hl Hf. split_and!; tauto. Qed.

Context (fuel : nat) (now : Z) (appConfig : AppConfig) (srv : World) (chunk : nat) (breaks : option nat).
Context (base : string) (url : URL) (token : string).
Hypothesis Hbase : url_Parse base = Ok url.
Hypothesis Hhost : u_Host url <> "".
Hypothesis Hpath : u_Path url = "" \/ u_Path url = "/".
Hypothesis Hurl : url_Parse (url_String (signing_url token url)) = Ok (signing_url token url).
Hypothesis Htoken : token = ApiSigningToken appConfig.

Abbreviation do := (serve Quote serverStart AppVersion GitRef fuel now appConfig srv chunk breaks).

(** After parsing: one sends the headers, the other loads the key and signs. *)
Lemma remote_step {P Q} `{LawfulReader P} `{LawfulReader Q} f header (pr : P) (pl : Q) key dest overwrite w w1 :
  valid pr -> valid pl -> rest pr = rest pl ->
  (length header + 1 < fuel)%nat -> (length (rest pl) + 1 < fuel)%nat ->
  (forall f', SignRpm now key f = (Ok tt, f') -> (length (headers_of f').2 + 1 < fuel)%nat) ->
  signed_body now appConfig (files srv) header =
    match SignRpm now key f with
    | (Ok _, f) => _ ← (headers_of f).1; Ok (headers_of f).2
    | (Err e, _) => Err e | (Panic s, _) => Panic s | (Diverge, _) => Diverge
    end ->
  files w1 = files w ->
  same_result dest breaks w
    (let '(o, (w, _)) := signRpmRemotely do fuel base token header dest overwrite (w, pr) in (o, w))
    (let '(o, (w, _)) := SignRpmAndWriteToFile fuel f dest overwrite now key (w1, pl) in (o, w)).
Proof.
  intros Hvr Hvl Hrest Hfh Hfp Hsize Hsigned Hw1.
  pose proof (post_header_serve Quote serverStart AppVersion GitRef fuel now appConfig srv chunk breaks base token url header
    Hbase Hhost Hpath Hurl Htoken) as Hpost.
  rewrite Hsigned in Hpost. specialize (Hpost Hfh).
  destruct (SignRpmAndWriteToFile_run fuel f dest overwrite now key w1 pl) as (o & w' & p' & Hrun & Hres); [done..|].
  rewrite Hrun. clear Hrun. rewrite Hw1 in Hres. unfold signed_content in Hres.
  assert (forall remote, (forall body, post_header do base token header <> Ok (StatusOK, body)) ->
    remote = signRpmRemotely do fuel base token header dest overwrite (w, pr) ->
    o <> Ok tt -> same_result dest breaks w (let '(o, (w, _)) := remote in (o, w)) (o, w')) as Hrefused.
  { intros remote Hno -> Hne. destruct (signRpmRemotely_refused do fuel base token header dest overwrite w pr Hno)
      as (o' & -> & Hne'). by apply same_result_fail. }
  destruct (SignRpm now key f) as [[[]|e|s|] f'] eqn:Esign.
  2-4: apply (Hrefused _ Hpost eq_refl); case_match; [destruct Hres as [[x ->] _]|destruct Hres as [-> _]]; done.
  destruct ((headers_of f').1) as [[]|e|s|] eqn:Eheaders.
  2-4: apply (Hrefused _ Hpost eq_refl); case_match; [destruct Hres as [[x ->] _]|destruct Hres as [-> _]]; done.
  simpl in Hpost. set (body := NewIOReaderWithOffset _) in Hpost.
  pose proof (signRpmRemotely_cases do fuel base token header dest overwrite w pr body Hpost) as Hc.
  assert (usable body) as Hub by done. destruct (Hc Hub Hvr) as (o2 & w2 & p2 & -> & Hleft & Ho2 & Hrefuse & Hdo);
    [by apply Hsize|change (length (rest pr) + 1 < fuel)%nat; by rewrite Hrest|].
  change (pending pr) with (rest pr) in Hleft.
  destruct (bool_decide (is_Some (files w !! dest)) && negb overwrite) eqn:Hb.
  - apply andb_true_iff in Hb as [Hd%bool_decide_eq_true Hov].
    destruct Hrefuse as [[x ->] Hf]; [by destruct overwrite|done|]. destruct Hres as [[y ->] _]. by apply same_result_fail.
  - simpl in Hres. destruct Hres as [-> Hf].
    assert (overwrite = true \/ files w !! dest = None) as Hmay.
    { destruct overwrite; [by left|right]. rewrite andb_true_r in Hb. apply bool_decide_eq_false in Hb. by apply eq_None_not_Some. }
    specialize (Hdo Hmay reliable_not_faulty). destruct Ho2 as [->|[x ->]].
    + destruct Hleft as (c & [= <-] & Hf2). split_and!; [done| |done]. intros _. split; [done|]. simpl.
      rewrite Hf2, Hf, Hrest. done.
    + destruct Hdo as [[Hbr|[]] Hf2]; [done|]. destruct Hbr as [k Hk]. cbn in Hk.
      split_and!; [|done|]; [by intros Hno; rewrite Hno in Hk|]. intros _. right. split; [by rewrite Hk|done].
Qed.

(** The body the server gets has been read by the client's parser. *)
Lemma captured_signed {R} `{LawfulReader R} key f (r r' : R) header :
  server_key appConfig (files srv) = Ok key -> valid r -> Offset r = 0 ->
  ParseRPM false r = (Ok f, r') -> header ++ rest r' = rest r ->
  signed_body now appConfig (files srv) header =
    match SignRpm now key f with
    | (Ok _, f) => _ ← (headers_of f).1; Ok (headers_of f).2
    | (Err e, _) => Err e | (Panic s, _) => Panic s | (Diverge, _) => Diverge
    end.
Proof.
  intros Hkey Hr Ho Hrun Hcap. rewrite (signed_body_headers now appConfig (files srv) r r' f Hr Ho Hrun header); [|done].
  by rewrite Hkey.
Qed.

End Equivalence.

(** C25. [signRpmRemotely], whatever the server replies, and whichever system calls and
    reads of the reply and the payload fail, for a payload that is not read from the
    destination. Without a reply of status 200 nothing is touched. With one, success means
    that the destination has the reply followed by all of the payload and nothing else has
    changed; an error leaves what was there, or removes the destination, never part
    of a file, unless removing it failed, or closing the complete file did. A destination
    that exists is left alone unless it may be overwritten. If no call on files fails,
    an error comes from a reply or a payload that breaks off. *)
Theorem signRpmRemotely_safe `{OS} `{NetURL} {Body P} `{FallibleReader Body} `{FallibleReader P}
    (Do : URL -> list Z -> outcome (Z * Body)) fuel base token header dest overwrite w (payload : P) :
  usable payload -> (length (pending payload) + 1 < fuel)%nat ->
  (forall body, post_header Do base token header = Ok (StatusOK, body) ->
     usable body /\ (length (pending body) + 1 < fuel)%nat) ->
  exists o w' p', signRpmRemotely Do fuel base token header dest overwrite (w, payload) = (o, (w', p')) /\
    ((forall body, post_header Do base token header <> Ok (StatusOK, body)) -> o <> Ok tt /\ w' = w /\ p' = payload) /\
    (forall body, post_header Do base token header = Ok (StatusOK, body) ->
      content_or_cleaned (files w) dest (Ok (pending body ++ pending payload)) (pred (clock w')) o w' /\
      (o = Ok tt \/ exists e, o = Err e) /\
      (overwrite = false -> is_Some (files w !! dest) -> (exists e, o = Err e) /\ files w' = files w) /\
      (overwrite = true \/ files w !! dest = None -> ~ faulty -> o <> Ok tt ->
        (may_fail body \/ may_fail payload) /\ files w' = delete dest (files w))).
Proof.
  intros Hp Hfuel Hbody.
  assert ((exists body, post_header Do base token header = Ok (StatusOK, body)) \/
    forall body, post_header Do base token header <> Ok (StatusOK, body)) as [[body Hpost]|Hno].
  { destruct (post_header Do base token header) as [[code body]|e|x|]; try by right.
    destruct (decide (code = StatusOK)) as [->|Hne]; [left; by exists body|right]. by intros b [= ? _]. }
  - destruct (Hbody body Hpost) as [Hb Hfb].
    destruct (signRpmRemotely_cases Do fuel base token header dest overwrite w payload body Hpost Hb Hp Hfb Hfuel)
      as (o & w' & p' & Hrun & Hres).
    exists o, w', p'. split; [done|]. split; [intros Hno; by destruct (Hno body)|].
    intros body' Hpost'. rewrite Hpost in Hpost'. by injection Hpost' as <-.
  - destruct (signRpmRemotely_refused Do fuel base token header dest overwrite w payload Hno) as (o & Hrun & Ho).
    exists o, w, payload. split; [done|]. split; [done|]. intros body Hpost. by destruct (Hno body).
Qed.

(** C32. The URL the client makes of the server's base URL and its token is one the
    server accepts exactly if the tokens are equal, whatever bytes they contain: the
    check of the handlers lets the request through or answers 403. Apart from path and
    query the URL is the base URL, and the query needs no further escaping. *)
Theorem signing_url_accepted {W B} `{ResponseWriter W} (token : string) (url : URL) (appConfig : AppConfig)
    (k : M (Exchange W B) unit) :
  let u := signing_url token url in
  with_token (u_RawQuery u) appConfig k =
    (if bool_decide (token = ApiSigningToken appConfig) then k
     else on_writer (sendHttpError StatusForbidden "missing or invalid authToken")) /\
  all_chars query_safe (QueryEscape token) /\
  u_Scheme u = u_Scheme url /\ u_User u = u_User url /\ u_Host u = u_Host url /\ u_Fragment u = u_Fragment url.
Proof.
  intros u. split_and!; [|by apply (query_roundtrip "authToken" token)|done..].
  rewrite with_token_run. pose proof (authorized_Encode token appConfig) as Hiff.
  case_bool_decide as Ha; [rewrite bool_decide_eq_true_2|rewrite bool_decide_eq_false_2]; tauto.
Qed.

(** ** Witnesses *)

Section Witnesses.
#[local] Existing Instance reliable_os.
#[local] Existing Instance checksums.
#[local] Existing Instance doubling.
#[local] Existing Instance checksum_pgp.

(** Key files: a byte is a packet, 0 one that is no key; a file that starts with a
    dash is armored, and so are signatures. *)
#[local, refine] Instance sample_keyformat : KeyFormat := {
  ReadArmoredKeyRing _ := Ok [tt];
  armor_Decode c := match c with 45 :: body => (Some body, length c) | _ => (None, 1%nat) end;
  PacketReader := list Z;
  NewReader c := c;
  Next r := match r with
            | [] => (NoMorePackets, [])
            | 0 :: r => (Packet OtherPacket, r)
            | k :: r => (Packet (PrivateKeyPacket k), r)
            end;
  remaining := length;
  Encrypted _ := false;
  Decrypt _ k := Ok k;
  PrepareSign _ := Ok [];
  armor_Encode s := Ok (45 :: s);
}.
Proof. by intros [|[] r] pk r' [= <- <-]; simpl; lia. Defined.

Definition sample_config : AppConfig :=
  mkAppConfig false false "pub.asc" "priv.asc" [] "s&cret=" ":8080" {[ ARCH_X86 := "/opt/rpm-sign" ]} "".

Definition sample_server : World := mkWorld {[ "pub.asc" := [45; 9]; "priv.asc" := [45; 0; 1] ]} [].
Definition sample_client : World := mkWorld {[ "my.key" := [1] ]} [].

Definition sample_url : URL := mkURL "http" "" "sign.example" "/" "" "".

#[local] Instance sample_neturl : NetURL := {
  url_String u := (u_Scheme u +:+ "://" +:+ u_Host u +:+ u_Path u +:+ "?" +:+ u_RawQuery u)%string;
  url_Parse s :=
    if String.eqb s "http://sign.example/" then Ok sample_url
    else if String.eqb s "http://sign.example/signRpmHeader?authToken=s%26cret%3D"
    then Ok (signing_url "s&cret=" sample_url)
    else Err "invalid URL";
}.

Definition sample_chunks : chunkedReader := mkChunked 7 (file_bytes sample_parsed_file ++ sample_payload).

Definition sample_fuel : nat := 100 * 100.

Lemma handleSignRpmHeader_correct_witness :
  exists o x', handleSignRpmHeader sample_fuel 0 "authToken=s%26cret%3D" sample_config
      (mkExchange sample_server (new_response None) sample_chunks) = (o, x') /\
    o = Ok tt /\ status (x_writer x') = 200.
Proof.
  assert (Reliable) as Hr by by intros i.
  destruct (handleSignRpmHeader_correct sample_fuel 0 "authToken=s%26cret%3D" sample_config sample_server sample_chunks)
    as (o & x' & Hrun & _ & Hres); [apply Nat.ltb_lt; reflexivity|].
  exists o, x'. split; [exact Hrun|].
  rewrite bool_decide_eq_true_2 in Hres by reflexivity.
  assert (exists d, signed_body 0 sample_config (files sample_server) (io_rest sample_chunks) = Ok d) as [d Hd].
  { assert (match signed_body 0 sample_config (files sample_server) (io_rest sample_chunks) with
      | Ok _ => true | _ => false end = true) as Ht by (vm_compute; reflexivity).
    destruct (signed_body 0 sample_config (files sample_server) (io_rest sample_chunks)) as [d|e|p|];
      [by exists d|discriminate Ht..]. }
  rewrite Hd in Hres. destruct Hres as (-> & Hstat & _). by split.
Defined.

Lemma handleSignDetached_correct_witness :
  exists o x', handleSignDetached 10 0 "authToken=s%26cret%3D" sample_config
      (mkExchange sample_server (new_response None) (mkChunked 2 [7; 8; 9])) = (o, x') /\
    o = Ok tt /\ r_body (x_writer x') = [45; 4; 1; 24].
Proof.
  assert (Reliable) as Hr by by intros i.
  destruct (handleSignDetached_correct 10 0 "authToken=s%26cret%3D" sample_config sample_server (mkChunked 2 [7; 8; 9]))
    as (o & x' & Hrun & _ & Hres); [apply Nat.ltb_lt; reflexivity|].
  exists o, x'. split; [exact Hrun|].
  rewrite bool_decide_eq_true_2 in Hres by reflexivity. destruct Hres as [-> [_ ->]]. by split.
Defined.

(** A reply that breaks off after its first two bytes: the output that was to be
    overwritten is gone. *)
Lemma signRpmRemotely_safe_witness :
  let broken (_ : URL) (_ : list Z) := Ok (200, NewIOReaderWithOffset (mkConnection (mkChunked 7 [1; 2; 3]) (Some 2%nat))) in
  exists w' p', signRpmRemotely (Body:=IOReaderWithOffset connection) (P:=arrayReader) broken 10
      "http://sign.example/" "s&cret=" [] "my.key" true (sample_client, NewArrayReader [9]) =
    (Err "failed to write %s: unexpected EOF", (w', p')) /\
    files w' = delete "my.key" (files sample_client).
Proof.
  intros broken.
  destruct (signRpmRemotely_safe (Body:=IOReaderWithOffset connection) (P:=arrayReader) broken 10
    "http://sign.example/" "s&cret=" [] "my.key" true sample_client (NewArrayReader [9]))
    as (o & w' & p' & Hrun & _ & Hres); [apply Nat.leb_le; reflexivity|apply Nat.ltb_lt; reflexivity| |].
  { intros body Hpost. injection Hpost as <-. split; [by apply (bool_decide_unpack _)|apply Nat.ltb_lt; reflexivity]. }
  assert (o = Err "failed to write %s: unexpected EOF") as ->.
  { transitivity ((o, (w', p')).1); [done|]. rewrite <- Hrun. vm_compute. reflexivity. }
  exists w', p'. split; [exact Hrun|].
  assert (Reliable) as Hr by by intros i.
  destruct (Hres _ eq_refl) as (_ & _ & _ & Hdo). destruct (Hdo (or_introl eq_refl) reliable_not_faulty) as [_ Hf]; [discriminate|exact Hf].
Defined.
End Witnesses.
