(* ===== verification/Config.v ===== *)
(** The configuration of the server ([loadAppConfig] and what it calls in
    [src/server/server.go], [ReadLines] of [src/common/utils.go]): the file, line by
    line, and the command line. *)
From S2P Require Import Prelude Utils Serializer Header HeaderCodec RpmFile Signing Files Keys Http Server.
From Stdlib Require Import Ascii.

(** ** Text *)

(** [unicode.IsSpace] on the characters of one, two and three bytes of UTF-8. *)
Definition space1 (a : ascii) : bool := in_range "009" "013" a || Ascii.eqb a " ".
Definition space2 (a b : ascii) : bool := Ascii.eqb a "194" && (Ascii.eqb b "133" || Ascii.eqb b "160").
Definition space3 (a b c : ascii) : bool :=
  (Ascii.eqb a "225" && Ascii.eqb b "154" && Ascii.eqb c "128") ||
  (Ascii.eqb a "226" && Ascii.eqb b "128" &&
     (in_range "128" "138" c || Ascii.eqb c "168" || Ascii.eqb c "169" || Ascii.eqb c "175")) ||
  (Ascii.eqb a "226" && Ascii.eqb b "129" && Ascii.eqb c "159") ||
  (Ascii.eqb a "227" && Ascii.eqb b "128" && Ascii.eqb c "128").

(** [strings.TrimSpace], from the left and from the right. *)
Fixpoint TrimLeft (s : string) : string :=
  match s with
  | EmptyString => EmptyString
  | String a s1 =>
      if space1 a then TrimLeft s1
      else
        match s1 with
        | EmptyString => s
        | String b s2 =>
            if space2 a b then TrimLeft s2
            else
              match s2 with
              | EmptyString => s
              | String c s3 => if space3 a b c then TrimLeft s3 else s
              end
        end
  end.

Fixpoint TrimRight (s : string) : string :=
  match s with
  | EmptyString => EmptyString
  | String c s =>
      let t := String c (TrimRight s) in
      if String.eqb (TrimLeft t) EmptyString then EmptyString else t
  end.

Definition TrimSpace (s : string) : string := TrimRight (TrimLeft s).

(** [IsEmpty] and [IsNotEmpty] of [utils.go]. *)
Definition IsEmpty (s : string) : bool := (String.length (TrimSpace s) =? 0)%nat.
Definition IsNotEmpty (s : string) : bool := negb (String.length (TrimSpace s) =? 0)%nat.

(** ** Lines *)

(** [bufio.ScanLines]: the end of a line is a newline, with a carriage return in
    front of it dropped; the last line may lack it. [line] is the line so far, in
    reverse. *)
Definition dropCR (line : list ascii) : list ascii :=
  match line with c :: l => if Ascii.eqb c "013" then l else line | [] => [] end.

Fixpoint scanLines (s : string) (line : list ascii) : list (list ascii) :=
  match s with
  | EmptyString => match line with [] => [] | _ => [line] end
  | String c s => if Ascii.eqb c "010" then line :: scanLines s [] else scanLines s (c :: line)
  end.

(** [bufio.MaxScanTokenSize] *)
Definition MaxScanTokenSize : Z := 64 * 1024.

Definition ReadLines (content : string) : outcome (list string) :=
  let lines := scanLines content [] in
  if existsb (fun l => MaxScanTokenSize <=? Zlen l) lines then Err "bufio.Scanner: token too long"
  else Ok (map (fun l => String.string_of_list_ascii (rev (dropCR l))) lines).

(** ** The file *)

Definition stringToBoolean (s : string) : outcome bool :=
  if (0 <? String.length s)%nat then
    let t := TrimSpace s in
    if existsb (String.eqb t) ["1"; "on"; "true"] then Ok true
    else if existsb (String.eqb t) ["0"; "off"; "false"] then Ok false
    else Err "not a valid boolean value: '%s' (only 1,0,true,false,on,off are accepted)"
  else Err "stringToBoolean() called with blank value".

Definition set_Verbose (b : bool) (c : AppConfig) : AppConfig :=
  mkAppConfig b (DebugMode c) (GpgPublicKeyPath c) (GpgPrivateKeyPath c) (GpgPrivateKeyPassword c)
    (ApiSigningToken c) (ListenAddress c) (RpmSignClientBinary c) (AccessLogPath c).
Definition set_DebugMode (b : bool) (c : AppConfig) : AppConfig :=
  mkAppConfig (Verbose c) b (GpgPublicKeyPath c) (GpgPrivateKeyPath c) (GpgPrivateKeyPassword c)
    (ApiSigningToken c) (ListenAddress c) (RpmSignClientBinary c) (AccessLogPath c).
Definition set_GpgPublicKeyPath (s : string) (c : AppConfig) : AppConfig :=
  mkAppConfig (Verbose c) (DebugMode c) s (GpgPrivateKeyPath c) (GpgPrivateKeyPassword c)
    (ApiSigningToken c) (ListenAddress c) (RpmSignClientBinary c) (AccessLogPath c).
Definition set_GpgPrivateKeyPath (s : string) (c : AppConfig) : AppConfig :=
  mkAppConfig (Verbose c) (DebugMode c) (GpgPublicKeyPath c) s (GpgPrivateKeyPassword c)
    (ApiSigningToken c) (ListenAddress c) (RpmSignClientBinary c) (AccessLogPath c).
Definition set_GpgPrivateKeyPassword (l : list Z) (c : AppConfig) : AppConfig :=
  mkAppConfig (Verbose c) (DebugMode c) (GpgPublicKeyPath c) (GpgPrivateKeyPath c) l
    (ApiSigningToken c) (ListenAddress c) (RpmSignClientBinary c) (AccessLogPath c).
Definition set_ApiSigningToken (s : string) (c : AppConfig) : AppConfig :=
  mkAppConfig (Verbose c) (DebugMode c) (GpgPublicKeyPath c) (GpgPrivateKeyPath c) (GpgPrivateKeyPassword c)
    s (ListenAddress c) (RpmSignClientBinary c) (AccessLogPath c).
Definition set_ListenAddress (s : string) (c : AppConfig) : AppConfig :=
  mkAppConfig (Verbose c) (DebugMode c) (GpgPublicKeyPath c) (GpgPrivateKeyPath c) (GpgPrivateKeyPassword c)
    (ApiSigningToken c) s (RpmSignClientBinary c) (AccessLogPath c).
Definition set_RpmSignClientBinary (arch : Architecture) (s : string) (c : AppConfig) : AppConfig :=
  mkAppConfig (Verbose c) (DebugMode c) (GpgPublicKeyPath c) (GpgPrivateKeyPath c) (GpgPrivateKeyPassword c)
    (ApiSigningToken c) (ListenAddress c) (<[arch := s]> (RpmSignClientBinary c)) (AccessLogPath c).
Definition set_AccessLogPath (s : string) (c : AppConfig) : AppConfig :=
  mkAppConfig (Verbose c) (DebugMode c) (GpgPublicKeyPath c) (GpgPrivateKeyPath c) (GpgPrivateKeyPassword c)
    (ApiSigningToken c) (ListenAddress c) (RpmSignClientBinary c) s.

Definition empty_config : AppConfig := mkAppConfig false false "" "" [] "" "" ∅ "".

Definition defaultListenAddress : string := ":8080".

Section Config.
Context `{OS}.

Definition assertFileExists (filename : string) : M World string :=
  exists_ ← FileExists filename;
  if negb exists_ then raise "file '%s' does not exist" else mret filename.

(** The body of the [switch]. *)
Definition set_option (key value : string) (result : AppConfig) : M World AppConfig :=
  let on_line {A} (m : M World A) := wrap_err "config file has error on line %d: " m in
  if String.eqb key "verbose" then
    b ← on_line (lift (stringToBoolean value)); mret (set_Verbose b result)
  else if String.eqb key "debug" then
    b ← on_line (lift (stringToBoolean value)); mret (set_DebugMode b result)
  else if String.eqb key "gpg_public_key" then
    f ← on_line (assertFileExists value); mret (set_GpgPublicKeyPath f result)
  else if String.eqb key "gpg_private_key" then
    f ← on_line (assertFileExists value); mret (set_GpgPrivateKeyPath f result)
  else if String.eqb key "access_log" then mret (set_AccessLogPath value result)
  else if String.eqb key "gpg_private_key_password" then mret (set_GpgPrivateKeyPassword (bytes_of value) result)
  else if String.eqb key "api_signing_token" then mret (set_ApiSigningToken value result)
  else if String.eqb key "listen_address" then mret (set_ListenAddress value result)
  else if String.eqb key "rpm_sign_arm64_client_binary" then
    if (0 <? String.length value)%nat
    then f ← on_line (assertFileExists value); mret (set_RpmSignClientBinary ARCH_ARM64 f result)
    else mret result
  else if String.eqb key "rpm_sign_client_binary" then
    if (0 <? String.length value)%nat
    then f ← on_line (assertFileExists value); mret (set_RpmSignClientBinary ARCH_X86 f result)
    else mret result
  else raise "config file has error on line %d: Unrecognized key '%s'".

(** What a line says: nothing, a setting, or something malformed. *)
Definition parse_line (line : string) : outcome (option (string * string)) :=
  match TrimLeft line with
  | EmptyString => Ok None
  | String c _ =>
      if Ascii.eqb c "#" then Ok None
      else
        match Cut "=" line with
        | (_, None) => Err "config file has error on line %d: Malformed, needs to be <key>=<value>"
        | (before, Some after) =>
            let key := TrimSpace before in
            let value := TrimSpace after in
            if String.eqb key ""
            then Err "config file has error on line %d: Malformed, needs to be <key>=<value>"
            else Ok (Some (key, value))
        end
  end.

(** [os.Exit] ends the process, like a panic that nothing recovers from. *)
Fixpoint parseConfigLines (lines : list string) (seenOpts : gset string) (result : AppConfig)
    : M World AppConfig :=
  match lines with
  | [] => mret result
  | line :: lines =>
      setting ← lift (parse_line line);
      match setting with
      | None => parseConfigLines lines seenOpts result
      | Some (key, value) =>
          if GoSet.Contains key seenOpts then panic "os.Exit(1)"
          else
            result ← set_option key value result;
            parseConfigLines lines (GoSet.Add key seenOpts).2 result
      end
  end.

Context `{KeyFormat}.

Definition loadAppConfigFromReader (content : string) : M World AppConfig :=
  lines ← lift (ReadLines content);
  result ← parseConfigLines lines GoSet.NewSet empty_config;
  if (String.length (ApiSigningToken result) =? 0)%nat
  then raise "configuration file needs to contain a non-blank 'api_signing_token'"
  else
    let result := if (String.length (ListenAddress result) =? 0)%nat
                  then set_ListenAddress defaultListenAddress result else result in
    _ ← wrap_err "failed to load GPG public key %s: " (LoadGpgPublicKey result);
    _ ← wrap_err "failed to load GPG private key %s: " (LoadGpgPrivateKey result);
    mret result.

Definition loadAppConfigFromFile (file : string) : M World AppConfig :=
  content ← os_Open file;
  loadAppConfigFromReader (text_of content).

(** ** The command line *)

(** [idx++] inside the range loop has no effect: the argument of [-c] is looked at
    as an option, too. *)
Fixpoint parseServerArgs (args : list string) (seenOpts : gset string) (configFilePath : string)
    : outcome (gset string * string) :=
  match args with
  | [] => Ok (seenOpts, configFilePath)
  | arg :: args =>
      if existsb (String.eqb arg) ["-d"; "--debug"; "-v"; "--verbose"] then
        if GoSet.Contains arg seenOpts then Err "CLI option %s is unique but was used more than once"
        else parseServerArgs args (GoSet.Add arg seenOpts).2 configFilePath
      else if existsb (String.eqb arg) ["-c"; "--config"] then
        if GoSet.Contains arg seenOpts then Err "CLI option %s is unique but was used more than once"
        else
          match args with
          | [] => Err "invalid command line, %s option requires an argument"
          | next :: _ =>
              parseServerArgs args (GoSet.Add arg seenOpts).2
                (if (String.length configFilePath =? 0)%nat then next else configFilePath)
          end
      else parseServerArgs args seenOpts configFilePath
  end.

(** [env] is the variable [RPM_SIGN_CONFIG]. *)
Definition loadAppConfig (env : string) (args : list string) : M World AppConfig :=
  parsed ← lift (parseServerArgs args GoSet.NewSet env);
  let '(seenOpts, configFilePath) := parsed in
  if (String.length configFilePath =? 0)%nat
  then raise "no configuration file specified, use either -c/--config or set RPM_SIGN_CONFIG"
  else
    result ← loadAppConfigFromFile configFilePath;
    let result := if GoSet.Contains "-v" seenOpts || GoSet.Contains "--verbose" seenOpts
                  then set_Verbose true result else result in
    let result := if GoSet.Contains "-d" seenOpts || GoSet.Contains "--debug" seenOpts
                  then set_DebugMode true result else result in
    mret result.
End Config.
