(* ===== verification/ConfigTheorems.v ===== *)
(** The configuration the server loads: a finite map from options to values is the
    specification, and [loadAppConfig] implements it. *)
From S2P Require Import Prelude Utils Serializer Header HeaderOps Allocation HeaderCodec RpmFile FileTheorems.
From S2P Require Import Signing SigningTheorems Files FilesTheorems Keys Http Server ServerTheorems Remote RemoteTheorems Config.
From Stdlib Require Import Ascii.

(** ** The specification

    A configuration file is a finite map from options to values. *)

Definition bool_of (v : string) : bool := match stringToBoolean v with Ok b => b | _ => false end.

Definition add_binary (key : string) (arch : Architecture) (m : gmap string string)
    (b : gmap Architecture string) : gmap Architecture string :=
  match m !! key with
  | Some v => if (0 <? String.length v)%nat then <[arch := v]> b else b
  | None => b
  end.

(** The configuration a map of settings stands for. *)
Definition denote (m : gmap string string) : AppConfig := {|
  Verbose := from_option bool_of false (m !! "verbose");
  DebugMode := from_option bool_of false (m !! "debug");
  GpgPublicKeyPath := default "" (m !! "gpg_public_key");
  GpgPrivateKeyPath := default "" (m !! "gpg_private_key");
  GpgPrivateKeyPassword := bytes_of (default "" (m !! "gpg_private_key_password"));
  ApiSigningToken := default "" (m !! "api_signing_token");
  ListenAddress := default "" (m !! "listen_address");
  RpmSignClientBinary :=
    add_binary "rpm_sign_client_binary" ARCH_X86 m (add_binary "rpm_sign_arm64_client_binary" ARCH_ARM64 m ∅);
  AccessLogPath := default "" (m !! "access_log");
|}.

(** The options and the values they take. *)
Inductive setting_kind := Flag | Path | OptionalPath | Text.
Definition kind_of (key : string) : option setting_kind :=
  match List.find (fun p => String.eqb key p.1)
    [("verbose", Flag); ("debug", Flag); ("gpg_public_key", Path); ("gpg_private_key", Path);
     ("access_log", Text); ("gpg_private_key_password", Text); ("api_signing_token", Text);
     ("listen_address", Text); ("rpm_sign_arm64_client_binary", OptionalPath);
     ("rpm_sign_client_binary", OptionalPath)] with
  | Some (_, kind) => Some kind
  | None => None
  end.

(** The settings a file may hold, with the files [fs]. *)
Definition valid_setting (fs : filemap) (kv : string * string) : Prop :=
  match kind_of kv.1 with
  | Some Flag => exists b, stringToBoolean kv.2 = Ok b
  | Some Path => is_Some (fs !! kv.2)
  | Some OptionalPath => kv.2 = "" \/ is_Some (fs !! kv.2)
  | Some Text => True
  | None => False
  end.

(** The settings of the lines of a file, if none is malformed. *)
Fixpoint settings (lines : list string) : option (list (string * string)) :=
  match lines with
  | [] => Some []
  | line :: lines =>
      match parse_line line, settings lines with
      | Ok None, Some kvs => Some kvs
      | Ok (Some kv), Some kvs => Some (kv :: kvs)
      | _, _ => None
      end
  end.

Definition has_value {A} (o : outcome A) : Prop := match o with Ok _ => True | _ => False end.

(** Running [m] leaves the files alone and gives the values in [P]. *)
Definition loads `{OS} {A} (m : M World A) (w : World) (P : A -> Prop) : Prop :=
  files (m w).2 = files w /\ forall a, (m w).1 = Ok a <-> P a.

Definition listening (c : AppConfig) : AppConfig :=
  if String.eqb (ListenAddress c) "" then set_ListenAddress defaultListenAddress c else c.

(** The flags given on the command line come before the file. *)
Definition flagged (opts : gset string) (c : AppConfig) : AppConfig := {|
  Verbose := Verbose c || bool_decide ("-v" ∈ opts) || bool_decide ("--verbose" ∈ opts);
  DebugMode := DebugMode c || bool_decide ("-d" ∈ opts) || bool_decide ("--debug" ∈ opts);
  GpgPublicKeyPath := GpgPublicKeyPath c;
  GpgPrivateKeyPath := GpgPrivateKeyPath c;
  GpgPrivateKeyPassword := GpgPrivateKeyPassword c;
  ApiSigningToken := ApiSigningToken c;
  ListenAddress := ListenAddress c;
  RpmSignClientBinary := RpmSignClientBinary c;
  AccessLogPath := AccessLogPath c;
|}.

(** The public keys of the server, with the files [fs]. *)
Definition server_certificates `{KeyFormat} (c : AppConfig) (fs : filemap) : outcome EntityList :=
  match fs !! GpgPublicKeyPath c with
  | None => Err "no such file or directory"
  | Some content => LoadPublicKey content
  end.

(** [content] is a configuration file that stands for [c]. *)
Definition configures `{KeyFormat} (fs : filemap) (content : string) (c : AppConfig) : Prop :=
  exists lines kvs, ReadLines content = Ok lines /\ settings lines = Some kvs /\
    NoDup kvs.*1 /\ Forall (valid_setting fs) kvs /\
    c = listening (denote (list_to_map kvs)) /\ ApiSigningToken c <> "" /\
    has_value (server_certificates c fs) /\ has_value (server_key c fs).

Section Spec.
Context `{OS} `{!Reliable}.

Lemma assertFileExists_run f w :
  exists w', assertFileExists f w =
      (match files w !! f with Some _ => Ok f | None => Err "file '%s' does not exist" end, w') /\
    files w' = files w.
Proof.
  unfold assertFileExists, FileExists. rewrite M_bind_assoc. unfold os_Stat, mbind at 1, M_bind at 1.
  rewrite no_fault. destruct (files w !! f); by eexists.
Qed.

(** An option whose value is checked first. *)
Lemma checked_run {A B} (m : M World A) (pre : string) (f : A -> B) w o w' :
  m w = (o, w') ->
  (a ← wrap_err pre m; mret (f a)) w =
    (match o with Ok a => Ok (f a) | Err e => Err (pre +:+ e) | Panic p => Panic p | Diverge => Diverge end, w').
Proof. intros Hm. unfold mbind, M_bind, wrap_err. rewrite Hm. by destruct o. Qed.

(** What setting an option has to do. *)
Definition sets (k v : string) (m : gmap string string) (w : World) (r : outcome AppConfig * World) : Prop :=
  files r.2 = files w /\
  (valid_setting (files w) (k, v) -> r.1 = Ok (denote (<[k := v]> m))) /\
  (~ valid_setting (files w) (k, v) -> ~ has_value r.1).

Lemma sets_file k v m w pre (f : string -> AppConfig) :
  (is_Some (files w !! v) <-> valid_setting (files w) (k, v)) -> f v = denote (<[k := v]> m) ->
  sets k v m w ((a ← wrap_err pre (assertFileExists v); mret (f a)) w).
Proof.
  intros Hiff Hf. destruct (assertFileExists_run v w) as (w' & Hrun & Hfiles).
  rewrite (checked_run _ pre f _ _ _ Hrun). unfold sets. rewrite <- Hiff, <- Hf.
  split; [done|]. destruct (files w !! v); simpl; (split; [by intros []|]).
  - intros Hn. by destruct Hn.
  - by intros _ [].
Qed.

Lemma sets_bool k v m w pre (f : bool -> AppConfig) :
  ((exists b, stringToBoolean v = Ok b) <-> valid_setting (files w) (k, v)) ->
  (forall b, stringToBoolean v = Ok b -> f b = denote (<[k := v]> m)) ->
  sets k v m w ((a ← wrap_err pre (lift (stringToBoolean v)); mret (f a)) w).
Proof.
  intros Hiff Hf. rewrite (checked_run _ pre f w (stringToBoolean v) w) by done. unfold sets. rewrite <- Hiff.
  split; [done|]. destruct (stringToBoolean v) as [b|e|p|]; simpl.
  - split; [intros _; by rewrite (Hf b)|]. intros Hn. destruct Hn. by exists b.
  - split; [by intros [b Hb]|auto].
  - split; [by intros [b Hb]|auto].
  - split; [by intros [b Hb]|auto].
Qed.

Lemma sets_always k v m w c :
  valid_setting (files w) (k, v) -> c = denote (<[k := v]> m) -> sets k v m w (Ok c, w).
Proof. intros Hv ->. unfold sets. simpl. split; [done|]. split; [done|]. by intros []. Qed.

(** An option whose value may be left out. *)
Lemma sets_optional k v m w pre (f : string -> AppConfig) c :
  kind_of k = Some OptionalPath ->
  (v = "" -> c = denote (<[k := v]> m)) -> (v <> "" -> f v = denote (<[k := v]> m)) ->
  sets k v m w ((if (0 <? String.length v)%nat
                 then a ← wrap_err pre (assertFileExists v); mret (f a) else mret c) w).
Proof.
  intros Hk Hnone Hsome.
  assert (valid_setting (files w) (k, v) <-> v = "" \/ is_Some (files w !! v)) as Hv
    by (unfold valid_setting; simpl; by rewrite Hk).
  destruct v as [|a v]; simpl.
  - apply sets_always; [by apply Hv; left|auto].
  - apply sets_file; [rewrite Hv; split; [by right|intros [?|?]; done]|by apply Hsome].
Qed.

(** The value of an option is a matter of that option. *)
Ltac denote_insert :=
  unfold denote, add_binary; rewrite ?lookup_insert_eq, ?lookup_insert_ne by discriminate; simpl.

#[export] Instance valid_setting_dec fs kv : Decision (valid_setting fs kv).
Proof.
  unfold valid_setting. destruct (kind_of kv.1) as [[]|]; try apply _.
  destruct (stringToBoolean kv.2) as [b|e|p|]; [left; by exists b|right; by intros []..].
Defined.

Lemma set_option_sets k v m w :
  m !! k = None -> sets k v m w (set_option k v (denote m) w).
Proof.
  intros Hk. unfold set_option.
  destruct (String.eqb_spec k "verbose") as [->|N1].
  { apply (sets_bool _ _ _ _ _ (fun b => set_Verbose b (denote m))); [done|].
    intros b Hb. denote_insert. unfold set_Verbose, bool_of. simpl. by rewrite Hb. }
  destruct (String.eqb_spec k "debug") as [->|N2].
  { apply (sets_bool _ _ _ _ _ (fun b => set_DebugMode b (denote m))); [done|].
    intros b Hb. denote_insert. unfold set_DebugMode, bool_of. simpl. by rewrite Hb. }
  destruct (String.eqb_spec k "gpg_public_key") as [->|N3].
  { apply (sets_file _ _ _ _ _ (fun f => set_GpgPublicKeyPath f (denote m))); [done|]. by denote_insert. }
  destruct (String.eqb_spec k "gpg_private_key") as [->|N4].
  { apply (sets_file _ _ _ _ _ (fun f => set_GpgPrivateKeyPath f (denote m))); [done|]. by denote_insert. }
  destruct (String.eqb_spec k "access_log") as [->|N5].
  { apply sets_always; [done|]. by denote_insert. }
  destruct (String.eqb_spec k "gpg_private_key_password") as [->|N6].
  { apply sets_always; [done|]. by denote_insert. }
  destruct (String.eqb_spec k "api_signing_token") as [->|N7].
  { apply sets_always; [done|]. by denote_insert. }
  destruct (String.eqb_spec k "listen_address") as [->|N8].
  { apply sets_always; [done|]. by denote_insert. }
  destruct (String.eqb_spec k "rpm_sign_arm64_client_binary") as [->|N9].
  { apply (sets_optional _ _ _ _ _ (fun f => set_RpmSignClientBinary ARCH_ARM64 f (denote m))); [done|..].
    - intros ->. denote_insert. by rewrite Hk.
    - intros Hv. denote_insert. rewrite Hk. unfold set_RpmSignClientBinary. simpl. f_equal.
      destruct v; [done|]. simpl. destruct (m !! "rpm_sign_client_binary") as [s|]; [|done].
      destruct s; [done|]. simpl. by rewrite insert_insert_ne. }
  destruct (String.eqb_spec k "rpm_sign_client_binary") as [->|N10].
  { apply (sets_optional _ _ _ _ _ (fun f => set_RpmSignClientBinary ARCH_X86 f (denote m))); [done|..].
    - intros ->. denote_insert. by rewrite Hk.
    - intros Hv. denote_insert. rewrite Hk. unfold set_RpmSignClientBinary. simpl. f_equal.
      by destruct v. }
  split; [done|]. assert (kind_of k = None) as Hnone.
  { unfold kind_of. simpl. by rewrite !(proj2 (String.eqb_neq _ _)) by done. }
  unfold valid_setting. simpl. rewrite Hnone. split; [by intros []|by intros _ []].
Qed.

#[export] Instance has_value_dec {A} (o : outcome A) : Decision (has_value o).
Proof. destruct o; apply _. Defined.

(** What the settings of a file come to, from those in [m] on. *)
Definition config_from (fs : filemap) (lines : list string) (m : gmap string string) (c : AppConfig) : Prop :=
  exists kvs, settings lines = Some kvs /\ NoDup kvs.*1 /\ (forall k, k ∈ kvs.*1 -> m !! k = None) /\
    Forall (valid_setting fs) kvs /\ c = denote (list_to_map kvs ∪ m).

Lemma config_from_none fs line lines m c :
  parse_line line = Ok None -> config_from fs (line :: lines) m c <-> config_from fs lines m c.
Proof. intros Hp. unfold config_from. simpl. rewrite Hp. by destruct (settings lines). Qed.

Lemma config_from_bad fs line lines m c :
  ~ has_value (parse_line line) -> ~ config_from fs (line :: lines) m c.
Proof. intros Hp (kvs & Hs & _). simpl in Hs. by destruct (parse_line line). Qed.

Lemma config_from_some fs line lines m c k v :
  parse_line line = Ok (Some (k, v)) ->
  config_from fs (line :: lines) m c <->
    m !! k = None /\ valid_setting fs (k, v) /\ config_from fs lines (<[k := v]> m) c.
Proof.
  intros Hp. unfold config_from. simpl. rewrite Hp. split.
  - intros (kvs & Hs & Hnd & Hfresh & Hv & Hc). destruct (settings lines) as [kvs'|]; [|done].
    injection Hs as <-. apply NoDup_cons in Hnd as [Hk Hnd]. apply Forall_cons in Hv as [Hv Hvs].
    split; [apply Hfresh, list_elem_of_here|]. split; [done|]. exists kvs'. split; [done|]. split; [done|].
    split; [|split; [done|]].
    + intros k' Hk'. rewrite lookup_insert_ne by by intros ->. by apply Hfresh, list_elem_of_further.
    + rewrite Hc. simpl. rewrite <- insert_union_l, insert_union_r; [done|]. by apply not_elem_of_list_to_map_1.
  - intros (Hk & Hv & kvs & Hs & Hnd & Hfresh & Hvs & Hc). rewrite Hs. exists ((k, v) :: kvs).
    assert (k ∉ kvs.*1) as Hnk.
    { intros Hin. specialize (Hfresh _ Hin). by rewrite lookup_insert_eq in Hfresh. }
    split; [done|]. split; [by constructor|]. split; [|split; [by constructor|]].
    + intros k' [->|Hk']%elem_of_cons; [done|]. specialize (Hfresh _ Hk').
      rewrite lookup_insert_ne in Hfresh; [done|]. by intros ->.
    + rewrite Hc. simpl. rewrite <- insert_union_l, insert_union_r; [done|]. by apply not_elem_of_list_to_map_1.
Qed.

Lemma parseConfigLines_run lines : forall seen m w,
  (forall k, k ∈ seen <-> is_Some (m !! k)) ->
  let r := parseConfigLines lines seen (denote m) w in
  files r.2 = files w /\ forall c, r.1 = Ok c <-> config_from (files w) lines m c.
Proof.
  induction lines as [|line lines IH]; intros seen m w Hseen; cbn zeta.
  - split; [done|]. intros c. simpl. unfold config_from. simpl. split.
    + intros [= <-]. exists []. split_and!; try done; [by constructor|by intros k ?%elem_of_nil|].
      by rewrite list_to_map_nil, (left_id_L ∅ (∪)).
    + intros (kvs & [= <-] & _ & _ & _ & ->). by rewrite list_to_map_nil, (left_id_L ∅ (∪)).
  - cbn [parseConfigLines]. unfold mbind, M_bind, lift.
    destruct (parse_line line) as [[[k v]|]|e|p|] eqn:Hp.
    3-5: split; [done|]; intros c; split; [done|]; intros Hc; exfalso; revert Hc; apply config_from_bad; rewrite Hp; by intros [].
    2: { destruct (IH seen m w Hseen) as [Hf Hr]. split; [done|]. intros c. by rewrite Hr, config_from_none. }
    unfold GoSet.Contains. destruct (decide (k ∈ seen)) as [Hin|Hin].
    + rewrite bool_decide_eq_true_2 by done. split; [done|]. intros c. split; [by intros [=]|].
      rewrite (config_from_some _ _ _ _ _ k v) by done. intros [Hk _]. apply Hseen in Hin. rewrite Hk in Hin. by destruct Hin.
    + rewrite bool_decide_eq_false_2 by done.
      assert (m !! k = None) as Hk.
      { destruct (m !! k) eqn:E; [|done]. destruct Hin. apply Hseen. rewrite E. by eexists. }
      destruct (set_option_sets k v m w Hk) as (Hf & Hok & Hbad).
      destruct (set_option k v (denote m) w) as [o w1] eqn:Hrun. simpl in Hf, Hok, Hbad.
      destruct (decide (valid_setting (files w) (k, v))) as [Hv|Hv].
      * specialize (Hok Hv) as ->. rewrite <- Hf.
        destruct (IH (GoSet.Add k seen).2 (<[k := v]> m) w1) as [Hf' Hr].
        { intros k'. unfold GoSet.Add, GoSet.Contains. rewrite bool_decide_eq_false_2 by done. simpl.
          rewrite elem_of_union, elem_of_singleton, Hseen, lookup_insert_is_Some. clear -Hk.
          destruct (decide (k = k')) as [->|Hne]; [tauto|intuition congruence]. }
        split; [done|]. intros c. rewrite Hr, (config_from_some _ _ _ _ _ k v), Hf by done. clear -Hk Hv. tauto.
      * specialize (Hbad Hv). destruct o as [c'|e|p|]; [by destruct Hbad|..];
          (split; [done|]; intros c; split; [by intros [=]|]); rewrite (config_from_some _ _ _ _ _ k v) by done;
          by intros (_ & ? & _).
Qed.

(** ** Loading *)

Lemma loads_iff {A} (m : M World A) w (P P' : A -> Prop) :
  loads m w P -> (forall a, P a <-> P' a) -> loads m w P'.
Proof. intros [Hf Hm] HP. split; [done|]. intros a. by rewrite Hm. Qed.

Lemma loads_lift {A} (o : outcome A) w : loads (lift o) w (fun a => o = Ok a).
Proof. done. Qed.

Lemma loads_wrap {A} pre (m : M World A) w P : loads m w P -> loads (wrap_err pre m) w P.
Proof.
  unfold loads, wrap_err. intros [Hf Hm]. destruct (m w) as [[a|e|p|] w']; simpl in *; (split; [done|]); try done.
  intros a. rewrite <- Hm. by split; intros [=].
Qed.

Lemma loads_bind {A B} (m : M World A) (k : A -> M World B) w P Q :
  loads m w P -> (forall a w', P a -> files w' = files w -> loads (k a) w' (Q a)) ->
  loads (m ≫= k) w (fun b => exists a, P a /\ Q a b).
Proof.
  unfold loads, mbind, M_bind. intros [Hf Hm] Hk. destruct (m w) as [[a|e|p|] w'] eqn:Hrun; simpl in *.
  2-4: split; [done|]; intros b; split; [by intros [=]|]; by intros (a & [=]%Hm & _).
  destruct (Hk a w') as [Hf' Hb]; [by apply Hm|done|]. split; [congruence|]. intros b. rewrite Hb.
  split; [intros Hq; exists a; split; [by apply Hm|done]|]. intros (a' & [= ->]%Hm & Hq). done.
Qed.

Context `{KeyFormat}.

Lemma LoadGpgPublicKey_loads fs c w :
  files w = fs -> loads (LoadGpgPublicKey c) w (fun es => server_certificates c fs = Ok es).
Proof.
  intros <-. unfold loads, LoadGpgPublicKey, server_certificates, mbind, M_bind. rewrite os_Open_run, no_fault.
  by destruct (files w !! GpgPublicKeyPath c).
Qed.

Lemma LoadGpgPrivateKey_loads fs c w :
  files w = fs -> loads (LoadGpgPrivateKey c) w (fun k => server_key c fs = Ok k).
Proof. intros <-. destruct (LoadGpgPrivateKey_run c w) as (w' & Hrun & Hf). unfold loads. by rewrite Hrun. Qed.

Lemma has_value_iff {A} (o : outcome A) : has_value o <-> exists a, o = Ok a.
Proof. destruct o; simpl; split; try done; [intros _; by eexists|by intros [a [=]]..]. Qed.

Lemma listening_eq c :
  (if (String.length (ListenAddress c) =? 0)%nat then set_ListenAddress defaultListenAddress c else c) = listening c.
Proof. unfold listening. by destruct (ListenAddress c). Qed.

Lemma ApiSigningToken_listening c : ApiSigningToken (listening c) = ApiSigningToken c.
Proof. unfold listening. by destruct (String.eqb (ListenAddress c) ""). Qed.

Lemma config_from_empty fs lines c :
  config_from fs lines ∅ c <->
  exists kvs, settings lines = Some kvs /\ NoDup kvs.*1 /\ Forall (valid_setting fs) kvs /\ c = denote (list_to_map kvs).
Proof.
  unfold config_from. split; intros (kvs & Hs & Hn & H3); exists kvs; (split; [done|]; split; [done|]).
  - destruct H3 as (_ & Hv & ->). by rewrite (right_id_L ∅ (∪)).
  - destruct H3 as (Hv & ->). split; [intros k _; apply lookup_empty|]. by rewrite (right_id_L ∅ (∪)).
Qed.

Lemma loadAppConfigFromReader_loads fs content w :
  files w = fs -> loads (loadAppConfigFromReader content) w (configures fs content).
Proof.
  intros <-.
  apply (loads_iff _ _ (fun c => exists lines, ReadLines content = Ok lines /\
    exists result, config_from (files w) lines ∅ result /\ ApiSigningToken result <> "" /\
      exists es, server_certificates (listening result) (files w) = Ok es /\
        exists key, server_key (listening result) (files w) = Ok key /\ Ok (listening result) = Ok c)).
  - unfold loadAppConfigFromReader. apply loads_bind; [apply loads_lift|]. intros lines w1 _ Hf1.
    apply loads_bind.
    { rewrite <- Hf1. change empty_config with (denote ∅). apply parseConfigLines_run.
      intros k. rewrite lookup_empty. split; [by intros ?%elem_of_empty|by intros []]. }
    intros result w2 _ Hf2. rewrite listening_eq. rewrite Hf1 in Hf2.
    destruct (ApiSigningToken result) as [|a t] eqn:Ht; simpl.
    { split; [done|]. intros c. split; [by intros [=]|by intros [[] _]]. }
    eapply loads_iff; [|intros c; split; [intros Hx; split; [discriminate|exact Hx]|by intros [_ Hx]]].
    apply loads_bind; [by apply loads_wrap, LoadGpgPublicKey_loads|]. intros es w3 _ Hf3.
    apply loads_bind; [apply loads_wrap, LoadGpgPrivateKey_loads; congruence|]. intros key w4 _ Hf4.
    apply loads_lift.
  - intros c. unfold configures. split.
    + intros (lines & Hl & result & Hr & Ht & es & Hes & key & Hkey & [= <-]).
      apply config_from_empty in Hr as (kvs & Hs & Hn & Hv & ->). exists lines, kvs.
      rewrite ApiSigningToken_listening, Hes, Hkey. done.
    + intros (lines & kvs & Hl & Hs & Hn & Hv & -> & Ht & [es Hes]%has_value_iff & [key Hkey]%has_value_iff).
      rewrite ApiSigningToken_listening in Ht. exists lines. split; [done|]. exists (denote (list_to_map kvs)).
      split; [apply config_from_empty; by exists kvs|]. split; [done|]. exists es. split; [done|]. by exists key.
Qed.

(** ** The order of the lines *)

Lemma settings_perm lines1 lines2 : lines1 ≡ₚ lines2 ->
  forall kvs1, settings lines1 = Some kvs1 -> exists kvs2, settings lines2 = Some kvs2 /\ kvs1 ≡ₚ kvs2.
Proof.
  induction 1 as [|l ls1 ls2 Hp IH|l1 l2 ls|ls1 ls2 ls3 _ IH1 _ IH2]; simpl; intros kvs1 Hs.
  - by exists kvs1.
  - destruct (parse_line l) as [[kv|]|e|p|]; try done; destruct (settings ls1) as [kvs|]; try done;
      destruct (IH kvs eq_refl) as (kvs2 & -> & Hkvs); injection Hs as <-; (eexists; split; [reflexivity|]); [by constructor|done].
  - destruct (parse_line l1) as [[kv1|]|e|p|], (parse_line l2) as [[kv2|]|e2|p2|], (settings ls) as [kvs|];
      try done; injection Hs as <-; (eexists; split; [reflexivity|]); [constructor|done..].
  - destruct (IH1 _ Hs) as (kvs2 & Hs2 & Hp1). destruct (IH2 _ Hs2) as (kvs3 & Hs3 & Hp2).
    exists kvs3. split; [done|]. by transitivity kvs2.
Qed.

Lemma configures_perm fs content1 content2 lines1 lines2 c :
  ReadLines content1 = Ok lines1 -> ReadLines content2 = Ok lines2 -> lines1 ≡ₚ lines2 ->
  configures fs content1 c -> configures fs content2 c.
Proof.
  intros Hl1 Hl2 Hp (lines & kvs1 & Hl & Hs & Hn & Hv & -> & Hrest).
  assert (lines = lines1) as -> by congruence. destruct (settings_perm _ _ Hp _ Hs) as (kvs2 & Hs2 & Hkvs).
  rewrite (list_to_map_proper _ _ Hn Hkvs) in *. exists lines2, kvs2.
  split; [done|]. split; [done|]. split; [by rewrite <- Hkvs|]. split; [by rewrite <- Hkvs|]. done.
Qed.

Lemma Get_missing key v : Has key v = false -> Get key v = "".
Proof.
  unfold Has, Get. induction v as [|kv v IH]; simpl; [done|]. intros [Hk Hv]%orb_false_iff.
  apply String.eqb_neq in Hk. by rewrite filter_cons_False, IH.
Qed.

Lemma loadAppConfig_loads env args w :
  loads (loadAppConfig env args) w (fun c => exists opts path content base,
    parseServerArgs args GoSet.NewSet env = Ok (opts, path) /\ path <> "" /\ files w !! path = Some content /\
    configures (files w) (text_of content) base /\ c = flagged opts base).
Proof.
  apply (loads_iff _ _ (fun c => exists p, parseServerArgs args GoSet.NewSet env = Ok p /\ p.2 <> "" /\
    exists base, (exists content, files w !! p.2 = Some content /\ configures (files w) (text_of content) base) /\
      Ok (flagged p.1 base) = Ok c)).
  - unfold loadAppConfig. apply loads_bind; [apply loads_lift|]. intros [opts path] w1 _ Hf1.
    destruct path as [|a path]; simpl; [split; [done|]; intros c; split; [by intros [=]|by intros [[] _]]|].
    eapply loads_iff; [|intros c; split; [intros Hx; split; [discriminate|exact Hx]|by intros [_ Hx]]].
    apply loads_bind.
    + unfold loadAppConfigFromFile. apply loads_bind; [|intros content w2 _ Hf2; apply loadAppConfigFromReader_loads; congruence].
      unfold loads. rewrite os_Open_run, no_fault, Hf1. simpl.
      destruct (files w !! String a path); (split; [done|]); intros c; by split; intros [= ->].
    + intros base w2 _ _. unfold flagged, GoSet.Contains. split; [done|]. intros c.
      by destruct base, (bool_decide ("-v" ∈ opts)), (bool_decide ("--verbose" ∈ opts)), (bool_decide ("-d" ∈ opts)),
        (bool_decide ("--debug" ∈ opts)); simpl; rewrite ?orb_true_r, ?orb_false_r.
  - intros c. split.
    + intros ([opts path] & Hp & Hne & base & (content & Hf & Hc) & [= <-]). by exists opts, path, content, base.
    + intros (opts & path & content & base & Hp & Hne & Hf & Hc & ->). exists (opts, path).
      split; [done|]. split; [done|]. exists base. split; [by exists content|done].
Qed.

(** C21. Loading the configuration of the server implements a finite map from options
    to values: it succeeds just when the lines of the file that is named on the
    command line or in the environment are settings of different known options, each
    with a value that option takes, a token is among them and both keys load, and the
    result is the configuration that map stands for, with the flags of the command
    line switched on. So the order of the lines does not matter, no file changes, and
    with a configuration that was accepted a request without a token is never
    authorized. *)
Theorem loadAppConfig_correct env args w :
  files (loadAppConfig env args w).2 = files w /\
  (forall c, (loadAppConfig env args w).1 = Ok c <->
     exists opts path content base,
       parseServerArgs args GoSet.NewSet env = Ok (opts, path) /\ path <> "" /\ files w !! path = Some content /\
       configures (files w) (text_of content) base /\ c = flagged opts base) /\
  (forall c query, (loadAppConfig env args w).1 = Ok c -> Has "authToken" (ParseQuery query) = false ->
     ~ authorized query c) /\
  (forall content1 content2 lines1 lines2 c,
     ReadLines content1 = Ok lines1 -> ReadLines content2 = Ok lines2 -> lines1 ≡ₚ lines2 ->
     (loadAppConfigFromReader content1 w).1 = Ok c -> (loadAppConfigFromReader content2 w).1 = Ok c).
Proof.
  destruct (loadAppConfig_loads env args w) as [Hf Hc]. split; [done|]. split; [done|]. split.
  - intros c query Hl%Hc Hno. destruct Hl as (opts & path & content & base & _ & _ & _ & Hb & ->).
    destruct Hb as (lines & kvs & _ & _ & _ & _ & _ & Ht & _). unfold authorized. simpl.
    rewrite Get_missing by done. congruence.
  - intros content1 content2 lines1 lines2 c Hl1 Hl2 Hp Hr.
    apply (loadAppConfigFromReader_loads (files w)) in Hr; [|done].
    apply (loadAppConfigFromReader_loads (files w)); [done|].
    exact (configures_perm _ _ _ _ _ c Hl1 Hl2 Hp Hr).
Qed.
End Spec.

(** ** A witness *)

Section Witness.
#[local] Existing Instance reliable_os.
#[local] Existing Instance checksums.
#[local] Existing Instance doubling.
#[local] Existing Instance checksum_pgp.
#[local] Existing Instance sample_keyformat.

Definition nl : string := String "010" EmptyString.
Definition sample_config_file : string :=
  ("# keys" +:+ nl +:+ "gpg_private_key=priv.asc" +:+ nl +:+ " gpg_public_key = pub.asc " +:+ nl +:+ nl +:+
   "api_signing_token=s&cret=" +:+ nl +:+ "rpm_sign_arm64_client_binary=" +:+ nl +:+ "debug= on")%string.
Definition sample_config_world : World :=
  mkWorld (<["server.conf" := bytes_of sample_config_file]> (files sample_server)) [].
Definition sample_loaded : AppConfig :=
  mkAppConfig true true "pub.asc" "priv.asc" [] "s&cret=" ":8080" ∅ "".

Lemma loadAppConfig_correct_witness :
  (loadAppConfig "" ["-v"; "-c"; "server.conf"] sample_config_world).1 = Ok sample_loaded /\
  ~ authorized "" sample_loaded.
Proof.
  assert (Reliable) as Hr by by intros i.
  assert ((loadAppConfig "" ["-v"; "-c"; "server.conf"] sample_config_world).1 = Ok sample_loaded) as Hl
    by (vm_compute; reflexivity).
  split; [exact Hl|].
  destruct (loadAppConfig_correct "" ["-v"; "-c"; "server.conf"] sample_config_world) as (_ & _ & Hno & _).
  exact (Hno sample_loaded "" Hl eq_refl).
Defined.
End Witness.
