(* ===== verification/Dump.v ===== *)
(** The table [DumpIndexEntries] prints ([src/common/rpmparser.go]), the padding of
    its cells ([src/common/utils.go]) and the other printed forms of headers,
    versions and bitmaps. Texts are bytes. *)
From S2P Require Import Prelude Utils Bitmap Serializer Tags Header Layout HeaderCodec Payload RpmFile.
From stdpp Require Import pretty.
#[local] Open Scope Z_scope.

(** ** Text *)

(** The arguments of [fmt.Sprintf] and of [Infof]: for the verbs [%s], [%v] and [%q]
    texts, for [%d] and [%x] numbers. *)
Inductive Arg := Text (s : list Z) | Num (n : Z).

Definition hexadecimal (n : Z) : list Z := str (hex_padded (Z.to_nat (Z.log2 n / 4) + 1) n).

Definition format_arg (verb : Z) (a : Arg) : list Z :=
  match a with
  | Text s => s
  | Num n => if verb =? 120 then hexadecimal n else decimal n
  end.

Fixpoint Sprintf (format : list Z) (args : list Arg) : list Z :=
  match format, args with
  | 37 :: verb :: format, a :: args => format_arg verb a ++ Sprintf format args
  | c :: format, _ => c :: Sprintf format args
  | [], _ => []
  end.

Example Sprintf_ex : Sprintf (str "%d (0x%x): %s") [Num 254; Num 254; Text (str "ok")] = str "254 (0xfe): ok".
Proof. reflexivity. Qed.

(** [utf8.RuneCountInString]: the size of the first rune; a byte that starts no
    well-formed rune is one on its own. *)
Definition byte_between (lo hi : Z) (b : option Z) : bool :=
  match b with Some b => (lo <=? b) && (b <=? hi) | None => false end.

Definition rune_size (s : list Z) : nat :=
  let cont i := byte_between 0x80 0xBF (s !! i) in
  if byte_between 0xC2 0xDF (s !! 0%nat) && cont 1%nat then 2
  else if byte_between 0xE0 0xE0 (s !! 0%nat) && byte_between 0xA0 0xBF (s !! 1%nat) && cont 2%nat then 3
  else if byte_between 0xED 0xED (s !! 0%nat) && byte_between 0x80 0x9F (s !! 1%nat) && cont 2%nat then 3
  else if (byte_between 0xE1 0xEC (s !! 0%nat) || byte_between 0xEE 0xEF (s !! 0%nat)) && cont 1%nat && cont 2%nat then 3
  else if byte_between 0xF0 0xF0 (s !! 0%nat) && byte_between 0x90 0xBF (s !! 1%nat) && cont 2%nat && cont 3%nat then 4
  else if byte_between 0xF1 0xF3 (s !! 0%nat) && cont 1%nat && cont 2%nat && cont 3%nat then 4
  else if byte_between 0xF4 0xF4 (s !! 0%nat) && byte_between 0x80 0x8F (s !! 1%nat) && cont 2%nat && cont 3%nat then 4
  else 1.

Fixpoint count_runes (fuel : nat) (s : list Z) : nat :=
  match fuel, s with
  | S fuel, _ :: _ => S (count_runes fuel (drop (rune_size s) s))
  | _, _ => 0
  end.

Definition RuneCountInString (s : list Z) : nat := count_runes (length s) s.

Example RuneCountInString_ex : RuneCountInString [72; 195; 164; 226; 130; 172; 128] = 4%nat.
Proof. reflexivity. Qed.

(** [strings.Repeat] *)
Definition Repeat (s : list Z) (n : nat) : list Z := mjoin (replicate n s).

Definition RightPad (s padChar : list Z) (totalLength : nat) : list Z :=
  let charCount := RuneCountInString s in
  if (totalLength <=? charCount)%nat then s else s ++ Repeat padChar (totalLength - charCount).

Definition CenterPad (s padChar : list Z) (totalLength : nat) : list Z :=
  let charCount := RuneCountInString s in
  if (totalLength <=? charCount)%nat then s
  else
    let delta := (totalLength - charCount)%nat in
    let deltaLeft := (delta / 2)%nat in
    let deltaRight := (totalLength - charCount - deltaLeft)%nat in
    Repeat padChar deltaLeft ++ s ++ Repeat padChar deltaRight.

(** ** The table *)

Abbreviation registries := (gmap Z MainTagValue * gmap Z SignatureTagValue)%type.

Definition columnNames : list (list Z) :=
  str <$> ["Tag"; "Tag ID"; "Format"; "Item Count"; "Start adr"; "End adr"; "Length"; "Payload"].

Definition truncated (truncateValuesToLength : nat) (valueString : list Z) : list Z :=
  if (truncateValuesToLength <? length valueString)%nat
  then take truncateValuesToLength valueString ++ str "..." else valueString.

Definition dump_row (truncateValuesToLength : nat) (entry : IndexEntry) : M registries (list (list Z)) :=
  tag ← Tag entry;
  valueString ← lift (PayloadAsPrettyString entry);
  mret [str tag.2; decimal tag.1; str (GetFormatTypeLabel (ie_formatType entry));
        decimal (ie_dataItemCnt entry); decimal (ie_offset entry);
        decimal (u32 (ie_offset entry + u32 (Zlen (ie_payload entry))));
        decimal (Zlen (ie_payload entry)); truncated truncateValuesToLength valueString].

Fixpoint dump_rows (truncateValuesToLength : nat) (es : list IndexEntry) : M registries (list (list (list Z))) :=
  match es with
  | [] => mret []
  | e :: es =>
      row ← dump_row truncateValuesToLength e;
      rows ← dump_rows truncateValuesToLength es;
      mret (row :: rows)
  end.

(** The index is out of range when there are more cells than columns. *)
Fixpoint updateMaxWidths (colIdx : nat) (row : list (list Z)) (maxColumnWidths : list nat) : outcome (list nat) :=
  match row with
  | [] => Ok maxColumnWidths
  | cellContent :: row =>
      match maxColumnWidths !! colIdx with
      | None => Panic "runtime error: index out of range"
      | Some width =>
          updateMaxWidths (S colIdx) row
            (if (width <? length cellContent)%nat
             then <[colIdx := length cellContent]> maxColumnWidths else maxColumnWidths)
      end
  end.

Fixpoint updateAllWidths (rows : list (list (list Z))) (maxColumnWidths : list nat) : outcome (list nat) :=
  match rows with
  | [] => Ok maxColumnWidths
  | row :: rows => maxColumnWidths ← updateMaxWidths 0 row maxColumnWidths; updateAllWidths rows maxColumnWidths
  end.

Definition space : list Z := str " ".

Definition separatorLine (widths : list nat) (prefix padChar joinChar suffix : list Z) : list Z :=
  prefix ++ Payload.join joinChar (Repeat padChar <$> widths) ++ suffix.

Definition applyPadding (widths : list nat) (row : list (list Z)) : list (list Z) :=
  imap (fun colIdx p => if (colIdx =? 0)%nat then RightPad p.1 space p.2 else CenterPad p.1 space p.2) (zip row widths).

Definition row_line (cells : list (list Z)) : list Z := str "|" ++ Payload.join (str "|") cells ++ str "|".

(** The loop over the rows; [rows] are those left. *)
Fixpoint dump_lines_of (widths : list nat) (printCompact : bool) (rows : list (list (list Z))) : list Z :=
  match rows with
  | [] => []
  | row :: rows =>
      row_line (applyPadding widths row) ++
      (if negb printCompact then [10] ++ separatorLine widths (str "+") (str "-") (str "+") (str "+") else []) ++
      (match rows with [] => [] | _ => [10] end) ++
      dump_lines_of widths printCompact rows
  end.

Definition DumpIndexEntries (truncateValuesToLength : nat) (printCompact : bool) (header : RpmHeader)
    : M registries (list Z) :=
  rows ← dump_rows truncateValuesToLength (entries header);
  let columnCount := match rows with row :: _ => length row | [] => 0%nat end in
  maxColumnWidths ← lift (updateMaxWidths 0 columnNames (replicate columnCount 0%nat));
  maxColumnWidths ← lift (updateAllWidths rows maxColumnWidths);
  let columnNames := zip_with (fun c w => CenterPad c space w) columnNames maxColumnWidths in
  let line := separatorLine maxColumnWidths (str "|") (str "-") (str "|") (str "|") in
  mret (line ++ [10] ++
        str "|" ++ Payload.join (str "|") (applyPadding maxColumnWidths columnNames) ++ str "|" ++ [10] ++
        line ++ (match rows with [] => [] | _ => [10] end) ++
        dump_lines_of maxColumnWidths printCompact rows).

(** ** Other printed forms *)

Definition PrettyString (i : IndexEntry) : M registries (list Z) :=
  tag ← Tag i;
  value ← lift (PayloadAsPrettyString i);
  mret (Sprintf (str "%s(%d) = %s") [Text (str tag.2); Num tag.1; Text value]).

(** [None] is the nil pointer. *)
Definition RawString (i : option IndexEntry) : M registries (list Z) :=
  match i with
  | None => mret (str "<nil>")
  | Some i =>
      tag ← Tag i;
      mret (Sprintf (str "IndexEntry{%s, tag: %d, format: %d, offset: %d, dataItemCnt: %d, payloadLen: %d (0x%x)}")
        [Text (str tag.2); Num (ie_tag i); Num (ie_formatType i); Num (ie_offset i); Num (ie_dataItemCnt i);
         Num (Zlen (ie_payload i)); Num (Zlen (ie_payload i))])
  end.

Definition IndexEntry_String (i : option IndexEntry) : M registries (list Z) :=
  match i with
  | None => mret (str "<nil>")
  | Some i =>
      let formatName := GetFormatTypeLabel (ie_formatType i) in
      tag ← Tag i;
      value ← lift (PayloadAsPrettyString i);
      mret (Sprintf (str "IndexEntry{%s, tag: %d, %s, offset: %d, dataItemCnt: %d, payloadLen: %d (0x%x), value: %s}")
        [Text (str tag.2); Num (ie_tag i); Text (str formatName); Num (ie_offset i); Num (ie_dataItemCnt i);
         Num (Zlen (ie_payload i)); Num (Zlen (ie_payload i)); Text value])
  end.

Definition SignedRegion_String (r : SignedRegion) : list Z :=
  Sprintf (str "Signed region{offset: %d (0x%x), length: %d (0x%x), indexEntryCnt: %d (%x)")
    [Num (IndexEntriesStartOffset r); Num (IndexEntriesStartOffset r); Num (sr_Length r); Num (sr_Length r);
     Num (sr_IndexEntryCount r); Num (sr_IndexEntryCount r)].

Definition SignatureVersion_String (v : SignatureVersion) : list Z := str (sv_Label v).

Definition RpmFileFormatVersion_String (v : RpmFileFormatVersion) : list Z :=
  Sprintf (str "%d.%d") [Num (Major v); Num (Minor v)].

(** *** Bitmaps *)

(** The last word that is not zero. *)
Fixpoint lastIdx (i : nat) (data : BitmapImpl) : nat :=
  match i with
  | O => 0
  | S i => if negb (default 0 (data !! i) =? 0) then i else lastIdx i data
  end.

(** The loop over the mask, from the highest bit down. *)
Definition word_bits (value : Z) : list Z :=
  (fun i => if negb (Z.land value (Z.shiftl 1 i) =? 0) then 49 else 48) <$> rev (seqZ 0 64).

Fixpoint trim_zeros (s : list Z) : list Z :=
  match s with
  | [] => []
  | c :: s => match trim_zeros s with [] => if c =? 48 then [] else [c] | t => c :: t end
  end.

Definition BitmapImpl_String (data : BitmapImpl) : list Z :=
  match data with
  | [] => []
  | _ =>
      let last := lastIdx (length data) data in
      trim_zeros (mjoin (imap (fun offset value =>
        word_bits value ++ (if (offset + 1 <? last)%nat then [10] else [])) (take (last + 1) data)))
  end.

Example BitmapImpl_String_ex :
  BitmapImpl_String [2 ^ 63 + 2 ^ 61; 0] = str "101" /\
  BitmapImpl_String [0; 2 ^ 63; 0] = Repeat (str "0") 64 ++ str "1".
Proof. split; reflexivity. Qed.
