(* ===== verification/DumpTheorems.v ===== *)
(** The table [DumpIndexEntries] prints: its lines, the widths of its columns and its
    cells. *)
From S2P Require Import Prelude Utils Bitmap Serializer Tags Header Layout HeaderCodec Payload RpmFile Dump.
From stdpp Require Import pretty.
#[local] Open Scope Z_scope.

(** ** Padding *)

Definition ascii_text (s : list Z) : Prop := Forall (fun b => 0 <= b < 128) s.

Lemma ascii_text_app s t : ascii_text (s ++ t) <-> ascii_text s /\ ascii_text t.
Proof. apply Forall_app. Qed.

Lemma rune_size_ascii a s : 0 <= a < 128 -> rune_size (a :: s) = 1%nat.
Proof.
  intros Ha. unfold rune_size.
  assert (forall lo hi, 128 <= lo -> byte_between lo hi ((a :: s) !! 0%nat) = false) as Hlow.
  { intros lo hi Hlo. simpl. destruct (Z.leb_spec lo a); [lia|done]. }
  by rewrite !Hlow by lia.
Qed.

Lemma RuneCountInString_ascii s : ascii_text s -> RuneCountInString s = length s.
Proof.
  unfold RuneCountInString. induction s as [|a s IH]; intros Hs; [done|].
  apply Forall_cons in Hs as [Ha Hs]. simpl. rewrite rune_size_ascii by done. simpl. by rewrite drop_0, IH.
Qed.

Lemma Repeat_byte b n : Repeat [b] n = replicate n b.
Proof. unfold Repeat. induction n as [|n IH]; simpl; [done|]. by rewrite <- IH. Qed.

(** A cell of [n] bytes with [s] at its left, and one with [s] in its middle. *)
Definition spaces (n : nat) : list Z := replicate n 32.

Definition justified (n : nat) (s : list Z) : list Z := s ++ spaces (n - length s).

Definition centered (n : nat) (s : list Z) : list Z :=
  let free := (n - length s)%nat in spaces (free / 2) ++ s ++ spaces (free - free / 2).

Lemma RightPad_justified n s : ascii_text s -> RightPad s space n = justified n s.
Proof.
  intros Hs. unfold RightPad, justified, spaces. rewrite RuneCountInString_ascii by done.
  destruct (Nat.leb_spec n (length s)).
  - replace (n - length s)%nat with 0%nat by lia. by rewrite app_nil_r.
  - change space with [32]. by rewrite Repeat_byte.
Qed.

Lemma CenterPad_centered n s : ascii_text s -> CenterPad s space n = centered n s.
Proof.
  intros Hs. unfold CenterPad, centered, spaces. rewrite RuneCountInString_ascii by done. cbv zeta.
  destruct (Nat.leb_spec n (length s)).
  - replace (n - length s)%nat with 0%nat by lia. simpl. by rewrite app_nil_r.
  - change space with [32]. by rewrite !Repeat_byte.
Qed.

Lemma length_justified n s : (length s <= n)%nat -> length (justified n s) = n.
Proof. intros Hn. unfold justified, spaces. rewrite length_app, length_replicate. lia. Qed.

Lemma length_centered n s : (length s <= n)%nat -> length (centered n s) = n.
Proof.
  intros Hn. unfold centered, spaces. cbv zeta. rewrite !length_app, !length_replicate.
  pose proof (Nat.Div0.div_le_upper_bound (n - length s) 2 (n - length s)). lia.
Qed.

Lemma centered_ascii n s : ascii_text s -> ascii_text (centered n s).
Proof.
  intros Hs. unfold centered, spaces, ascii_text. cbv zeta. rewrite !Forall_app.
  split; [by apply Forall_replicate|]. split; [done|by apply Forall_replicate].
Qed.

(** What fills its cell stays as it is. *)
Lemma justified_full n s : length s = n -> justified n s = s.
Proof. intros <-. unfold justified. by rewrite Nat.sub_diag, app_nil_r. Qed.

Lemma centered_full n s : length s = n -> centered n s = s.
Proof. intros <-. unfold centered. rewrite Nat.sub_diag. simpl. by rewrite app_nil_r. Qed.

(** The cells of a row. *)
Definition row_cells (widths : list nat) (row : list (list Z)) : list (list Z) :=
  match widths, row with
  | n :: widths, c :: row => justified n c :: zip_with centered widths row
  | _, _ => []
  end.

Lemma applyPadding_cells widths row : Forall ascii_text row -> applyPadding widths row = row_cells widths row.
Proof.
  assert (forall i ws cs, Forall ascii_text cs ->
    imap (fun colIdx p => if (S i + colIdx =? 0)%nat then RightPad p.1 space p.2 else CenterPad p.1 space p.2) (zip cs ws) =
    zip_with centered ws cs) as Hrest.
  { intros i ws cs Hcs. revert i ws. induction Hcs as [|c cs Hc _ IH]; intros i [|n ws]; try done. simpl.
    rewrite CenterPad_centered by done. f_equal. rewrite <- (IH (S i)). apply imap_ext. by intros j p _. }
  unfold applyPadding. intros Ha. destruct row as [|c row], widths as [|n widths]; try done.
  apply Forall_cons in Ha as [Hc Ha]. simpl. rewrite RightPad_justified by done. f_equal.
  rewrite <- (Hrest 0%nat) by done. by apply imap_ext.
Qed.

(** ** Widths *)

Abbreviation fits := (Forall2 (fun (c : list Z) (n : nat) => length c <= n)%nat).

Definition widen (w : list nat) (row : list (list Z)) : list nat :=
  zip_with (fun n c => Nat.max n (length c)) w row.

Lemma updateMaxWidths_run row : forall w1 w2, length w2 = length row ->
  updateMaxWidths (length w1) row (w1 ++ w2) = Ok (w1 ++ widen w2 row).
Proof.
  induction row as [|c row IH]; intros w1 w2 Hl.
  - by destruct w2.
  - destruct w2 as [|n w2]; [done|]. simpl in Hl. cbn [updateMaxWidths].
    rewrite list_lookup_middle by done.
    assert ((if (n <? length c)%nat then <[length w1 := length c]> (w1 ++ n :: w2) else w1 ++ n :: w2) =
            (w1 ++ [Nat.max n (length c)]) ++ w2) as ->.
    { rewrite <- app_assoc. destruct (Nat.ltb_spec n (length c)).
      - rewrite Nat.max_r by lia. by rewrite (insert_app_r_alt w1 _ (length w1)), Nat.sub_diag by lia.
      - by rewrite Nat.max_l by lia. }
    specialize (IH (w1 ++ [Nat.max n (length c)]) w2). rewrite length_app, Nat.add_1_r in IH.
    rewrite IH by lia. by rewrite <- app_assoc.
Qed.

Lemma updateMaxWidths_ok row w : length w = length row -> updateMaxWidths 0 row w = Ok (widen w row).
Proof. exact (updateMaxWidths_run row [] w). Qed.

Lemma length_widen w row : length w = length row -> length (widen w row) = length w.
Proof. intros E. unfold widen. rewrite length_zip_with. lia. Qed.

Lemma updateAllWidths_ok rows : forall w, Forall (fun row => length row = length w) rows ->
  updateAllWidths rows w = Ok (foldl widen w rows).
Proof.
  induction rows as [|row rows IH]; intros w Hr; [done|]. apply Forall_cons in Hr as [Hl Hr].
  simpl. rewrite updateMaxWidths_ok by done. cbn. apply IH.
  eapply Forall_impl; [exact Hr|]. intros r E. by rewrite length_widen.
Qed.

Lemma widen_fits w row : length w = length row -> fits row (widen w row).
Proof.
  intros E. unfold widen. apply Forall2_same_length_lookup_2; [by rewrite length_zip_with; lia|].
  intros i c n Hc Hn. apply lookup_zip_with_Some in Hn as (m & c' & -> & _ & Hc'). simplify_eq. lia.
Qed.

Lemma fits_widen (r : list (list Z)) w row : length w = length row -> fits r w -> fits r (widen w row).
Proof.
  intros E Hf. unfold widen. pose proof (Forall2_length _ _ _ Hf) as El.
  apply Forall2_same_length_lookup_2; [by rewrite length_zip_with; lia|].
  intros i c n Hc Hn. apply lookup_zip_with_Some in Hn as (m & c' & -> & Hm & _).
  pose proof (Forall2_lookup_lr _ _ _ _ _ _ Hf Hc Hm). simpl in *. lia.
Qed.

Lemma widen_all rows : forall w (P : list (list Z) -> Prop),
  Forall (fun row => length row = length w) rows -> (forall r, P r -> fits r w) ->
  length (foldl widen w rows) = length w /\
  forall r, P r \/ r ∈ rows -> fits r (foldl widen w rows).
Proof.
  induction rows as [|row rows IH]; intros w P Hr HP; simpl.
  - split; [done|]. by intros r [?%HP|?%elem_of_nil].
  - apply Forall_cons in Hr as [Hl Hr].
    destruct (IH (widen w row) (fun r => P r \/ r = row)) as [E Hf].
    + eapply Forall_impl; [exact Hr|]. intros r Er. by rewrite length_widen.
    + intros r [Hp| ->]; [apply fits_widen; auto|by apply widen_fits].
    + split; [by rewrite E, length_widen|]. intros r [Hp|[->|Hin]%elem_of_cons]; apply Hf; auto.
Qed.

(** No column is wider than its widest cell. *)
Lemma widen_bound rows i b : forall w,
  (forall n, w !! i = Some n -> n <= b)%nat ->
  (forall row c, row ∈ rows -> row !! i = Some c -> length c <= b)%nat ->
  forall n, foldl widen w rows !! i = Some n -> (n <= b)%nat.
Proof.
  induction rows as [|row rows IH]; intros w Hw Hr n; simpl; [apply Hw|]. apply IH.
  - intros m (k & c & -> & Hk & Hc)%lookup_zip_with_Some.
    pose proof (Hw _ Hk). pose proof (Hr row c (list_elem_of_here _ _) Hc). simpl. lia.
  - intros r c Hin. apply Hr. by apply list_elem_of_further.
Qed.

(** Every column is as wide as one of its cells. *)
Lemma widen_attained rows i : forall w n, foldl widen w rows !! i = Some n ->
  w !! i = Some n \/ exists row c, row ∈ rows /\ row !! i = Some c /\ length c = n.
Proof.
  induction rows as [|row rows IH]; intros w n; simpl; [by left|].
  intros [Hn|(r & c & Hr & Hc & Hl)]%IH; [|right; exists r, c; split; [by apply list_elem_of_further|done]].
  apply lookup_zip_with_Some in Hn as (m & c & -> & Hm & Hc).
  destruct (Nat.max_spec m (length c)) as [[_ ->]|[_ ->]]; [right|by left].
  exists row, c. split; [apply list_elem_of_here|done].
Qed.

(** ** Lines *)

Lemma join_cons sep (l : list Z) ls : ls <> [] -> Payload.join sep (l :: ls) = l ++ sep ++ Payload.join sep ls.
Proof. by destruct ls. Qed.

Lemma join_app sep (ls ks : list (list Z)) : ls <> [] -> ks <> [] ->
  Payload.join sep (ls ++ ks) = Payload.join sep ls ++ sep ++ Payload.join sep ks.
Proof.
  intros Hl Hk. induction ls as [|l ls IH]; [done|]. destruct ls as [|l' ls].
  - simpl. by destruct ks.
  - change ((l :: l' :: ls) ++ ks) with (l :: ((l' :: ls) ++ ks)).
    rewrite !join_cons, IH by done. by rewrite <- !app_assoc.
Qed.

Lemma length_join_cells c (cells : list (list Z)) :
  cells <> [] -> S (length (Payload.join [c] cells)) = (sum_list (length <$> cells) + length cells)%nat.
Proof.
  induction cells as [|l cells IH]; [done|]. intros _. destruct cells as [|l' cells]; [simpl; lia|].
  rewrite join_cons, !length_app by done. simpl length at 2. specialize (IH ltac:(done)).
  rewrite fmap_cons. simpl sum_list at 1. simpl length at 3. simpl in *. lia.
Qed.

(** The lines of a table of these widths. *)
Definition line_width (widths : list nat) : nat := sum_list widths + length widths + 1.

Lemma length_line (pre sep suf : Z) (cells : list (list Z)) :
  cells <> [] -> length ([pre] ++ Payload.join [sep] cells ++ [suf]) = line_width (length <$> cells).
Proof.
  intros Hne. pose proof (length_join_cells sep cells Hne). unfold line_width.
  rewrite !length_app, length_fmap. simpl. lia.
Qed.

(** Cells between bars; a rule is a line of dashes. *)
Definition bars (sep : Z) (cells : list (list Z)) : list Z := [sep] ++ Payload.join [sep] cells ++ [sep].

Definition rule (sep : Z) (widths : list nat) : list Z := bars sep ((fun n => replicate n 45) <$> widths).

(** The titles, and the lines for one row. *)
Definition title (widths : list nat) : list Z := bars 124 (zip_with centered widths columnNames).

Definition row_lines (widths : list nat) (printCompact : bool) (row : list (list Z)) : list (list Z) :=
  bars 124 (row_cells widths row) :: (if printCompact then [] else [rule 43 widths]).

Lemma separatorLine_rule sep widths : separatorLine widths [sep] (str "-") [sep] [sep] = rule sep widths.
Proof.
  unfold separatorLine, rule, bars. do 3 f_equal. apply list_fmap_ext. intros i n _. change (str "-") with [45]. apply Repeat_byte.
Qed.

Lemma dump_lines_of_join widths printCompact rows : Forall (Forall ascii_text) rows ->
  dump_lines_of widths printCompact rows = Payload.join [10] (rows ≫= row_lines widths printCompact).
Proof.
  induction 1 as [|row rows Ha _ IH]; [done|]. cbn [dump_lines_of mbind list_bind].
  change (list_bind _ _ _ rows) with (rows ≫= row_lines widths printCompact).
  assert (row_line (applyPadding widths row) ++
    (if negb printCompact then [10] ++ separatorLine widths (str "+") (str "-") (str "+") (str "+") else []) =
    Payload.join [10] (row_lines widths printCompact row)) as E.
  { change (str "+") with [43]. unfold row_lines. rewrite separatorLine_rule, applyPadding_cells by done.
    destruct printCompact; [apply app_nil_r|reflexivity]. }
  rewrite app_assoc, E, IH. destruct rows as [|row' rows]; [by rewrite !app_nil_r|]. rewrite join_app by done. done.
Qed.

(** ** Rows *)

Definition is_ascii (s : list Z) : bool := forallb (fun b => (0 <=? b) && (b <? 128)) s.

Lemma is_ascii_ok s : is_ascii s = true -> ascii_text s.
Proof.
  intros Hs. apply forallb_Forall in Hs. eapply Forall_impl; [exact Hs|]. intros b [? ?]%andb_true_iff. lia.
Qed.

Lemma pretty_N_go_ascii x : forall s, ascii_text (str s) -> ascii_text (str (pretty_N_go x s)).
Proof.
  induction (N.lt_wf_0 x) as [x _ IH]. intros s Hs.
  destruct (decide (0 < x)%N) as [Hx|Hx]; [|by assert (x = 0%N) as -> by lia].
  rewrite pretty_N_go_step by done. apply IH; [apply N.div_lt; lia|].
  apply Forall_cons. split; [|exact Hs]. unfold pretty_N_char. by repeat case_match.
Qed.

Lemma decimal_ascii x : ascii_text (decimal x).
Proof.
  assert (forall p : positive, ascii_text (str (pretty (N.pos p)))) as HN.
  { intros p. unfold pretty, pretty_N. case_decide; [done|]. by apply pretty_N_go_ascii, Forall_nil. }
  unfold decimal. destruct x as [|p|p]; [by apply is_ascii_ok|apply HN|].
  unfold pretty, pretty_Z. rewrite str_app. apply ascii_text_app. split; [by apply is_ascii_ok|apply HN].
Qed.

Lemma hex_padded_ascii n x : ascii_text (str (hex_padded n x)).
Proof.
  revert x. induction n as [|n IH]; intros x; [apply Forall_nil; done|]. simpl. rewrite str_app.
  apply ascii_text_app. split; [apply IH|]. unfold hex_digit.
  destruct (String.get _ _) as [c|] eqn:E; [|by apply Forall_nil].
  assert (forall i d, String.get i "0123456789abcdef" = Some d -> ascii_text (str (String d ""))) as Hget; [|by eapply Hget].
  intros i d. do 16 (destruct i as [|i]; [intros [= <-]; by apply is_ascii_ok|]). by destruct i.
Qed.

Lemma unknownLabel_ascii id : ascii_text (str (unknownLabel id)).
Proof.
  unfold unknownLabel. rewrite !str_app, !ascii_text_app.
  repeat split; try (by apply is_ascii_ok); [apply (decimal_ascii id)|apply hex_padded_ascii].
Qed.

Lemma format_label_ascii f : ascii_text (str (GetFormatTypeLabel f)).
Proof.
  unfold GetFormatTypeLabel. case_match.
  - rewrite str_app, ascii_text_app. split; [by apply is_ascii_ok|apply (decimal_ascii f)].
  - destruct (formatStrings !! Z.to_nat f) as [l|] eqn:E; [|by apply is_ascii_ok].
    assert (Forall (fun l => is_ascii (str l) = true) formatStrings) as Hall by by repeat constructor.
    apply is_ascii_ok. exact (Forall_lookup_1 _ _ _ _ Hall E).
Qed.

Lemma main_labels_ascii : forallb (fun t => is_ascii (str (main_label t))) allMainTags = true.
Proof. vm_compute. reflexivity. Qed.
Lemma sig_labels_ascii : forallb (fun t => is_ascii (str (sig_label t))) allSignatureTags = true.
Proof. vm_compute. reflexivity. Qed.

(** The registries lookups lead to. *)
Definition reachable_registries (rs : registries) : Prop := reachable_tags rs.1 /\ reachable_sig_tags rs.2.

#[local] Opaque tagsById signatureTagsByID allMainTags allSignatureTags.

Lemma tagsById_in id t : tagsById !! id = Some t -> t ∈ allMainTags.
Proof.
  intros Ht. destruct (decide (id ∈ main_id <$> allMainTags)) as [Hin|Hin].
  - apply list_elem_of_fmap in Hin as (t' & -> & Hin). rewrite tagsById_declared in Ht by done. by injection Ht as <-.
  - assert (tagsById !! id = None) as Hn; [|by rewrite Hn in Ht].
    exact (eq_trans (insert_all_other main_id allMainTags ∅ id Hin) (lookup_empty id)).
Qed.

Lemma signatureTagsByID_in id t : signatureTagsByID !! id = Some t -> t ∈ allSignatureTags.
Proof.
  intros Ht. destruct (decide (id ∈ sig_id <$> allSignatureTags)) as [Hin|Hin].
  - apply list_elem_of_fmap in Hin as (t' & -> & Hin). rewrite signatureTagsByID_declared in Ht by done. by injection Ht as <-.
  - assert (signatureTagsByID !! id = None) as Hn; [|by rewrite Hn in Ht].
    exact (eq_trans (insert_all_other sig_id allSignatureTags ∅ id Hin) (lookup_empty id)).
Qed.

Lemma declared_ascii {T} (label : T -> string) (l : list T) t :
  forallb (fun t => is_ascii (str (label t))) l = true -> t ∈ l -> ascii_text (str (label t)).
Proof.
  intros Hl Ht. apply forallb_Forall in Hl. rewrite Forall_forall in Hl. by apply is_ascii_ok, Hl.
Qed.

(** The name of a tag: its label if it is declared, else one made up of its number. *)
Definition tag_name (e : IndexEntry) : string :=
  if ie_isMainHeaderEntry e
  then default (unknownLabel (ie_tag e)) (main_label <$> tagsById !! ie_tag e)
  else default (unknownLabel (ie_tag e)) (sig_label <$> signatureTagsByID !! ie_tag e).

Lemma tag_name_ascii e : ascii_text (str (tag_name e)).
Proof.
  unfold tag_name. destruct (ie_isMainHeaderEntry e).
  - destruct (tagsById !! ie_tag e) as [t|] eqn:Et; [|apply unknownLabel_ascii].
    apply (declared_ascii _ _ _ main_labels_ascii), (tagsById_in _ t Et).
  - destruct (signatureTagsByID !! ie_tag e) as [t|] eqn:Et; [|apply unknownLabel_ascii].
    apply (declared_ascii _ _ _ sig_labels_ascii), (signatureTagsByID_in _ t Et).
Qed.

Lemma Tag_run e rs : reachable_registries rs ->
  exists rs', Tag e rs = (Ok (ie_tag e, tag_name e), rs') /\ reachable_registries rs'.
Proof.
  destruct rs as [mains sigs]. intros [Hm Hs]. unfold Tag, tag_name. destruct (ie_isMainHeaderEntry e).
  - pose proof (reachable_lookup (ie_tag e) mains Hm) as Hr. pose proof (reachable_tags_spec mains (ie_tag e) Hm) as Hspec.
    pose proof (tagsById_id (ie_tag e)) as Hid. unfold LookupMainTag in *.
    destruct Hspec as [E | [Hno E]]; rewrite E in *; [|exists (mains, sigs); by rewrite Hno].
    destruct (tagsById !! ie_tag e) as [t|].
    + eexists (_, _). split; [|by split]. simpl. by rewrite <- (Hid t eq_refl).
    + eexists (_, _). split; [reflexivity|by split].
  - pose proof (reachable_sig_lookup (ie_tag e) sigs Hs) as Hr. pose proof (reachable_sig_tags_spec sigs (ie_tag e) Hs) as Hspec.
    pose proof (signatureTagsByID_id (ie_tag e)) as Hid. unfold LookupSignatureTag in *.
    destruct Hspec as [E | [Hno E]]; rewrite E in *; [|exists (mains, sigs); by rewrite Hno].
    destruct (signatureTagsByID !! ie_tag e) as [t|].
    + eexists (_, _). split; [|by split]. simpl. by rewrite <- (Hid t eq_refl).
    + eexists (_, _). split; [reflexivity|by split].
Qed.

(** An entry that prints as ASCII text. *)
Definition printable (e : IndexEntry) (value : list Z) : Prop := PayloadAsPrettyString e = Ok value /\ ascii_text value.

(** The row of an entry, with the value cut to the length asked for. *)
Definition row_of (trunc : nat) (e : IndexEntry) (value : list Z) : list (list Z) :=
  [str (tag_name e); decimal (ie_tag e); str (GetFormatTypeLabel (ie_formatType e)); decimal (ie_dataItemCnt e);
   decimal (ie_offset e); decimal ((ie_offset e + Zlen (ie_payload e)) mod 2 ^ 32); decimal (Zlen (ie_payload e));
   if (length value <=? trunc)%nat then value else take trunc value ++ str "..."].

Definition row_ok (trunc : nat) (e : IndexEntry) (row : list (list Z)) : Prop :=
  exists value, PayloadAsPrettyString e = Ok value /\ row = row_of trunc e value.

Lemma truncated_ascii trunc s : ascii_text s -> ascii_text (truncated trunc s).
Proof.
  intros Hs. unfold truncated. case_match; [|done]. apply ascii_text_app.
  split; [by apply Forall_take|by apply is_ascii_ok].
Qed.

Lemma truncated_leb trunc s :
  truncated trunc s = if (length s <=? trunc)%nat then s else take trunc s ++ str "...".
Proof. unfold truncated. by destruct (Nat.ltb_spec trunc (length s)), (Nat.leb_spec (length s) trunc); try lia. Qed.

Lemma length_truncated trunc s : (length (truncated trunc s) <= trunc + 3)%nat.
Proof.
  unfold truncated. destruct (Nat.ltb_spec trunc (length s)); [|lia].
  rewrite length_app, length_take. simpl. lia.
Qed.

Lemma row_of_ascii trunc e value : ascii_text value -> Forall ascii_text (row_of trunc e value).
Proof.
  intros Ha. unfold row_of. rewrite <- truncated_leb.
  repeat (apply Forall_cons; split); try apply decimal_ascii; try apply Forall_nil; try done.
  - apply tag_name_ascii.
  - apply format_label_ascii.
  - by apply truncated_ascii.
Qed.

Lemma dump_row_run trunc e value rs :
  PayloadAsPrettyString e = Ok value -> reachable_registries rs ->
  exists rs', dump_row trunc e rs = (Ok (row_of trunc e value), rs') /\ reachable_registries rs'.
Proof.
  intros Hv Hr. destruct (Tag_run e rs Hr) as (rs' & Ht & Hr'). exists rs'. split; [|done].
  unfold dump_row. rewrite (M_bind_ok _ _ _ _ _ Ht), Hv. unfold row_of. rewrite <- truncated_leb.
  assert (u32 (ie_offset e + u32 (Zlen (ie_payload e))) = (ie_offset e + Zlen (ie_payload e)) mod 2 ^ 32) as <-; [|done].
  unfold u32, wrap. apply Zplus_mod_idemp_r.
Qed.

Lemma dump_rows_run trunc es : forall rs,
  Forall (fun e => exists value, printable e value) es -> reachable_registries rs ->
  exists rows rs', dump_rows trunc es rs = (Ok rows, rs') /\ reachable_registries rs' /\
    Forall2 (row_ok trunc) es rows /\ Forall (Forall ascii_text) rows.
Proof.
  induction es as [|e es IH]; intros rs He Hr; [by exists [], rs|]. apply Forall_cons in He as [(value & Hv & Ha) Hes].
  destruct (dump_row_run trunc e value rs Hv Hr) as (rs1 & Hrow & Hr1).
  destruct (IH rs1 Hes Hr1) as (rows & rs2 & Hrows & Hr2 & Hoks & Hascii).
  exists (row_of trunc e value :: rows), rs2. cbn [dump_rows].
  rewrite (M_bind_ok _ _ _ _ _ Hrow), (M_bind_ok _ _ _ _ _ Hrows). split; [done|]. split; [done|].
  split; constructor; try done; [by exists value|by apply row_of_ascii].
Qed.

(** ** The table *)

Lemma length_bars sep (cells : list (list Z)) widths :
  length <$> cells = widths -> widths <> [] -> length (bars sep cells) = line_width widths.
Proof. intros <- Hne. unfold bars. apply length_line. by intros ->. Qed.

Lemma length_rule sep widths : widths <> [] -> length (rule sep widths) = line_width widths.
Proof.
  intros Hne. apply length_bars; [|done]. rewrite <- list_fmap_compose. rewrite <- (list_fmap_id widths) at 2.
  apply list_fmap_ext. intros i n _. apply length_replicate.
Qed.

Lemma length_zip_centered row widths : fits row widths -> length <$> zip_with centered widths row = widths.
Proof. induction 1 as [|c n cs ns Hc _ IH]; [done|]. simpl. f_equal; [by apply length_centered|exact IH]. Qed.

Lemma row_lines_width widths compact row :
  fits row widths -> row <> [] -> Forall (fun l => length l = line_width widths) (row_lines widths compact row).
Proof.
  intros Hf Hne. destruct Hf as [|c n cs ns Hc Hf]; [done|]. unfold row_lines. apply Forall_cons. split.
  - apply length_bars; [|done]. simpl. f_equal; [by apply length_justified|by apply length_zip_centered].
  - destruct compact; [by constructor|]. apply Forall_cons. split; [by apply length_rule|by constructor].
Qed.

(** The widths of the columns. *)
Definition column_widths (rows : list (list (list Z))) : list nat :=
  foldl widen (widen (replicate 8 0%nat) columnNames) rows.

(** [n] is the length of the longest cell of column [i]. *)
Definition widest (table : list (list (list Z))) (i n : nat) : Prop :=
  (forall row c, row ∈ table -> row !! i = Some c -> (length c <= n)%nat) /\
  exists row c, row ∈ table /\ row !! i = Some c /\ length c = n.

Lemma column_widths_ok trunc es rows : Forall2 (row_ok trunc) es rows ->
  length (column_widths rows) = 8%nat /\ Forall (fun row => length row = 8%nat) rows /\
  (forall row, row ∈ columnNames :: rows -> fits row (column_widths rows)) /\
  (forall i n, column_widths rows !! i = Some n -> widest (columnNames :: rows) i n) /\
  forall n, column_widths rows !! 7%nat = Some n -> (n <= Nat.max 7 (trunc + 3))%nat.
Proof.
  intros Hok.
  assert (Forall (fun row => length row = 8%nat) rows) as H8.
  { apply Forall_forall. intros row (i & Hi)%list_elem_of_lookup.
    by destruct (Forall2_lookup_r _ _ _ _ _ Hok Hi) as (e & _ & value & _ & ->). }
  destruct (widen_all rows (widen (replicate 8 0%nat) columnNames) (fun r => r = columnNames) H8) as [Hl Hf].
  { intros r ->. by apply widen_fits. }
  assert (forall row, row ∈ columnNames :: rows -> fits row (column_widths rows)) as Hfits.
  { intros row [->|Hin]%elem_of_cons; apply Hf; [by left|by right]. }
  split; [exact Hl|]. split; [exact H8|]. split; [exact Hfits|]. split.
  - intros i n Hn. split.
    + intros row c Hin Hc. exact (Forall2_lookup_lr _ _ _ _ _ _ (Hfits row Hin) Hc Hn).
    + destruct (widen_attained rows i _ n Hn) as [H0|(row & c & Hin & Hc & Hlen)].
      * apply lookup_zip_with_Some in H0 as (m & c & -> & Hm & Hc). apply lookup_replicate in Hm as [-> _].
        exists columnNames, c. split; [apply list_elem_of_here|done].
      * exists row, c. split; [by apply list_elem_of_further|done].
  - unfold column_widths. apply widen_bound.
    + intros n Hn. assert (n = 7%nat) as -> by (vm_compute in Hn; congruence). lia.
    + intros row c (i & Hi)%list_elem_of_lookup Hc.
      destruct (Forall2_lookup_r _ _ _ _ _ Hok Hi) as (e & _ & value & _ & ->).
      injection Hc as <-. rewrite <- truncated_leb. pose proof (length_truncated trunc value). lia.
Qed.

Lemma columnNames_ascii : Forall ascii_text columnNames.
Proof. by apply (Forall_impl (fun s => is_ascii s = true)); [apply forallb_Forall|apply is_ascii_ok]. Qed.

(** Centering a name again, or moving it to the left, changes nothing. *)
Lemma title_line widths : fits columnNames widths ->
  row_line (applyPadding widths (zip_with (fun c w => CenterPad c space w) columnNames widths)) = title widths.
Proof.
  intros Hf. pose proof columnNames_ascii as Ha.
  assert (zip_with (fun c w => CenterPad c space w) columnNames widths = zip_with centered widths columnNames) as ->.
  { revert Ha. induction Hf as [|c n cs ns _ _ IH]; [done|]. intros [Hc Ha]%Forall_cons. simpl.
    by rewrite CenterPad_centered, IH. }
  rewrite applyPadding_cells.
  - unfold title, row_line, bars. do 3 f_equal. destruct Hf as [|c n cs ns Hc Hf]; [done|].
    simpl. f_equal; [by apply justified_full, length_centered|].
    clear Ha Hc. induction Hf as [|c' n' cs ns Hc _ IH]; [done|]. simpl. f_equal; [by apply centered_full, length_centered|exact IH].
  - revert Ha. induction Hf as [|c n cs ns _ _ IH]; [done|]. intros [Hc Ha]%Forall_cons. simpl.
    constructor; [by apply centered_ascii|by apply IH].
Qed.

Lemma table_text (border title : list Z) ls : ls <> [] ->
  Payload.join [10] (border :: title :: border :: ls) =
    border ++ [10] ++ title ++ [10] ++ border ++ [10] ++ Payload.join [10] ls.
Proof. intros Hne. by rewrite !join_cons. Qed.

(** C24. For a header whose values print as ASCII text [DumpIndexEntries] prints a
    table of eight columns: a border, the titles, a border, and for every entry, in order,
    a line, followed by a rule unless the table is compact. The cells of an entry are
    exactly the name of its tag, its number, format, item count, start and end offset,
    length, and its value, cut behind [trunc] bytes. Every column is as wide as the longest
    of its title and its cells; in every line the first cell is moved to the left and the
    others to the middle, the titles all to the middle, and a bar is between cells
    and at both ends. So all lines have the same length, and the last column is at most
    three characters wider than [trunc]. A header without entries makes it panic. *)
Theorem DumpIndexEntries_table trunc compact h rs :
  (entries h = [] -> (DumpIndexEntries trunc compact h rs).1 = Panic "runtime error: index out of range") /\
  (entries h <> [] -> Forall (fun e => exists value, printable e value) (entries h) -> reachable_registries rs ->
   exists rows widths,
     Forall2 (row_ok trunc) (entries h) rows /\
     length widths = 8%nat /\ (forall i n, widths !! i = Some n -> widest (columnNames :: rows) i n) /\
     let lines := rule 124 widths :: title widths :: rule 124 widths :: (rows ≫= row_lines widths compact) in
     (DumpIndexEntries trunc compact h rs).1 = Ok (Payload.join [10] lines) /\
     Forall (fun l => length l = (sum_list widths + 9)%nat) lines /\
     forall n, widths !! 7%nat = Some n -> (n <= Nat.max 7 (trunc + 3))%nat).
Proof.
  split; [intros He; unfold DumpIndexEntries; by rewrite He|]. intros Hne He Hrs.
  destruct (dump_rows_run trunc (entries h) rs He Hrs) as (rows & rs' & Hrows & _ & Hok & Hascii).
  assert (rows <> []) as Hr0 by (intros ->; by apply Forall2_nil_inv_r in Hok).
  destruct (column_widths_ok _ _ _ Hok) as (H8 & Hall & Hfit & Hwidest & Hlast).
  set (widths := column_widths rows) in *.
  assert (widths <> []) as Hw by by intros E; rewrite E in H8.
  exists rows, widths. split; [exact Hok|]. split; [exact H8|]. split; [exact Hwidest|]. cbv zeta.
  pose proof (Hfit columnNames (list_elem_of_here _ _)) as Htitles. split; [|split; [|exact Hlast]].
  - unfold DumpIndexEntries. rewrite (M_bind_ok _ _ _ _ _ Hrows).
    assert (match rows with row :: _ => length row | [] => 0%nat end = 8%nat) as ->.
    { destruct rows as [|row rows]; [done|]. by apply Forall_cons in Hall as [-> _]. }
    unfold lift, mbind, M_bind. rewrite updateMaxWidths_ok by done. rewrite updateAllWidths_ok by exact Hall.
    change (foldl widen (widen (replicate 8 0%nat) columnNames) rows) with widths.
    cbn [fst mret M_ret]. f_equal. rewrite table_text by by destruct rows. rewrite <- dump_lines_of_join by done.
    rewrite <- (title_line widths) by done. change (str "|") with [124]. rewrite separatorLine_rule.
    unfold row_line. change (str "|") with [124]. rewrite <- !app_assoc. by destruct rows.
  - assert (line_width widths = (sum_list widths + 9)%nat) as <- by (unfold line_width; lia).
    pose proof (length_rule 124 widths Hw) as Hrule.
    repeat (apply Forall_cons; split); [done|apply length_bars; [by apply length_zip_centered|done]|done|].
    apply Forall_forall. intros l (row & Hl & Hin)%list_elem_of_bind.
    assert (fits row widths) as Hf by by apply Hfit, list_elem_of_further.
    assert (row <> []) as Hr1 by (rewrite Forall_forall in Hall; intros E; specialize (Hall row Hin); by rewrite E in Hall).
    pose proof (row_lines_width widths compact row Hf Hr1) as Hlen. rewrite Forall_forall in Hlen. by apply Hlen.
Qed.

(** A header with two entries, printed. *)
Definition sample_dump_header : RpmHeader :=
  mkHeader [] 1 [] 2 0 true
    (mkSlice [mkEntry true 1000 6 0 1 (str "bash" ++ [0]); mkEntry true 1009 4 8 1 [0; 0; 4; 210]] 2 0) 0 0 0 None [] [] [].

Lemma DumpIndexEntries_table_witness :
  exists rows widths, Forall2 (row_ok 25) (entries sample_dump_header) rows /\
    (DumpIndexEntries 25 true sample_dump_header (tagsById, signatureTagsByID)).1 =
      Ok (Payload.join [10] (rule 124 widths :: title widths :: rule 124 widths :: (rows ≫= row_lines widths true))).
Proof.
  destruct (proj2 (DumpIndexEntries_table 25 true sample_dump_header (tagsById, signatureTagsByID)))
    as (rows & widths & Hok & _ & _ & Ht & _).
  - discriminate.
  - apply Forall_cons. split; [exists (str "bash"); split; [reflexivity|by apply is_ascii_ok]|].
    apply Forall_cons. split; [exists (str "1234"); split; [reflexivity|by apply is_ascii_ok]|]. by apply Forall_nil.
  - split; constructor.
  - exists rows, widths. split; [exact Hok|exact Ht].
Defined.
