(* ===== verification/Log.v ===== *)
(** The logger of [src/common/log.go]: what it has written, line by line, and its
    level. *)
From S2P Require Import Prelude Utils Serializer Header HeaderCodec Payload RpmFile Dump.
#[local] Open Scope Z_scope.

Definition LOG_LEVEL_TRACE : Z := 5.
Definition LOG_LEVEL_DEBUG : Z := 4.
Definition LOG_LEVEL_INFO : Z := 3.
Definition LOG_LEVEL_WARN : Z := 2.
Definition LOG_LEVEL_ERROR : Z := 1.
Definition LOG_LEVEL_NONE : Z := 0.

Record LogImpl := mkLog { output : list Z; currentLogLevel : Z }.

Definition rootLogger : LogImpl := mkLog [] LOG_LEVEL_INFO.

Definition SetCurrentLogLevel (level : Z) (l : LogImpl) : LogImpl := mkLog (output l) level.

Definition log (message : list Z) (l : LogImpl) : LogImpl := mkLog (output l ++ message ++ [10]) (currentLogLevel l).

Definition Error (message : list Z) (l : LogImpl) : LogImpl :=
  if LOG_LEVEL_ERROR <=? currentLogLevel l then log message l else l.
Definition Errorf (format : list Z) (args : list Arg) (l : LogImpl) : LogImpl :=
  if LOG_LEVEL_ERROR <=? currentLogLevel l then log (Sprintf format args) l else l.
Definition Debug_ (message : list Z) (l : LogImpl) : LogImpl :=
  if LOG_LEVEL_DEBUG <=? currentLogLevel l then log message l else l.
Definition Debugf (format : list Z) (args : list Arg) (l : LogImpl) : LogImpl :=
  if LOG_LEVEL_DEBUG <=? currentLogLevel l then log (Sprintf format args) l else l.
Definition Info_ (message : list Z) (l : LogImpl) : LogImpl :=
  if LOG_LEVEL_INFO <=? currentLogLevel l then log message l else l.
Definition Infof (format : list Z) (args : list Arg) (l : LogImpl) : LogImpl :=
  if LOG_LEVEL_INFO <=? currentLogLevel l then log (Sprintf format args) l else l.
