(* ===== verification/Client.v ===== *)
(** The command line client ([main] of [src/client/client.go]): its options, and what
    it does with them. A program that returns exits with status 0, an error is a
    message on standard error and status 1. *)
From S2P Require Import Prelude Utils Serializer Tags Header HeaderCodec Payload RpmFile Signing Files Keys Http Server Remote Config Log Dump.
From Stdlib Require Import Ascii.
#[local] Open Scope Z_scope.

(** ** Options *)

Definition SIGNING_MODE_NOT_SET : Z := 0.
Definition SIGNING_MODE_RPM : Z := 1.
Definition SIGNING_MODE_GENERIC : Z := 2.

(** The variables of [main] that the options set. [debugLogging] stands for the level
    of the root logger. *)
Record Options := mkOptions {
  privateKeyFilename : string;
  privateKeyPassphrase : option (list Z);
  gpgPublicFiles : list string;
  signServerUrl : string;
  signServerToken : string;
  overwriteDestinationFile : bool;
  destinationFileName : string;
  verifySignatures : bool;
  printInfo : bool;
  dumpSignatureHeader : bool;
  dumpMainHeader : bool;
  verboseOutput : bool;
  signingMode : Z;
  debugLogging : bool;
  seenOpts : gset string;
  remainingArgs : list string;
}.

Definition no_options : Options :=
  mkOptions "" None [] "" "" false "" false false false false false SIGNING_MODE_NOT_SET false ∅ [].

Definition set_privateKeyFilename (v : string) (o : Options) : Options :=
  mkOptions v (privateKeyPassphrase o) (gpgPublicFiles o) (signServerUrl o) (signServerToken o)
    (overwriteDestinationFile o) (destinationFileName o) (verifySignatures o) (printInfo o)
    (dumpSignatureHeader o) (dumpMainHeader o) (verboseOutput o) (signingMode o) (debugLogging o) (seenOpts o)
    (remainingArgs o).
Definition set_privateKeyPassphrase (v : option (list Z)) (o : Options) : Options :=
  mkOptions (privateKeyFilename o) v (gpgPublicFiles o) (signServerUrl o) (signServerToken o)
    (overwriteDestinationFile o) (destinationFileName o) (verifySignatures o) (printInfo o)
    (dumpSignatureHeader o) (dumpMainHeader o) (verboseOutput o) (signingMode o) (debugLogging o) (seenOpts o)
    (remainingArgs o).
Definition set_gpgPublicFiles (v : list string) (o : Options) : Options :=
  mkOptions (privateKeyFilename o) (privateKeyPassphrase o) v (signServerUrl o) (signServerToken o)
    (overwriteDestinationFile o) (destinationFileName o) (verifySignatures o) (printInfo o)
    (dumpSignatureHeader o) (dumpMainHeader o) (verboseOutput o) (signingMode o) (debugLogging o) (seenOpts o)
    (remainingArgs o).
Definition set_signServerUrl (v : string) (o : Options) : Options :=
  mkOptions (privateKeyFilename o) (privateKeyPassphrase o) (gpgPublicFiles o) v (signServerToken o)
    (overwriteDestinationFile o) (destinationFileName o) (verifySignatures o) (printInfo o)
    (dumpSignatureHeader o) (dumpMainHeader o) (verboseOutput o) (signingMode o) (debugLogging o) (seenOpts o)
    (remainingArgs o).
Definition set_signServerToken (v : string) (o : Options) : Options :=
  mkOptions (privateKeyFilename o) (privateKeyPassphrase o) (gpgPublicFiles o) (signServerUrl o) v
    (overwriteDestinationFile o) (destinationFileName o) (verifySignatures o) (printInfo o)
    (dumpSignatureHeader o) (dumpMainHeader o) (verboseOutput o) (signingMode o) (debugLogging o) (seenOpts o)
    (remainingArgs o).
Definition set_overwriteDestinationFile (v : bool) (o : Options) : Options :=
  mkOptions (privateKeyFilename o) (privateKeyPassphrase o) (gpgPublicFiles o) (signServerUrl o)
    (signServerToken o) v (destinationFileName o) (verifySignatures o) (printInfo o) (dumpSignatureHeader o)
    (dumpMainHeader o) (verboseOutput o) (signingMode o) (debugLogging o) (seenOpts o) (remainingArgs o).
Definition set_destinationFileName (v : string) (o : Options) : Options :=
  mkOptions (privateKeyFilename o) (privateKeyPassphrase o) (gpgPublicFiles o) (signServerUrl o)
    (signServerToken o) (overwriteDestinationFile o) v (verifySignatures o) (printInfo o)
    (dumpSignatureHeader o) (dumpMainHeader o) (verboseOutput o) (signingMode o) (debugLogging o) (seenOpts o)
    (remainingArgs o).
Definition set_verifySignatures (v : bool) (o : Options) : Options :=
  mkOptions (privateKeyFilename o) (privateKeyPassphrase o) (gpgPublicFiles o) (signServerUrl o)
    (signServerToken o) (overwriteDestinationFile o) (destinationFileName o) v (printInfo o)
    (dumpSignatureHeader o) (dumpMainHeader o) (verboseOutput o) (signingMode o) (debugLogging o) (seenOpts o)
    (remainingArgs o).
Definition set_printInfo (v : bool) (o : Options) : Options :=
  mkOptions (privateKeyFilename o) (privateKeyPassphrase o) (gpgPublicFiles o) (signServerUrl o)
    (signServerToken o) (overwriteDestinationFile o) (destinationFileName o) (verifySignatures o) v
    (dumpSignatureHeader o) (dumpMainHeader o) (verboseOutput o) (signingMode o) (debugLogging o) (seenOpts o)
    (remainingArgs o).
Definition set_dumpSignatureHeader (v : bool) (o : Options) : Options :=
  mkOptions (privateKeyFilename o) (privateKeyPassphrase o) (gpgPublicFiles o) (signServerUrl o)
    (signServerToken o) (overwriteDestinationFile o) (destinationFileName o) (verifySignatures o)
    (printInfo o) v (dumpMainHeader o) (verboseOutput o) (signingMode o) (debugLogging o) (seenOpts o)
    (remainingArgs o).
Definition set_dumpMainHeader (v : bool) (o : Options) : Options :=
  mkOptions (privateKeyFilename o) (privateKeyPassphrase o) (gpgPublicFiles o) (signServerUrl o)
    (signServerToken o) (overwriteDestinationFile o) (destinationFileName o) (verifySignatures o)
    (printInfo o) (dumpSignatureHeader o) v (verboseOutput o) (signingMode o) (debugLogging o) (seenOpts o)
    (remainingArgs o).
Definition set_verboseOutput (v : bool) (o : Options) : Options :=
  mkOptions (privateKeyFilename o) (privateKeyPassphrase o) (gpgPublicFiles o) (signServerUrl o)
    (signServerToken o) (overwriteDestinationFile o) (destinationFileName o) (verifySignatures o)
    (printInfo o) (dumpSignatureHeader o) (dumpMainHeader o) v (signingMode o) (debugLogging o) (seenOpts o)
    (remainingArgs o).
Definition set_signingMode (v : Z) (o : Options) : Options :=
  mkOptions (privateKeyFilename o) (privateKeyPassphrase o) (gpgPublicFiles o) (signServerUrl o)
    (signServerToken o) (overwriteDestinationFile o) (destinationFileName o) (verifySignatures o)
    (printInfo o) (dumpSignatureHeader o) (dumpMainHeader o) (verboseOutput o) v (debugLogging o) (seenOpts o)
    (remainingArgs o).
Definition set_debugLogging (v : bool) (o : Options) : Options :=
  mkOptions (privateKeyFilename o) (privateKeyPassphrase o) (gpgPublicFiles o) (signServerUrl o)
    (signServerToken o) (overwriteDestinationFile o) (destinationFileName o) (verifySignatures o)
    (printInfo o) (dumpSignatureHeader o) (dumpMainHeader o) (verboseOutput o) (signingMode o) v (seenOpts o)
    (remainingArgs o).
Definition set_seenOpts (v : gset string) (o : Options) : Options :=
  mkOptions (privateKeyFilename o) (privateKeyPassphrase o) (gpgPublicFiles o) (signServerUrl o)
    (signServerToken o) (overwriteDestinationFile o) (destinationFileName o) (verifySignatures o)
    (printInfo o) (dumpSignatureHeader o) (dumpMainHeader o) (verboseOutput o) (signingMode o)
    (debugLogging o) v (remainingArgs o).
Definition set_remainingArgs (v : list string) (o : Options) : Options :=
  mkOptions (privateKeyFilename o) (privateKeyPassphrase o) (gpgPublicFiles o) (signServerUrl o)
    (signServerToken o) (overwriteDestinationFile o) (destinationFileName o) (verifySignatures o)
    (printInfo o) (dumpSignatureHeader o) (dumpMainHeader o) (verboseOutput o) (signingMode o)
    (debugLogging o) (seenOpts o) v.

(** *** Parsing *)

Definition failIfNotUnique (opt : string) (o : Options) : outcome Options :=
  if GoSet.Contains opt (seenOpts o) then Err ("CLI option " +:+ opt +:+ " most not appear more than once")
  else Ok (set_seenOpts (GoSet.Add opt (seenOpts o)).2 o).

Definition is_one_of (arg : string) (names : list string) : bool := existsb (String.eqb arg) names.

(** [None] is [--version]. *)
Fixpoint parseArgs (onlyArgs : list string) (o : Options) : outcome (option Options) :=
  match onlyArgs with
  | [] => Ok (Some o)
  | arg :: rest =>
      let flag (k : Options -> Options) := o ← failIfNotUnique arg o; parseArgs rest (k o) in
      let argument (k : string -> outcome Options) :=
        match rest with
        | [] => Err (arg +:+ " option requires an argument")
        | value :: rest => o ← k value; parseArgs rest o
        end in
      if is_one_of arg ["-help"; "--help"; "-h"] then Err ""
      else if String.eqb arg "--version" then Ok None
      else if is_one_of arg ["-o"; "--output-file"] then
        argument (fun value =>
          o ← failIfNotUnique arg o;
          if (0 <? String.length (destinationFileName o))%nat
          then Err "More than one -o/--output-file option provided"
          else Ok (set_destinationFileName value o))
      else if String.eqb arg "--priv-key" then
        argument (fun value =>
          o ← failIfNotUnique arg o;
          if (0 <? String.length (privateKeyFilename o))%nat
          then Err "More than one --priv-key option provided"
          else Ok (set_privateKeyFilename value o))
      else if String.eqb arg "--sign-server" then
        argument (fun value => o ← failIfNotUnique arg o; Ok (set_signServerUrl value o))
      else if String.eqb arg "--sign-server-token" then
        argument (fun value => o ← failIfNotUnique arg o; Ok (set_signServerToken value o))
      else if is_one_of arg ["-f"; "--overwrite"] then flag (set_overwriteDestinationFile true)
      else if is_one_of arg ["-i"; "--info"] then flag (set_printInfo true)
      else if is_one_of arg ["-v"; "--verbose"] then flag (set_verboseOutput true)
      else if String.eqb arg "--pub-key" then
        argument (fun value => Ok (set_gpgPublicFiles (gpgPublicFiles o ++ [value]) o))
      else if String.eqb arg "--dump" then
        flag (fun o => set_dumpSignatureHeader true (set_dumpMainHeader true o))
      else if String.eqb arg "--dump-sig-hdr" then flag (set_dumpSignatureHeader true)
      else if String.eqb arg "--dump-main-hdr" then flag (set_dumpMainHeader true)
      else if String.eqb arg "--priv-key-password" then
        argument (fun value => Ok (set_privateKeyPassphrase (Some (bytes_of value)) o))
      else if String.eqb arg "--verify" then flag (set_verifySignatures true)
      else if is_one_of arg ["-s"; "--sign"] then flag (set_signingMode SIGNING_MODE_RPM)
      else if String.eqb arg "--sign-generic" then flag (set_signingMode SIGNING_MODE_GENERIC)
      else if is_one_of arg ["-d"; "--debug"] then flag (set_debugLogging true)
      else parseArgs rest (set_remainingArgs (remainingArgs o ++ [arg]) o)
  end.

(** [strings.Join] of texts. *)
Fixpoint join_texts (sep : string) (l : list string) : string :=
  match l with [] => "" | [s] => s | s :: l => s +:+ sep +:+ join_texts sep l end.

Definition nonempty (s : string) : bool := (0 <? String.length s)%nat.

(** "Commandline arguments sanity checking" *)
Definition checkOptions (o : Options) : outcome Options :=
  if (length (remainingArgs o) =? 0)%nat then Err "No RPM file name given"
  else if (1 <? length (remainingArgs o))%nat
  then Err ("Expected exactly one RPM file name but got " +:+ join_texts ", " (remainingArgs o))
  else if (signingMode o =? SIGNING_MODE_GENERIC) && negb (nonempty (privateKeyFilename o))
  then Err "--sign-generic option requires --priv-key"
  else if (signingMode o =? SIGNING_MODE_GENERIC) && negb (nonempty (destinationFileName o))
  then Err "--sign-generic option requires -o/--output-file"
  else if GoSet.Contains "--sign-server-token" (seenOpts o) && negb (nonempty (signServerUrl o))
  then Err "--sign-server-token requires --sign-server"
  else if nonempty (signServerUrl o) && (signingMode o =? SIGNING_MODE_NOT_SET)
  then Err "--sign-server can only be used together with -s/--sign or --sign-generic"
  else if nonempty (signServerUrl o) &&
          (nonempty (privateKeyFilename o) || bool_decide (is_Some (privateKeyPassphrase o)))
  then Err "--sign-server is mutually exclusive with --priv-key/--priv-key-password"
  else Ok o.

Definition parse_command_line (onlyArgs : list string) : outcome (option Options) :=
  parsed ← parseArgs onlyArgs no_options;
  match parsed with
  | None => Ok None
  | Some o => o ← checkOptions o; Ok (Some o)
  end.

(** ** Input *)

(** What reads from one of two readers. *)
#[export] Instance sum_reader {A B} `{IOReader A} `{IOReader B} : IOReader (A + B) := fun n r =>
  match r with
  | inl a => let '(res, a) := ioRead n a in (res, inl a)
  | inr b => let '(res, b) := ioRead n b in (res, inr b)
  end.

#[export] Instance sum_shares {A B} `{!Shares OsFile A} `{!Shares OsFile B} : Shares OsFile (A + B) := fun f r =>
  match r with inl a => inl (refresh f a) | inr b => inr (refresh f b) end.

(** [SeekableReaderImpl] over what [OpenFileOrUrl] opens: a file, or the body of a
    response. Both [NewSeekableReader] and its callers wrap the reader. *)
Abbreviation SeekableReaderImpl F B := (IOReaderWithOffset (IOReaderWithOffset (F + B))).

Definition NewSeekableReader {F B} (reader : IOReaderWithOffset (F + B)) : SeekableReaderImpl F B :=
  NewIOReaderWithOffset reader.

Section Input.
Context `{OS} {F B : Type} `{IOReader F} `{IOReader B} `{!FileReader F}.

Definition SeekRelativeToStart (offset : Z) : M (SeekableReaderImpl F B) unit := fun s =>
  match ior_file (ior_file s) with
  | inl fileReader =>
      if offset <? 0 then (Err "seek to offset %d failed: invalid argument", s)
      else
        (Ok tt, mkIOReader (mkIOReader (inl (Seek (Z.to_nat offset) fileReader)) (ior_currentOffset (ior_file s)))
                  (ior_currentOffset s))
  | inr _ =>
      if offset <? 0 then (Err "seek() with negative offset only supported for files", s)
      else if negb (ior_currentOffset s =? 0)
      then (Err "seek() with from beginning of stream only supported if stream is still at offset 0", s)
      else let '(o, s) := FillBuffer (Z.to_nat offset) s in (_ ← o; Ok tt, s)
  end.

(** [http.Get]: the status and the body of the response. *)
Context (http_Get : string -> outcome (Z * B)).

Definition DownloadFile (url : string) : outcome B :=
  '(StatusCode, Body) ← http_Get url;
  if negb (StatusCode =? StatusOK) then Err "bad status: %s" else Ok Body.

Definition is_url (rpmFilePath : string) : bool :=
  String.prefix "http" (ToLower rpmFilePath) || String.prefix "https" (ToLower rpmFilePath).

(** Errors make it panic. *)
Definition OpenFileOrUrl (rpmFilePath : string) : M World (SeekableReaderImpl F B) := fun w =>
  if is_url rpmFilePath then
    match DownloadFile rpmFilePath with
    | Ok reader => (Ok (NewSeekableReader (NewIOReaderWithOffset (inr reader))), w)
    | Err e | Panic e => (Panic e, w)
    | Diverge => (Diverge, w)
    end
  else
    match os_Open rpmFilePath w with
    | (Ok content, w) => (Ok (NewSeekableReader (NewIOReaderWithOffset (inl (os_File rpmFilePath content)))), w)
    | (Err e, w) | (Panic e, w) => (Panic e, w)
    | (Diverge, w) => (Diverge, w)
    end.
End Input.

(** ** [main] *)

(** The files, what the logger has written, and the registries of the tags. *)
Record Client := mkClient { c_world : World; c_log : LogImpl; c_registries : registries }.

Definition in_world {A} (m : M World A) : M Client A := fun c =>
  let '(o, w) := m (c_world c) in (o, mkClient w (c_log c) (c_registries c)).

Definition in_registries {A} (m : M registries A) : M Client A := fun c =>
  let '(o, rs) := m (c_registries c) in (o, mkClient (c_world c) (c_log c) rs).

Definition in_log (f : LogImpl -> LogImpl) : M Client unit := fun c =>
  (Ok tt, mkClient (c_world c) (f (c_log c)) (c_registries c)).

Definition say (format : list Z) (args : list Arg) : M Client unit := in_log (Infof format args).

(** [printErrorAndExit] and [printHelpAndExit] after an error. *)
Definition exit_on_error {A} (message : string) (m : M World A) : M Client A := in_world (wrap_err message m).

(** [AppVersion] and [GitRef] are set when the binary is linked. *)
Definition VersionString (AppVersion GitRef : string) : list Z :=
  Sprintf (str "%s (%s)") [Text (str AppVersion); Text (str GitRef)].

Section Main.
Context `{OS} `{KeyFormat} `{Hashes} `{Runtime} `{NetURL} {F B : Type} `{IOReader F} `{IOReader B} `{!FileReader F}.
Context (http_Get : string -> outcome (Z * B)).
Context {Body : Type} `{ReaderWithOffset Body} (Do : URL -> list Z -> outcome (Z * Body)).

(** The order in which Go ranges over a set; the variable
    [RPM_SIGNING_AUTH_TOKEN]; the version of the binary; the time. *)
Context (range : gset SignatureVersion -> list SignatureVersion) (env_token AppVersion GitRef : string).
Context (fuel : nat) (now : Z).

Definition Set_String (s : gset SignatureVersion) : list Z :=
  Payload.join (str ", ") (SignatureVersion_String <$> range s).

Definition when_verbose (o : Options) (m : M Client unit) : M Client unit :=
  if verboseOutput o then m else mret tt.

Definition rpmFilePath (o : Options) : string := default "" (head (remainingArgs o)).

(** With [--sign-generic]. *)
Definition sign_generic (o : Options) (r : SeekableReaderImpl F B) : M Client unit :=
  privateKey ← exit_on_error "Failed to load private key from %s: "
    (LoadPrivateKeyFromFile (privateKeyFilename o) (default [] (privateKeyPassphrase o)));
  detachedSignature ← wrap_err "Signing operation failed: " (run_local r (SignGeneric fuel now privateKey));
  _ ← exit_on_error "Failed to write detached GPG signature to %s: "
    (WriteFileAtomically (destinationFileName o) detachedSignature 420 (overwriteDestinationFile o));
  when_verbose o (say (str "Wrote detached GPG signature to %s") [Text (str (destinationFileName o))]).

(** With [--info]. *)
Definition print_info (f : RpmFile) : M Client unit :=
  let sigVersion := if IsSigned f then Set_String (GetSignatureVersions f) else str "<unsigned>" in
  rpmVersion ← lift (GetRpmVersion f);
  formatVersion ← lift (GetFileFormatVersion f);
  say (str "RPM version: %v | RPM file format version: %v | Signature version(s): %v")
    [Text rpmVersion; Text (RpmFileFormatVersion_String formatVersion); Text sigVersion].

(** With [--dump], [--dump-sig-hdr] or [--dump-main-hdr]. *)
Definition dump_header (title : list Z) (header : RpmHeader) : M Client unit :=
  _ ← in_log (Info_ title);
  table ← in_registries (DumpIndexEntries 25 true header);
  in_log (Info_ table).

Definition dump_headers (o : Options) (f : RpmFile) : M Client unit :=
  _ ← (if dumpSignatureHeader o then dump_header (str "--- Signature entries ----") (SignatureHeader f) else mret tt);
  if dumpMainHeader o then dump_header (str "--- Main Header entries ----") (MainHeader f) else mret tt.

(** The loop over [AllSignatureVersions]. *)
Definition verify_version (version : SignatureVersion)
    : M (SignatureVerifierImpl (P := SeekableReaderImpl F B)) unit :=
  if bool_decide (version = SIGNATURE_VERSION_V3) then VerifyV3Signature fuel
  else if bool_decide (version = SIGNATURE_VERSION_V4) then VerifyV4Signature fuel
  else if bool_decide (version = SIGNATURE_VERSION_V6) then VerifyV6Signature
  else mret tt.

Fixpoint verify_versions (o : Options) (versionsPresent : gset SignatureVersion) (versions : list SignatureVersion)
    (verifier : SignatureVerifierImpl (P := SeekableReaderImpl F B)) : M Client unit :=
  match versions with
  | [] => mret tt
  | version :: versions =>
      let name := Text (SignatureVersion_String version) in
      if GoSet.Contains version versionsPresent then
        match verify_version version verifier with
        | (Err e, verifier) =>
            _ ← say (str "RPM file signature %v: FAILED (%s)") [name; Text (str e)];
            verify_versions o versionsPresent versions verifier
        | (Ok _, verifier) =>
            _ ← when_verbose o (say (str "RPM file signature %v: ok") [name]);
            verify_versions o versionsPresent versions verifier
        | (Panic p, _) => panic p
        | (Diverge, _) => lift Diverge
        end
      else
        _ ← when_verbose o (say (str "RPM file signature %v: <not present>") [name]);
        verify_versions o versionsPresent versions verifier
  end.

(** The reader of the payload, for a version 3 signature; without one it stays nil,
    and nothing is read from it. *)
Definition open_payload (o : Options) (f : RpmFile) : M Client (SeekableReaderImpl F B) :=
  if GoSet.Contains SIGNATURE_VERSION_V3 (GetSignatureVersions f) then
    payloadReader ← exit_on_error "Failed to open RPM file %s. Error: " (OpenFileOrUrl http_Get (rpmFilePath o));
    match SeekRelativeToStart (signed 64 (PayloadStartOffset f)) payloadReader with
    | (Ok _, payloadReader) => mret payloadReader
    | (Err e, _) => raise ("Failed to seek() RPM file %s. Error: " +:+ e)
    | (Panic p, _) => panic p
    | (Diverge, _) => lift Diverge
    end
  else mret (NewSeekableReader (NewIOReaderWithOffset (inl (os_File "" [])))).

(** [%s] of a slice of strings. *)
Definition list_text (l : list string) : list Z := str "[" ++ str (join_texts " " l) ++ str "]".

Definition verify (o : Options) (f : RpmFile) : M Client unit :=
  if (length (gpgPublicFiles o) =? 0)%nat
  then raise "Cannot verify signatures without GPG public key, use --pub-key <file>"
  else
    _ ← when_verbose o (say (str "Verifying against public key %s") [Text (list_text (gpgPublicFiles o))]);
    keys ← exit_on_error "Error loading GPG public keys, error: " (LoadPublicKeys (gpgPublicFiles o));
    payloadReader ← open_payload o f;
    verifier ← lift (NewSignatureVerifier f payloadReader keys);
    verify_versions o (GetSignatureVersions f) AllSignatureVersions verifier.

Definition verify_if_signed (o : Options) (f : RpmFile) : M Client unit :=
  if verifySignatures o && negb (GoSet.IsEmpty (GetSignatureVersions f)) then verify o f
  else if GoSet.IsEmpty (GetSignatureVersions f)
  then in_log (Info_ (str "RPM file is unsigned, no signatures to verify"))
  else mret tt.

(** With [-s]; [headerCapture] is not nil for remote signing. The input is still open,
    and may be the file that is written. *)
Definition sign_rpm {P} `{ReaderWithOffset P} `{shares : !Shares OsFile P} (o : Options) (f : RpmFile)
    (headerCapture : option (headerCapturingReader (SeekableReaderImpl F B))) (rpmFileReader : P) : M Client unit :=
  if negb (nonempty (destinationFileName o)) then raise "Cannot sign RPM without -o/--output-file"
  else
    let failed := "Failed to sign RPM file %s. Error: " in
    let dest := destinationFileName o in
    let overwrite := overwriteDestinationFile o in
    _ ← match headerCapture with
        | Some headerCapture =>
            _ ← when_verbose o (say (str "Sending %d bytes of RPM header to sign server %s")
                  [Num (Zlen (Bytes headerCapture)); Text (str (signServerUrl o))]);
            let '(token, from_env) :=
              if IsEmpty (signServerToken o) then (env_token, true) else (signServerToken o, false) in
            _ ← (if from_env && IsNotEmpty token
                 then when_verbose o (say (str "Using non-blank auth token from RPM_SIGNING_AUTH_TOKEN environment variable") [])
                 else mret tt);
            exit_on_error failed (fun w =>
              let '(res, (w, _)) :=
                signRpmRemotely Do fuel (signServerUrl o) token (Bytes headerCapture) dest overwrite (w, rpmFileReader) in
              (res, w))
        | None =>
            if negb (nonempty (privateKeyFilename o)) then raise "Cannot --sign without --priv-key"
            else
              privateKey ← exit_on_error "Failed to load private key from %s: "
                (LoadPrivateKeyFromFile (privateKeyFilename o) (default [] (privateKeyPassphrase o)));
              exit_on_error failed (fun w =>
                let '(res, (w, _)) :=
                  SignRpmAndWriteToFile fuel f dest overwrite now privateKey (w, rpmFileReader) in (res, w))
        end;
    say (str "Wrote signed file to %s") [Text (str dest)].

(** After parsing: the capturing reader stops, and the payload is read through it. *)
Definition stop_capturing (r : IOReaderWithOffset (headerCapturingReader (SeekableReaderImpl F B) + SeekableReaderImpl F B))
    : option (headerCapturingReader (SeekableReaderImpl F B)) *
      IOReaderWithOffset (headerCapturingReader (SeekableReaderImpl F B) + SeekableReaderImpl F B) :=
  match ior_file r with
  | inl h => (Some (StopCapturing h), mkIOReader (inl (StopCapturing h)) (ior_currentOffset r))
  | inr _ => (None, r)
  end.

Definition run (o : Options) : M Client unit :=
  _ ← when_verbose o (say (str "Reading input file %s" ++ [10]) [Text (str (rpmFilePath o))]);
  r ← exit_on_error "Failed reading file %s. Error: " (OpenFileOrUrl http_Get (rpmFilePath o));
  if signingMode o =? SIGNING_MODE_GENERIC then sign_generic o r
  else
    let rpmSource := if nonempty (signServerUrl o) && (signingMode o =? SIGNING_MODE_RPM)
                     then inl (newHeaderCapturingReader r) else inr r in
    let '(parsed, rpmFileReader) := ParseRPMFromReader false (NewIOReaderWithOffset rpmSource) in
    f ← wrap_err "Error during RPM file reading, error: " (lift parsed);
    let '(headerCapture, rpmFileReader) := stop_capturing rpmFileReader in
    _ ← (if printInfo o then print_info f else mret tt);
    _ ← dump_headers o f;
    _ ← verify_if_signed o f;
    if signingMode o =? SIGNING_MODE_RPM then sign_rpm o f headerCapture rpmFileReader else mret tt.

Definition main (args : list string) : M Client unit :=
  parsed ← lift (parse_command_line args);
  match parsed with
  | None => in_log (log (VersionString AppVersion GitRef))
  | Some o =>
      _ ← in_log (fun l => if debugLogging o then SetCurrentLogLevel LOG_LEVEL_DEBUG l else l);
      run o
  end.
End Main.
