(* ===== verification/ClientTheorems.v ===== *)
(** The command lines the client accepts. *)
From S2P Require Import Prelude Utils Serializer Header HeaderCodec RpmFile Signing Files Keys Http Server ServerTheorems Client.
From Stdlib Require Import Ascii.
#[local] Open Scope Z_scope.

(** ** Command lines

    What the client was asked for, if it is not asked for its version. *)

Record well_formed (o : Options) : Prop := {
  wf_file : exists file, remainingArgs o = [file];
  wf_mode : signingMode o ∈ [SIGNING_MODE_NOT_SET; SIGNING_MODE_RPM; SIGNING_MODE_GENERIC];
  wf_generic : signingMode o = SIGNING_MODE_GENERIC ->
    privateKeyFilename o <> "" /\ destinationFileName o <> "" /\ signServerUrl o = "";
  wf_token : "--sign-server-token" ∈ seenOpts o -> signServerUrl o <> "";
  wf_server : signServerUrl o <> "" ->
    signingMode o = SIGNING_MODE_RPM /\ privateKeyFilename o = "" /\ privateKeyPassphrase o = None;
}.

Definition option_names : list string :=
  ["-help"; "--help"; "-h"; "--version"; "-o"; "--output-file"; "--priv-key"; "--sign-server"; "--sign-server-token";
   "-f"; "--overwrite"; "-i"; "--info"; "-v"; "--verbose"; "--pub-key"; "--dump"; "--dump-sig-hdr"; "--dump-main-hdr";
   "--priv-key-password"; "--verify"; "-s"; "--sign"; "--sign-generic"; "-d"; "--debug"].

(** A command line that asks for [o]. *)
Definition flag_args (b : bool) (opt : string) : list string := if b then [opt] else [].
Definition value_args (opt value : string) : list string := if nonempty value then [opt; value] else [].

Definition mode_args (mode : Z) : list string :=
  flag_args (mode =? SIGNING_MODE_RPM) "-s" ++ flag_args (mode =? SIGNING_MODE_GENERIC) "--sign-generic".

Definition render (o : Options) : list string :=
  value_args "-o" (destinationFileName o) ++ value_args "--priv-key" (privateKeyFilename o) ++
  value_args "--sign-server" (signServerUrl o) ++ value_args "--sign-server-token" (signServerToken o) ++
  flag_args (overwriteDestinationFile o) "-f" ++ flag_args (printInfo o) "-i" ++ flag_args (verboseOutput o) "-v" ++
  flag_args (dumpSignatureHeader o) "--dump-sig-hdr" ++ flag_args (dumpMainHeader o) "--dump-main-hdr" ++
  flag_args (verifySignatures o) "--verify" ++ flag_args (debugLogging o) "-d" ++ mode_args (signingMode o) ++
  (gpgPublicFiles o ≫= fun key => ["--pub-key"; key]) ++
  match privateKeyPassphrase o with Some p => ["--priv-key-password"; text_of p] | None => [] end ++
  remainingArgs o.

Definition seen_if (b : bool) (opt : string) (s : gset string) : gset string := if b then {[opt]} ∪ s else s.

(** The options of [render o] that may appear only once. *)
Definition seen_of (o : Options) : gset string :=
  seen_if (signingMode o =? SIGNING_MODE_GENERIC) "--sign-generic" (seen_if (signingMode o =? SIGNING_MODE_RPM) "-s"
  (seen_if (debugLogging o) "-d" (seen_if (verifySignatures o) "--verify"
  (seen_if (dumpMainHeader o) "--dump-main-hdr" (seen_if (dumpSignatureHeader o) "--dump-sig-hdr"
  (seen_if (verboseOutput o) "-v" (seen_if (printInfo o) "-i" (seen_if (overwriteDestinationFile o) "-f"
  (seen_if (nonempty (signServerToken o)) "--sign-server-token" (seen_if (nonempty (signServerUrl o)) "--sign-server"
  (seen_if (nonempty (privateKeyFilename o)) "--priv-key"
  (seen_if (nonempty (destinationFileName o)) "-o" ∅)))))))))))).

(** *** Accepted command lines *)

Definition mode_ok (o : Options) : Prop :=
  signingMode o ∈ [SIGNING_MODE_NOT_SET; SIGNING_MODE_RPM; SIGNING_MODE_GENERIC].

Lemma failIfNotUnique_run opt o :
  failIfNotUnique opt o =
    if bool_decide (opt ∈ seenOpts o) then Err ("CLI option " +:+ opt +:+ " most not appear more than once")
    else Ok (set_seenOpts ({[opt]} ∪ seenOpts o) o).
Proof. unfold failIfNotUnique, GoSet.Add, GoSet.Contains. by case_bool_decide. Qed.

Lemma parseArgs_mode n : forall args o o', (length args <= n)%nat -> mode_ok o ->
  parseArgs args o = Ok (Some o') -> mode_ok o'.
Proof.
  induction n as [|n IH]; intros [|arg args] o o' Hn Hm; simpl in Hn; try lia; try (by intros [= <-]).
  cbn [parseArgs]. rewrite failIfNotUnique_run.
  assert (forall o1, mode_ok o1 -> parseArgs args o1 = Ok (Some o') -> mode_ok o') as H1.
  { intros o1 Ho1 Hp. eapply IH; [|exact Ho1|exact Hp]. lia. }
  assert (forall value rest o1, args = value :: rest -> mode_ok o1 -> parseArgs rest o1 = Ok (Some o') -> mode_ok o') as H2.
  { intros value rest o1 -> Ho1 Hp. eapply IH; [|exact Ho1|exact Hp]. simpl in Hn. lia. }
  repeat (case_match; try (by intros [=]); try (by apply H1); simpl);
    try (by eapply H2); try (by apply H1; apply (bool_decide_unpack _)).
Qed.

Lemma checkOptions_ok o o' : mode_ok o -> checkOptions o = Ok o' -> o' = o /\ well_formed o.
Proof.
  intros Hm. unfold checkOptions.
  assert (forall s, nonempty s = true <-> s <> "") as Hne by by intros [|a s].
  assert (forall s, nonempty s = false <-> s = "") as He by by intros [|a s].
  destruct (Nat.eqb_spec (length (remainingArgs o)) 0); [done|].
  destruct (Nat.ltb_spec 1 (length (remainingArgs o))); [done|].
  destruct (nonempty (privateKeyFilename o)) eqn:Hkey, (nonempty (destinationFileName o)) eqn:Hdest,
    (nonempty (signServerUrl o)) eqn:Hurl, (Z.eqb_spec (signingMode o) SIGNING_MODE_GENERIC) as [Hg|Hg],
    (Z.eqb_spec (signingMode o) SIGNING_MODE_NOT_SET) as [Hn|Hn];
    rewrite ?Hne, ?He in *; simpl; rewrite ?andb_false_r, ?andb_true_r; try done;
    unfold GoSet.Contains; repeat case_bool_decide; simpl; try done; intros [= <-]; (split; [done|]).
  all: constructor; try done; try congruence.
  all: try (intros _; split; [|split; [done|by apply eq_None_not_Some]];
    unfold mode_ok in Hm; rewrite !elem_of_cons, elem_of_nil in Hm; clear -Hm Hg Hn; tauto).
  all: try (destruct (remainingArgs o) as [|file [|]]; [done|by exists file|simpl in *; lia]).
Qed.

(** *** Rendered command lines *)

#[local] Arguments set_privateKeyFilename v !o /.
#[local] Arguments set_privateKeyPassphrase v !o /.
#[local] Arguments set_gpgPublicFiles v !o /.
#[local] Arguments set_signServerUrl v !o /.
#[local] Arguments set_signServerToken v !o /.
#[local] Arguments set_overwriteDestinationFile v !o /.
#[local] Arguments set_destinationFileName v !o /.
#[local] Arguments set_verifySignatures v !o /.
#[local] Arguments set_printInfo v !o /.
#[local] Arguments set_dumpSignatureHeader v !o /.
#[local] Arguments set_dumpMainHeader v !o /.
#[local] Arguments set_verboseOutput v !o /.
#[local] Arguments set_signingMode v !o /.
#[local] Arguments set_debugLogging v !o /.
#[local] Arguments set_seenOpts v !o /.
#[local] Arguments set_remainingArgs v !o /.

Section Render.

Lemma set_seenOpts_self o : set_seenOpts (seenOpts o) o = o.
Proof. by destruct o. Qed.

Lemma not_seen_if b opt opt' s : opt <> opt' -> opt ∉ s -> opt ∉ seen_if b opt' s.
Proof. intros Hne Hs. destruct b; [|done]. apply not_elem_of_union. by rewrite not_elem_of_singleton. Qed.

(** An option without an argument. *)
Lemma flag_step b opt (set : bool -> Options -> Options) rest o :
  (forall rest o, parseArgs (opt :: rest) o = (o ← failIfNotUnique opt o; parseArgs rest (set true o))) ->
  opt ∉ seenOpts o -> set false o = o ->
  parseArgs (flag_args b opt ++ rest) o = parseArgs rest (set b (set_seenOpts (seen_if b opt (seenOpts o)) o)).
Proof.
  intros Hstep Hseen Hoff. destruct b.
  - change (flag_args true opt ++ rest) with (opt :: rest).
    rewrite Hstep, failIfNotUnique_run, bool_decide_eq_false_2 by done. done.
  - change (flag_args false opt ++ rest) with rest. simpl. by rewrite set_seenOpts_self, Hoff.
Qed.

(** An option with an argument that may be given once. *)
Lemma value_step opt value (set : string -> Options -> Options) rest o :
  (forall value rest, nonempty value = true ->
     parseArgs (opt :: value :: rest) o = (o ← failIfNotUnique opt o; parseArgs rest (set value o))) ->
  opt ∉ seenOpts o -> set "" o = o ->
  parseArgs (value_args opt value ++ rest) o =
    parseArgs rest (set value (set_seenOpts (seen_if (nonempty value) opt (seenOpts o)) o)).
Proof.
  intros Hstep Hseen Hoff. unfold value_args. destruct (nonempty value) eqn:Hv.
  - change ([opt; value] ++ rest) with (opt :: value :: rest).
    rewrite Hstep, failIfNotUnique_run, bool_decide_eq_false_2 by done. done.
  - destruct value; [|done]. simpl. by rewrite set_seenOpts_self, Hoff.
Qed.

Lemma pub_keys_step keys : forall rest o,
  parseArgs ((keys ≫= fun key => ["--pub-key"; key]) ++ rest) o =
    parseArgs rest (set_gpgPublicFiles (gpgPublicFiles o ++ keys) o).
Proof.
  induction keys as [|key keys IH]; intros rest o.
  - rewrite app_nil_r. by destruct o.
  - change (parseArgs ((keys ≫= fun key => ["--pub-key"; key]) ++ rest) (set_gpgPublicFiles (gpgPublicFiles o ++ [key]) o) =
      parseArgs rest (set_gpgPublicFiles (gpgPublicFiles o ++ key :: keys) o)).
    rewrite IH. destruct o. simpl. by rewrite <- app_assoc.
Qed.

Lemma file_step file o : is_one_of file option_names = false ->
  parseArgs [file] o = Ok (Some (set_remainingArgs (remainingArgs o ++ [file]) o)).
Proof.
  unfold is_one_of, option_names. simpl. rewrite !orb_false_iff. intros Hno. destruct_and! Hno.
  cbn [parseArgs is_one_of existsb].
  repeat match goal with Hf : String.eqb file _ = false |- _ => rewrite Hf; clear Hf end. done.
Qed.

Lemma mode_step mode rest o :
  mode ∈ [SIGNING_MODE_NOT_SET; SIGNING_MODE_RPM; SIGNING_MODE_GENERIC] -> signingMode o = SIGNING_MODE_NOT_SET ->
  "-s" ∉ seenOpts o -> "--sign-generic" ∉ seenOpts o ->
  parseArgs (mode_args mode ++ rest) o =
    parseArgs rest (set_signingMode mode (set_seenOpts (seen_if (mode =? SIGNING_MODE_GENERIC) "--sign-generic"
      (seen_if (mode =? SIGNING_MODE_RPM) "-s" (seenOpts o))) o)).
Proof.
  intros Hmode Hnone Hs Hg. rewrite !elem_of_cons, elem_of_nil in Hmode.
  destruct Hmode as [->|[->|[->|[]]]]; simpl.
  - rewrite <- Hnone. by destruct o.
  - change (parseArgs ("-s" :: rest) o) with (o ← failIfNotUnique "-s" o; parseArgs rest (set_signingMode SIGNING_MODE_RPM o)).
    by rewrite failIfNotUnique_run, bool_decide_eq_false_2.
  - change (parseArgs ("--sign-generic" :: rest) o)
      with (o ← failIfNotUnique "--sign-generic" o; parseArgs rest (set_signingMode SIGNING_MODE_GENERIC o)).
    by rewrite failIfNotUnique_run, bool_decide_eq_false_2.
Qed.

(** An option that only sets a variable. *)
Lemma bind_step {A B C} (m : outcome A) (f : A -> B) (k : B -> outcome C) :
  (b ← (a ← m; Ok (f a)); k b) = (a ← m; k (f a)).
Proof. by destruct m. Qed.

Lemma dest_step value rest o : destinationFileName o = "" ->
  parseArgs ("-o" :: value :: rest) o = (o ← failIfNotUnique "-o" o; parseArgs rest (set_destinationFileName value o)).
Proof.
  intros Hd. cbn [parseArgs is_one_of existsb String.eqb]. rewrite failIfNotUnique_run. simpl.
  case_bool_decide; [done|]. cbn [mbind outcome_bind]. simpl. by rewrite Hd.
Qed.

Lemma priv_key_step value rest o : privateKeyFilename o = "" ->
  parseArgs ("--priv-key" :: value :: rest) o =
    (o ← failIfNotUnique "--priv-key" o; parseArgs rest (set_privateKeyFilename value o)).
Proof.
  intros Hd. cbn [parseArgs is_one_of existsb String.eqb]. rewrite failIfNotUnique_run. simpl.
  case_bool_decide; [done|]. cbn [mbind outcome_bind]. simpl. by rewrite Hd.
Qed.

Ltac unseen := repeat (apply not_seen_if; [discriminate|]); apply not_elem_of_empty.

Lemma parseArgs_render o file :
  remainingArgs o = [file] -> is_one_of file option_names = false -> mode_ok o -> seenOpts o = seen_of o ->
  (forall p, privateKeyPassphrase o = Some p -> exists s, p = bytes_of s) ->
  parseArgs (render o) no_options = Ok (Some o).
Proof.
  intros Hfile Hname Hm Hseen Hpass. unfold render, no_options.
  destruct o as [key pass pubs url token overwrite dest ver info dsig dmain verbose mode debug seen remaining].
  simpl in *. subst remaining.
  rewrite (value_step "-o" _ set_destinationFileName); [|intros; by apply dest_step|unseen|reflexivity]. simpl.
  rewrite (value_step "--priv-key" _ set_privateKeyFilename); [|intros; by apply priv_key_step|unseen|reflexivity]. simpl.
  rewrite (value_step "--sign-server" _ set_signServerUrl); [|by intros; apply bind_step|unseen|reflexivity]. simpl.
  rewrite (value_step "--sign-server-token" _ set_signServerToken); [|by intros; apply bind_step|unseen|reflexivity]. simpl.
  rewrite (flag_step _ "-f" set_overwriteDestinationFile); [|reflexivity|unseen|reflexivity]. simpl.
  rewrite (flag_step _ "-i" set_printInfo); [|reflexivity|unseen|reflexivity]. simpl.
  rewrite (flag_step _ "-v" set_verboseOutput); [|reflexivity|unseen|reflexivity]. simpl.
  rewrite (flag_step _ "--dump-sig-hdr" set_dumpSignatureHeader); [|reflexivity|unseen|reflexivity]. simpl.
  rewrite (flag_step _ "--dump-main-hdr" set_dumpMainHeader); [|reflexivity|unseen|reflexivity]. simpl.
  rewrite (flag_step _ "--verify" set_verifySignatures); [|reflexivity|unseen|reflexivity]. simpl.
  rewrite (flag_step _ "-d" set_debugLogging); [|reflexivity|unseen|reflexivity]. simpl.
  rewrite mode_step; [|exact Hm|reflexivity|unseen|unseen]. simpl.
  rewrite pub_keys_step. simpl.
  assert (forall o1, privateKeyPassphrase o1 = None -> remainingArgs o1 = [] ->
    parseArgs (match pass with Some p => ["--priv-key-password"; text_of p] | None => [] end ++ [file]) o1 =
      Ok (Some (set_remainingArgs [file] (set_privateKeyPassphrase pass o1)))) as Hlast.
  { intros o1 Hp Hr. destruct pass as [p|].
    - destruct (Hpass p eq_refl) as [s ->]. rewrite text_of_bytes_of.
      change (parseArgs [file] (set_privateKeyPassphrase (Some (bytes_of s)) o1) =
        Ok (Some (set_remainingArgs [file] (set_privateKeyPassphrase (Some (bytes_of s)) o1)))).
      rewrite file_step by done. destruct o1. simpl in *. by subst.
    - rewrite app_nil_l, file_step by done. destruct o1. simpl in *. by subst. }
  rewrite Hlast by reflexivity. unfold seen_of in Hseen. simpl in *. by rewrite Hseen.
Qed.
End Render.

Lemma checkOptions_well_formed o : well_formed o -> checkOptions o = Ok o.
Proof.
  intros [(file & Hfile) Hmode Hgen Htok Hsrv]. unfold checkOptions. rewrite Hfile. simpl.
  assert (forall s, nonempty s = bool_decide (s <> "")) as Hne by by intros [|a s].
  rewrite !Hne. destruct (Z.eqb_spec (signingMode o) SIGNING_MODE_GENERIC) as [Hg|Hg]; simpl.
  - destruct (Hgen Hg) as (Hk & Hd & Hu). rewrite Hu, !bool_decide_eq_true_2 by done. simpl.
    unfold GoSet.Contains. case_bool_decide as Ht; [by destruct (Htok Ht)|done].
  - unfold GoSet.Contains. destruct (decide (signServerUrl o = "")) as [Hu|Hu].
    + rewrite Hu. simpl. case_bool_decide as Ht; [by destruct (Htok Ht)|done].
    + destruct (Hsrv Hu) as (-> & -> & ->). rewrite (bool_decide_eq_true_2 (signServerUrl o <> "")) by done.
      simpl. by rewrite andb_false_r.
Qed.

(** C22. The client accepts a command line only for a well-formed request: exactly one
    input file; a key file, an output file and no signing server for [--sign-generic];
    a server for a token; and a server only to sign a package, without a private key.
    And every well-formed request can be made: the options that ask for it parse back
    to it. *)
Theorem parse_command_line_correct :
  (forall args o, parse_command_line args = Ok (Some o) -> well_formed o) /\
  (forall o, well_formed o -> seenOpts o = seen_of o ->
     Forall (fun file => is_one_of file option_names = false) (remainingArgs o) ->
     (forall p, privateKeyPassphrase o = Some p -> exists s, p = bytes_of s) ->
     parse_command_line (render o) = Ok (Some o)).
Proof.
  split.
  - intros args o. unfold parse_command_line. destruct (parseArgs args no_options) as [[o1|]|e|p|] eqn:Hp; try done.
    apply (parseArgs_mode (length args)) in Hp; [|done|by left]. simpl.
    destruct (checkOptions o1) as [o2|e|p|] eqn:Hc; try done. intros [= <-].
    by apply checkOptions_ok in Hc as [-> Hwf].
  - intros o Hwf Hseen Hfiles Hpass. destruct (wf_file o Hwf) as [file Hfile].
    rewrite Hfile in Hfiles. apply Forall_cons in Hfiles as [Hname _].
    unfold parse_command_line. rewrite (parseArgs_render o file Hfile Hname (wf_mode o Hwf) Hseen Hpass). simpl.
    by rewrite checkOptions_well_formed.
Qed.

(** A package signed by a server. *)
Definition sample_request : Options :=
  let o := mkOptions "" None ["a.asc"; "b.asc"] "http://sign.example" "s3cret" true "out.rpm" true false true false true
    SIGNING_MODE_RPM true ∅ ["in.rpm"] in
  set_seenOpts (seen_of o) o.

Lemma parse_command_line_correct_witness :
  well_formed sample_request /\
  parse_command_line ["-o"; "out.rpm"; "--sign-server"; "http://sign.example"; "--sign-server-token"; "s3cret"; "-f"; "-v";
    "--dump-sig-hdr"; "--verify"; "-d"; "-s"; "--pub-key"; "a.asc"; "--pub-key"; "b.asc"; "in.rpm"] =
    Ok (Some sample_request).
Proof.
  assert (well_formed sample_request) as Hwf.
  { constructor; try done; [by exists "in.rpm"|by right; left]. }
  split; [exact Hwf|].
  apply (proj2 parse_command_line_correct sample_request Hwf); [reflexivity|by repeat constructor|done].
Defined.
