(* ===== verification/ClientInput.v ===== *)
(** The readers of the client: its input is a file or a response, wrapped so that it can
    be sought and its headers captured. Whatever the wrapping, a file is read from
    where it stands, and what is written to it meanwhile is seen. *)
From S2P Require Import Prelude Utils Serializer Tags Header HeaderCodec RpmFile FileTheorems Signing SigningTheorems.
From S2P Require Import Frame Files FilesTheorems Keys Http Server Remote RemoteTheorems Client.
#[local] Open Scope Z_scope.

(** ** Readers *)

#[export, refine] Instance sum_lawful {A B} `{LawfulIOReader A} `{LawfulIOReader B} : LawfulIOReader (A + B) := {
  io_rest r := match r with inl a => io_rest a | inr b => io_rest b end;
}.
Proof.
  intros n [a|b]; unfold ioRead, sum_reader.
  - destruct (io_read_law n a) as (bs & err & a' & Hr & Hrest). rewrite Hr. by eexists bs, err, (inl a').
  - destruct (io_read_law n b) as (bs & err & b' & Hr & Hrest). rewrite Hr. by eexists bs, err, (inr b').
Defined.

#[export, refine] Instance nested_lawful {F} `{LawfulIOReader F} : LawfulIOReader (IOReaderWithOffset F) := {
  io_rest r := io_rest (ior_file r);
}.
Proof.
  intros n [f off]. unfold ioRead, reader_as_ioreader. simpl. unfold IOReaderWithOffset_Read. simpl.
  destruct (io_read_law n f) as (bs & err & f' & Hr & Hrest). rewrite Hr. do 3 eexists. split; [done|exact Hrest].
Defined.

#[export, refine] Instance sum_fallible {A B} `{FallibleIOReader A} `{FallibleIOReader B} : FallibleIOReader (A + B) := {
  io_pending r := match r with inl a => io_pending a | inr b => io_pending b end;
  io_may_fail r := match r with inl a => io_may_fail a | inr b => io_may_fail b end;
}.
Proof.
  intros n [a|b]; unfold ioRead, sum_reader.
  - destruct (io_fallible_law n a) as (bs & err & a' & Hr & Hrest). rewrite Hr. by eexists bs, err, (inl a').
  - destruct (io_fallible_law n b) as (bs & err & b' & Hr & Hrest). rewrite Hr. by eexists bs, err, (inr b').
Defined.

#[export, refine] Instance nested_fallible {F} `{FallibleIOReader F} : FallibleIOReader (IOReaderWithOffset F) := {
  io_pending r := io_pending (ior_file r);
  io_may_fail r := io_may_fail (ior_file r);
}.
Proof.
  intros n [f off]. unfold ioRead, reader_as_ioreader. simpl. unfold IOReaderWithOffset_Read. simpl.
  destruct (io_fallible_law n f) as (bs & err & f' & Hr & Hrest). rewrite Hr. do 3 eexists. split; [done|exact Hrest].
Defined.

(** A file that is read: it has the name and the contents it was opened with, is read
    from where it stands, and returns no bytes at its end. When the files have become
    others, it has the contents that are now under its name (or those it had, if it
    was removed), and still stands where it stood. *)
Class LawfulFile (F : Type) `{FallibleIOReader F} `{!FileReader F} := {
  file_name : F -> string;
  file_content : F -> list Z;
  file_pos : F -> nat;
  file_opened name c :
    file_name (os_File name c) = name /\ file_content (os_File name c) = c /\ file_pos (os_File name c) = 0%nat;
  file_sought n f :
    file_name (Seek n f) = file_name f /\ file_content (Seek n f) = file_content f /\ file_pos (Seek n f) = n;
  file_pending f : io_pending f = drop (file_pos f) (file_content f);
  file_read n f :
    let '((bs, err), f') := ioRead n f in
    file_name f' = file_name f /\ file_content f' = file_content f /\ file_pos f' = (file_pos f + length bs)%nat /\
    (err = Some EOF -> bs = []);
  file_reread m f :
    file_name (reread m f) = file_name f /\ file_pos (reread m f) = file_pos f /\
    file_content (reread m f) = default (file_content f) (m !! file_name f);
  file_unchanged m f : m !! file_name f = Some (file_content f) -> reread m f = f;
}.

Section Reopened.
Context {F : Type} `{LawfulFile F}.

Lemma rest_File name c : io_pending (os_File (F:=F) name c) = c.
Proof. destruct (file_opened (F:=F) name c) as (_ & Hc & Hp). by rewrite file_pending, Hc, Hp. Qed.

Lemma rest_Seek n name c : io_pending (Seek n (os_File (F:=F) name c)) = drop n c.
Proof.
  destruct (file_opened (F:=F) name c) as (_ & Hc & _), (file_sought n (os_File (F:=F) name c)) as (_ & Hc' & Hp).
  by rewrite file_pending, Hc', Hc, Hp.
Qed.
End Reopened.

(** ** What is behind a reader *)

Section Behind.
Context {F B : Type} `{LawfulFile F} `{IOReader B}.

(** What the parser reads from, and what the payload is read from. *)
Abbreviation source := (IOReaderWithOffset (headerCapturingReader (SeekableReaderImpl F B) + SeekableReaderImpl F B)).

(** The file that is read, if it is not a response. *)
Definition file_of (s : SeekableReaderImpl F B) : option F :=
  match ior_file (ior_file s) with inl fl => Some fl | inr _ => None end.

Definition file_behind (r : source) : option F :=
  match ior_file r with inl h => file_of (hc_src h) | inr s => file_of s end.

(** Reading from one that has [before] and leaves [after] has the result [res]. *)
Definition read_through (n : nat) (before after : option F) (res : list Z * option io_error) : Prop :=
  match before with
  | Some fl => res = (ioRead n fl).1 /\ after = Some (ioRead n fl).2
  | None => after = None
  end.

Lemma wrapped_read {X} `{IOReader X} n (r : IOReaderWithOffset X) :
  (Read n r).1 = (ioRead n (ior_file r)).1 /\ ior_file (Read n r).2 = (ioRead n (ior_file r)).2.
Proof.
  destruct r as [x o]. simpl. unfold IOReaderWithOffset_Read. simpl. by destruct (ioRead n x) as [[bs err] x'].
Qed.

Lemma file_of_read n s : read_through n (file_of s) (file_of (ioRead n s).2) (ioRead n s).1.
Proof.
  unfold file_of, read_through. change (ioRead n s) with (Read n s). destruct (wrapped_read n s) as [-> ->].
  change (ioRead n (ior_file s)) with (Read n (ior_file s)). destruct (wrapped_read n (ior_file s)) as [-> ->].
  destruct (ior_file (ior_file s)) as [fl|b].
  - change (ioRead n (inl (B:=B) fl)) with (let '(res, a) := ioRead n fl in (res, inl (B:=B) a)). by destruct (ioRead n fl).
  - change (ioRead n (inr (A:=F) b)) with (let '(res, a) := ioRead n b in (res, inr (A:=F) a)). by destruct (ioRead n b).
Qed.

Lemma file_behind_read n r : read_through n (file_behind r) (file_behind (Read n r).2) (Read n r).1.
Proof.
  unfold file_behind. destruct (wrapped_read n r) as [-> ->]. destruct (ior_file r) as [h|s].
  - pose proof (file_of_read n (hc_src h)) as Hr.
    change (ioRead n (inl (B:=SeekableReaderImpl F B) h)) with
      (let '(res, a) := ioRead n h in (res, inl (B:=SeekableReaderImpl F B) a)).
    change (ioRead n h) with (headerCapturingReader_Read n h). unfold headerCapturingReader_Read.
    by destruct (ioRead n (hc_src h)) as [[bs err] s'].
  - pose proof (file_of_read n s) as Hr.
    change (ioRead n (inr (A:=headerCapturingReader (SeekableReaderImpl F B)) s)) with
      (let '(res, a) := ioRead n s in (res, inr (A:=headerCapturingReader (SeekableReaderImpl F B)) a)).
    by destruct (ioRead n s) as [res s'].
Qed.

Lemma file_of_refresh f s :
  match file_of s with
  | Some fl => file_of (refresh f s) = Some (reread (files (of_world f)) fl) /\
      (reread (files (of_world f)) fl = fl -> refresh f s = s)
  | None => refresh f s = s
  end.
Proof.
  destruct s as [[[fl|b] o1] o2]; [|done]. split; [done|]. intros E.
  change (mkIOReader (mkIOReader (inl (reread (files (of_world f)) fl)) o1) o2 = mkIOReader (mkIOReader (inl (B:=B) fl) o1) o2).
  by rewrite E.
Qed.

Lemma file_behind_refresh f r :
  match file_behind r with
  | Some fl => file_behind (refresh f r) = Some (reread (files (of_world f)) fl) /\
      (reread (files (of_world f)) fl = fl -> refresh f r = r)
  | None => refresh f r = r
  end.
Proof.
  destruct r as [[[s buf c]|s] o]; unfold file_behind; cbn [ior_file hc_src]; pose proof (file_of_refresh f s) as Hs.
  - assert (refresh f s = s -> refresh f (mkIOReader (inl (mkCapture s buf c)) o : source) = mkIOReader (inl (mkCapture s buf c)) o) as Hr.
    { intros E. transitivity (mkIOReader (inl (mkCapture (refresh f s) buf c)) o : source); [done|by rewrite E]. }
    destruct (file_of s) as [fl|]; [|by apply Hr]. destruct Hs as [Hf Hs]. split; [exact Hf|]. intros E. by apply Hr, Hs.
  - assert (refresh f s = s -> refresh f (mkIOReader (inr s) o : source) = mkIOReader (inr s) o) as Hr.
    { intros E. transitivity (mkIOReader (inr (refresh f s)) o : source); [done|by rewrite E]. }
    destruct (file_of s) as [fl|]; [|by apply Hr]. destruct Hs as [Hf Hs]. split; [exact Hf|]. intros E. by apply Hr, Hs.
Qed.

(** A reader over the file [name] with these contents, or over a response. *)
Definition stands (name : string) (content : list Z) (r : source) : Prop :=
  forall fl, file_behind r = Some fl -> file_name fl = name /\ file_content fl = content.

Lemma stands_read name content n r : stands name content r -> stands name content (Read n r).2.
Proof.
  intros Hr fl' Hfl'. pose proof (file_behind_read n r) as Hrd. unfold read_through in Hrd.
  destruct (file_behind r) as [fl|] eqn:E; [|congruence]. destruct Hrd as [_ Hrd]. rewrite Hrd in Hfl'.
  injection Hfl' as <-. destruct (Hr fl E) as [<- <-]. pose proof (file_read n fl) as Hl.
  destruct (ioRead n fl) as [[bs err] fl']. cbn [snd]. by destruct Hl as (-> & -> & _).
Qed.

(** Writing to another file leaves it alone. *)
Lemma stands_separate m0 dest name content r :
  stands name content r -> (file_behind r <> None -> name <> dest /\ m0 !! name = Some content) -> separate m0 dest r.
Proof.
  intros Hr Hno.
  exists (fun r => stands name content r /\ (file_behind r <> None -> name <> dest /\ m0 !! name = Some content)).
  split; [done|]. clear r Hr Hno. split.
  - intros n r [Hr Hno]. split; [by apply stands_read|]. pose proof (file_behind_read n r) as Hrd. unfold read_through in Hrd.
    destruct (file_behind r); [|by rewrite Hrd]. intros _. by apply Hno.
  - intros f r Hf [c Hc] [Hr Hno]. pose proof (file_behind_refresh f r) as Hrf.
    destruct (file_behind r) as [fl|] eqn:E; [|done]. destruct (Hr fl E) as [Hn Hct]. destruct (Hno ltac:(done)) as [Hne Hm].
    apply Hrf, file_unchanged. by rewrite Hc, Hn, lookup_insert_ne, Hm, Hct.
Qed.

(** A reader over the file [name] with these contents, as far as it has been read. *)
Definition reads_file (name : string) (content : list Z) (r : source) : Prop :=
  exists fl, file_behind r = Some fl /\ file_name fl = name /\ file_content fl = content /\
    (file_pos fl <= length content)%nat.

Lemma reads_file_stands name content r : reads_file name content r -> stands name content r.
Proof. intros (fl & Hfl & Hn & Hc & _) fl' Hfl'. rewrite Hfl in Hfl'. by injection Hfl' as <-. Qed.

Lemma reads_file_read name content n r : reads_file name content r -> reads_file name content (Read n r).2.
Proof.
  intros (fl & Hfl & Hn & Hc & Hp). pose proof (file_behind_read n r) as Hrd. unfold read_through in Hrd. rewrite Hfl in Hrd.
  destruct Hrd as [_ Hrd]. exists (ioRead n fl).2. split; [done|]. pose proof (file_read n fl) as Hl.
  destruct (io_fallible_law n fl) as (bs & err & fl' & Hrun & Hpend & _). rewrite Hrun in Hl |- *. cbn [snd].
  destruct Hl as (Hn' & Hc' & Hp' & _). rewrite Hn', Hc'. split; [done|]. split; [done|].
  rewrite !file_pending, Hc', Hc in Hpend. apply (f_equal length) in Hpend. rewrite length_app, !length_drop in Hpend. lia.
Qed.

(** The capturing reader stops; what is behind it stays. *)
Lemma file_behind_stop (r : source) : file_behind (stop_capturing r).2 = file_behind r.
Proof. by destruct r as [[h|s] o]. Qed.

(** What is left to read is what is left of the file. *)
Lemma file_behind_pending `{!FallibleIOReader B} (r : source) fl : file_behind r = Some fl -> pending r = io_pending fl.
Proof.
  destruct r as [[[[[x o1] o2] buf c]|[[x o1] o2]] o]; unfold file_behind, file_of; cbn [ior_file hc_src]; destruct x as [y|b];
    by intros [= <-].
Qed.
End Behind.
