(* ===== verification/ClientVerify.v ===== *)
(** What the client reports with [--verify]: from the command to the lines of the
    log. *)
From S2P Require Import Prelude Utils Serializer Tags Header HeaderOps Allocation HeaderCodec Payload HeaderRoundtrip.
From S2P Require Import RpmFile FileTheorems Signing SigningTheorems Frame Files FilesTheorems Keys Http.
From S2P Require Import Server ServerTheorems Remote RemoteTheorems Config Log Dump Client ClientInput.
From Stdlib Require Import Ascii.
#[local] Open Scope Z_scope.

(** ** Verification *)

(** Neither a panic nor a loop. *)
Definition graceful {A} (o : outcome A) : Prop := match o with Ok _ | Err _ => True | _ => False end.

Section Graceful.
Context `{OpenPGP} `{Hashes} `{Runtime} {P : Type} `{ReaderWithOffset P}.
Context (check_ends : forall keys data sig, graceful (CheckDetachedSignature keys data sig)).

Lemma check_signatures_graceful e1 e2 data m1 m2 (v : SignatureVerifierImpl (P:=P)) :
  graceful ((_ ← check_signature e1 data m1; check_signature e2 data m2) v).1.
Proof.
  assert (forall e m, graceful (check_signature e data m v).1 /\ (check_signature e data m v).2 = v) as Hc.
  { intros e m. split; [|apply check_signature_run]. unfold check_signature, VerifySignature.
    destruct e as [e|]; [|done]. pose proof (check_ends (gpgPublicKeys v) data (ie_payload e)) as Hg.
    by destruct (CheckDetachedSignature _ _ _). }
  destruct (Hc e1 m1) as [Hg Hst]. unfold mbind, M_bind.
  destruct (check_signature e1 data m1 v) as [[u|x|x|] v1]; try done.
  simpl in Hst. subst v1. apply Hc.
Qed.

Lemma VerifyV4_graceful fuel (v : SignatureVerifierImpl (P:=P)) :
  (length (src (mainHeaderData v)) + 1 < fuel)%nat -> graceful (VerifyV4Signature fuel v).1.
Proof.
  intros Hf. unfold VerifyV4Signature. erewrite M_bind_ok by done. cbv beta zeta.
  destruct (headerData_run fuel v Hf) as (d & Hrun & _).
  destruct (find_entry SigTagRSAHeader _), (find_entry SigTagDSAHeader _); [..|done];
    rewrite <- M_bind_assoc, (M_bind_ok _ _ _ _ _ Hrun); apply check_signatures_graceful.
Qed.

(** The payload may fail to be read. *)
Lemma VerifyV3_graceful `{!FallibleReader P} fuel (v : SignatureVerifierImpl (P:=P)) :
  (length (src (mainHeaderData v)) + 1 < fuel)%nat -> (length (pending (payloadReader v)) + 1 < fuel)%nat ->
  usable (payloadReader v) ->
  graceful (VerifyV3Signature fuel v).1 /\ same_verifier v (VerifyV3Signature fuel v).2.
Proof.
  intros Hf Hfp Hv. unfold VerifyV3Signature. erewrite M_bind_ok by done. cbv beta zeta.
  destruct (headerData_run fuel v Hf) as (d & Hrun & Hsrc).
  destruct (ReadAll_cases fuel (payloadReader v) Hfp Hv) as (op & p & Hp & _ & Hop).
  set (v2 := mkVerifier (rpmFile v) d p (gpgPublicKeys v)).
  assert (same_verifier v v2) as Hsame by by split_and!.
  assert (forall m : list Z -> list Z -> M (SignatureVerifierImpl (P:=P)) unit,
    (forall a b, graceful (m a b v2).1 /\ (m a b v2).2 = v2) ->
    graceful ((_ ← on_mainHeaderData (modify Rewind); hd ← on_mainHeaderData (ReadAll fuel);
      pl ← on_payloadReader (ReadAll fuel); m hd pl) v).1 /\
    same_verifier v ((_ ← on_mainHeaderData (modify Rewind); hd ← on_mainHeaderData (ReadAll fuel);
      pl ← on_payloadReader (ReadAll fuel); m hd pl) v).2) as Hread.
  { intros m Hm. rewrite <- M_bind_assoc, (M_bind_ok _ _ _ _ _ Hrun). unfold mbind, M_bind, on_payloadReader.
    cbn [payloadReader]. rewrite Hp. destruct Hop as [[-> _]|[[e ->] _]]; [|done].
    cbn [rpmFile mainHeaderData gpgPublicKeys]. fold v2.
    destruct (Hm (src (mainHeaderData v)) (pending (payloadReader v))) as [Hg Hst]. by rewrite Hst. }
  destruct (find_entry SigTagPGP _), (find_entry SigTagGPG _); [..|done];
    (destruct (find_entry SigTagMD5 _); [|done]); apply Hread; intros hd pl; cbv zeta;
    (case_match; [done|]); (split; [apply check_signatures_graceful|apply check_signatures_run]).
Qed.
End Graceful.

Section Report.
Context `{OS} `{!Reliable} `{KeyFormat} `{Hashes} `{Runtime} `{NetURL} {F B : Type} `{LawfulIOReader F} `{LawfulIOReader B}.
Context `{!FileReader F} `{!LawfulFile F}.
Context (check_ends : forall keys data sig, graceful (CheckDetachedSignature keys data sig)).
Context (fuel : nat).

Abbreviation verifier := (SignatureVerifierImpl (P := SeekableReaderImpl F B)).

(** What a verified file is checked against: its keys, the bytes of its main header,
    and its payload. *)
Context (f : RpmFile) (keys : EntityList) (header payload : list Z).

(** No signature of version 6 is good: verifying them is not implemented. *)
Definition good_signature (v : SignatureVersion) : Prop :=
  (v = SIGNATURE_VERSION_V3 /\ v3_accepts keys (SignatureHeader f) (header ++ payload)) \/
  (v = SIGNATURE_VERSION_V4 /\ v4_accepts keys (SignatureHeader f) header).

Definition log_line (format : list Z) (args : list Arg) : list Z := Sprintf format args ++ [10].

(** What [--verify] writes about a version of signatures. *)
Definition report (verbose : bool) (v : SignatureVersion) (line : list Z) : Prop :=
  let name := Text (SignatureVersion_String v) in
  let only_verbose l := if verbose then l else [] in
  if bool_decide (v ∈ GetSignatureVersions f) then
    (good_signature v /\ line = only_verbose (log_line (str "RPM file signature %v: ok") [name])) \/
    ((~ good_signature v) /\ exists e, line = log_line (str "RPM file signature %v: FAILED (%s)") [name; Text (str e)])
  else line = only_verbose (log_line (str "RPM file signature %v: <not present>") [name]).

Definition ready (versions : list SignatureVersion) (v : verifier) : Prop :=
  rpmFile v = f /\ gpgPublicKeys v = keys /\ src (mainHeaderData v) = header /\
  (SIGNATURE_VERSION_V3 ∈ versions -> SIGNATURE_VERSION_V3 ∈ GetSignatureVersions f ->
     valid (payloadReader v) /\ rest (payloadReader v) = payload).

Lemma ready_same v v' version versions : version ∉ versions -> same_verifier v v' ->
  ready (version :: versions) v ->
  (version <> SIGNATURE_VERSION_V3 -> payloadReader v' = payloadReader v) -> ready versions v'.
Proof.
  intros Hno (Hf & Hk & Hs) (Hf' & Hk' & Hs' & Hp) Hpay. unfold ready. rewrite Hf, Hk, Hs.
  split; [done|]. split; [done|]. split; [done|]. intros Hin Hpres.
  rewrite Hpay by by intros ->. apply Hp; [by apply list_elem_of_further|done].
Qed.

Lemma verify_version_run version versions v :
  (length header + 1 < fuel)%nat -> (length payload + 1 < fuel)%nat -> version ∉ versions ->
  version ∈ AllSignatureVersions -> version ∈ GetSignatureVersions f -> ready (version :: versions) v ->
  exists o v', verify_version fuel version v = (o, v') /\ ready versions v' /\
    ((good_signature version /\ o = Ok tt) \/ ((~ good_signature version) /\ exists e, o = Err e)).
Proof.
  intros Hfh Hfp Hno Hall Hpres Hready. pose proof Hready as (Hf & Hk & Hs & Hp).
  assert (length (src (mainHeaderData v)) + 1 < fuel)%nat as Hfh' by by rewrite Hs.
  assert (forall (o : outcome unit) (P : Prop), graceful o -> (o = Ok tt <-> P) ->
    (P /\ o = Ok tt) \/ ((~ P) /\ exists e, o = Err e)) as Hout.
  { intros [[]|e|p|] P Hg Hiff; try done.
    - left. split; [by apply Hiff|done].
    - right. split; [by intros HP%Hiff|by exists e]. }
  unfold AllSignatureVersions in Hall. rewrite !elem_of_cons, elem_of_nil in Hall.
  destruct Hall as [->|[->|[->|[]]]]; unfold verify_version.
  - rewrite bool_decide_eq_true_2 by done. destruct (Hp (list_elem_of_here _ _) Hpres) as [Hv Hr].
    assert (length (rest (payloadReader v)) + 1 < fuel)%nat as Hfp' by by rewrite Hr.
    destruct (VerifyV3_run fuel v Hfh' Hfp' Hv) as [Hiff Hsame]. rewrite Hk, Hf, Hs, Hr in Hiff.
    pose proof (VerifyV3_graceful check_ends fuel v) as Hv3. destruct (Hv3 Hfh' Hfp' Hv) as [Hg _]. clear Hv3.
    destruct (VerifyV3Signature fuel v) as [o v']. exists o, v'. split; [done|].
    split; [by eapply ready_same|]. apply Hout; [done|]. rewrite Hiff. unfold good_signature.
    split; [by left|by intros [[_ Ha]|[[=] _]]].
  - rewrite bool_decide_eq_false_2, bool_decide_eq_true_2 by done.
    destruct (VerifyV4_run fuel v Hfh') as (Hiff & Hsame & Hpay). rewrite Hk, Hf, Hs in Hiff.
    pose proof (VerifyV4_graceful check_ends fuel v Hfh') as Hg.
    destruct (VerifyV4Signature fuel v) as [o v']. exists o, v'. split; [done|].
    split; [by eapply ready_same|]. apply Hout; [done|]. rewrite Hiff. unfold good_signature.
    split; [by right|by intros [[[=] _]|[_ Ha]]].
  - rewrite !bool_decide_eq_false_2, bool_decide_eq_true_2 by done. exists (Err "implement me"), v. split; [done|].
    split; [by eapply ready_same|]. right. split; [by intros [[[=] _]|[[=] _]]|by eexists].
Qed.

(** *** What is written *)

Definition logs (c : Client) (text : list Z) : Client :=
  mkClient (c_world c) (mkLog (output (c_log c) ++ text) (currentLogLevel (c_log c))) (c_registries c).

Definition verbose_enough (c : Client) : Prop := LOG_LEVEL_INFO <= currentLogLevel (c_log c).

Lemma logs_logs c a b : logs (logs c a) b = logs c (a ++ b).
Proof. unfold logs. simpl. by rewrite app_assoc. Qed.

Lemma logs_nil c : logs c [] = c.
Proof. destruct c as [w [out level] rs]. unfold logs. simpl. by rewrite app_nil_r. Qed.

Lemma say_run format args c : verbose_enough c -> say format args c = (Ok tt, logs c (log_line format args)).
Proof.
  unfold verbose_enough, say, in_log, Infof. intros Hl. by rewrite (proj2 (Z.leb_le _ _) Hl).
Qed.

Lemma when_verbose_run o format args c : verbose_enough c ->
  when_verbose o (say format args) c = (Ok tt, logs c (if verboseOutput o then log_line format args else [])).
Proof. intros Hl. unfold when_verbose. destruct (verboseOutput o); [by apply say_run|by rewrite logs_nil]. Qed.

Lemma verify_versions_run o versions : forall v c,
  (length header + 1 < fuel)%nat -> (length payload + 1 < fuel)%nat -> NoDup versions ->
  versions ⊆ AllSignatureVersions -> ready versions v -> verbose_enough c ->
  exists lines, Forall2 (report (verboseOutput o)) versions lines /\
    verify_versions fuel o (GetSignatureVersions f) versions v c = (Ok tt, logs c (mjoin lines)).
Proof.
  induction versions as [|version versions IH]; intros v c Hh Hp Hnd Hall Hready Hlog.
  { exists []. split; [constructor|]. by rewrite logs_nil. }
  apply NoDup_cons in Hnd as [Hno Hnd].
  assert (versions ⊆ AllSignatureVersions) as Hall' by (intros x Hx; apply Hall; by apply list_elem_of_further).
  assert (forall v' line (m : M Client unit), ready versions v' -> report (verboseOutput o) version line ->
    m c = (Ok tt, logs c line) ->
    exists lines, Forall2 (report (verboseOutput o)) (version :: versions) lines /\
      (_ ← m; verify_versions fuel o (GetSignatureVersions f) versions v') c = (Ok tt, logs c (mjoin lines))) as Hnext.
  { intros v' line m Hv' Hline Hm. rewrite (M_bind_ok _ _ _ _ _ Hm).
    destruct (IH v' (logs c line) Hh Hp Hnd Hall' Hv' Hlog) as (lines & Hlines & Hrun).
    exists (line :: lines). split; [by constructor|]. by rewrite Hrun, logs_logs. }
  cbn [verify_versions]. unfold GoSet.Contains. unfold report in Hnext.
  destruct (decide (version ∈ GetSignatureVersions f)) as [Hin|Hin].
  - rewrite bool_decide_eq_true_2 in * by done.
    destruct (verify_version_run version versions v Hh Hp Hno (Hall _ (list_elem_of_here _ _)) Hin Hready)
      as (res & v' & -> & Hv' & [[Hgood ->]|[Hbad [e ->]]]).
    + eapply Hnext; [done|by left|by apply when_verbose_run].
    + eapply Hnext; [done|right; split; [done|by exists e]|by apply say_run].
  - rewrite bool_decide_eq_false_2 in * by done.
    eapply Hnext; [|done|by apply when_verbose_run].
    destruct Hready as (Hf & Hk & Hs & Hpay). unfold ready. split; [done|]. split; [done|]. split; [done|].
    intros Hv3 Hpres. apply Hpay; [by apply list_elem_of_further|done].
Qed.
End Report.

(** ** Where the payload starts *)

Section Payload.
Context `{Runtime} `{Hashes} {R : Type} `{LawfulReader R}.

(** The offset is the number of bytes that were read. *)
Definition counted (all : list Z) (r : R) : Prop :=
  valid r /\ Offset r = Zlen all - Zlen (rest r) /\ exists pre, all = pre ++ rest r.

Lemma counted_maintained all n r : Zlen all < 2 ^ 64 -> counted all r -> counted all (Read n r).2.
Proof.
  intros Hlen (Hv & Ho & pre & Hall). destruct (read_law n r Hv) as (bs & err & r' & -> & Hv' & Hrest & _ & Ho' & _).
  simpl. split; [done|]. rewrite Hrest, app_assoc in Hall. split; [|by eexists].
  rewrite Ho', Ho, Hrest, wrap_small; rewrite ?Zlen_app; [lia|].
  pose proof (f_equal Zlen Hall) as Hz. rewrite !Zlen_app in Hz.
  pose proof (Zlen_nonneg pre). pose proof (Zlen_nonneg bs). pose proof (Zlen_nonneg (rest r')). unfold in_width. lia.
Qed.

Lemma ParseRPM_offset f (r r' : R) : ParseRPM false r = (Ok f, r') -> PayloadStartOffset f = Offset r'.
Proof.
  intros Hrun. unfold ParseRPM in Hrun.
  apply M_bind_inv in Hrun as (lead & r1 & _ & Hrun). apply M_bind_inv in Hrun as (sig & r2 & _ & Hrun).
  apply M_bind_inv in Hrun as (main & r3 & _ & Hrun).
  apply M_bind_inv in Hrun as (se & r4 & E4 & Hrun). injection E4 as _ <-.
  apply M_bind_inv in Hrun as (off & r5 & E5 & Hrun). injection E5 as <- <-.
  apply M_bind_inv in Hrun as (sv & r6 & E6 & Hrun). injection E6 as _ <-.
  apply M_bind_inv in Hrun as (rpm & r7 & E7 & Hrun). injection E7 as <- <-.
  apply M_bind_inv in Hrun as ([] & r8 & E8 & Hrun). injection E8 as _ <-. by injection Hrun as <- <-.
Qed.

Lemma ParseRPM_payload f (r r' : R) :
  valid r -> Offset r = 0 -> Zlen (rest r) < 2 ^ 64 -> ParseRPM false r = (Ok f, r') ->
  rest r' = drop (Z.to_nat (PayloadStartOffset f)) (rest r) /\ 0 <= PayloadStartOffset f <= Zlen (rest r).
Proof.
  intros Hv Ho Hlen Hrun.
  assert (counted (rest r) r) as Hc by (split; [done|split; [lia|by exists []]]).
  pose proof (maintains_ParseRPM (counted (rest r)) (fun n r => counted_maintained _ n r Hlen) r Hc) as (_ & Hoff & pre & Hall).
  rewrite Hrun in Hoff, Hall. simpl in Hoff, Hall. rewrite (ParseRPM_offset _ _ _ Hrun), Hoff.
  pose proof (f_equal Zlen Hall) as Hz. rewrite Zlen_app in Hz. pose proof (Zlen_nonneg pre). pose proof (Zlen_nonneg (rest r')).
  split; [|lia]. rewrite Hall at 2. rewrite drop_app_length'; [done|]. unfold Zlen in *. lia.
Qed.
End Payload.

(** ** [--verify] *)

(** The public keys of [keyFiles], with the files [fs]. *)
Fixpoint public_keys `{KeyFormat} (fs : filemap) (keyFiles : list string) (keyRing : EntityList) : outcome EntityList :=
  match keyFiles with
  | [] => Ok keyRing
  | keyFile :: keyFiles =>
      match fs !! keyFile with
      | None => Err "no such file or directory"
      | Some content => keys ← LoadPublicKey content; public_keys fs keyFiles (keyRing ++ keys)
      end
  end.

Lemma LoadPublicKeys_run `{OS} `{!Reliable} `{KeyFormat} keyFiles : forall ring w,
  exists w', LoadPublicKeysLoop keyFiles ring w = (public_keys (files w) keyFiles ring, w') /\ files w' = files w.
Proof.
  induction keyFiles as [|name names IH]; intros ring w; [by exists w|]. cbn [LoadPublicKeysLoop public_keys].
  unfold mbind at 1, M_bind at 1. rewrite os_Open_run, no_fault. destruct (files w !! name) as [content|]; [|by eexists].
  unfold mbind, M_bind, lift. destruct (LoadPublicKey content) as [keys|e|p|]; try by eexists.
  destruct (IH (ring ++ keys) (after (files w) w)) as (w' & -> & Hf). by exists w'.
Qed.

Section Run.
Context `{OS} `{!Reliable} `{KeyFormat} `{Hashes} `{Runtime} `{NetURL} {F B : Type} `{LawfulIOReader F} `{LawfulIOReader B}.
Context `{!FileReader F} `{!LawfulFile F}.
Context (http_Get : string -> outcome (Z * B)).
Context {Body : Type} `{ReaderWithOffset Body} (Do : URL -> list Z -> outcome (Z * Body)).
Context (range : gset SignatureVersion -> list SignatureVersion) (env_token : string) (fuel : nat) (now : Z).
Context (check_ends : forall keys data sig, graceful (CheckDetachedSignature keys data sig)).

Definition with_world (w : World) (c : Client) : Client := mkClient w (c_log c) (c_registries c).

Lemma in_world_run {A} (m : M World A) c o w : m (c_world c) = (o, w) -> in_world m c = (o, with_world w c).
Proof. intros Hm. unfold in_world. by rewrite Hm. Qed.

Lemma exit_on_error_ok {A} msg (m : M World A) c a w :
  m (c_world c) = (Ok a, w) -> exit_on_error msg m c = (Ok a, with_world w c).
Proof. intros Hm. apply in_world_run. unfold wrap_err. by rewrite Hm. Qed.

(** The reader of a file. *)
Definition file_reader (name : string) (content : list Z) : SeekableReaderImpl F B :=
  NewSeekableReader (NewIOReaderWithOffset (inl (os_File name content))).

Lemma OpenFileOrUrl_file path w content :
  is_url path = false -> files w !! path = Some content ->
  OpenFileOrUrl (F:=F) http_Get path w = (Ok (file_reader path content), after (files w) w).
Proof.
  intros Hu Hf. unfold OpenFileOrUrl. rewrite Hu, os_Open_run, no_fault, Hf. done.
Qed.

Lemma SeekRelativeToStart_file offset name content : 0 <= offset ->
  exists r, SeekRelativeToStart offset (file_reader name content) = (Ok tt, r) /\ valid r /\
    rest r = drop (Z.to_nat offset) content.
Proof.
  intros Ho. unfold SeekRelativeToStart. simpl. destruct (Z.ltb_spec offset 0); [lia|]. eexists. split; [done|].
  split; [done|]. exact (rest_Seek (Z.to_nat offset) name content).
Qed.

(** The payload of [f] in the file [content]. *)
Definition payload_of (f : RpmFile) (content : list Z) : list Z := drop (Z.to_nat (PayloadStartOffset f)) content.

Lemma open_payload_run o f c content :
  is_url (rpmFilePath o) = false -> files (c_world c) !! rpmFilePath o = Some content ->
  0 <= PayloadStartOffset f < 2 ^ 63 ->
  exists r w', open_payload http_Get o f c = (Ok r, with_world w' c) /\ files w' = files (c_world c) /\
    (SIGNATURE_VERSION_V3 ∈ GetSignatureVersions f -> valid r /\ rest r = payload_of f content).
Proof.
  intros Hu Hf Hoff. unfold open_payload, GoSet.Contains.
  destruct (decide (SIGNATURE_VERSION_V3 ∈ GetSignatureVersions f)) as [Hin|Hin].
  - rewrite bool_decide_eq_true_2 by done.
    erewrite M_bind_ok by by apply exit_on_error_ok, OpenFileOrUrl_file.
    assert (signed 64 (PayloadStartOffset f) = PayloadStartOffset f) as ->.
    { unfold signed. rewrite wrap_small by (unfold in_width; lia). case_match; lia. }
    destruct (SeekRelativeToStart_file (PayloadStartOffset f) (rpmFilePath o) content) as (r & -> & Hv & Hr); [lia|].
    exists r, (after (files (c_world c)) (c_world c)). by split_and!.
  - rewrite bool_decide_eq_false_2 by done. exists (file_reader "" []), (c_world c). by destruct c.
Qed.

Lemma verify_run o f c content keys header :
  is_url (rpmFilePath o) = false -> files (c_world c) !! rpmFilePath o = Some content ->
  0 <= PayloadStartOffset f < 2 ^ 63 -> gpgPublicFiles o <> [] ->
  public_keys (files (c_world c)) (gpgPublicFiles o) [] = Ok keys -> GetData_ (MainHeader f) = Ok header ->
  (length header + 1 < fuel)%nat -> (length content + 1 < fuel)%nat -> verbose_enough c ->
  exists lines w', verify http_Get fuel o f c =
      (Ok tt, logs (with_world w' c) ((if verboseOutput o then
         log_line (str "Verifying against public key %s") [Text (list_text (gpgPublicFiles o))] else []) ++ mjoin lines)) /\
    files w' = files (c_world c) /\
    Forall2 (report f keys header (payload_of f content) (verboseOutput o)) AllSignatureVersions lines.
Proof.
  intros Hu Hf Hoff Hne Hkeys Hdata Hfh Hfc Hlog. unfold verify.
  destruct (Nat.eqb_spec (length (gpgPublicFiles o)) 0) as [Hz|_]; [by destruct (gpgPublicFiles o)|].
  rewrite (M_bind_ok _ _ _ _ _ (when_verbose_run o _ _ c Hlog)).
  set (hello := if verboseOutput o then _ else _).
  destruct (LoadPublicKeys_run (gpgPublicFiles o) [] (c_world c)) as (w1 & Hload & Hf1). rewrite Hkeys in Hload.
  rewrite (M_bind_ok _ _ _ keys (with_world w1 (logs c hello))) by by apply exit_on_error_ok.
  destruct (open_payload_run o f (with_world w1 (logs c hello)) content) as (r & w2 & Hopen & Hf2 & Hr);
    [done|simpl; by rewrite Hf1|done|].
  rewrite (M_bind_ok _ _ _ _ _ Hopen). simpl in Hf2.
  assert (NewSignatureVerifier f r keys = Ok (mkVerifier f (NewArrayReader header) r keys)) as ->
    by (unfold NewSignatureVerifier; by rewrite Hdata).
  erewrite M_bind_ok by reflexivity.
  change (with_world w2 (with_world w1 (logs c hello))) with (with_world w2 (logs c hello)).
  destruct (verify_versions_run check_ends fuel f keys header (payload_of f content) o AllSignatureVersions
    (mkVerifier f (NewArrayReader header) r keys) (with_world w2 (logs c hello))) as (lines & Hlines & Hrun).
  - done.
  - unfold payload_of. rewrite length_drop. lia.
  - apply (bool_decide_unpack _). by vm_compute.
  - done.
  - split; [done|]. split; [done|]. split; [done|]. intros _ Hin. by apply Hr.
  - exact Hlog.
  - exists lines, w2. split; [|split; [congruence|done]].
    rewrite Hrun. unfold logs, with_world. simpl. by rewrite app_assoc.
Qed.

(** *** Up to the parsed file *)

(** Nothing is printed of the package. *)
Definition prints_nothing (o : Options) : Prop :=
  printInfo o = false /\ dumpSignatureHeader o = false /\ dumpMainHeader o = false.

(** The client after opening its input. *)
Definition opened (o : Options) (c : Client) : Client :=
  with_world (after (files (c_world c)) (c_world c))
    (logs c (if verboseOutput o then log_line (str "Reading input file %s" ++ [10]) [Text (str (rpmFilePath o))] else [])).

(** What the parser reads from: through the capturing reader if a server is to sign. *)
Definition source_of (o : Options) (content : list Z)
    : IOReaderWithOffset (headerCapturingReader (SeekableReaderImpl F B) + SeekableReaderImpl F B) :=
  NewIOReaderWithOffset
    (if nonempty (signServerUrl o) && (signingMode o =? SIGNING_MODE_RPM)
     then inl (newHeaderCapturingReader (file_reader (rpmFilePath o) content))
     else inr (file_reader (rpmFilePath o) content)).

Lemma source_of_rest o content : rest (source_of o content) = content.
Proof. unfold source_of. destruct (_ && _); exact (rest_File (rpmFilePath o) content). Qed.

Lemma source_of_valid o content : valid (source_of o content).
Proof. done. Qed.

Lemma run_opened o c content :
  is_url (rpmFilePath o) = false -> files (c_world c) !! rpmFilePath o = Some content ->
  signingMode o <> SIGNING_MODE_GENERIC -> prints_nothing o -> verbose_enough c ->
  run http_Get Do range env_token fuel now o c =
    match ParseRPM false (source_of o content) with
    | (Ok f, rd) =>
        (_ ← verify_if_signed http_Get fuel o f;
         if signingMode o =? SIGNING_MODE_RPM
         then sign_rpm Do env_token fuel now o f (stop_capturing rd).1 (stop_capturing rd).2 else mret tt) (opened o c)
    | (Err e, _) => (Err ("Error during RPM file reading, error: " +:+ e), opened o c)
    | (Panic p, _) => (Panic p, opened o c)
    | (Diverge, _) => (Diverge, opened o c)
    end.
Proof.
  intros Hu Hf Hmode (Hinfo & Hds & Hdm) Hlog.
  unfold run. rewrite (M_bind_ok _ _ _ _ _ (when_verbose_run o _ _ c Hlog)).
  set (c1 := logs c _). erewrite M_bind_ok by by apply exit_on_error_ok, OpenFileOrUrl_file.
  change (with_world (after (files (c_world c1)) (c_world c1)) c1) with (opened o c).
  rewrite (proj2 (Z.eqb_neq _ _) Hmode). unfold ParseRPMFromReader. fold (source_of o content).
  destruct (ParseRPM false (source_of o content)) as [[f|e|p|] rd]; try done.
  erewrite M_bind_ok by reflexivity. rewrite (surjective_pairing (stop_capturing rd)), Hinfo.
  erewrite M_bind_ok by reflexivity. unfold dump_headers. rewrite Hds, Hdm.
  by erewrite M_bind_ok by by erewrite M_bind_ok by reflexivity.
Qed.

(** A request only to verify. *)
Definition only_verify (o : Options) : Prop :=
  verifySignatures o = true /\ signingMode o = SIGNING_MODE_NOT_SET /\ prints_nothing o.

Lemma run_verify_lines o c content f (r' : arrayReader) keys header :
  only_verify o -> is_url (rpmFilePath o) = false -> files (c_world c) !! rpmFilePath o = Some content ->
  Zlen content < 2 ^ 63 -> ParseRPM false (NewArrayReader content) = (Ok f, r') ->
  GetSignatureVersions f <> ∅ -> gpgPublicFiles o <> [] ->
  public_keys (files (c_world c)) (gpgPublicFiles o) [] = Ok keys -> GetData_ (MainHeader f) = Ok header ->
  (length header + 1 < fuel)%nat -> (length content + 1 < fuel)%nat -> verbose_enough c ->
  exists c' greeting lines, run http_Get Do range env_token fuel now o c = (Ok tt, c') /\
    files (c_world c') = files (c_world c) /\
    output (c_log c') = output (c_log c) ++ greeting ++ mjoin lines /\ (verboseOutput o = false -> greeting = []) /\
    Forall2 (report f keys header (rest r') (verboseOutput o)) AllSignatureVersions lines.
Proof.
  intros (Hver & Hmode & Hquiet) Hu Hf Hlen Hparse Hsigned Hne Hkeys Hdata Hfh Hfc Hlog.
  destruct (ParseRPM_payload f (NewArrayReader content) r') as [Hpay Hoff];
    [simpl; lia|done|change (Zlen content < 2 ^ 64); lia|done|].
  change (rest (NewArrayReader content)) with content in Hpay, Hoff.
  rewrite (run_opened o c content) by (done || by rewrite Hmode).
  assert ((ParseRPM false (source_of o content)).1 = Ok f) as Hsame.
  { destruct (ParseRPM_same (source_of o content) (NewArrayReader content)) as [-> _]; [done|simpl; lia| |by rewrite Hparse].
    unfold view. by rewrite source_of_rest. }
  destruct (ParseRPM false (source_of o content)) as [parsed rd]. simpl in Hsame. subst parsed.
  assert (GoSet.IsEmpty (GetSignatureVersions f) = false) as Hempty.
  { unfold GoSet.IsEmpty, GoSet.Size. apply Z.eqb_neq. intros Hz. destruct Hsigned.
    apply leibniz_equiv, size_empty_inv. lia. }
  unfold verify_if_signed. rewrite Hver, Hempty, Hmode. simpl negb. cbv iota.
  destruct (verify_run o f (opened o c) content keys header) as (lines & w' & Hrun & Hfiles & Hlines);
    [done|done|lia|done|done|done|done|done|done|].
  erewrite M_bind_ok by exact Hrun. set (keys_line := if verboseOutput o then log_line _ [Text (list_text _)] else _).
  set (hello := if verboseOutput o then log_line (str "Reading input file %s" ++ [10]) [Text (str (rpmFilePath o))] else []).
  eexists _, (hello ++ keys_line), lines. split; [done|]. split; [done|]. split.
  - change ((output (c_log c) ++ hello) ++ keys_line ++ mjoin lines = output (c_log c) ++ (hello ++ keys_line) ++ mjoin lines).
    by rewrite <- !app_assoc.
  - split; [|by rewrite Hpay]. intros Hq. unfold hello, keys_line. by rewrite Hq.
Qed.

(** C19. With [--verify] and nothing else asked for, for a package that parses and is
    signed and keys that load: the client exits with status 0, changes no file, and
    writes one line for each signature version in order (silent about those that are
    fine or absent unless it is verbose). The line says that the signature is good exactly
    if it is a signature of version 4 that the keys accept for the main header of the
    package, or one of version 3 that they accept for the main header and the bytes
    behind it that parsing leaves unread. A signature of version 6 is always reported as
    failed: verifying it is not implemented. A bad signature does not change the status. *)
Theorem run_verify o c content f (r' : arrayReader) keys header :
  only_verify o -> is_url (rpmFilePath o) = false -> files (c_world c) !! rpmFilePath o = Some content ->
  Zlen content < 2 ^ 63 -> ParseRPM false (NewArrayReader content) = (Ok f, r') ->
  GetSignatureVersions f <> ∅ -> gpgPublicFiles o <> [] ->
  public_keys (files (c_world c)) (gpgPublicFiles o) [] = Ok keys -> GetData_ (MainHeader f) = Ok header ->
  (length header + 1 < fuel)%nat -> (length content + 1 < fuel)%nat -> verbose_enough c ->
  exists c' greeting lines, run http_Get Do range env_token fuel now o c = (Ok tt, c') /\
    files (c_world c') = files (c_world c) /\
    output (c_log c') = output (c_log c) ++ greeting ++ mjoin lines /\ (verboseOutput o = false -> greeting = []) /\
    Forall2 (report f keys header (rest r') (verboseOutput o)) AllSignatureVersions lines.
Proof. apply run_verify_lines. Qed.
End Run.

(** ** A witness *)

Section Witness.
#[local] Existing Instance reliable_os.
#[local] Existing Instance checksums.
#[local] Existing Instance doubling.
#[local] Existing Instance checksum_pgp.
#[local] Existing Instance sample_keyformat.
#[local] Existing Instance sample_neturl.

(** A file that is read at most five bytes at a time. *)
Record DiskFile := mkDisk { df_name : string; df_content : list Z; df_pos : nat }.

#[local] Instance sample_read : IOReader DiskFile := fun n f =>
  let bs := take (Nat.min n 5) (drop (df_pos f) (df_content f)) in
  ((bs, if (df_pos f <? length (df_content f))%nat then None else Some EOF),
   mkDisk (df_name f) (df_content f) (df_pos f + length bs)).

#[local, refine] Instance sample_read_lawful : LawfulIOReader DiskFile := {
  io_rest f := drop (df_pos f) (df_content f);
}.
Proof.
  intros n [name l p]. unfold ioRead, sample_read. cbn [df_pos df_content].
  set (bs := take (Nat.min n 5) (drop p l)). eexists _, _, _. split; [reflexivity|]. cbn [df_pos df_content].
  assert (length bs = Nat.min (Nat.min n 5) (length l - p))%nat as Hlen
    by (unfold bs; by rewrite length_take, length_drop).
  split; [|split; [lia|]].
  - rewrite <- drop_drop. rewrite <- (take_drop (length bs) (drop p l)) at 1. f_equal. rewrite Hlen. unfold bs. clear bs Hlen.
    destruct (decide (Nat.min n 5 <= length l - p)%nat); [by rewrite Nat.min_l by lia|].
    pose proof (length_drop l p). rewrite (take_ge _ (Nat.min n 5)), take_ge by lia. done.
  - destruct (Nat.ltb_spec p (length l)).
    + left. split; [done|]. destruct n as [|n]; [by left|right]. intros Hb. rewrite Hb in Hlen. cbn [length] in Hlen. lia.
    + right. split; [done|]. apply drop_ge. lia.
Defined.

#[local] Instance sample_file_reader : FileReader DiskFile := {
  os_File name c := mkDisk name c 0;
  Seek n f := mkDisk (df_name f) (df_content f) n;
  reread m f := mkDisk (df_name f) (default (df_content f) (m !! df_name f)) (df_pos f);
}.
#[local, refine] Instance sample_file_lawful : LawfulFile DiskFile := {
  file_name := df_name;
  file_content := df_content;
  file_pos := df_pos;
}.
Proof.
  - done.
  - done.
  - done.
  - intros n [name l p]. unfold ioRead, sample_read. cbn [df_pos df_content df_name].
    split; [done|]. split; [done|]. split; [done|]. destruct (Nat.ltb_spec p (length l)); [done|]. intros _.
    rewrite drop_ge by lia. apply take_nil.
  - done.
  - intros m [name l p]. simpl. by intros ->.
Defined.

Definition sample_signed_content : list Z :=
  (headers_of (SignRpm 0 sample_rsa_key sample_parsed_file).2).2 ++ sample_payload.
Definition sample_signed_parse := ParseRPM false (NewArrayReader sample_signed_content).
Definition sample_signed_file : RpmFile := match sample_signed_parse.1 with Ok f => f | _ => sample_file end.
Definition sample_signed_header : list Z :=
  match GetData_ (MainHeader sample_signed_file) with Ok d => d | _ => [] end.
Definition sample_verify_options : Options :=
  mkOptions "" None ["pub.asc"] "" "" false "" true false false false true SIGNING_MODE_NOT_SET false ∅ ["in.rpm"].
Definition sample_verify_client : Client :=
  mkClient (mkWorld {[ "in.rpm" := sample_signed_content; "pub.asc" := [45] ]} []) rootLogger (tagsById, signatureTagsByID).

Lemma run_verify_witness :
  let c' := run (F:=DiskFile) (B:=DiskFile) (Body:=arrayReader) (fun _ => Err "offline") (fun _ _ => Err "offline")
    elements "" sample_fuel 0 sample_verify_options sample_verify_client in
  c'.1 = Ok tt /\
  exists greeting lines, output (c_log c'.2) = output rootLogger ++ greeting ++ mjoin lines /\
    Forall2 (report sample_signed_file sample_keys sample_signed_header (rest sample_signed_parse.2) true)
      AllSignatureVersions lines.
Proof.
  assert (Reliable) as Hr by by intros i.
  assert (forall keys data sig, graceful (CheckDetachedSignature keys data sig)) as Hends.
  { intros keys data sig. simpl. by case_bool_decide. }
  destruct (run_verify (F:=DiskFile) (B:=DiskFile) (Body:=arrayReader) (fun _ => Err "offline")
    (fun _ _ => Err "offline") elements "" sample_fuel 0 Hends sample_verify_options sample_verify_client sample_signed_content
    sample_signed_file sample_signed_parse.2 sample_keys sample_signed_header) as (c' & greeting & lines & Hrun & _ & Hout & _ & Hlines).
  - by split_and!.
  - reflexivity.
  - reflexivity.
  - by vm_compute.
  - vm_compute. reflexivity.
  - intros E. assert (GoSet.IsEmpty (GetSignatureVersions sample_signed_file) = false) as Hne by (vm_compute; reflexivity).
    rewrite E in Hne. discriminate Hne.
  - discriminate.
  - reflexivity.
  - vm_compute. reflexivity.
  - apply Nat.ltb_lt. vm_compute. reflexivity.
  - apply Nat.ltb_lt. vm_compute. reflexivity.
  - by vm_compute.
  - cbv zeta. rewrite Hrun. split; [reflexivity|]. exists greeting, lines. split; [exact Hout|exact Hlines].
Defined.
End Witness.
