(* ===== verification/ClientSign.v ===== *)
(** What the client leaves when it signs a package: from the command line to the
    file, alone and with a server, and that [--verify] then accepts the file. *)
From S2P Require Import Prelude Utils Serializer Tags Header Layout HeaderSpec HeaderOps Allocation IndexUpdate Payload.
From S2P Require Import HeaderCodec Codec HeaderRoundtrip RpmFile FileRoundtrip FileTheorems Signing SigningTheorems.
From S2P Require Import Frame Files FilesTheorems Keys Http Server ServerTheorems Remote RemoteTheorems.
From S2P Require Import Config Log Dump Client ClientTheorems ClientInput ClientVerify.
From Stdlib Require Import Ascii.
#[local] Open Scope Z_scope.

(** ** Valid files that have been parsed *)

(** [f'] is [f] as the parser returns it. *)
Record parsed_from `{Runtime} (f f' : RpmFile) : Prop := {
  pf_lead : Lead f' = Lead f;
  pf_sig : SignatureHeader f' = parsed_header 96 (SignatureHeader f);
  pf_main : exists off, MainHeader f' = with_digests (header_bytes (MainHeader f)) (parsed_header off (MainHeader f));
}.

Section Parsed.
Context `{Runtime} `{Hashes} (f f' : RpmFile) (Hp : parsed_from f f').

Lemma parsed_sig_entries : entries (SignatureHeader f') = entries (SignatureHeader f).
Proof. by rewrite (pf_sig _ _ Hp). Qed.

Lemma parsed_main_entries : entries (MainHeader f') = entries (MainHeader f).
Proof. destruct (pf_main _ _ Hp) as [off ->]. done. Qed.

Lemma parsed_header_bytes : header_bytes (MainHeader f') = header_bytes (MainHeader f).
Proof. destruct (pf_main _ _ Hp) as [off ->]. done. Qed.

Lemma parsed_user_entries : user_entries (SignatureHeader f') = user_entries (SignatureHeader f).
Proof. by rewrite (pf_sig _ _ Hp). Qed.

Lemma parsed_versions v : v ∈ GetSignatureVersions f' <-> v ∈ GetSignatureVersions f.
Proof. rewrite !elem_of_GetSignatureVersions. unfold has_tag. by rewrite !(find_entry_entries _ _ _ parsed_sig_entries). Qed.

Lemma parsed_file_valid : file_valid f -> file_valid f'.
Proof.
  intros [Hl Hs Hm Ht Hver Htr Hsz Hd]. pose proof (pf_lead _ _ Hp) as HL. pose proof parsed_sig_entries as Hes.
  constructor; rewrite ?HL, ?parsed_header_bytes; try done.
  - rewrite (pf_sig _ _ Hp). exact (writable_parsed false [] 96 _ Hs).
  - destruct (pf_main _ _ Hp) as [off ->]. by apply writable_parsed.
  - unfold GetFileFormatVersion in *. by rewrite (find_entry_entries _ _ _ parsed_main_entries), HL.
  - by rewrite (find_entry_entries _ _ _ Hes).
  - unfold size_entry in *. by rewrite !(find_entry_entries _ _ _ Hes).
  - destruct Hd as [H1' H2' H3']. constructor; intros *; rewrite ?(find_entry_entries _ _ _ Hes); eauto.
Qed.

Lemma parsed_signable tag data :
  file_valid f -> signable (SignatureHeader f) tag data -> signable (SignatureHeader f') tag data.
Proof.
  intros Hv [_ _ Hmain Hroom Hne Hb Hrep]. pose proof (fv_sig _ (parsed_file_valid Hv)) as [Hwf Hpk _ _ Hm'].
  constructor; try done.
  - unfold room, fits in *. by rewrite parsed_sig_entries.
  - by rewrite parsed_user_entries.
Qed.
End Parsed.

(** ** Signed copies *)

(** [f1] is [f] with the signature [data] under [tag]. *)
Record signed_copy `{OpenPGP} `{Hashes} (f f1 : RpmFile) (tag other : SignatureTagValue) (data : list Z) : Prop := {
  sc_valid : file_valid f1;
  sc_lead : Lead f1 = Lead f;
  sc_main : entries (MainHeader f1) = entries (MainHeader f);
  sc_bytes : header_bytes (MainHeader f1) = header_bytes (MainHeader f);
  sc_user : delete TAG_RESERVEDSPACE (user_entries (SignatureHeader f1)) =
    <[ID tag := mkItem FORMAT_TYPE_BINARY (Zlen data) data]>
      (delete TAG_RESERVEDSPACE (unsigned_items other (user_entries (SignatureHeader f))));
  sc_v4 : SIGNATURE_VERSION_V4 ∈ GetSignatureVersions f1;
  sc_v3 : SIGNATURE_VERSION_V3 ∉ GetSignatureVersions f1;
  sc_v6 : SIGNATURE_VERSION_V6 ∈ GetSignatureVersions f1 <-> SIGNATURE_VERSION_V6 ∈ GetSignatureVersions f;
  sc_good keys : (exists ent, CheckDetachedSignature keys (header_bytes (MainHeader f)) data = Ok ent) ->
    v4_accepts keys (SignatureHeader f1) (header_bytes (MainHeader f));
}.

Lemma elem_of_version6 f :
  SIGNATURE_VERSION_V6 ∈ GetSignatureVersions f <-> has_tag SigTagOpenPGP (SignatureHeader f).
Proof. rewrite elem_of_GetSignatureVersions. split; [by intros [[[=] _]|[[[=] _]|[_ Ht]]]|]. intros Ht. by right; right. Qed.

Section Copies.
Context `{OpenPGP} `{Hashes} `{Runtime} (f : RpmFile) (tag other : SignatureTagValue) (data : list Z).

Lemma signed_copy_parsed f1 f2 :
  signed_copy f f1 tag other data -> parsed_from f1 f2 -> signed_copy f f2 tag other data.
Proof.
  intros [Hv Hl Hm Hb Hu H4 H3 H6 Hg] Hp. constructor.
  - by eapply parsed_file_valid.
  - by rewrite (pf_lead _ _ Hp).
  - by rewrite (parsed_main_entries _ _ Hp).
  - by rewrite (parsed_header_bytes _ _ Hp).
  - by rewrite (parsed_user_entries _ _ Hp).
  - by rewrite (parsed_versions _ _ Hp).
  - by rewrite (parsed_versions _ _ Hp).
  - by rewrite (parsed_versions _ _ Hp).
  - intros keys Hk. unfold v4_accepts. rewrite !(find_entry_entries _ _ _ (parsed_sig_entries _ _ Hp)). by apply Hg.
Qed.

(** Signing a valid file that has been parsed. *)
Lemma sign_parsed now key d' f' :
  file_valid f -> reserved_binary (SignatureHeader f) -> signature_tags key = Some (tag, other) ->
  SignDigest now key (header_bytes (MainHeader f)) = (Ok data, d') ->
  signable (SignatureHeader f) tag data -> parsed_from f f' ->
  exists f1, SignRpm now key f' = (Ok tt, f1) /\ signed_copy f f1 tag other data.
Proof.
  intros Hf Hrb Htags Hsign Hok Hp. pose proof (parsed_file_valid _ _ Hp Hf) as Hf'.
  assert (Sha256Digest (MainHeader f') = header_bytes (MainHeader f)) as Hdig
    by (destruct (pf_main _ _ Hp) as [off ->]; done).
  rewrite <- Hdig in Hsign. pose proof (parsed_signable _ _ Hp tag data Hf Hok) as Hok'.
  destruct (SignRpm_run now key f' tag other data d' Htags Hsign Hok') as (sig' & Hsh & Hrun).
  pose proof (signature_tags_pair _ _ _ Htags) as Hpair. pose proof (sg_main _ _ _ Hok') as Hmain.
  set (f1 := mkRpmFile _ sig' _ _ _) in Hrun. exists f1. split; [done|].
  destruct (signed_versions _ _ _ _ _ f1 Hpair Hsh Hmain eq_refl) as [H4 H3].
  constructor; try done.
  - apply (file_valid_signed f' sig' tag other data Hf' Hpair Hsh d'). unfold reserved_binary.
    by rewrite (parsed_user_entries _ _ Hp).
  - exact (pf_lead _ _ Hp).
  - exact (parsed_main_entries _ _ Hp).
  - exact (parsed_header_bytes _ _ Hp).
  - rewrite <- (parsed_user_entries _ _ Hp). apply Hsh.
  - rewrite <- (parsed_versions _ _ Hp), !elem_of_version6. unfold has_tag.
    rewrite <- !(fmap_is_Some item_of). rewrite (signed_lookup SigTagOpenPGP _ _ _ _ _ Hsh (hw_base _ (sg_wf _ _ _ Hok')) Hmain); [done|].
    rewrite !elem_of_cons in Hpair.
    destruct Hpair as [[= -> ->]|[[= -> ->]|?%not_elem_of_nil]]; [| |done]; by apply (bool_decide_unpack _).
  - intros keys Hent. exact (signed_v4_accepts keys (SignatureHeader f') sig' tag other data _ Hpair Hsh Hmain Hent).
Qed.
End Copies.

(** A valid file is written as its bytes. *)
Lemma headers_of_valid `{Runtime} `{Hashes} f : file_valid f -> headers_of f = (Ok tt, file_bytes f).
Proof.
  intros Hf. assert (wvalid NewArrayWriter) as Hwv by done. assert (valid (NewArrayReader [])) as Hp by (simpl; lia).
  destruct (WriteRPM_run 2 f NewArrayWriter (NewArrayReader []) (fv_lead _ Hf) (fv_sig _ Hf) (fv_main _ Hf) Hwv Hp)
    as (wa & pa & Hra & Hwa); [simpl; lia|].
  destruct (WriteRPM_headers 2 f NewArrayWriter (NewArrayReader []) Hwv Hp) as (wb & pb & Hrb & _ & Hwb); [simpl; lia|].
  rewrite Hra in Hrb. injection Hrb as Ho <- <-. rewrite Hwa, <- Ho in Hwb. apply app_inv_head, app_inv_tail in Hwb.
  destruct (headers_of f) as [o bs]. simpl in *. by subst.
Qed.

(** ** [-s] on the command line *)

(** A request only to sign a package: its output has a name. *)
Definition only_sign (o : Options) : Prop :=
  signingMode o = SIGNING_MODE_RPM /\ verifySignatures o = false /\ prints_nothing o /\ destinationFileName o <> "".

Section Client.
Context `{OS} `{!Reliable} `{KeyFormat} `{Hashes} `{Runtime} `{NetURL} {F B : Type} `{LawfulIOReader F} `{LawfulIOReader B}.
Context `{!FileReader F} `{!LawfulFile F}.
Context (http_Get : string -> outcome (Z * B)).
Context {Body : Type} `{LawfulReader Body} (Do : URL -> list Z -> outcome (Z * Body)).
Context (range : gset SignatureVersion -> list SignatureVersion) (env_token AppVersion GitRef : string).
Context (fuel : nat) (now : Z).

Abbreviation run := (run (F:=F) http_Get Do range env_token fuel now).
Abbreviation main := (main (F:=F) http_Get Do range env_token AppVersion GitRef fuel now).
Abbreviation source_of := (source_of (F:=F) (B:=B)).

(** What [main] does to its logger before it runs. *)
Definition started (o : Options) (c : Client) : Client :=
  mkClient (c_world c) (if debugLogging o then SetCurrentLogLevel LOG_LEVEL_DEBUG (c_log c) else c_log c) (c_registries c).

Lemma main_run args o c : parse_command_line args = Ok (Some o) -> main args c = run o (started o c).
Proof. intros Hp. unfold main, Client.main. by rewrite Hp. Qed.

Lemma started_verbose o c : verbose_enough c -> verbose_enough (started o c).
Proof. unfold verbose_enough, started. simpl. by destruct (debugLogging o). Qed.

Definition announcement (o : Options) : list Z :=
  log_line (str "Wrote signed file to %s") [Text (str (destinationFileName o))].

(** The program [r], started with [c], ends as the signing step [res] does, and
    announces a success at the end. *)
Record concludes (o : Options) (c : Client) (r : outcome unit * Client) (res : outcome unit * World) : Prop := {
  cn_ok : r.1 = Ok tt <-> res.1 = Ok tt;
  cn_diverge : res.1 = Diverge -> r.1 = Diverge;
  cn_world : c_world r.2 = res.2;
  cn_verbose : verbose_enough r.2;
  cn_output : r.1 = Ok tt -> exists greeting, output (c_log r.2) = output (c_log c) ++ greeting ++ announcement o;
}.

Lemma output_logs c text : output (c_log (logs c text)) = output (c_log c) ++ text.
Proof. done. Qed.

Lemma concludes_announce o c c1 msg (m : M World unit) :
  verbose_enough c1 -> (exists greeting, output (c_log c1) = output (c_log c) ++ greeting) ->
  concludes o c
    ((_ ← exit_on_error msg m; say (str "Wrote signed file to %s") [Text (str (destinationFileName o))]) c1)
    (m (c_world c1)).
Proof.
  intros Hv [greeting Hg]. unfold exit_on_error, in_world, wrap_err, mbind, M_bind.
  destruct (m (c_world c1)) as [[[]|e|p|] w]; try by split.
  set (c2 := mkClient w (c_log c1) (c_registries c1)). rewrite (say_run _ _ c2) by exact Hv.
  split; [done|done|done|exact Hv|]. intros _. exists greeting.
  cbn [snd]. rewrite output_logs. change (c_log c2) with (c_log c1). unfold announcement.
  rewrite Hg, app_assoc. reflexivity.
Qed.

Lemma verify_nothing o f c :
  verifySignatures o = false -> verbose_enough c ->
  exists text, verify_if_signed http_Get fuel o f c = (Ok tt, logs c text).
Proof.
  intros Hv Hl. unfold verify_if_signed. rewrite Hv. simpl. case_match; [|exists []; by rewrite logs_nil].
  eexists. unfold in_log, Info_. rewrite (proj2 (Z.leb_le _ _)) by exact Hl. reflexivity.
Qed.

(** ** The reader the payload is left in *)

Abbreviation source := (IOReaderWithOffset (headerCapturingReader (SeekableReaderImpl F B) + SeekableReaderImpl F B)).

Definition is_plain (r : source) : Prop := exists s, ior_file r = inr s.

Lemma is_plain_read n (r : source) : is_plain r -> is_plain (Read n r).2.
Proof.
  destruct r as [s o]. intros [s' Hs]. simpl in Hs. subst s. simpl. unfold IOReaderWithOffset_Read. simpl.
  destruct (ioRead n (inr s')) as [[bs err] s2] eqn:E. unfold ioRead, sum_reader in E.
  destruct (ioRead n s') as [res s3]. injection E as _ <-. by eexists.
Qed.

Definition is_captured (all : list Z) (r : source) : Prop :=
  exists h, ior_file r = inl h /\ captures all h.

Lemma is_captured_read all n (r : source) : is_captured all r -> is_captured all (Read n r).2.
Proof.
  destruct r as [s o]. intros (h & Hs & Hc). simpl in Hs. subst s. simpl. unfold IOReaderWithOffset_Read. simpl.
  pose proof (captures_read all n h Hc) as Hr.
  destruct (ioRead n (inl h)) as [[bs err] s2] eqn:E. unfold ioRead at 1, sum_reader in E.
  destruct (ioRead n h) as [res h']. injection E as _ <-. by eexists.
Qed.

(** ** Signing alone *)

(** A request to sign with a key file, and one to sign with a server. *)
Definition signs_alone (o : Options) : Prop :=
  only_sign o /\ signServerUrl o = "" /\ privateKeyFilename o <> "".

Definition signs_remotely (o : Options) : Prop := only_sign o /\ signServerUrl o <> "".

Lemma nonempty_true s : s <> "" -> nonempty s = true.
Proof. by destruct s. Qed.

(** A failure to parse ends the program before it touches a file. *)
Definition fails_untouched (c : Client) (r : outcome unit * Client) : Prop :=
  r.1 <> Ok tt /\ files (c_world r.2) = files (c_world c).

Lemma source_of_reads o content : reads_file (rpmFilePath o) content (source_of o content).
Proof.
  destruct (file_opened (F:=F) (rpmFilePath o) content) as (Hn & Hc & Hp). exists (os_File (rpmFilePath o) content).
  rewrite Hn, Hc, Hp. unfold ClientVerify.source_of. split; [by destruct (_ && _)|]. split; [done|]. split; [done|lia].
Qed.

(** After parsing, it is still the input that is read. *)
Lemma parsed_reads o content :
  reads_file (rpmFilePath o) content (ParseRPM false (source_of o content)).2.
Proof.
  apply (maintains_ParseRPM (reads_file (rpmFilePath o) content)); [|apply source_of_reads].
  intros n r. apply reads_file_read.
Qed.

(** Up to the signing step. *)
Lemma run_signs o c content :
  only_sign o -> is_url (rpmFilePath o) = false -> files (c_world c) !! rpmFilePath o = Some content ->
  verbose_enough c ->
  match ParseRPM false (source_of o content) with
  | (Ok f, rd) => exists text,
      run o c = sign_rpm Do env_token fuel now o f (stop_capturing rd).1 (stop_capturing rd).2
                  (logs (with_world (after (files (c_world c)) (c_world c)) c) text)
  | _ => fails_untouched c (run o c)
  end.
Proof.
  intros (Hmode & Hver & Hquiet & _) Hu Hf Hlog. rewrite (run_opened http_Get Do range env_token fuel now o c content Hu Hf) by (done || by rewrite Hmode).
  destruct (ParseRPM false (source_of o content)) as [[f|e|p|] rd]; try done.
  destruct (verify_nothing o f (opened o c) Hver Hlog) as [text Hv]. rewrite (M_bind_ok _ _ _ _ _ Hv), Hmode.
  change (SIGNING_MODE_RPM =? SIGNING_MODE_RPM) with true. cbv iota.
  unfold opened. eexists. apply (f_equal (sign_rpm _ _ _ _ _ _ _ _)).
  unfold logs, with_world. simpl. by rewrite <- app_assoc.
Qed.

Lemma run_alone o c content key :
  signs_alone o -> is_url (rpmFilePath o) = false -> files (c_world c) !! rpmFilePath o = Some content ->
  (LoadPrivateKeyFromFile (privateKeyFilename o) (default [] (privateKeyPassphrase o)) (c_world c)).1 = Ok key ->
  verbose_enough c ->
  match ParseRPM false (source_of o content) with
  | (Ok f, rd) => exists w, files w = files (c_world c) /\ reads_file (rpmFilePath o) content rd /\
      concludes o c (run o c)
        (let '(res, (w, _)) := SignRpmAndWriteToFile fuel f (destinationFileName o) (overwriteDestinationFile o) now key (w, rd)
         in (res, w))
  | _ => fails_untouched c (run o c)
  end.
Proof.
  intros (Hsign & Hurl & Hkf) Hu Hf Hkey Hlog. pose proof (run_signs o c content Hsign Hu Hf Hlog) as Hrun.
  pose proof (parsed_reads o content) as Hreads.
  assert (is_plain (ParseRPM false (source_of o content)).2) as [s Hs].
  { apply (maintains_ParseRPM is_plain is_plain_read). unfold ClientVerify.source_of. rewrite Hurl. by eexists. }
  destruct (ParseRPM false (source_of o content)) as [[f|e|p|] rd]; try done. destruct Hrun as [text ->].
  cbn [snd] in Hs. unfold stop_capturing. rewrite Hs. cbn [fst snd].
  unfold sign_rpm. rewrite (nonempty_true _ (proj2 (proj2 (proj2 Hsign)))), (nonempty_true _ Hkf). cbn [negb]. cbv iota zeta.
  set (c1 := logs _ text). set (w1 := after (files (c_world c)) (c_world c)).
  assert ((LoadPrivateKeyFromFile (privateKeyFilename o) (default [] (privateKeyPassphrase o)) w1) =
    (Ok key, after (files w1) w1)) as Hload.
  { rewrite LoadPrivateKeyFromFile_run, os_Open_run, no_fault in *. exact (f_equal (fun k => (k, after (files w1) w1)) Hkey). }
  rewrite M_bind_assoc. erewrite M_bind_ok by (apply exit_on_error_ok; exact Hload).
  exists (after (files w1) w1). split; [done|]. split; [exact Hreads|].
  apply (concludes_announce o c (with_world (after (files w1) w1) c1)); [done|by exists text].
Qed.

(** Where the token comes from may be told. *)
Lemma token_message o c :
  verbose_enough c ->
  let token := if IsEmpty (signServerToken o) then (env_token, true) else (signServerToken o, false) in
  exists text,
    (if token.2 && IsNotEmpty token.1
     then when_verbose o (say (str "Using non-blank auth token from RPM_SIGNING_AUTH_TOKEN environment variable") [])
     else mret tt) c = (Ok tt, logs c text).
Proof.
  intros Hl token. destruct (token.2 && IsNotEmpty token.1).
  - eexists. by apply when_verbose_run.
  - exists []. by rewrite logs_nil.
Qed.

Lemma run_remote o c content :
  signs_remotely o -> is_url (rpmFilePath o) = false -> files (c_world c) !! rpmFilePath o = Some content ->
  verbose_enough c ->
  match ParseRPM false (source_of o content) with
  | (Ok f, rd) => exists w header (rd' : source), files w = files (c_world c) /\ header ++ rest rd = content /\
      stands (rpmFilePath o) content rd' /\
      rest rd' = rest rd /\ Offset rd' = Offset rd /\
      concludes o c (run o c)
        (let '(res, (w, _)) :=
           signRpmRemotely Do fuel (signServerUrl o) (if IsEmpty (signServerToken o) then env_token else signServerToken o)
             header (destinationFileName o) (overwriteDestinationFile o) (w, rd') in (res, w))
  | _ => fails_untouched c (run o c)
  end.
Proof.
  intros (Hsign & Hurl) Hu Hf Hlog. pose proof (run_signs o c content Hsign Hu Hf Hlog) as Hrun.
  pose proof (reads_file_stands _ _ _ (parsed_reads o content)) as Hstands.
  assert (is_captured content (ParseRPM false (source_of o content)).2) as (h & Hs & Hcap).
  { apply (maintains_ParseRPM (is_captured content) (is_captured_read content)). unfold ClientVerify.source_of.
    rewrite (nonempty_true _ Hurl), (proj1 Hsign). exists (newHeaderCapturingReader (file_reader (rpmFilePath o) content)).
    split; [done|]. split; [done|]. exact (rest_File (rpmFilePath o) content). }
  destruct (ParseRPM false (source_of o content)) as [[f|e|p|] rd]; try done. destruct Hrun as [text ->].
  cbn [snd] in Hs. unfold stop_capturing. rewrite Hs. cbn [fst snd].
  unfold sign_rpm. rewrite (nonempty_true _ (proj2 (proj2 (proj2 Hsign)))). cbn [negb]. cbv iota zeta.
  set (c1 := logs _ text). set (w1 := after (files (c_world c)) (c_world c)).
  set (rd' := mkIOReader (inl (StopCapturing h)) (ior_currentOffset rd)).
  exists w1, (hc_buf h), rd'. split; [done|]. destruct rd as [s off]. simpl in Hs. subst s.
  split; [exact (proj2 Hcap)|]. split; [exact Hstands|]. split; [done|]. split; [done|].
  change (Bytes (StopCapturing h)) with (hc_buf h).
  rewrite M_bind_assoc, (M_bind_ok _ _ _ _ _ (when_verbose_run o _ _ c1 Hlog)).
  set (c2 := logs c1 _). set (token := if IsEmpty (signServerToken o) then env_token else signServerToken o).
  destruct (token_message o c2 Hlog) as [text' Htok].
  rewrite (surjective_pairing (if IsEmpty (signServerToken o) then _ else _)).
  rewrite M_bind_assoc, (M_bind_ok _ _ _ _ _ Htok).
  replace (if IsEmpty (signServerToken o) then (env_token, true) else (signServerToken o, false)).1 with token
    by (unfold token; by destruct (IsEmpty (signServerToken o))).
  apply (concludes_announce o c (logs c2 text')); [done|]. unfold c2, c1. rewrite !output_logs.
  eexists. rewrite <- (app_assoc _ _ text'), <- (app_assoc _ text). reflexivity.
Qed.

(** A valid package ends up in the output with its signature. *)
Lemma alone_signs o c f payload key tag other data d' :
  signs_alone o -> is_url (rpmFilePath o) = false ->
  files (c_world c) !! rpmFilePath o = Some (file_bytes f ++ payload) ->
  file_valid f -> reserved_binary (SignatureHeader f) ->
  (LoadPrivateKeyFromFile (privateKeyFilename o) (default [] (privateKeyPassphrase o)) (c_world c)).1 = Ok key ->
  signature_tags key = Some (tag, other) ->
  SignDigest now key (header_bytes (MainHeader f)) = (Ok data, d') ->
  signable (SignatureHeader f) tag data ->
  overwriteDestinationFile o = true \/ files (c_world c) !! destinationFileName o = None ->
  destinationFileName o <> rpmFilePath o ->
  (length payload + 1 < fuel)%nat -> verbose_enough c ->
  exists c' f1, run o c = (Ok tt, c') /\ signed_copy f f1 tag other data /\
    files (c_world c') = <[destinationFileName o := file_bytes f1 ++ payload]> (files (c_world c)) /\
    verbose_enough c' /\
    exists greeting, output (c_log c') = output (c_log c) ++ greeting ++ announcement o.
Proof.
  intros Ho Hu Hfile Hf Hrb Hkey Htags Hsign Hok Hover Hne Hfuel Hlog.
  pose proof (run_alone o c _ key Ho Hu Hfile Hkey Hlog) as Hrun.
  destruct (ParseRPM_run f payload (source_of o (file_bytes f ++ payload)) Hf (source_of_valid _ _) eq_refl (source_of_rest _ _))
    as (f' & rd & Hparse & Hvalid & Hrest & Hl & _ & _ & Hs & Hm & _).
  rewrite Hparse in Hrun. destruct Hrun as (w & Hw & Hreads & [Hokk _ Hworld Hverb Hout]).
  assert (separate (files w) (destinationFileName o) rd) as Hsep.
  { eapply stands_separate; [by apply reads_file_stands|]. rewrite Hw. by split. }
  rewrite SignRpmAndWriteToFile_separate in Hokk, Hworld by done.
  destruct (sign_parsed f tag other data now key d' f' Hf Hrb Htags Hsign Hok) as (f1 & Hsigned & Hcopy); [by split|].
  destruct (SignRpmAndWriteToFile_run fuel f' (destinationFileName o) (overwriteDestinationFile o) now key w rd)
    as (res & w' & p' & Hstep & Hres); [done|by rewrite Hrest|].
  rewrite Hstep in Hokk, Hworld. unfold signed_content in Hres.
  rewrite Hsigned, (headers_of_valid _ (sc_valid _ _ _ _ _ Hcopy)), Hw, Hrest in Hres.
  replace (bool_decide (is_Some (files (c_world c) !! destinationFileName o)) && negb (overwriteDestinationFile o))
    with false in Hres.
  2:{ destruct Hover as [-> | ->]; [by rewrite andb_false_r|]. by rewrite bool_decide_eq_false_2 by by intros [? ?]. }
  destruct Hres as [-> Hfiles]. cbn [fst snd] in Hokk, Hworld, Hfiles.
  destruct (run o c) as [r c']. cbn [fst snd] in *. destruct (Hout (proj2 Hokk eq_refl)) as [greeting Hg].
  exists c', f1. split; [f_equal; by apply Hokk|]. split; [done|]. split; [by rewrite Hworld|]. split; [done|]. by exists greeting.
Qed.

(** ** Verifying what was signed *)

(** What [--verify] writes about a signed copy: a line about each version if it is
    verbose, and one about version 6 also if [f] has such a signature. *)
Definition verified_lines (verbose : bool) (f : RpmFile) (text : list Z) : Prop :=
  exists line6,
  let line format v := if verbose then log_line (str format) [Text (SignatureVersion_String v)] else [] in
  text = line "RPM file signature %v: <not present>" SIGNATURE_VERSION_V3 ++
         line "RPM file signature %v: ok" SIGNATURE_VERSION_V4 ++ line6 /\
  (SIGNATURE_VERSION_V6 ∉ GetSignatureVersions f ->
     line6 = line "RPM file signature %v: <not present>" SIGNATURE_VERSION_V6).

Lemma report_copy verbose f f2 tag other data keys payload lines :
  signed_copy f f2 tag other data ->
  (exists ent, CheckDetachedSignature keys (header_bytes (MainHeader f)) data = Ok ent) ->
  Forall2 (report f2 keys (header_bytes (MainHeader f2)) payload verbose) AllSignatureVersions lines ->
  verified_lines verbose f (mjoin lines).
Proof.
  intros Hc Hk Hl. rewrite (sc_bytes _ _ _ _ _ Hc) in Hl. unfold AllSignatureVersions in Hl.
  apply Forall2_cons_inv_l in Hl as (l3 & lines3 & R3 & Hl & ->).
  apply Forall2_cons_inv_l in Hl as (l4 & lines4 & R4 & Hl & ->).
  apply Forall2_cons_inv_l in Hl as (l6 & lines6 & R6 & Hl & ->). apply Forall2_nil_inv_l in Hl as ->.
  exists l6. cbv zeta.
  unfold report in R3. rewrite bool_decide_eq_false_2 in R3 by apply (sc_v3 _ _ _ _ _ Hc).
  unfold report in R4. rewrite bool_decide_eq_true_2 in R4 by apply (sc_v4 _ _ _ _ _ Hc).
  destruct R4 as [[_ R4]|[Hbad _]]; [|destruct Hbad; right; split; [done|by apply (sc_good _ _ _ _ _ Hc)]].
  split.
  - rewrite <- R3, <- R4. change (mjoin [l3; l4; l6]) with (l3 ++ l4 ++ l6 ++ []). by rewrite app_nil_r.
  - intros Hno. unfold report in R6. rewrite bool_decide_eq_false_2 in R6; [done|].
    by rewrite (sc_v6 _ _ _ _ _ Hc).
Qed.

Lemma verify_copy o c f f1 payload tag other data keys :
  (forall keys data sig, graceful (CheckDetachedSignature keys data sig)) ->
  only_verify o -> is_url (rpmFilePath o) = false ->
  files (c_world c) !! rpmFilePath o = Some (file_bytes f1 ++ payload) -> signed_copy f f1 tag other data ->
  gpgPublicFiles o <> [] -> public_keys (files (c_world c)) (gpgPublicFiles o) [] = Ok keys ->
  (exists ent, CheckDetachedSignature keys (header_bytes (MainHeader f)) data = Ok ent) ->
  Zlen (file_bytes f1 ++ payload) < 2 ^ 63 -> (length (file_bytes f1 ++ payload) + 1 < fuel)%nat -> verbose_enough c ->
  exists c' greeting text, run o c = (Ok tt, c') /\ files (c_world c') = files (c_world c) /\
    output (c_log c') = output (c_log c) ++ greeting ++ text /\ verified_lines (verboseOutput o) f text.
Proof.
  intros Hends Ho Hu Hfile Hcopy Hne Hkeys Hgood Hlen Hfuel Hlog.
  destruct (ParseRPM_run f1 payload (NewArrayReader (file_bytes f1 ++ payload)) (sc_valid _ _ _ _ _ Hcopy))
    as (f2 & r' & Hparse & _ & Hrest & Hl & _ & _ & Hs & Hm & _); [simpl; lia|done|done|].
  assert (parsed_from f1 f2) as Hp by by split.
  pose proof (signed_copy_parsed _ _ _ _ _ _ Hcopy Hp) as Hcopy2.
  destruct (run_verify_lines http_Get Do range env_token fuel now Hends o c _ f2 r' keys (header_bytes (MainHeader f2))
    Ho Hu Hfile Hlen Hparse) as (c' & greeting & lines & Hrun & Hfiles & Hout & _ & Hlines); try done.
  - intros E. pose proof (sc_v4 _ _ _ _ _ Hcopy2) as Hin. rewrite E in Hin. by apply elem_of_empty in Hin.
  - exact (GetData_run true _ (fv_main _ (sc_valid _ _ _ _ _ Hcopy2))).
  - rewrite (parsed_header_bytes _ _ Hp). unfold file_bytes in Hfuel. rewrite !length_app in Hfuel. lia.
  - exists c', greeting, (mjoin lines). split; [done|]. split; [done|]. split; [done|].
    by eapply report_copy.
Qed.
End Client.

(** ** Alone or with a server *)

Section Both.
Context `{OS} `{!Reliable} `{KeyFormat} `{Hashes} `{Runtime} `{NetURL} {F B : Type} `{LawfulIOReader F} `{LawfulIOReader B}.
Context `{!FileReader F} `{!LawfulFile F}.
Context (http_Get : string -> outcome (Z * B)) (range : gset SignatureVersion -> list SignatureVersion) (env_token : string).
Context (Quote : string -> string) (serverStart AppVersion GitRef : string).
Context (fuel : nat) (now : Z) (appConfig : AppConfig) (srv : World) (chunk : nat) (breaks : option nat).

Abbreviation do := (serve Quote serverStart AppVersion GitRef fuel now appConfig srv chunk breaks).
Abbreviation run := (run (F:=F) http_Get do range env_token fuel now).

(** The token the client sends. *)
Definition sent_token (o : Options) : string := if IsEmpty (signServerToken o) then env_token else signServerToken o.

(** Unless the reply of the server breaks off, the two programs agree on success. When
    the remote one succeeds, so does the other, and they leave the same files. When it
    fails it changes no file, but if the reply breaks off the output is gone. *)
Definition same_signing (dest : string) (c : Client) (remote alone : outcome unit * Client) : Prop :=
  (breaks = None -> (remote.1 = Ok tt <-> alone.1 = Ok tt)) /\
  (remote.1 = Ok tt -> alone.1 = Ok tt /\ files (c_world remote.2) = files (c_world alone.2)) /\
  (remote.1 <> Ok tt -> files (c_world remote.2) = files (c_world c) \/
     breaks <> None /\ files (c_world remote.2) = delete dest (files (c_world c))).

Lemma same_signing_fails dest c remote alone :
  fails_untouched c remote -> fails_untouched c alone -> same_signing dest c remote alone.
Proof. intros [Hr Hf] [Ha _]. split_and!; tauto. Qed.

Lemma same_signing_concludes dest o_r o_a c_r c_a w remote alone res_r res_a :
  concludes o_r c_r remote res_r -> concludes o_a c_a alone res_a -> same_result dest breaks w res_r res_a ->
  files w = files (c_world c_r) -> same_signing dest c_r remote alone.
Proof.
  intros [Hokr _ Hwr _ _] [Hoka _ Hwa _ _] (Hiff & Hsame & Hfail) Hw. unfold same_signing.
  rewrite Hokr, Hoka, Hwr, Hwa. split; [done|]. split; [done|]. intros Hne. rewrite <- Hw. apply Hfail. tauto.
Qed.

Lemma remote_run_alone o_r o_a c_r c_a content url key :
  signs_remotely o_r -> signs_alone o_a -> c_world c_a = c_world c_r -> verbose_enough c_r -> verbose_enough c_a ->
  rpmFilePath o_a = rpmFilePath o_r -> destinationFileName o_a = destinationFileName o_r ->
  overwriteDestinationFile o_a = overwriteDestinationFile o_r -> destinationFileName o_r <> rpmFilePath o_r ->
  is_url (rpmFilePath o_r) = false -> files (c_world c_r) !! rpmFilePath o_r = Some content ->
  (length content + 1 < fuel)%nat ->
  (forall f f' r', ParseRPM false (NewArrayReader content) = (Ok f, r') -> SignRpm now key f = (Ok tt, f') ->
     (length (headers_of f').2 + 1 < fuel)%nat) ->
  url_Parse (signServerUrl o_r) = Ok url -> u_Host url <> "" -> u_Path url = "" \/ u_Path url = "/" ->
  url_Parse (url_String (signing_url (sent_token o_r) url)) = Ok (signing_url (sent_token o_r) url) ->
  sent_token o_r = ApiSigningToken appConfig -> server_key appConfig (files srv) = Ok key ->
  (LoadPrivateKeyFromFile (privateKeyFilename o_a) (default [] (privateKeyPassphrase o_a)) (c_world c_r)).1 = Ok key ->
  same_signing (destinationFileName o_r) c_r (run o_r c_r) (run o_a c_a).
Proof.
  intros Hr Ha Hw Hvr Hva Epath Edest Eover Hne Hu Hfile Hfuel Hsize Hbase Hhost Hpath Hurl Htoken Hkey Hlocal.
  pose proof (run_remote http_Get do range env_token fuel now o_r c_r content Hr Hu Hfile Hvr) as Hrr.
  pose proof (run_alone http_Get do range env_token fuel now o_a c_a content key Ha) as Hra.
  rewrite Epath, Hw, Edest, Eover in Hra. specialize (Hra Hu Hfile Hlocal Hva).
  set (sr := ClientVerify.source_of o_r content) in *. set (sa := ClientVerify.source_of o_a content) in *.
  assert (rest sr = content /\ rest sa = content) as [Rr Ra] by (split; apply source_of_rest).
  destruct (ParseRPM_same sr sa) as (Ho & Hview & Hv1 & Hv2); [done|done|unfold view; by rewrite Rr, Ra|].
  destruct (ParseRPM_same sa (NewArrayReader content)) as (Hoa & _); [done|simpl; lia|unfold view; by rewrite Ra|].
  destruct (ParseRPM false sr) as [parsed rr] eqn:Er. destruct (ParseRPM false sa) as [parsed' ra].
  destruct (ParseRPM false (NewArrayReader content)) as [p rn]. cbn [fst snd] in *. subst parsed' p.
  assert (fails_untouched c_a (run o_a c_a) -> fails_untouched c_r (run o_a c_a)) as Hfails
    by (unfold fails_untouched; by rewrite Hw).
  destruct parsed as [f|e|s|]; [|by apply same_signing_fails, Hfails..].
  destruct Hrr as (w & header & rd' & Hfw & Hcap & Hst & Hrd & Hoff & Hcr), Hra as (w' & Hfw' & Hreads & Hca).
  assert (rest rr = rest ra) as Hrest by exact (f_equal st_rest Hview).
  assert (separate (files w) (destinationFileName o_r) rd') as Hsep
    by (eapply stands_separate; [exact Hst|]; rewrite Hfw; by split).
  assert (separate (files w') (destinationFileName o_r) ra) as Hsepa.
  { eapply stands_separate; [by apply reads_file_stands|]. rewrite Hfw'. by split. }
  rewrite signRpmRemotely_separate in Hcr by done. rewrite SignRpmAndWriteToFile_separate in Hca by done.
  eapply same_signing_concludes; [exact Hcr|exact Hca| |exact Hfw].
  pose proof (f_equal length Hcap) as Hlen. rewrite length_app in Hlen.
  assert (length (rest ra) + 1 < fuel)%nat as Hfp by (rewrite <- Hrest; lia).
  eapply (remote_step Quote serverStart AppVersion GitRef fuel now appConfig srv chunk breaks _ url _ Hbase Hhost Hpath Hurl Htoken);
    [change (in_width 64 (Offset rd')); by rewrite Hoff|done|exact (eq_trans Hrd Hrest)|lia|exact Hfp
    |by intros f' Hs; eapply Hsize| |rewrite Hfw, Hfw'; done].
  eapply (captured_signed _ _ _ key f sr rr); [done|done|done|exact Er|by rewrite Hcap].
Qed.
End Both.

(** ** Properties *)

(** C1. The client signs and verifies, from command line to command line. For a request
    to sign a valid package with an RSA or DSA key file (an output that may be written and
    is not the input, a key that makes a signature there is room for, calls on files that
    do not fail) the client exits with status 0, announces it in its last line, and changes no file but
    the output, which is the package with the signature stored and everything else kept.
    A later request to verify that output, with public keys that accept the signature for
    the main header, exits with status 0, changes no file and reports version 4 as good
    and version 3 as absent; it is silent about both unless it is verbose. *)
Theorem main_signs_and_verifies `{OS} `{!Reliable} `{KeyFormat} `{Hashes} `{Runtime} `{NetURL} {F B : Type}
    `{LawfulIOReader F} `{LawfulIOReader B} `{!FileReader F} `{!LawfulFile F} http_Get {Body} `{LawfulReader Body} Do
    range env_token AppVersion GitRef fuel fuel' now args o args' o' c f payload key tag other data d' keys :
  let main fuel := main (F:=F) (B:=B) (Body:=Body) http_Get Do range env_token AppVersion GitRef fuel now in
  parse_command_line args = Ok (Some o) -> signs_alone o -> is_url (rpmFilePath o) = false ->
  files (c_world c) !! rpmFilePath o = Some (file_bytes f ++ payload) ->
  file_valid f -> reserved_binary (SignatureHeader f) ->
  (LoadPrivateKeyFromFile (privateKeyFilename o) (default [] (privateKeyPassphrase o)) (c_world c)).1 = Ok key ->
  signature_tags key = Some (tag, other) ->
  SignDigest now key (header_bytes (MainHeader f)) = (Ok data, d') ->
  signable (SignatureHeader f) tag data ->
  overwriteDestinationFile o = true \/ files (c_world c) !! destinationFileName o = None ->
  destinationFileName o <> rpmFilePath o ->
  (length payload + 1 < fuel)%nat -> verbose_enough c ->
  (forall keys data sig, graceful (CheckDetachedSignature keys data sig)) ->
  parse_command_line args' = Ok (Some o') -> only_verify o' -> rpmFilePath o' = destinationFileName o ->
  is_url (destinationFileName o) = false -> gpgPublicFiles o' <> [] ->
  (forall content, public_keys (<[destinationFileName o := content]> (files (c_world c))) (gpgPublicFiles o') [] = Ok keys) ->
  (exists ent, CheckDetachedSignature keys (header_bytes (MainHeader f)) data = Ok ent) ->
  exists c1 f1, main fuel args c = (Ok tt, c1) /\ signed_copy f f1 tag other data /\
    files (c_world c1) = <[destinationFileName o := file_bytes f1 ++ payload]> (files (c_world c)) /\
    (exists greeting, output (c_log c1) = output (c_log c) ++ greeting ++ announcement o) /\
    (Zlen (file_bytes f1 ++ payload) < 2 ^ 63 -> (length (file_bytes f1 ++ payload) + 1 < fuel')%nat ->
     exists c2 greeting text, main fuel' args' c1 = (Ok tt, c2) /\ files (c_world c2) = files (c_world c1) /\
       output (c_log c2) = output (c_log c1) ++ greeting ++ text /\ verified_lines (verboseOutput o') f text).
Proof.
  intros main Hp Ho Hu Hfile Hf Hrb Hkey Htags Hsign Hok Hover Hapart Hfuel Hlog Hends Hp' Ho' Epath Hu' Hne Hkeys Hgood.
  unfold main. rewrite (main_run http_Get Do range env_token AppVersion GitRef fuel now _ _ _ Hp).
  destruct (alone_signs http_Get Do range env_token fuel now o (started o c) f payload key tag other data d')
    as (c1 & f1 & Hrun & Hcopy & Hfiles & Hlog1 & Hout); try done; [by apply started_verbose|].
  exists c1, f1. split; [exact Hrun|]. split; [done|]. split; [done|]. split.
  { destruct Hout as [greeting Hout]. exists greeting. rewrite Hout. unfold started. simpl. by destruct (debugLogging o). }
  intros Hlen Hfuel'. rewrite (main_run http_Get Do range env_token AppVersion GitRef fuel' now _ _ _ Hp').
  destruct (verify_copy http_Get Do range env_token fuel' now o' (started o' c1) f f1 payload tag other data keys)
    as (c2 & greeting & text & Hrun' & Hf2 & Hout' & Hlines); try done.
  - by rewrite Epath.
  - simpl. by rewrite Hfiles, Epath, lookup_insert_eq.
  - simpl. rewrite Hfiles. apply Hkeys.
  - by apply started_verbose.
  - exists c2, greeting, text. split; [done|]. split; [done|]. split; [|done].
    rewrite Hout'. unfold started. simpl. by destruct (debugLogging o').
Qed.

(** C2. The client signs with a server as it signs alone with the key of the server, from
    command line to output: for two requests for the same package and output (not the
    package itself), one with the server's URL and its token (given with the request or
    taken from the environment) and one with a file that has the key. If the reply of the
    server arrives whole, the program succeeds with the one exactly if it does with the
    other; [breaks] says after how many bytes it breaks off, if it does. Whenever signing
    with the server succeeds, so does signing alone, and both leave the same files. When
    it fails, no file is changed, except that a reply that breaks off costs the output,
    which is removed then. The URL may have no path but [/], what it prints as must parse
    as itself, and input and reply must not be longer than the fuel. *)
Theorem main_remote_equals_alone `{OS} `{!Reliable} `{KeyFormat} `{Hashes} `{Runtime} `{NetURL} {F B : Type}
    `{LawfulIOReader F} `{LawfulIOReader B} `{!FileReader F} `{!LawfulFile F} (http_Get : string -> outcome (Z * B))
    range env_token Quote serverStart AppVersion GitRef fuel now appConfig srv chunk breaks args_r o_r args_a o_a c content url key :
  let server := serve Quote serverStart AppVersion GitRef fuel now appConfig srv chunk breaks in
  let main := main (F:=F) http_Get server range env_token AppVersion GitRef fuel now in
  let token := sent_token env_token o_r in
  parse_command_line args_r = Ok (Some o_r) -> signs_remotely o_r ->
  parse_command_line args_a = Ok (Some o_a) -> signs_alone o_a ->
  rpmFilePath o_a = rpmFilePath o_r -> destinationFileName o_a = destinationFileName o_r ->
  overwriteDestinationFile o_a = overwriteDestinationFile o_r -> destinationFileName o_r <> rpmFilePath o_r ->
  verbose_enough c ->
  is_url (rpmFilePath o_r) = false -> files (c_world c) !! rpmFilePath o_r = Some content ->
  (length content + 1 < fuel)%nat ->
  (forall f f' r', ParseRPM false (NewArrayReader content) = (Ok f, r') -> SignRpm now key f = (Ok tt, f') ->
     (length (headers_of f').2 + 1 < fuel)%nat) ->
  url_Parse (signServerUrl o_r) = Ok url -> u_Host url <> "" -> u_Path url = "" \/ u_Path url = "/" ->
  url_Parse (url_String (signing_url token url)) = Ok (signing_url token url) ->
  token = ApiSigningToken appConfig -> server_key appConfig (files srv) = Ok key ->
  (LoadPrivateKeyFromFile (privateKeyFilename o_a) (default [] (privateKeyPassphrase o_a)) (c_world c)).1 = Ok key ->
  same_signing breaks (destinationFileName o_r) c (main args_r c) (main args_a c).
Proof.
  intros server main token Hpr Hr Hpa Ha Epath Edest Eover Hne Hv Hu Hfile Hfuel Hsize Hbase Hhost Hpath Hurl Htoken Hkey Hlocal.
  unfold main. rewrite (main_run http_Get server range env_token AppVersion GitRef fuel now _ _ _ Hpr).
  rewrite (main_run http_Get server range env_token AppVersion GitRef fuel now _ _ _ Hpa).
  apply (remote_run_alone http_Get range env_token Quote serverStart AppVersion GitRef fuel now appConfig srv chunk breaks
    o_r o_a (started o_r c) (started o_a c) content url key); try done; by apply started_verbose.
Qed.

(** ** Witnesses *)

Section Witnesses.
#[local] Existing Instance reliable_os.
#[local] Existing Instance checksums.
#[local] Existing Instance doubling.
#[local] Existing Instance checksum_pgp.
#[local] Existing Instance sample_keyformat.
#[local] Existing Instance sample_neturl.
#[local] Existing Instance sample_read.
#[local] Existing Instance sample_read_lawful.
#[local] Existing Instance sample_file_reader.
#[local] Existing Instance sample_file_lawful.

Definition sample_package : list Z := file_bytes sample_parsed_file ++ sample_payload.

Definition sample_home : Client :=
  mkClient (mkWorld {[ "in.rpm" := sample_package; "my.key" := [1]; "pub.asc" := [45] ]} []) rootLogger
    (tagsById, signatureTagsByID).

Definition sign_args : list string := ["-s"; "--priv-key"; "my.key"; "-o"; "out.rpm"; "in.rpm"].
Definition verify_args : list string := ["-v"; "--verify"; "--pub-key"; "pub.asc"; "out.rpm"].
Definition remote_args : list string :=
  ["-s"; "--sign-server"; "http://sign.example/"; "-o"; "out.rpm"; "in.rpm"].

Definition options_of (args : list string) : Options :=
  match parse_command_line args with Ok (Some o) => o | _ => no_options end.

Lemma parse_sign_args : parse_command_line sign_args = Ok (Some (options_of sign_args)).
Proof. vm_compute. reflexivity. Qed.

Lemma parse_verify_args : parse_command_line verify_args = Ok (Some (options_of verify_args)).
Proof. vm_compute. reflexivity. Qed.

Lemma parse_remote_args : parse_command_line remote_args = Ok (Some (options_of remote_args)).
Proof. vm_compute. reflexivity. Qed.

Lemma sign_args_alone : signs_alone (options_of sign_args).
Proof. split; [|split; [reflexivity|discriminate]]. split; [reflexivity|]. split; [reflexivity|]. split; [by split|discriminate]. Qed.

Lemma remote_args_remotely : signs_remotely (options_of remote_args).
Proof. split; [|discriminate]. split; [reflexivity|]. split; [reflexivity|]. split; [by split|discriminate]. Qed.

Lemma verify_args_only : only_verify (options_of verify_args).
Proof. vm_compute. repeat split. Qed.

Definition offline_main : list string -> M Client unit :=
  main (F:=DiskFile) (B:=DiskFile) (Body:=arrayReader) (fun _ => Err "offline") (fun _ _ => Err "offline")
    elements "" "" "" sample_fuel 0.

Lemma main_signs_and_verifies_witness :
  exists c1 c2, offline_main sign_args sample_home = (Ok tt, c1) /\ offline_main verify_args c1 = (Ok tt, c2) /\
    exists greeting text, output (c_log c2) = output (c_log c1) ++ greeting ++ text /\
      verified_lines true sample_parsed_file text.
Proof.
  assert (Reliable) as Hr by by intros i.
  assert (Zlen (default [] (files (c_world (offline_main sign_args sample_home).2) !! "out.rpm")) < 9000) as Hsize
    by (vm_compute; reflexivity).
  destruct (main_signs_and_verifies (F:=DiskFile) (B:=DiskFile) (Body:=arrayReader) (fun _ => Err "offline")
    (fun _ _ => Err "offline") elements "" "" "" sample_fuel sample_fuel 0 sign_args (options_of sign_args) verify_args
    (options_of verify_args) sample_home sample_parsed_file sample_payload sample_rsa_key SigTagRSAHeader SigTagDSAHeader
    sample_signature_data sample_hash_after sample_keys) as (c1 & f1 & Hrun & Hcopy & Hfiles & _ & Hverify).
  - exact parse_sign_args.
  - exact sign_args_alone.
  - vm_compute. reflexivity.
  - vm_compute. reflexivity.
  - exact sample_parsed_valid.
  - exact sample_reserved_binary.
  - vm_compute. reflexivity.
  - vm_compute. reflexivity.
  - vm_compute. reflexivity.
  - exact sample_signable.
  - by right.
  - vm_compute. discriminate.
  - apply Nat.ltb_lt. reflexivity.
  - done.
  - intros keys data sig. simpl. by case_bool_decide.
  - exact parse_verify_args.
  - exact verify_args_only.
  - vm_compute. reflexivity.
  - vm_compute. reflexivity.
  - vm_compute. discriminate.
  - intros content. vm_compute. reflexivity.
  - exists tt. vm_compute. reflexivity.
  - assert (offline_main sign_args sample_home = (Ok tt, c1)) as Hrun1 by exact Hrun.
    rewrite Hrun1 in Hsize. cbn [snd] in Hsize. rewrite Hfiles in Hsize.
    change (destinationFileName (options_of sign_args)) with "out.rpm" in Hsize. rewrite lookup_insert_eq in Hsize.
    cbn [default id] in Hsize. destruct Hverify as (c2 & greeting & text & Hrun2 & _ & Hout & Hlines).
    + eapply Z.lt_trans; [exact Hsize|done].
    + unfold Zlen in Hsize. unfold sample_fuel. lia.
    + exists c1, c2. split; [exact Hrun1|]. split; [exact Hrun2|]. exists greeting, text. split; [exact Hout|exact Hlines].
Defined.

(** The server's reply comes in pieces of six bytes. *)
Definition remote_main (breaks : option nat) : list string -> M Client unit :=
  main (F:=DiskFile) (B:=DiskFile) (fun _ => Err "offline")
    (serve (fun s => s) "" "" "" sample_fuel 0 sample_config sample_server 5 breaks) elements "s&cret=" "" "" sample_fuel 0.

Lemma main_remote_equals_alone_witness :
  (remote_main None remote_args sample_home).1 = Ok tt /\
  files (c_world (remote_main None remote_args sample_home).2) = files (c_world (remote_main None sign_args sample_home).2).
Proof.
  assert (Reliable) as Hr by by intros i.
  assert ((remote_main None sign_args sample_home).1 = Ok tt) as Halone by (vm_compute; reflexivity).
  destruct (main_remote_equals_alone (F:=DiskFile) (B:=DiskFile) (fun _ => Err "offline") elements "s&cret="
    (fun s => s) "" "" "" sample_fuel 0 sample_config sample_server 5 None remote_args (options_of remote_args) sign_args
    (options_of sign_args) sample_home sample_package sample_url sample_rsa_key) as (Hiff & Hsame & _).
  - exact parse_remote_args.
  - exact remote_args_remotely.
  - exact parse_sign_args.
  - exact sign_args_alone.
  - vm_compute. reflexivity.
  - vm_compute. reflexivity.
  - vm_compute. reflexivity.
  - vm_compute. discriminate.
  - done.
  - vm_compute. reflexivity.
  - vm_compute. reflexivity.
  - apply Nat.ltb_lt. vm_compute. reflexivity.
  - intros f f' r' Hp Hs.
    assert (f = match (ParseRPM false (NewArrayReader sample_package)).1 with Ok f => f | _ => sample_file end) as Hf
      by by rewrite Hp.
    assert (f' = (SignRpm 0 sample_rsa_key f).2) as -> by by rewrite Hs.
    rewrite Hf. apply Nat.ltb_lt. vm_compute. reflexivity.
  - vm_compute. reflexivity.
  - discriminate.
  - by right.
  - vm_compute. reflexivity.
  - vm_compute. reflexivity.
  - vm_compute. reflexivity.
  - vm_compute. reflexivity.
  - assert ((remote_main None remote_args sample_home).1 = Ok tt) as Hremote by (apply (Hiff eq_refl); exact Halone).
    split; [exact Hremote|]. destruct (Hsame Hremote) as [_ Hfiles]. exact Hfiles.
Defined.
End Witnesses.
