(* ===== verification/ClientInPlace.v ===== *)
(** What the client leaves when the output it is told to overwrite is its input
    ([src/client/client.go], [CreateDestinationFile] of [src/common/signing.go]): the file
    is truncated before its payload has been read. *)
From S2P Require Import Prelude Utils Serializer Tags Header Layout HeaderSpec HeaderOps Allocation IndexUpdate Payload.
From S2P Require Import HeaderCodec Codec HeaderRoundtrip RpmFile FileRoundtrip FileTheorems Signing SigningTheorems.
From S2P Require Import Frame Files FilesTheorems Keys Http Server ServerTheorems Remote RemoteTheorems.
From S2P Require Import Config Log Dump Client ClientTheorems ClientInput ClientVerify ClientSign.
#[local] Open Scope Z_scope.

Section InPlace.
Context `{OS} `{!Reliable} {F B : Type} `{LawfulIOReader F} `{IOReader B} `{!FileReader F} `{!LawfulFile F}.
Context (m0 : filemap) (name : string).

Abbreviation source := (IOReaderWithOffset (headerCapturingReader (SeekableReaderImpl F B) + SeekableReaderImpl F B)).

(** The output has the contents [c]. *)
Definition holds (c : list Z) (wr : FileWriterWithOffset OsFile) : Prop :=
  of_name (fw_file wr) = name /\ in_width 64 (fw_currentOffset wr) /\ files (of_world (fw_file wr)) = <[name := c]> m0.

(** The reader stands at [pos] of the same file. *)
Definition stands_at (pos : nat) (r : source) : Prop :=
  exists fl, file_behind r = Some fl /\ file_name fl = name /\ file_pos fl = pos.

Lemma write_holds c bs wr :
  holds c wr -> exists wr', wWrite bs wr = ((Zlen bs, None), wr') /\ holds (c ++ bs) wr'.
Proof.
  intros (Hn & Ho & Hf). pose proof (fallible_write (FallibleWriter:=OsFile_fallible m0 name) bs wr) as Hw.
  destruct Hw as (k & e & wr' & Hrun & (Hn' & Ho' & c' & Hc') & _ & Hres); [split; [done|]; split; [done|by exists c]|].
  exists wr'. destruct Hres as [(-> & -> & Hs & _)|[_ Hbad]]; [|by apply reliable_not_faulty in Hbad].
  split; [done|]. split; [done|]. split; [done|]. simpl in Hs. rewrite Hc', Hf, !lookup_insert_eq in Hs. simpl in Hs.
  by rewrite Hc', Hs.
Qed.

(** The next read finds what has been written in front of it. *)
Lemma read_own_output n c pos wr (r : source) :
  holds c wr -> stands_at pos r -> (0 < n)%nat ->
  exists bs err r', Read n (refresh wr r) = ((bs, err), r') /\ stands_at (pos + length bs) r' /\
    if decide (pos < length c)%nat then err = None /\ bs <> [] else err = Some EOF /\ bs = [].
Proof.
  intros (_ & _ & Hf) (fl & Hfl & Hn & Hp) Hpos. pose proof (file_behind_refresh (fw_file wr) r) as Hr. rewrite Hfl in Hr.
  destruct Hr as [Hr _]. set (m := files (of_world (fw_file wr))) in *. set (fl1 := reread m fl) in *.
  destruct (file_reread m fl) as (Hn1 & Hp1 & Hc1). fold fl1 in Hn1, Hp1, Hc1.
  rewrite Hn, Hf, lookup_insert_eq in Hc1. cbn [default id] in Hc1.
  pose proof (file_behind_read n (refresh (fw_file wr) r)) as Hread. rewrite Hr in Hread. destruct Hread as [Hres Hafter].
  change (refresh wr r) with (refresh (fw_file wr) r).
  destruct (Read n (refresh (fw_file wr) r)) as [res r'] eqn:Erun. cbn [fst snd] in Hres, Hafter. subst res.
  destruct (io_read_law n fl1) as (bs & err & fl2 & Hl & Hrest & Hlen & He).
  pose proof (file_read n fl1) as Hat. pose proof (file_pending fl1) as Hpend. pose proof (file_pending fl2) as Hpend2.
  rewrite Hl in Hat, Hafter |- *. destruct Hat as (Hn2 & Hc2 & Hp2 & Heof). cbn [fst snd] in Hafter |- *.
  change (io_pending fl1) with (io_rest fl1) in Hpend. rewrite Hp1, Hc1, Hp in Hpend. rewrite Hpend in Hrest.
  exists bs, err, r'. split; [done|]. split; [exists fl2; split; [done|]; split; [congruence|]; rewrite Hp2, Hp1, Hp; done|].
  destruct (decide (pos < length c)%nat) as [Hin|Hout].
  - destruct He as [[-> Hb]|[-> Hnil]]; [split; [done|]; destruct Hb; [lia|done]|]. exfalso.
    rewrite (Heof eq_refl), Hnil in Hrest. apply (f_equal length) in Hrest. rewrite length_drop in Hrest. simpl in Hrest. lia.
  - rewrite drop_ge in Hrest by lia. symmetry in Hrest. apply app_eq_nil in Hrest as [-> _].
    destruct He as [[-> Hb]|[-> _]]; [|done]. destruct Hb; [lia|done].
Qed.

(** When the new headers are longer, the file is copied to its own end without end. *)
Lemma io_Copy_onto_itself fuel : forall n c pos wr (r : source),
  holds c wr -> stands_at pos r -> (pos < length c)%nat -> (io_Copy fuel n (wr, r)).1 = Diverge.
Proof.
  induction fuel as [|fuel IH]; intros n c pos wr r Hwr Hr Hlt; [done|]. cbn [io_Copy].
  destruct (read_own_output (Z.to_nat 32768) c pos wr r Hwr Hr) as (bs & err & r' & -> & Hr' & Hres); [lia|].
  rewrite decide_True in Hres by done. destruct Hres as [-> Hbs].
  assert (0 < Zlen bs) as Hz by (destruct bs; [done|zlen]). rewrite (proj2 (Z.ltb_lt _ _) Hz).
  destruct (write_holds c bs wr Hwr) as (wr' & -> & Hwr').
  rewrite (proj2 (Z.ltb_ge _ _)), Z.ltb_irrefl, Z.eqb_refl by lia. cbn [orb negb].
  apply (IH _ _ _ _ _ Hwr' Hr'). rewrite length_app. lia.
Qed.

(** Otherwise nothing is left to copy. *)
Lemma io_Copy_nothing_left fuel n c pos wr (r : source) :
  holds c wr -> stands_at pos r -> (length c <= pos)%nat ->
  exists k r', io_Copy (S fuel) n (wr, r) = (Ok k, (wr, r')).
Proof.
  intros Hwr Hr Hle. cbn [io_Copy].
  destruct (read_own_output (Z.to_nat 32768) c pos wr r Hwr Hr) as (bs & err & r' & -> & Hr' & Hres); [lia|].
  rewrite decide_False in Hres by lia. destruct Hres as [-> ->]. by do 2 eexists.
Qed.

Lemma WriteRPM_in_place `{Hashes} `{Runtime} f w (r : source) pos :
  files w = <[name := []]> m0 -> stands_at pos r -> (headers_of f).1 = Ok tt ->
  if decide (length (headers_of f).2 <= pos)%nat
  then forall fuel, exists wr' r',
    WriteRPM (S fuel) f (NewFileWriterWithOffset (mkOsFile name w), r) = (Ok tt, (wr', r')) /\ holds (headers_of f).2 wr'
  else forall fuel, (WriteRPM fuel f (NewFileWriterWithOffset (mkOsFile name w), r)).1 = Diverge.
Proof.
  intros Hw Hr Hok.
  assert (exists w1, with_serializer (write_headers f) (NewFileWriterWithOffset (mkOsFile name w), r) = (Ok tt, (w1, r)) /\
    holds (headers_of f).2 w1) as (w1 & Hrun & Hwr).
  { pose proof (write_headers_run (H0:=OsFile_fallible m0 name) f (NewFileWriterWithOffset (mkOsFile name w)) r) as Hh.
    destruct Hh as (o & w1 & Hrun & (Hn & Ho & c & Hc) & _ & Hres); [split; [done|]; split; [done|by exists []]|].
    destruct Hres as [[-> Hs]|[_ Hbad]]; [|by apply reliable_not_faulty in Hbad]. rewrite Hok in Hrun. exists w1.
    split; [exact Hrun|]. split; [done|]. split; [done|]. simpl in Hs. rewrite Hc, Hw, !lookup_insert_eq in Hs. simpl in Hs.
    by rewrite Hc, Hs. }
  destruct (decide _) as [Hle|Hgt]; intros fuel; rewrite WriteRPM_split, Hrun.
  - destruct (io_Copy_nothing_left fuel 0 (headers_of f).2 pos w1 r Hwr Hr Hle) as (k & r' & Hc).
    exists w1, r'. split; [|done]. by rewrite (M_bind_ok _ _ _ _ _ Hc).
  - unfold mbind, M_bind. pose proof (io_Copy_onto_itself fuel 0 (headers_of f).2 pos w1 r Hwr Hr ltac:(lia)) as Hc.
    destruct (io_Copy fuel 0 (w1, r)) as [o s]. simpl in Hc. by subst o.
Qed.
End InPlace.

Section Client.
Context `{OS} `{!Reliable} `{KeyFormat} `{Hashes} `{Runtime} `{NetURL} {F B : Type} `{LawfulIOReader F} `{LawfulIOReader B}.
Context `{!FileReader F} `{!LawfulFile F}.

Abbreviation source := (IOReaderWithOffset (headerCapturingReader (SeekableReaderImpl F B) + SeekableReaderImpl F B)).

(** Signing and writing, when the reader stands behind the headers of the output. *)
Lemma SignRpmAndWriteToFile_in_place f f1 dest now key w (r : source) pos :
  SignRpm now key f = (Ok tt, f1) -> (headers_of f1).1 = Ok tt -> stands_at dest pos r ->
  if decide (length (headers_of f1).2 <= pos)%nat
  then forall fuel, exists w' r', SignRpmAndWriteToFile (S fuel) f dest true now key (w, r) = (Ok tt, (w', r')) /\
    files w' = <[dest := (headers_of f1).2]> (files w)
  else forall fuel, (SignRpmAndWriteToFile fuel f dest true now key (w, r)).1 = Diverge.
Proof.
  intros Hsign Hok Hr. unfold SignRpmAndWriteToFile.
  destruct (CreateDestinationFile_cases dest true w) as (o & w1 & -> & [(-> & Hw1 & _)|(_ & _ & [Hbad|[[=] _]])]);
    [|by apply reliable_not_faulty in Hbad].
  unfold SignRpmAndWrite. rewrite Hsign. pose proof (WriteRPM_in_place (files w) dest f1 w1 r pos Hw1 Hr Hok) as Hwrite.
  destruct (decide _); intros fuel; specialize (Hwrite fuel); cbv zeta.
  - destruct Hwrite as (wr' & r' & -> & _ & _ & Hf). unfold os_Close. rewrite syscall_ok. by do 2 eexists.
  - by destruct (WriteRPM _ _ _) as [o [wr' r']]; simpl in Hwrite; subst o.
Qed.
End Client.

(** C20. Signing a package in place, with [-f] and the input as output, loses the payload,
    or never ends. It is the request of C1, with calls on files that do not fail: but
    creating the output truncates the input, of which only the headers have been read.
    If the new headers are not longer than the old ones, the client exits with status
    0 and announces success, and the file consists of the signed headers alone. If they
    are longer, the payload is read from the headers just written, and what is read is
    appended again: the client runs for ever, until a write fails. *)
Theorem main_in_place_loses_payload `{OS} `{!Reliable} `{KeyFormat} `{Hashes} `{Runtime} `{NetURL} {F B : Type}
    `{LawfulIOReader F} `{LawfulIOReader B} `{!FileReader F} `{!LawfulFile F} http_Get {Body} `{LawfulReader Body} Do
    range env_token AppVersion GitRef now args o c f payload key tag other data d' :
  let main fuel := main (F:=F) (B:=B) (Body:=Body) http_Get Do range env_token AppVersion GitRef fuel now in
  parse_command_line args = Ok (Some o) -> signs_alone o -> is_url (rpmFilePath o) = false ->
  files (c_world c) !! rpmFilePath o = Some (file_bytes f ++ payload) ->
  file_valid f -> reserved_binary (SignatureHeader f) ->
  (LoadPrivateKeyFromFile (privateKeyFilename o) (default [] (privateKeyPassphrase o)) (c_world c)).1 = Ok key ->
  signature_tags key = Some (tag, other) ->
  SignDigest now key (header_bytes (MainHeader f)) = (Ok data, d') ->
  signable (SignatureHeader f) tag data ->
  destinationFileName o = rpmFilePath o -> overwriteDestinationFile o = true -> verbose_enough c ->
  exists f1, signed_copy f f1 tag other data /\
    if decide (length (file_bytes f1) <= length (file_bytes f))%nat
    then forall fuel, exists c1, main (S fuel) args c = (Ok tt, c1) /\
      files (c_world c1) = <[rpmFilePath o := file_bytes f1]> (files (c_world c)) /\
      exists greeting, output (c_log c1) = output (c_log c) ++ greeting ++ announcement o
    else forall fuel, (main fuel args c).1 = Diverge.
Proof.
  intros main Hp Ho Hu Hfile Hf Hrb Hkey Htags Hsign Hok Hdest Hover Hlog.
  set (content := file_bytes f ++ payload) in *.
  pose proof (parsed_reads (F:=F) (B:=B) o content) as Hreads.
  destruct (ParseRPM_run f payload (source_of (F:=F) (B:=B) o content) Hf (source_of_valid _ _) eq_refl (source_of_rest _ _))
    as (f' & rd & Hparse & _ & Hrest & Hl & _ & _ & Hs & Hm & _).
  destruct (sign_parsed f tag other data now key d' f' Hf Hrb Htags Hsign Hok) as (f1 & Hsigned & Hcopy); [by split|].
  exists f1. split; [done|]. rewrite Hparse in Hreads. cbn [snd] in Hreads.
  assert (stands_at (rpmFilePath o) (length (file_bytes f)) rd) as Hat.
  { destruct Hreads as (fl & Hfl & Hn & Hc & Hpos). exists fl. split; [done|]. split; [done|].
    pose proof (file_behind_pending rd fl Hfl) as Hpend. rewrite file_pending, Hc in Hpend.
    change (pending rd) with (rest rd) in Hpend. rewrite Hrest in Hpend. apply (f_equal length) in Hpend.
    unfold content in *. rewrite length_drop, length_app in Hpend. rewrite length_app in Hpos. lia. }
  pose proof (headers_of_valid _ (sc_valid _ _ _ _ _ Hcopy)) as Hheaders.
  assert (forall w, files w = files (c_world c) ->
    if decide (length (file_bytes f1) <= length (file_bytes f))%nat
    then forall fuel, exists w' r', SignRpmAndWriteToFile (S fuel) f' (rpmFilePath o) true now key (w, rd) = (Ok tt, (w', r')) /\
      files w' = <[rpmFilePath o := file_bytes f1]> (files (c_world c))
    else forall fuel, (SignRpmAndWriteToFile fuel f' (rpmFilePath o) true now key (w, rd)).1 = Diverge) as Hstep.
  { intros w Hw. rewrite <- Hw. pose proof (SignRpmAndWriteToFile_in_place f' f1 (rpmFilePath o) now key w rd
      (length (file_bytes f)) Hsigned) as Hs1.
    rewrite Hheaders in Hs1. by apply Hs1. }
  assert (forall fuel, exists w, files w = files (c_world c) /\
    concludes o (started o c) (main fuel args c)
      (let '(res, (w, _)) := SignRpmAndWriteToFile fuel f' (rpmFilePath o) true now key (w, rd) in (res, w))) as Hrun.
  { intros fuel. unfold main. rewrite (main_run http_Get Do range env_token AppVersion GitRef fuel now _ _ _ Hp).
    pose proof (run_alone http_Get Do range env_token fuel now o (started o c) content key Ho Hu Hfile Hkey
      (started_verbose o c Hlog)) as Hrun.
    rewrite Hparse, Hdest, Hover in Hrun. destruct Hrun as (w & Hw & _ & Hc). by exists w. }
  destruct (decide _); intros fuel.
  - destruct (Hrun (S fuel)) as (w & Hw & [Hokk _ Hworld _ Hout]). destruct (Hstep w Hw fuel) as (w' & r' & Hr & Hfiles).
    rewrite Hr in Hokk, Hworld. destruct (main (S fuel) args c) as [r c1]. cbn [fst snd] in *.
    exists c1. split; [f_equal; by apply Hokk|]. split; [by rewrite Hworld|].
    destruct (Hout (proj2 Hokk eq_refl)) as [greeting Hg]. exists greeting. rewrite Hg. unfold started. simpl.
    by destruct (debugLogging o).
  - destruct (Hrun fuel) as (w & Hw & [_ Hdiv _ _ _]). apply Hdiv. specialize (Hstep w Hw fuel).
    by destruct (SignRpmAndWriteToFile _ _ _ _ _ _ _) as [res [w' r']].
Qed.

(** ** A witness *)

Section Witness.
#[local] Existing Instance reliable_os.
#[local] Existing Instance checksums.
#[local] Existing Instance doubling.
#[local] Existing Instance checksum_pgp.
#[local] Existing Instance sample_keyformat.
#[local] Existing Instance sample_neturl.
#[local] Existing Instance sample_read.
#[local] Existing Instance sample_read_lawful.
#[local] Existing Instance sample_file_reader.
#[local] Existing Instance sample_file_lawful.

Definition in_place_args : list string := ["-s"; "-f"; "--priv-key"; "my.key"; "-o"; "in.rpm"; "in.rpm"].

Lemma parse_in_place_args : parse_command_line in_place_args = Ok (Some (options_of in_place_args)).
Proof. vm_compute. reflexivity. Qed.

Lemma in_place_args_alone : signs_alone (options_of in_place_args).
Proof. split; [|split; [reflexivity|discriminate]]. split; [reflexivity|]. split; [reflexivity|]. split; [by split|discriminate]. Qed.

Definition in_place_main (fuel : nat) : list string -> M Client unit :=
  main (F:=DiskFile) (B:=DiskFile) (Body:=arrayReader) (fun _ => Err "offline") (fun _ _ => Err "offline")
    elements "" "" "" fuel 0.

(** The same home, where the package has been signed already. *)
Definition signed_home : Client :=
  mkClient (mkWorld {[ "in.rpm" := sample_signed_content; "my.key" := [1] ]} []) rootLogger (tagsById, signatureTagsByID).

(** The first signature does not fit: the client does not end. The second one does: the
    payload is gone. *)
Lemma main_in_place_loses_payload_witness :
  (forall fuel, (in_place_main fuel in_place_args sample_home).1 = Diverge) /\
  (in_place_main 1 in_place_args signed_home).1 = Ok tt /\
  files (c_world (in_place_main 1 in_place_args signed_home).2) !! "in.rpm" =
    Some (take (length sample_signed_content - length sample_payload) sample_signed_content).
Proof.
  assert (Reliable) as Hr by by intros i.
  split; [|split; vm_compute; reflexivity].
  assert ((in_place_main 1 in_place_args sample_home).1 = Diverge) as Hone by (vm_compute; reflexivity).
  destruct (main_in_place_loses_payload (F:=DiskFile) (B:=DiskFile) (Body:=arrayReader) (fun _ => Err "offline")
    (fun _ _ => Err "offline") elements "" "" "" 0 in_place_args (options_of in_place_args) sample_home sample_parsed_file
    sample_payload sample_rsa_key SigTagRSAHeader SigTagDSAHeader sample_signature_data sample_hash_after)
    as (f1 & _ & Hres).
  - exact parse_in_place_args.
  - exact in_place_args_alone.
  - vm_compute. reflexivity.
  - vm_compute. reflexivity.
  - exact sample_parsed_valid.
  - exact sample_reserved_binary.
  - vm_compute. reflexivity.
  - vm_compute. reflexivity.
  - vm_compute. reflexivity.
  - exact sample_signable.
  - vm_compute. reflexivity.
  - vm_compute. reflexivity.
  - done.
  - destruct (decide _); [|exact Hres]. destruct (Hres 0%nat) as (c1 & Hrun & _).
    assert (in_place_main 1 in_place_args sample_home = (Ok tt, c1)) as Hrun1 by exact Hrun.
    rewrite Hrun1 in Hone. discriminate Hone.
Defined.
End Witness.
