(* ===== verification/ServerMain.v ===== *)
(** The server as a process ([AccessLogMiddleware], [startHttpServer] and [main] of
    [src/server/server.go]): a request from its handler to its line in the access
    log, and a run of the server from its command line to its end. *)
From S2P Require Import Prelude Utils Serializer Tags Header HeaderCodec Payload RpmFile Signing Files FilesTheorems Keys Http Server.
From S2P Require Import Allocation FileTheorems SigningTheorems AccessLog ServerTheorems RemoteTheorems Config Dump Log Client.
From Stdlib Require Import Ascii.
#[local] Open Scope Z_scope.

(** ** A request and its line in the log *)

(** What [http.Request] has besides method, path and query: the address of the
    client, the [Host], [Referer] and [User-Agent] headers, the protocol, the scheme of
    the URL (empty, unless the client sent an absolute one), its path as it is
    escaped, and whether it ends in a question mark. *)
Record RequestInfo := mkInfo {
  RemoteAddr : string;
  Host : string;
  Referer : string;
  UserAgent : string;
  Proto : string;
  Scheme : string;
  EscapedPath : string;
  ForceQuery : bool;
}.

(** [URL.RequestURI] *)
Definition RequestURI (info : RequestInfo) (req : Request) : string :=
  let path := if String.eqb (EscapedPath info) "" then "/"%string else EscapedPath info in
  if ForceQuery info || negb (String.eqb (req_RawQuery req) "")
  then (path +:+ "?" +:+ req_RawQuery req)%string else path.

Definition or_dash (s : string) : string := if String.eqb s "" then "-"%string else s.

Definition logged_uri (appConfig : AppConfig) (info : RequestInfo) (req : Request) : string :=
  if DebugMode appConfig then RequestURI info req
  else (Scheme info +:+ "://" +:+ Host info +:+ req_Path req)%string.

Definition quote : list Z := [34].

(** The line in the combined log format; [timestamp] is when the request began. *)
Definition access_line (appConfig : AppConfig) (timestamp : string) (info : RequestInfo) (req : Request)
    (statusCode bytesWritten : Z) : list Z :=
  Sprintf (str "%s - - [%s] " ++ quote ++ str "%s %s %s" ++ quote ++ str " %d %d " ++
           quote ++ str "%s" ++ quote ++ str " " ++ quote ++ str "%s" ++ quote ++ [10])
    [Text (str (RemoteAddr info)); Text (str timestamp); Text (str (req_Method req));
     Text (str (logged_uri appConfig info req)); Text (str (Proto info)); Num statusCode; Num bytesWritten;
     Text (str (or_dash (Referer info))); Text (str (or_dash (UserAgent info)))].

Section Serve.
Context `{OS} `{KeyFormat} `{Hashes} `{Runtime}.
Context (Quote : string -> string) (serverStart AppVersion GitRef : string).
Context {W B : Type} `{ResponseWriter W} `{IOReader B}.

(** The handler of the server: [AccessLogMiddleware] around the routes. The access log
    is not one of the files the handlers read. *)
Definition ServeHTTP (fuel : nat) (now : Z) (appConfig : AppConfig) (timestamp : string) (info : RequestInfo)
    (req : Request) (a : answers) : M (Exchange W B * LogState) unit := fun '(x, l) =>
  let mux := ServeMux Quote serverStart AppVersion GitRef fuel now appConfig req in
  match AccessLogMiddleware mux x with
  | (Ok (statusCode, bytesWritten), x) =>
      (Ok tt, (x, writeAccessLog (String.length (AccessLogPath appConfig) =? 0)%nat a
                    (access_line appConfig timestamp info req statusCode bytesWritten) l))
  | (Err e, x) => (Err e, (x, l))
  | (Panic p, x) => (Panic p, (x, l))
  | (Diverge, x) => (Diverge, (x, l))
  end.
End Serve.

(** ** The process *)

(** What ends [startHttpServer]: [ListenAndServe] fails, or a signal arrives. *)
Inductive Event := ListenFailed (e : string) | SignalReceived.

(** [first] is what happens first, [Shutdown] the result of shutting down. *)
Definition startHttpServer (appConfig : AppConfig) (first : Event) (Shutdown : outcome unit) : M LogImpl unit :=
  _ ← modify (Infof (str "Listening on %s") [Text (str (ListenAddress appConfig))]);
  match first with
  | ListenFailed e => raise e
  | SignalReceived =>
      _ ← modify (Info_ (str "Signal received, shutting down"));
      lift Shutdown
  end.

(** What [loadAppConfig] says about every [-c] that the environment or an earlier
    option overrides, until it is through or fails. *)
Fixpoint overridden (args : list string) (seenOpts : gset string) (configFilePath : string) : list (list Arg) :=
  match args with
  | [] => []
  | arg :: args =>
      if existsb (String.eqb arg) ["-d"; "--debug"; "-v"; "--verbose"] then
        if GoSet.Contains arg seenOpts then [] else overridden args (GoSet.Add arg seenOpts).2 configFilePath
      else if existsb (String.eqb arg) ["-c"; "--config"] then
        match args with
        | next :: _ =>
            if GoSet.Contains arg seenOpts then []
            else if (String.length configFilePath =? 0)%nat
            then overridden args (GoSet.Add arg seenOpts).2 next
            else [Text (str next); Text (str configFilePath)] ::
                 overridden args (GoSet.Add arg seenOpts).2 configFilePath
        | [] => []
        end
      else overridden args seenOpts configFilePath
  end.

(** The files and the root logger of the process. *)
Record Process := mkProcess { p_world : World; p_log : LogImpl }.

Definition on_files {A} (m : M World A) : M Process A := fun p =>
  let '(o, w) := m (p_world p) in (o, mkProcess w (p_log p)).
Definition on_log {A} (m : M LogImpl A) : M Process A := fun p =>
  let '(o, l) := m (p_log p) in (o, mkProcess (p_world p) l).

(** [if err != nil { RootLogger().Errorf(format, err); os.Exit(1) }]; the status of the
    process is 0 if the outcome is [Ok], else 1. Errors have the constant part of
    their text. *)
Definition exit_if_failed {A} (format : list Z) (m : M Process A) : M Process A := fun p =>
  match m p with
  | (Err e, p) => (Err e, mkProcess (p_world p) (Errorf format [Text (str e)] (p_log p)))
  | r => r
  end.

Definition log_level (appConfig : AppConfig) (l : LogImpl) : LogImpl :=
  if DebugMode appConfig then SetCurrentLogLevel LOG_LEVEL_TRACE l
  else if Verbose appConfig then SetCurrentLogLevel LOG_LEVEL_DEBUG l
  else l.

Section Main.
Context `{OS} `{KeyFormat}.

(** [env] is the variable [RPM_SIGN_CONFIG], [started] the time. *)
Definition server_main (env : string) (args : list string) (started AppVersion GitRef : string)
    (first : Event) (Shutdown : outcome unit) : M Process unit :=
  if existsb (String.eqb "--version") args then
    on_log (modify (log (VersionString AppVersion GitRef)))
  else
    _ ← on_log (modify (SetCurrentLogLevel LOG_LEVEL_INFO));
    _ ← on_log (modify (Infof (str "Server started at %s, version: %s" ++ [10])
          [Text (str started); Text (VersionString AppVersion GitRef)]));
    _ ← on_log (modify (fun l => fold_left (fun l args => Infof
          (str "Configuration file path from '-c' (%s) overridden by RPM_SIGN_CONFIG env variable (%s)") args l)
          (overridden args GoSet.NewSet env) l));
    appConfig ← exit_if_failed (str "Failed to load application configuration: %v")
      (on_files (loadAppConfig env args));
    _ ← on_log (modify (log_level appConfig));
    exit_if_failed (str "Failed to start HTTP server: %v")
      (on_log (startHttpServer appConfig first Shutdown)).
End Main.

(** ** Theorems *)

Definition signing_endpoints : list string := [SignRpmHeaderEndpoint; SignDetached].

Lemma access_line_parts appConfig timestamp info req code n :
  access_line appConfig timestamp info req code n =
  (str (RemoteAddr info) ++ str " - - [" ++ str timestamp ++ str "] " ++ quote ++ str (req_Method req) ++ str " ") ++
  str (logged_uri appConfig info req) ++
  (str " " ++ str (Proto info) ++ quote ++ str " " ++ decimal code ++ str " " ++ decimal n ++ str " " ++
   quote ++ str (or_dash (Referer info)) ++ quote ++ str " " ++ quote ++ str (or_dash (UserAgent info)) ++ quote ++ [10]).
Proof. unfold access_line. rewrite <- !app_assoc. reflexivity. Qed.

(** What the wrapper has noted after an error. *)
Lemma http_Error_status {W} `{ResponseWriter W} msg code (w : responseWriterWrapper W) :
  statusCode (http_Error msg code w) = code.
Proof. unfold http_Error. simpl. by repeat case_match. Qed.

Lemma has_infix (front uri mark query back : list Z) :
  exists l r, front ++ (uri ++ mark ++ query) ++ back = l ++ query ++ r.
Proof. exists (front ++ uri ++ mark), back. by rewrite <- !app_assoc. Qed.

Section Requests.
Context `{OS} `{KeyFormat} `{Hashes} `{Runtime} {W B : Type} `{ResponseWriter W} `{IOReader B}.
Context (Quote : string -> string) (serverStart AppVersion GitRef : string).

(** At the signing endpoints the routes answer every request without the right token
    the same, whatever else its query has. *)
Lemma ServeMux_unauthorized fuel now appConfig method path query :
  path ∈ signing_endpoints -> ~ authorized query appConfig ->
  ServeMux (W:=W) (B:=B) Quote serverStart AppVersion GitRef fuel now appConfig (mkRequest method path query) =
  if String.eqb "POST" method then on_writer (sendHttpError StatusForbidden "missing or invalid authToken")
  else on_writer (fun w => http_Error "Method Not Allowed" StatusMethodNotAllowed (SetHeader "Allow" "POST" w)).
Proof.
  intros Hp Ha.
  assert (forall k, with_token (W:=W) (B:=B) query appConfig k =
    on_writer (sendHttpError StatusForbidden "missing or invalid authToken")) as Hno
    by (intros k; by rewrite with_token_run, bool_decide_eq_false_2).
  apply elem_of_cons in Hp as [->|Hp]; [|apply list_elem_of_singleton in Hp as ->];
    unfold ServeMux; simpl; unfold handleSignRpmHeader, handleSignDetached; rewrite Hno;
    unfold method_matches; simpl; rewrite orb_false_r; by destruct (String.eqb "POST" method).
Qed.
End Requests.

(** C28. Unless the server runs in debug mode, nothing a client puts into the query of
    a request that is refused gets anywhere: at the signing endpoints, requests that
    differ only in their queries and lack the right token get the same response,
    leave the same files and the same access log, whatever the log was and whatever
    calls fail on the way; with [POST] that response is 403. In debug mode the line in
    the log has the whole query, with the token of every request, also of those that
    are signed. *)
Theorem queries_stay_private `{OS} `{KeyFormat} `{Hashes} `{Runtime} {W B} `{ResponseWriter W} `{IOReader B}
    Quote serverStart AppVersion GitRef fuel now appConfig timestamp info method path query a (x : Exchange W B) l :
  let serve q := ServeHTTP Quote serverStart AppVersion GitRef fuel now appConfig timestamp info
                   (mkRequest method path q) a (x, l) in
  path ∈ signing_endpoints -> query <> ""%string ->
  (DebugMode appConfig = false -> ~ authorized query appConfig ->
   (forall query', ~ authorized query' appConfig -> serve query' = serve query) /\
   (method = "POST"%string -> exists n, serve query =
      (Ok tt, (mkExchange (x_world x) (http_Error "missing or invalid authToken" StatusForbidden
                 (mkWrapper (x_writer x) StatusOK 0)).(rw_ResponseWriter) (x_body x),
        writeAccessLog (String.length (AccessLogPath appConfig) =? 0)%nat a
          (access_line appConfig timestamp info (mkRequest method path "") StatusForbidden n) l)))) /\
  (DebugMode appConfig = true -> forall code n, exists front back,
     access_line appConfig timestamp info (mkRequest method path query) code n = front ++ str query ++ back).
Proof.
  intros serve Hp Hq. split.
  - intros Hd Ha.
    assert (forall q code n, access_line appConfig timestamp info (mkRequest method path q) code n =
      access_line appConfig timestamp info (mkRequest method path "") code n) as Hl
      by (intros; unfold access_line, logged_uri; by rewrite Hd).
    split.
    + intros q' Ha'. unfold serve, ServeHTTP. rewrite !ServeMux_unauthorized by done.
      destruct (AccessLogMiddleware _ x) as [[[code n]|e|p|] x']; [|done..]. by rewrite (Hl query), (Hl q').
    + intros ->. unfold serve, ServeHTTP. rewrite ServeMux_unauthorized by done. simpl String.eqb. cbv iota.
      unfold AccessLogMiddleware, on_writer, sendHttpError. cbn [x_world x_writer x_body].
      set (wr := http_Error _ _ (mkWrapper (x_writer x) StatusOK 0)).
      assert (statusCode wr = StatusForbidden) as Hs by apply http_Error_status.
      exists (bytesWritten wr). simpl. by rewrite Hs, (Hl query).
  - intros Hd code n. rewrite access_line_parts. unfold logged_uri. rewrite Hd. unfold RequestURI.
    cbn [req_RawQuery]. apply String.eqb_neq in Hq. rewrite Hq, orb_true_r, !str_app. apply has_infix.
Qed.

(** Without [--version] the process ends with status 0 only after it has loaded its
    configuration, listened until a signal came, and shut down. *)
Lemma server_main_ok `{OS} `{KeyFormat} env args started AppVersion GitRef first Shutdown p :
  existsb (String.eqb "--version") args = false ->
  (server_main env args started AppVersion GitRef first Shutdown p).1 = Ok tt <->
  (exists appConfig, (loadAppConfig env args (p_world p)).1 = Ok appConfig) /\
  first = SignalReceived /\ Shutdown = Ok tt.
Proof.
  intros Hno. unfold server_main. rewrite Hno. unfold mbind, M_bind, on_log, modify. cbv beta iota zeta.
  cbn [p_world]. unfold exit_if_failed, on_files. cbn [p_world p_log].
  destruct (loadAppConfig env args (p_world p)) as [[c|e|s|] w]; cbn [fst];
    try (split; [done|by intros ([? ?] & _)]).
  unfold startHttpServer, mbind, M_bind, modify, lift. destruct first as [e|]; cbn [fst].
  - split; [done|by intros (_ & ? & _)].
  - destruct Shutdown as [[]|e|s|]; cbn [fst];
      (split; [intros Hs; split_and!; try done; by exists c|by intros (_ & _ & ?)]).
Qed.

Section Witness.
#[local] Existing Instance reliable_os.
#[local] Existing Instance checksums.
#[local] Existing Instance doubling.
#[local] Existing Instance checksum_pgp.
#[local] Existing Instance sample_keyformat.

Definition sample_info : RequestInfo := mkInfo "10.0.0.7:4711" "sign.example" "" "curl/8.1" "HTTP/1.1" "" "/signDetached" false.

(** Two wrong guesses of the token. *)
Lemma queries_stay_private_witness :
  let serve q := ServeHTTP (B:=arrayReader) id "" "" "" 10 0 sample_config "now" sample_info
                   (mkRequest "POST" SignDetached q) no_failure
                   (mkExchange sample_server (new_response None) (NewArrayReader [1; 2; 3]), idle None) in
  serve "authToken=guess2" = serve "authToken=guess1" /\ (serve "authToken=guess1").1 = Ok tt.
Proof.
  destruct (queries_stay_private (B:=arrayReader) id "" "" "" 10 0 sample_config "now" sample_info "POST" SignDetached
    "authToken=guess1" no_failure (mkExchange sample_server (new_response None) (NewArrayReader [1; 2; 3])) (idle None))
    as [Hsame _]; [by apply elem_of_cons; right; apply list_elem_of_singleton|discriminate|].
  destruct Hsame as [Hsame Hpost]; [reflexivity|by vm_compute|].
  split; [apply Hsame; by vm_compute|]. destruct (Hpost eq_refl) as [n ->]. reflexivity.
Defined.
End Witness.
