(* ===== verification/Termination.v ===== *)
(** Nothing runs on: the operations on headers, signing and writing end in every state,
    well formed or not, and so does every request to the server
    ([src/common/rpmparser.go], [src/common/signing.go], [src/server/server.go]). *)
From S2P Require Import Prelude Utils Bitmap DynArray Serializer Tags Header Layout HeaderSpec HeaderOps Allocation Payload.
From S2P Require Import HeaderCodec Codec HeaderRoundtrip RpmFile FileRoundtrip FileTheorems ParseTotal Signing SigningTheorems.
From S2P Require Import Frame Files FilesTheorems Keys Http Server AccessLog ServerTheorems RemoteTheorems ServerMain.
From Stdlib Require Import Ascii.
#[local] Open Scope Z_scope.

(** ** Programs that end in every state *)

Definition ends_always {S A} (m : M S A) : Prop := forall s, (m s).1 <> Diverge.

Create HintDb ending.

Section EndsAlways.
Context {S : Type}.

Lemma always_ret {A} (a : A) : ends_always (S:=S) (mret a).
Proof. by intros s. Qed.

Lemma always_lift {A} (o : outcome A) : o <> Diverge -> ends_always (S:=S) (lift o).
Proof. by intros Ho s. Qed.

Lemma always_raise {A} e : ends_always (S:=S) (A:=A) (raise e).
Proof. by intros s. Qed.

Lemma always_panic {A} p : ends_always (S:=S) (A:=A) (panic p).
Proof. by intros s. Qed.

Lemma always_modify f : ends_always (S:=S) (modify f).
Proof. by intros s. Qed.

Lemma always_gets {A} (f : S -> outcome A) : (forall s, f s <> Diverge) -> ends_always (gets f).
Proof. intros Hf s. apply Hf. Qed.

Lemma always_bind {A B} (m : M S A) (f : A -> M S B) :
  ends_always m -> (forall a, ends_always (f a)) -> ends_always (m ≫= f).
Proof.
  intros Hm Hf s. specialize (Hm s). unfold mbind, M_bind.
  destruct (m s) as [[a|e|p|] s']; try done. apply Hf.
Qed.

Lemma always_wrap_err {A} e (m : M S A) : ends_always m -> ends_always (wrap_err e m).
Proof. intros Hm s. specialize (Hm s). unfold wrap_err. by destruct (m s) as [[] ?]. Qed.
End EndsAlways.
#[export] Hint Resolve always_ret always_raise always_panic always_modify : ending.

(** Steps through a program; what is left are the calls that are not in [ending]. *)
Ltac ending :=
  repeat match goal with
         | |- forall _, _ => intro
         | |- ends_always (_ ≫= _) => apply always_bind
         | |- ends_always (wrap_err _ _) => apply always_wrap_err
         | |- ends_always (let _ := _ in _) => cbv zeta
         | |- ends_always (match ?x with _ => _ end) => destruct x eqn:?
         | |- ends_always _ => solve [auto with ending nocore]
         | |- lift _ <> _ => apply always_lift
         end.

(** It ends in every state, not only in this one. *)
Ltac any_state s :=
  match goal with |- (?m s).1 <> _ => let Hm := fresh in enough (ends_always m) as Hm by exact (Hm s) end.

Lemma outcome_bind_ends {A B} (o : outcome A) (f : A -> outcome B) :
  o <> Diverge -> (forall a, f a <> Diverge) -> (o ≫= f) <> Diverge.
Proof. intros Ho Hf. destruct o; try done. apply Hf. Qed.

(** ** The data store *)

Lemma simpleWrite_ends off cnt : ends_always (simpleWrite off cnt).
Proof. intros d. unfold simpleWrite. by repeat case_match. Qed.

Lemma setIntermediate_ends fuel : forall idx bits d,
  in_width 32 bits -> (Z.to_nat (bits / 64) < fuel)%nat -> (setIntermediate fuel idx bits d).1 <> Diverge.
Proof.
  induction fuel as [|fuel IH]; intros idx bits d Hb Hf; [lia|]. cbn [setIntermediate]. unfold bitsPerElement in *.
  destruct (Z.gtb_spec bits 64); [|done]. cbv zeta. repeat (case_match; try done).
  unfold in_width in Hb. rewrite (wrap_small 32 (bits - 64)) by (unfold in_width; lia). apply IH; [unfold in_width; lia|].
  replace (bits - 64) with (bits + (-1) * 64) by lia. rewrite Z.div_add by lia.
  pose proof (Z.div_le_lower_bound bits 64 1). lia.
Qed.
#[export] Hint Resolve simpleWrite_ends : ending.

Lemma Set_ends off cnt : ends_always (Set_ off cnt).
Proof. unfold Set_. ending. intros d. apply setIntermediate_ends; [apply wrap_range; lia|lia]. Qed.

Lemma DynArray_Write_ends p off : ends_always (DynArray.Write p off).
Proof.
  unfold DynArray.Write. ending.
  - intros da. unfold on_bitmap. pose proof (Set_ends off (u32 (Zlen p)) (bitmap da)) as Hs. by destruct (Set_ _ _ _).
  - intros da. by case_match.
Qed.

Lemma GetRequiredAlignment_ends f : GetRequiredAlignment f <> Diverge.
Proof. unfold GetRequiredAlignment. by repeat case_match. Qed.

Lemma CalcAlignment_ends x a : CalcAlignmentByteCount x a <> Diverge.
Proof. unfold CalcAlignmentByteCount. by repeat case_match. Qed.

Lemma always_alignment {S} f : ends_always (S:=S) (lift (GetRequiredAlignment f)).
Proof. apply always_lift, GetRequiredAlignment_ends. Qed.

Lemma always_padding {S} x a : ends_always (S:=S) (lift (CalcAlignmentByteCount x a)).
Proof. apply always_lift, CalcAlignment_ends. Qed.
#[export] Hint Resolve always_alignment always_padding : ending.

(** ** Writing *)

Section Writing.
Context {W : Type} `{WriterWithOffset W}.

Lemma write_ends p : ends_always (S:=W) (write_ p).
Proof. intros w. unfold write_. by destruct (wWrite p w). Qed.
#[local] Hint Resolve write_ends : ending.

Lemma writeBytes_ends p : ends_always (S:=W) (writeBytes p).
Proof. unfold writeBytes. ending. Qed.

Lemma writeByte_ends d : ends_always (S:=W) (writeByte d).
Proof. unfold writeByte. ending. Qed.
#[local] Hint Resolve writeBytes_ends writeByte_ends : ending.

Lemma writeShort_ends d : ends_always (S:=W) (writeShort d).
Proof. unfold writeShort. ending. Qed.
#[local] Hint Resolve writeShort_ends : ending.

Lemma writeWord_ends d : ends_always (S:=W) (writeWord d).
Proof. unfold writeWord. ending. Qed.
#[local] Hint Resolve writeWord_ends : ending.

Lemma writeAlignTo_ends a : ends_always (S:=W) (writeAlignTo a).
Proof. unfold writeAlignTo. ending. by intros w. Qed.
#[local] Hint Resolve writeAlignTo_ends : ending.

Lemma writeEntries_ends l : forall da, ends_always (S:=W) (writeEntries l da).
Proof.
  induction l as [|e l IH]; intros da; cbn [writeEntries]; ending.
  apply always_lift. pose proof (DynArray_Write_ends (ie_payload e) (ie_offset e) da) as Hw. by destruct (DynArray.Write _ _ _) as [[] ?].
Qed.
#[local] Hint Resolve writeEntries_ends : ending.

Lemma Write_ends h main : ends_always (S:=W) (Write_ h main).
Proof. unfold Write_. ending. Qed.
#[local] Hint Resolve Write_ends : ending.

Lemma write_headers_ends f : ends_always (S:=W) (write_headers f).
Proof. unfold write_headers, write_lead. ending. Qed.
End Writing.

(** Copying ends with the reader, whatever the writer does. *)
Lemma io_Copy_ends {W P} `{WriterWithOffset W} `{FallibleReader P} fuel : forall n (w : W) (p : P),
  usable p -> (length (pending p) + 1 < fuel)%nat -> (io_Copy fuel n (w, p)).1 <> Diverge.
Proof.
  induction fuel as [|fuel IH]; intros n w p Hv Hf; [lia|]. cbn [io_Copy]. change (refresh w p) with p.
  destruct (fallible_law (Z.to_nat 32768) p Hv) as (bs & er & p' & -> & Hv' & Hrest & _ & _ & _ & He).
  destruct (if 0 <? Zlen bs then wWrite bs w else ((0, None), w)) as [[nw ew] w'].
  destruct ew; [done|]. destruct (_ || _); [done|]. destruct (negb _); [done|].
  destruct He as [[-> Hb]|[[-> _]|[[e ->] _]]]; [|done..]. apply IH; [done|]. rewrite Hrest, length_app in Hf.
  destruct bs; [by destruct Hb|]. simpl in Hf. lia.
Qed.

Lemma WriteRPM_ends {W P} `{WriterWithOffset W} `{FallibleReader P} fuel f (w : W) (p : P) :
  usable p -> (length (pending p) + 1 < fuel)%nat -> (WriteRPM fuel f (w, p)).1 <> Diverge.
Proof.
  intros Hv Hf. unfold WriteRPM, mbind at 1, M_bind at 1, with_serializer.
  pose proof (write_headers_ends f (NewOffsetTrackingWriter w)) as Hh. unfold write_headers in Hh.
  destruct ((_ ← write_lead (Lead f); _) (NewOffsetTrackingWriter w)) as [[u|e|x|] s]; try done.
  unfold mbind, M_bind. pose proof (io_Copy_ends fuel 0 (otw_writer s) p Hv Hf) as Hc.
  by destruct (io_Copy _ _ _) as [[k|e|x|] s'].
Qed.

(** ** The index *)

(** What allocating looks at: the tags of the entries and their counts. *)
Definition key (e : IndexEntry) : Z * Z := (ie_tag e, ie_dataItemCnt e).
Definition shape (h : RpmHeader) : list (Z * Z) := key <$> entries h.

(** [m] ends and keeps the shape. *)
Definition shaped {A} (m : M RpmHeader A) : Prop := forall h, (m h).1 <> Diverge /\ shape (m h).2 = shape h.

Lemma shaped_ends {A} (m : M RpmHeader A) : shaped m -> ends_always m.
Proof. intros Hm h. apply Hm. Qed.

Lemma shaped_bind {A B} (m : M RpmHeader A) (f : A -> M RpmHeader B) :
  shaped m -> (forall a, shaped (f a)) -> shaped (m ≫= f).
Proof.
  intros Hm Hf h. specialize (Hm h). unfold mbind, M_bind. destruct (m h) as [[a|e|p|] h'] eqn:E; try by destruct Hm.
  destruct Hm as [_ Hm]. simpl in Hm. rewrite <- Hm. apply Hf.
Qed.

Lemma shaped_pure {A} (m : M RpmHeader A) : ends_always m -> (forall h, (m h).2 = h) -> shaped m.
Proof. intros Hm Hs h. split; [apply Hm|by rewrite Hs]. Qed.

Lemma alter_keys {B} (g : IndexEntry -> B) (f : IndexEntry -> IndexEntry) (l : list IndexEntry) :
  (forall e, g (f e) = g e) -> forall i : nat, g <$> alter f i l = g <$> l.
Proof. intros Hf. induction l as [|e l IH]; intros [|i]; try done; cbn; [by rewrite Hf|]. f_equal. apply IH. Qed.

Lemma shaped_alter i f : (forall e, key (f e) = key e) -> shaped (modify (alter_entry i f)).
Proof. intros Hf h. split; [done|]. by apply alter_keys. Qed.

Lemma shaped_entry_at i : shaped (entry_at i).
Proof. intros h. unfold entry_at. by case_match. Qed.

Lemma shaped_place i off : shaped (place i off).
Proof.
  unfold place. apply shaped_bind; [apply shaped_entry_at|]. intros e.
  apply shaped_bind; [by apply shaped_pure; [ending|]|]. intros a.
  apply shaped_bind; [by apply shaped_pure; [ending|]|]. intros p.
  apply shaped_bind; [by apply shaped_alter|]. intros _. by apply shaped_pure; [ending|].
Qed.

Lemma shaped_placeAll t l : forall off, shaped (placeAll t l off).
Proof.
  induction l as [|i l IH]; intros off; cbn [placeAll]; [by apply shaped_pure; [ending|]|].
  case_match; [apply IH|]. apply shaped_bind; [apply shaped_place|exact IH].
Qed.

(** A program that depends on the header it starts from. *)
Ltac shaped_at h := match goal with |- (?m h).1 <> _ /\ _ => let Hs := fresh in assert (shaped m) as Hs; [|exact (Hs h)] end.

Lemma shaped_sync : shaped syncDataStoreLayout.
Proof.
  intros h. unfold syncDataStoreLayout. cbv zeta. shaped_at h.
  apply shaped_bind; [apply shaped_placeAll|]. intros o.
  apply shaped_bind; [case_match; [apply shaped_place|by apply shaped_pure; [ending|]]|]. by intros o' h'.
Qed.

Lemma shaped_trailer : shaped updateSignedRegionTrailer.
Proof.
  intros h. unfold updateSignedRegionTrailer. case_match; [done|]. case_match; [|done]. cbv zeta. shaped_at h.
  apply shaped_bind; [apply shaped_entry_at|]. intros e. case_match; [by apply shaped_pure; [ending|]|].
  apply shaped_bind; [by apply shaped_alter|]. intros _ h'. split; [done|]. simpl. by case_match.
Qed.

Lemma shaped_relayout : shaped (_ ← updateSignedRegionTrailer; syncDataStoreLayout).
Proof. apply shaped_bind; [apply shaped_trailer|]. intros _. apply shaped_sync. Qed.

Section Index.
Context `{Runtime}.

Lemma insertIndexEntry_ends e : ends_always (insertIndexEntry e).
Proof. intros h. unfold insertIndexEntry. cbv zeta. apply shaped_relayout. Qed.

Lemma entry_at_ends i : ends_always (entry_at i).
Proof. apply shaped_ends, shaped_entry_at. Qed.

Lemma DeleteIndexEntry_ends e : ends_always (DeleteIndexEntry e).
Proof. intros h. unfold DeleteIndexEntry. case_match; [|done]. cbv zeta. apply shaped_relayout. Qed.

Lemma DeleteIfExists_ends {T} `{TagValue T} (t : T) : ends_always (DeleteIndexEntryIfExists t).
Proof.
  intros h. unfold DeleteIndexEntryIfExists. case_match; [|done].
  apply (always_bind _ _ (entry_at_ends _)). apply DeleteIndexEntry_ends.
Qed.
End Index.

(** *** Allocating *)

Lemma alignment_small f x al a :
  GetRequiredAlignment f = Ok al -> CalcAlignmentByteCount x al = Ok a -> 0 <= a <= 7.
Proof.
  assert (forall y k, 0 <= k <= 3 -> 0 <= u8 (Z.land y (Z.ones k)) <= 7) as Hland.
  { intros y k Hk. rewrite Z.land_ones by lia. pose proof (Z.mod_pos_bound y (2 ^ k) ltac:(lia)).
    pose proof (Z.pow_le_mono_r 2 k 3 ltac:(lia) ltac:(lia)). rewrite wrap_small by (unfold in_width; lia). lia. }
  unfold GetRequiredAlignment. repeat case_match; intros [= <-]; unfold CalcAlignmentByteCount; intros [= <-];
    try lia; first [apply (Hland _ 1); lia|apply (Hland _ 2); lia|apply (Hland _ 3); lia].
Qed.

Lemma FindNext_ends f h : FindNextSuitablePayloadOffset f h <> Diverge.
Proof.
  unfold FindNextSuitablePayloadOffset. case_match; [|done]. cbv zeta.
  apply outcome_bind_ends; [apply GetRequiredAlignment_ends|]. intros al.
  by apply outcome_bind_ends; [apply CalcAlignment_ends|].
Qed.

Section Alloc.
Context `{Runtime} (req format : Z).
Hypothesis Hreq : 0 <= req < 2 ^ 32 - 5000.

(** The reserved space is large enough, whatever the padding. *)
Definition enough (h : RpmHeader) : Prop :=
  exists idx e, find_tag TAG_RESERVEDSPACE (entries h) = Some idx /\ entries h !! idx = Some e /\
    req + 7 <= ie_dataItemCnt e.

Lemma enough_shape h h' : shape h = shape h' -> enough h -> enough h'.
Proof.
  intros Hs (idx & e & Hf & He & Hc). unfold shape in Hs. pose proof (f_equal (fun l => l !! idx) Hs) as Hl. cbv beta in Hl.
  rewrite !list_lookup_fmap, He in Hl. destruct (entries h' !! idx) as [e'|] eqn:He'; [|done].
  exists idx, e'. split; [|split; [done|injection Hl as _ Hcnt; lia]]. rewrite <- Hf. symmetry. apply find_tag_tags.
  apply (f_equal (fmap fst)) in Hs. by rewrite <- !list_fmap_compose in Hs.
Qed.

Lemma isAtEnd_ends e h : isAtEndOfDataStore e h <> Diverge.
Proof. unfold isAtEndOfDataStore. by case_match. Qed.

Lemma allocate_enough fuel h : enough h -> (allocateSpaceInDatastore (S fuel) req format h).1 <> Diverge.
Proof.
  intros (idx & e & Hf & He & Hc). cbn [allocateSpaceInDatastore].
  erewrite M_bind_ok by (unfold gets, FindIndexEntry; simpl; by rewrite Hf). cbv iota.
  erewrite M_bind_ok by (unfold entry_at; by rewrite He).
  unfold mbind at 1, M_bind at 1, gets. pose proof (isAtEnd_ends e h). destruct (isAtEndOfDataStore e h) as [last| | |]; try done.
  unfold mbind at 1, M_bind at 1, lift. pose proof (GetRequiredAlignment_ends format).
  destruct (GetRequiredAlignment format) as [al| | |] eqn:Hal; try done.
  unfold mbind at 1, M_bind at 1. pose proof (CalcAlignment_ends (ie_offset e) al).
  destruct (CalcAlignmentByteCount (ie_offset e) al) as [a| | |] eqn:Ha; try done. cbv zeta.
  pose proof (alignment_small _ _ _ _ Hal Ha). rewrite (wrap_small 32 (req + a)) by (unfold in_width; lia).
  destruct (Z.gtb_spec (ie_dataItemCnt e - (req + a)) 0); [done|].
  destruct (Z.eqb_spec (ie_dataItemCnt e - (req + a)) 0); [done|lia].
Qed.

(** Enlarging the reserved space makes it large enough, and so does making one. *)
Lemma enough_resized idx e h a o :
  find_tag TAG_RESERVEDSPACE (entries h) = Some idx -> entries h !! idx = Some e -> 0 <= a <= 7 ->
  enough (alter_entry idx (resize_reserved o (u32 (req + a) + RESERVED_SPACE_ALLOCATION_SIZE)) h).
Proof.
  intros Hf He Ha. set (f := resize_reserved _ _). exists idx, (f e). split; [|split].
  - rewrite <- Hf. apply find_tag_tags. by apply alter_keys.
  - change (alter f idx (entries h) !! idx = Some (f e)). by rewrite list_lookup_alter_eq, He.
  - simpl. unfold RESERVED_SPACE_ALLOCATION_SIZE. rewrite !wrap_small by (unfold in_width; rewrite ?wrap_small; unfold in_width; lia). lia.
Qed.

Lemma enough_inserted h i e :
  find_tag TAG_RESERVEDSPACE (entries h) = None -> ie_tag e = TAG_RESERVEDSPACE -> req + 7 <= ie_dataItemCnt e ->
  enough (set_IndexEntries (fun s => Insert s i e) h).
Proof.
  intros Hno Ht Hc. apply find_tag_None in Hno. exists (length (take i (entries h))), e.
  assert (entries (set_IndexEntries (fun s => Insert s i e) h) = take i (entries h) ++ e :: drop i (entries h)) as ->
    by (simpl; unfold Insert; by case_match).
  assert ((take i (entries h) ++ e :: drop i (entries h)) !! length (take i (entries h)) = Some e) as He
    by by apply list_lookup_middle.
  split; [|done]. unfold find_tag.
  assert (list_find (fun e => ie_tag e = TAG_RESERVEDSPACE) (take i (entries h) ++ e :: drop i (entries h)) =
    Some (length (take i (entries h)), e)) as ->; [|done].
  apply list_find_Some. split; [done|]. split; [done|]. intros j y Hy Hj Hty. rewrite lookup_app_l in Hy by done.
  apply Hno. rewrite <- Hty. apply list_elem_of_fmap_2. by eapply subseteq_take, list_elem_of_lookup_2.
Qed.

Lemma insertIndexEntry_enough h e :
  find_tag TAG_RESERVEDSPACE (entries h) = None -> ie_tag e = TAG_RESERVEDSPACE -> req + 7 <= ie_dataItemCnt e ->
  (insertIndexEntry e h).1 <> Diverge /\ enough (insertIndexEntry e h).2.
Proof.
  intros Hf Ht Hc. unfold insertIndexEntry. cbv zeta. set (h1 := set_indexEntryCount _ _).
  pose proof (shaped_relayout h1) as [Hr Hs]. split; [done|]. eapply enough_shape; [exact (eq_sym Hs)|].
  eapply enough_shape; [|apply (enough_inserted h (insert_position (ie_tag e) (entries h)) e Hf Ht Hc)]. done.
Qed.

Lemma allocate_ends : ends_always (allocateSpaceInDatastore allocation_fuel req format).
Proof.
  intros h. unfold allocation_fuel. remember 1%nat as one eqn:Eone. cbn [allocateSpaceInDatastore].
  assert (forall h, enough h -> (allocateSpaceInDatastore one req format h).1 <> Diverge) as Hnext
    by (intros h' Hh'; subst one; by apply allocate_enough).
  clear Eone. unfold mbind at 1, M_bind at 1, gets at 1, FindIndexEntry. change (ID SigTagReservedSpace) with TAG_RESERVEDSPACE.
  destruct (find_tag TAG_RESERVEDSPACE (entries h)) as [idx|] eqn:Hf.
  - pose proof (find_tag_lookup _ _ _ Hf) as (e & He & _ & _).
    erewrite M_bind_ok by (unfold entry_at; by rewrite He).
    unfold mbind at 1, M_bind at 1, gets at 1. pose proof (isAtEnd_ends e h). destruct (isAtEndOfDataStore e h) as [last| | |]; try done.
    unfold mbind at 1, M_bind at 1, lift at 1. pose proof (GetRequiredAlignment_ends format).
    destruct (GetRequiredAlignment format) as [al| | |] eqn:Hal; try done.
    unfold mbind at 1, M_bind at 1, lift at 1. pose proof (CalcAlignment_ends (ie_offset e) al).
    destruct (CalcAlignmentByteCount (ie_offset e) al) as [a| | |] eqn:Ha; try done. cbv zeta.
    pose proof (alignment_small _ _ _ _ Hal Ha) as Hsmall.
    destruct (_ >? 0); [done|]. destruct (_ =? 0); [done|].
    pose proof (enough_resized idx e h a (ie_offset e) Hf He Hsmall) as Hen.
    erewrite M_bind_ok by done. destruct last; [by apply Hnext|].
    unfold mbind at 1, M_bind at 1, gets at 1. pose proof (FindNext_ends FORMAT_TYPE_BINARY
      (alter_entry idx (resize_reserved (ie_offset e) (u32 (req + a) + RESERVED_SPACE_ALLOCATION_SIZE)) h)).
    destruct (FindNextSuitablePayloadOffset _ _) as [o| | |]; try done. erewrite M_bind_ok by done. apply Hnext.
    eapply enough_shape; [|exact Hen]. symmetry. by apply alter_keys.
  - unfold mbind at 1, M_bind at 1, gets at 1. pose proof (FindNext_ends FORMAT_TYPE_BINARY h).
    destruct (FindNextSuitablePayloadOffset FORMAT_TYPE_BINARY h) as [o| | |]; try done.
    unfold mbind at 1, M_bind at 1, lift at 1. pose proof (GetRequiredAlignment_ends format).
    destruct (GetRequiredAlignment format) as [al| | |] eqn:Hal; try done.
    unfold mbind at 1, M_bind at 1, lift at 1. pose proof (CalcAlignment_ends o al).
    destruct (CalcAlignmentByteCount o al) as [a| | |] eqn:Ha; try done. cbv zeta.
    pose proof (alignment_small _ _ _ _ Hal Ha) as Hsmall. erewrite M_bind_ok by done.
    unfold RESERVED_SPACE_ALLOCATION_SIZE. rewrite !wrap_small by (unfold in_width; rewrite ?wrap_small; unfold in_width; lia).
    set (e := mkEntry _ _ _ _ _ _). unfold mbind at 1, M_bind at 1.
    destruct (insertIndexEntry_enough h e Hf eq_refl) as [Hr Hen]; [simpl; lia|].
    destruct (insertIndexEntry e h) as [[[]|x|x|] h2]; try done. by apply Hnext.
Qed.
End Alloc.

Lemma addIndexEntry_ends `{Runtime} e : Zlen (ie_payload e) < 2 ^ 32 - 5000 -> ends_always (addIndexEntry e).
Proof.
  intros Hlen h. unfold addIndexEntry. case_match; [done|].
  any_state h.
  pose proof (Zlen_nonneg (ie_payload e)). apply always_bind; [|intros o; apply insertIndexEntry_ends].
  apply allocate_ends. rewrite wrap_small by (unfold in_width; lia). lia.
Qed.

Lemma SetOrAdd_ends `{Runtime} {T} `{TagValue T} (t : T) format cnt p :
  Zlen p < 2 ^ 32 - 5000 -> ends_always (SetOrAddIndexEntry t format cnt p).
Proof.
  intros Hlen h. unfold SetOrAddIndexEntry. pose proof (Zlen_nonneg p).
  destruct (FindIndexEntry t h) as [idx|]; [|by apply addIndexEntry_ends]. cbv zeta.
  any_state h.
  apply always_bind; [apply entry_at_ends|]. intros e. case_match; [by ending|].
  apply always_bind; [apply always_gets, isAtEnd_ends|]. intros last.
  apply always_bind; [case_match; [|by ending]|].
  { apply allocate_ends. rewrite wrap_small by (unfold in_width; lia). lia. }
  intros o. apply always_bind; [by ending|]. intros _. apply shaped_ends, shaped_sync.
Qed.

(** ** Signing *)

(** The OpenPGP library returns, and its signatures are not of the size of the address
    space. *)
Class Responsive `{KeyFormat} := {
  Sign_ends sig key d : (Sign sig key d).1 <> Diverge;
  Serialize_ends sig key d signed d' : Sign sig key d = (Ok signed, d') ->
    match Serialize signed with Ok p => Zlen p < 2 ^ 31 | o => o <> Diverge end;
  PrepareSign_ends sig : PrepareSign sig <> Diverge;
  Decrypt_ends passphrase key : Decrypt passphrase key <> Diverge;
  armor_Encode_ends p : armor_Encode p <> Diverge;
}.

Section Sign.
Context `{KeyFormat} `{!Responsive} `{Runtime}.

Lemma on_SignatureHeader_ends {A} (m : M RpmHeader A) : ends_always m -> ends_always (on_SignatureHeader m).
Proof. intros Hm f. unfold on_SignatureHeader. specialize (Hm (SignatureHeader f)). by destruct (m _). Qed.

(** [SignDigest] ends, with a signature that is not too long. *)
Lemma SignDigest_ends now key d :
  match (SignDigest now key d).1 with Ok p => Zlen p < 2 ^ 31 | o => o <> Diverge end.
Proof.
  unfold SignDigest. cbv zeta. destruct (negb _ && negb _); [done|]. unfold mbind, M_bind, wrap_err, lift.
  pose proof (Sign_ends (CreateSignaturePacket key now) key d) as Hs.
  destruct (Sign _ key d) as [[signed|e|p|] d'] eqn:E; try done. pose proof (Serialize_ends _ _ _ _ _ E) as Hz.
  by destruct (Serialize signed).
Qed.

Lemma SignRpm_ends now key : ends_always (SignRpm now key).
Proof.
  intros f. unfold SignRpm. unfold mbind at 1, M_bind at 1, wrap_err, on_Sha256Digest.
  pose proof (SignDigest_ends now key (Sha256Digest (MainHeader f))) as Hs.
  destruct (SignDigest now key _) as [[p|e|x|] d]; try done. simpl in Hs. set (f1 := set_MainHeader _ f).
  any_state f1.
  pose proof (fun {T} `{TagValue T} (t : T) => on_SignatureHeader_ends _ (DeleteIfExists_ends t)) as Hdel.
  ending; try apply Hdel. apply on_SignatureHeader_ends, SetOrAdd_ends. lia.
Qed.
End Sign.

Lemma SignRpmAndWrite_ends `{KeyFormat} `{!Responsive} `{Runtime} {W P} `{WriterWithOffset W} `{FallibleReader P}
    fuel f now key (w : W) (p : P) :
  usable p -> (length (pending p) + 1 < fuel)%nat -> (SignRpmAndWrite fuel f now key (w, p)).1 <> Diverge.
Proof.
  intros Hv Hf. unfold SignRpmAndWrite. pose proof (SignRpm_ends now key f).
  destruct (SignRpm now key f) as [[u|e|x|] f']; try done. by apply WriteRPM_ends.
Qed.

(** ** Keys *)

Section Keys.
Context `{OS} `{KeyFormat} `{!Responsive}.

Lemma first_key_ends r o : first_key r o -> o <> Diverge.
Proof. by induction 1. Qed.

Lemma unlock_ends passphrase key : unlock passphrase key <> Diverge.
Proof.
  unfold unlock. case_match; [|done]. destruct passphrase; [done|].
  pose proof (Decrypt_ends (z :: passphrase) key). by destruct (Decrypt _ _).
Qed.

Lemma os_Open_ends name : ends_always (os_Open name).
Proof. intros w. rewrite os_Open_run. simpl. by repeat case_match. Qed.

Lemma LoadPrivateKeyFromFile_ends name passphrase : ends_always (LoadPrivateKeyFromFile name passphrase).
Proof.
  intros w. rewrite LoadPrivateKeyFromFile_run. simpl. pose proof (os_Open_ends name w) as Ho.
  destruct (os_Open name w).1 as [content|e|p|]; try done. simpl.
  destruct (LoadPrivateKey_run content passphrase) as (o & Hfirst & ->).
  assert (o ≫= unlock passphrase <> Diverge) as Hu.
  { apply outcome_bind_ends; [by eapply first_key_ends|apply unlock_ends]. }
  unfold prefixed. by destruct (o ≫= unlock passphrase).
Qed.

Lemma LoadGpgPrivateKey_ends appConfig : ends_always (LoadGpgPrivateKey appConfig).
Proof. unfold LoadGpgPrivateKey. apply always_bind; [apply os_Open_ends|]. intros _. apply LoadPrivateKeyFromFile_ends. Qed.

Lemma armored_signature_ends now key data : armored_signature now key data <> Diverge.
Proof.
  assert (forall {A} e (o : outcome A), o <> Diverge -> prefixed e o <> Diverge) as Hp by by intros A e [].
  unfold armored_signature. cbv zeta. apply outcome_bind_ends; [apply Hp, PrepareSign_ends|]. intros h.
  pose proof (Sign_ends (CreateSignaturePacket key now) key (h ++ data)) as Hs.
  destruct (Sign _ key (h ++ data)) as [[signed|e|p|] d'] eqn:E; try done. simpl.
  apply outcome_bind_ends; [|intros p; apply Hp, armor_Encode_ends].
  apply Hp. pose proof (Serialize_ends _ _ _ _ _ E). by destruct (Serialize signed).
Qed.
End Keys.

(** ** Requests *)

(** A handler ends with its reply, or it panics, which needs [P]. *)
Definition answered {A} (P : Prop) (o : outcome A) : Prop :=
  match o with Ok _ => True | Panic _ => P | _ => False end.

Section Requests.
Context `{OS} `{KeyFormat} `{!Responsive} `{Hashes} `{Runtime}.
Context (Quote : string -> string) (serverStart AppVersion GitRef : string).
Context {W B : Type} `{ResponseWriter W} `{FallibleIOReader B} (fuel : nat) (now : Z) (appConfig : AppConfig).

Lemma on_fail_answered {A} (P : Prop) (m : M (Exchange W B) A) f k x :
  (m x).1 <> Diverge -> P -> (forall a y, answered P (k a y).1) -> answered P (on_fail m f k x).1.
Proof. intros Hm HP Hk. unfold on_fail. destruct (m x) as [[a|e|p|] y]; done. Qed.

(** Opening a file does not panic. *)
Lemma on_fail_Open (P : Prop) name f (k : list Z -> M (Exchange W B) unit) x :
  (forall a y, answered P (k a y).1) -> answered P (on_fail (on_world (os_Open name)) f k x).1.
Proof.
  intros Hk. unfold on_fail, on_world. rewrite os_Open_run. repeat case_match; simplify_eq; done.
Qed.

Lemma sign_into_buffer_ends (x : Exchange W B) :
  (length (io_pending (x_body x)) + 1 < fuel)%nat -> (sign_into_buffer fuel now appConfig x).1 <> Diverge.
Proof.
  intros Hfuel. unfold sign_into_buffer, signRpmData, ParseRPMFromReader.
  set (wr := NewOffsetTrackingWriter NewArrayWriter). set (r := NewIOReaderWithOffset (x_body x)).
  assert (at_most (length (io_pending (x_body x))) r) as Hr by by split.
  pose proof (ends_ParseRPM false _ r Hr) as Hparse. unfold mbind at 1, M_bind at 1, on_body. cbn [x_body].
  destruct (ParseRPM false r) as [[f|e|p|] r']; try done. destruct Hparse as [Hv Hlen].
  unfold mbind at 1, M_bind at 1, on_world. cbn [x_world].
  pose proof (LoadGpgPrivateKey_ends appConfig (x_world x)). destruct (LoadGpgPrivateKey _ _) as [[key|e|p|] w]; try done.
  unfold on_streams. cbn [x_writer x_body].
  pose proof (SignRpmAndWrite_ends fuel f now key wr r' Hv ltac:(lia)) as Hs.
  by destruct (SignRpmAndWrite _ _ _ _ _) as [[u|e|p|] [wr' p']].
Qed.

Lemma doSigDetached_ends (x : Exchange W B) :
  (length (io_pending (x_body x)) + 1 < fuel)%nat -> (doSigDetached fuel now appConfig x).1 <> Diverge.
Proof.
  intros Hfuel. unfold doSigDetached, mbind, M_bind, on_world.
  pose proof (LoadGpgPrivateKey_ends appConfig (x_world x)). destruct (LoadGpgPrivateKey _ _) as [[key|e|p|] w]; try done.
  unfold on_body, through_offset. cbn [x_body].
  set (b := NewIOReaderWithOffset (x_body x)). assert (usable b) as Hb by done.
  pose proof (SignGeneric_cases fuel now key b Hb Hfuel) as Hs.
  destruct (SignGeneric _ _ _ _) as [o r]. simpl in Hs |- *. destruct Hs as [->|[[e ->] _]]; [apply armored_signature_ends|done].
Qed.

(** Copying a file to the response ends with the file. *)
Lemma copy_file_ends k : forall content (x : Exchange W B),
  (length content < k)%nat -> (ignore (copy_file k content) x).1 = Ok tt.
Proof.
  induction k as [|k IH]; intros content x Hk; [lia|]. unfold ignore in IH |- *. cbn [copy_file].
  unfold mbind, M_bind, on_world, os_Read, syscall.
  destruct (fault (clock (x_world x))) as [[e n]|]; [done|]. set (bs := take _ content).
  destruct (Nat.eqb_spec (length bs) 0) as [|Hz]; [done|].
  destruct (WriteBody bs _) as [[n err] w]. destruct err; [done|]. destruct (_ || _); [done|]. destruct (negb _); [done|].
  apply IH. rewrite length_drop. unfold bs in *. rewrite length_take in *. lia.
Qed.

Lemma ServeMux_answered req (x : Exchange W B) :
  (length (io_pending (x_body x)) + 1 < fuel)%nat ->
  answered (authorized (req_RawQuery req) appConfig)
    (ServeMux Quote serverStart AppVersion GitRef fuel now appConfig req x).1.
Proof.
  intros Hfuel. set (P := authorized _ _).
  assert (forall h, (P -> answered P (h x).1) -> answered P (with_token (B:=B) (req_RawQuery req) appConfig h x).1) as Htoken.
  { intros h Hh. rewrite with_token_run. case_bool_decide; [by apply Hh|done]. }
  assert (Forall (fun r => answered P (r.2 x).1)
    (routes (B:=B) Quote serverStart AppVersion GitRef fuel now (req_RawQuery req) appConfig)) as Hall.
  { repeat constructor; cbn [snd].
    - by apply on_fail_Open.
    - apply Htoken. intros HP. apply on_fail_answered; [by apply sign_into_buffer_ends|done|done].
    - apply Htoken. intros HP. apply on_fail_answered; [by apply doSigDetached_ends|done|done].
    - unfold handleClientDownload. case_bool_decide; [done|]. cbv zeta.
      destruct (if Has _ _ then _ else _) as [arch|]; [|done]. destruct (_ !! arch) as [binary|]; [|done].
      apply on_fail_Open. intros content y. erewrite M_bind_ok by done. by rewrite copy_file_ends by lia. }
  unfold ServeMux. rewrite Forall_forall in Hall.
  destruct (filter _ _) as [|[[method path] handler] l] eqn:E; [done|].
  assert ((method, path, handler) ∈ routes (B:=B) Quote serverStart AppVersion GitRef fuel now (req_RawQuery req) appConfig) as Hin.
  { eapply list_elem_of_filter. rewrite E. apply list_elem_of_here. }
  case_match; [exact (Hall _ Hin)|done].
Qed.
End Requests.

(** ** The property *)

(** C7. Every request ends, whatever its method, path, query and body, in whatever state
    the files, the access log and the system are, whichever system calls fail, and also if
    the body breaks off: the server replies and logs the request, or the handler panics.
    It panics only for requests that carry the token. Signing ends on every file that the parser returns,
    also on one whose headers are malformed. *)
Theorem requests_end `{OS} `{KeyFormat} `{!Responsive} `{Hashes} `{Runtime} {W B} `{ResponseWriter W} `{FallibleIOReader B}
    Quote serverStart AppVersion GitRef fuel now appConfig timestamp info req a (x : Exchange W B) l :
  (length (io_pending (x_body x)) + 1 < fuel)%nat ->
  match (ServeHTTP Quote serverStart AppVersion GitRef fuel now appConfig timestamp info req a (x, l)).1 with
  | Ok _ => True
  | Panic _ => authorized (req_RawQuery req) appConfig
  | Err _ | Diverge => False
  end.
Proof.
  intros Hfuel. unfold ServeHTTP, AccessLogMiddleware.
  pose proof (ServeMux_answered Quote serverStart AppVersion GitRef fuel now appConfig req
    (mkExchange (x_world x) (mkWrapper (x_writer x) StatusOK 0) (x_body x)) Hfuel) as Ha.
  destruct (ServeMux _ _ _ _ _ _ _ _ _) as [[u|e|p|] y]; done.
Qed.

(** ** A witness *)

Section Witness.
#[local] Existing Instance reliable_os.
#[local] Existing Instance checksums.
#[local] Existing Instance doubling.
#[local] Existing Instance checksum_pgp.
#[local] Existing Instance sample_keyformat.

#[local] Instance sample_responsive : Responsive.
Proof. split; try done. by intros sig key d signed d' [= <- <-]. Defined.

(** The crafted file, with the right token: the handler panics. *)
Lemma requests_end_witness :
  let r := ServeHTTP (B:=chunkedReader) id "" "" "" 200 0 sample_config "now" sample_info
    (mkRequest "POST" SignRpmHeaderEndpoint "authToken=s%26cret%3D") no_failure
    (mkExchange sample_server (new_response None) (mkChunked 7 crafted), idle None) in
  r.1 = Panic "String payload count mismatch on %s. Expected %d strings but only got %d" /\
  authorized "authToken=s%26cret%3D" sample_config.
Proof.
  intros r. assert (r.1 = Panic "String payload count mismatch on %s. Expected %d strings but only got %d") as Hp
    by (vm_compute; reflexivity).
  split; [exact Hp|].
  pose proof (requests_end (B:=chunkedReader) id "" "" "" 200 0 sample_config "now" sample_info
    (mkRequest "POST" SignRpmHeaderEndpoint "authToken=s%26cret%3D") no_failure
    (mkExchange sample_server (new_response None) (mkChunked 7 crafted)) (idle None)) as He.
  assert (length (io_rest (mkChunked 7 crafted)) + 1 < 200)%nat as Hf by (apply Nat.ltb_lt; vm_compute; reflexivity).
  specialize (He Hf). change (match r.1 with
    | Ok _ => True | Panic _ => authorized "authToken=s%26cret%3D" sample_config | Err _ | Diverge => False end) in He.
  rewrite Hp in He. exact He.
Defined.
End Witness.
