(* ===== verification/ClientTotal.v ===== *)
(** The client ends on every command line that does not sign in place
    ([src/client/client.go], [src/client/remotesign.go]): whatever the input, the keys and the answers from the
    network are, and whichever system calls and reads fail. *)
From S2P Require Import Prelude Utils Bitmap DynArray Serializer Tags Header Layout HeaderSpec HeaderOps Allocation Payload.
From S2P Require Import HeaderCodec Codec HeaderRoundtrip RpmFile FileRoundtrip FileTheorems ParseTotal Signing SigningTheorems.
From S2P Require Import Frame Files FilesTheorems Keys Http Server AccessLog ServerTheorems Remote RemoteTheorems.
From S2P Require Import Config Log Dump Client ClientTheorems ClientInput ClientVerify ClientSign ServerMain Termination.
From Stdlib Require Import Ascii.
#[local] Open Scope Z_scope.

(** ** Calls on files *)

Section Files.
Context `{OS}.

Lemma syscall_ends {A} (f : filemap -> outcome A * filemap) : (forall m, (f m).1 <> Diverge) -> ends_always (syscall f).
Proof.
  intros Hf w. unfold syscall. destruct (fault (clock w)) as [[e n]|]; [done|]. specialize (Hf (files w)).
  by destruct (f (files w)).
Qed.

Lemma os_Stat_ends name : ends_always (os_Stat name).
Proof. intros w. unfold os_Stat. by destruct (fault _) as [[] |]. Qed.

Lemma os_Create_ends name : ends_always (os_Create name).
Proof. by apply syscall_ends. Qed.

Lemma os_CreateTemp_ends dir : ends_always (os_CreateTemp dir).
Proof. by apply syscall_ends. Qed.

Lemma os_Remove_ends name : ends_always (os_Remove name).
Proof. apply syscall_ends. intros m. by case_match. Qed.

Lemma os_Rename_ends old new : ends_always (os_Rename old new).
Proof. apply syscall_ends. intros m. by case_match. Qed.

Lemma os_Chmod_ends name perm : ends_always (os_Chmod name perm).
Proof. by apply syscall_ends. Qed.

Lemma os_Sync_ends name : ends_always (os_Sync name).
Proof. by apply syscall_ends. Qed.

Lemma os_Close_ends name : ends_always (os_Close name).
Proof. by apply syscall_ends. Qed.
End Files.
#[export] Hint Resolve os_Open_ends os_Stat_ends os_Create_ends os_CreateTemp_ends os_Remove_ends os_Rename_ends
  os_Chmod_ends os_Sync_ends os_Close_ends : ending.

Lemma on_error_ends {S A} (m : M S A) cleanup : ends_always m -> ends_always (on_error m cleanup).
Proof.
  intros Hm s. specialize (Hm s). unfold on_error. destruct (m s) as [[] s']; try done. by destruct (cleanup s').
Qed.

Section Output.
Context `{OS}.

Lemma WriteFileAtomically_ends name data perm overwrite : ends_always (WriteFileAtomically name data perm overwrite).
Proof.
  unfold WriteFileAtomically, FileExists. ending. apply on_error_ends. ending.
  intros w. destruct (os_Write _ data w) as [[n [e|]] w']; done.
Qed.

(** The payload is not read from the destination, or the destination is not written. *)
Definition protected {P} `{ReaderWithOffset P} `{shares : !Shares OsFile P} (m : filemap) (dest : string) (overwrite : bool)
    (p : P) : Prop :=
  separate m dest p \/ overwrite = false /\ is_Some (m !! dest).

(** Creating the destination fails, or there is nothing to fear. *)
Lemma CreateDestinationFile_protected {P} `{ReaderWithOffset P} `{shares : !Shares OsFile P} dest overwrite w (p : P) :
  protected (files w) dest overwrite p ->
  exists o w', CreateDestinationFile dest overwrite w = (o, w') /\
    (o = Ok dest /\ only_file (files w) dest w' /\ separate (files w) dest p \/ exists e, o = Err e).
Proof.
  intros Hp. destruct (CreateDestinationFile_cases dest overwrite w) as (o & w' & Hrun & Hres). exists o, w'. split; [done|].
  destruct Hres as [(-> & Hw & Hmay)|([e ->] & _)]; [left|right; by exists e]. split; [done|]. split; [by exists []|].
  destruct Hp as [|[-> [c Hc]]]; [done|]. destruct Hmay; congruence.
Qed.

Lemma SignRpmAndWriteToFile_ends `{KeyFormat} `{!Responsive} `{Runtime} {P} `{FallibleReader P} `{shares : !Shares OsFile P}
    fuel f dest overwrite now key w (p : P) :
  usable p -> (length (pending p) + 1 < fuel)%nat -> protected (files w) dest overwrite p ->
  (SignRpmAndWriteToFile fuel f dest overwrite now key (w, p)).1 <> Diverge.
Proof.
  intros Hv Hf Hp. destruct (CreateDestinationFile_protected dest overwrite w p Hp) as (o & w' & Hc & Hres).
  assert (forall sh : Shares OsFile P, sh = apart \/ (exists e, o = Err e) ->
    (SignRpmAndWriteToFile (shares:=sh) fuel f dest overwrite now key (w, p)).1 <> Diverge) as Hends.
  { intros sh Hsh. unfold SignRpmAndWriteToFile. rewrite Hc. destruct Hres as [(-> & _ & _)|[e ->]]; [|done].
    destruct Hsh as [->|[e [=]]]. cbv zeta.
    pose proof (SignRpmAndWrite_ends fuel f now key (NewFileWriterWithOffset (mkOsFile dest w')) p Hv Hf) as Hs.
    destruct (SignRpmAndWrite _ _ _ _ _) as [[u|e|x|] [wr p']]; try done.
    - pose proof (os_Close_ends dest (of_world (fw_file wr))). by destruct (os_Close _ _).
    - destruct (os_Remove _ _) as [? w1]. by destruct (os_Close _ w1). }
  destruct Hres as [(_ & _ & Hsep)|Herr]; [|apply Hends; by right].
  rewrite SignRpmAndWriteToFile_separate by done. apply Hends. by left.
Qed.

Lemma copy_both_ends {Body P} `{FallibleReader Body} `{FallibleReader P} fuel file (body : Body) (payload : P) :
  usable body -> usable payload -> (length (pending body) + 1 < fuel)%nat -> (length (pending payload) + 1 < fuel)%nat ->
  (copy_both fuel file body payload).1 <> Diverge.
Proof.
  intros Hvb Hvp Hfb Hfp. unfold copy_both.
  pose proof (io_Copy_ends fuel 0 (NewFileWriterWithOffset file) body Hvb Hfb).
  destruct (io_Copy fuel 0 (_, body)) as [[k|e|x|] [f b]]; try done.
  pose proof (io_Copy_ends fuel 0 f payload Hvp Hfp). by destruct (io_Copy fuel 0 (f, payload)) as [[k'|e|x|] [f' p']].
Qed.

Lemma signRpmRemotely_ends `{NetURL} {Body P} `{FallibleReader Body} `{FallibleReader P} `{shares : !Shares OsFile P}
    (Do : URL -> list Z -> outcome (Z * Body)) fuel base token header dest overwrite w (payload : P) :
  match post_header Do base token header with
  | Ok (_, body) => usable body /\ (length (pending body) + 1 < fuel)%nat
  | o => o <> Diverge
  end ->
  usable payload -> (length (pending payload) + 1 < fuel)%nat -> protected (files w) dest overwrite payload ->
  (signRpmRemotely Do fuel base token header dest overwrite (w, payload)).1 <> Diverge.
Proof.
  intros Hpost Hvp Hfp Hp. unfold signRpmRemotely.
  destruct (post_header Do base token header) as [[code body]|e|x|]; try done. destruct Hpost as [Hvb Hfb].
  destruct (negb _); [done|].
  destruct (CreateDestinationFile_protected dest overwrite w payload Hp) as (o & w' & -> & [(-> & Hw & Hsep)|[e ->]]); [|done].
  rewrite (copy_both_separate fuel (files w) dest w' body payload Hw Hsep).
  pose proof (copy_both_ends fuel (mkOsFile dest w') body payload Hvb Hvp Hfb Hfp).
  destruct (copy_both _ _ _ _) as [[u|e|x|] [w2 p2]]; try done.
  - pose proof (os_Close_ends dest w2). by destruct (os_Close dest w2).
  - destruct (os_Close dest w2) as [? w3]. by destruct (os_Remove dest w3).
Qed.
End Output.

(** ** Printing *)

Lemma PayloadAsPrettyString_ends e : PayloadAsPrettyString e <> Diverge.
Proof.
  assert (forall n (read : M arrayReader Z) w, takes (S n) read -> printValues e read w <> Diverge) as Hp.
  { intros n read w Hr. pose proof (ends_printValues n e read w Hr) as He. by destruct (printValues e read w). }
  unfold PayloadAsPrettyString. cbv zeta. repeat (case_match; [try done|]); [..|done].
  - apply (Hp 1%nat), takes_readShort.
  - apply (Hp 3%nat), takes_readWord.
  - apply (Hp 7%nat), takes_readLongWord.
  - done.
Qed.

Lemma StringValue_ends e : StringValue e <> Diverge.
Proof. unfold StringValue. by repeat case_match. Qed.

Lemma Int32Value_ends e : Int32Value e <> Diverge.
Proof.
  unfold Int32Value. case_match; [done|].
  assert (at_most (length (ie_payload e)) (NewArrayReader (ie_payload e))) as Hr
    by (split; [apply Nat.le_0_l|simpl; by rewrite drop_0]).
  pose proof (takes_readWord (fun _ => True) _ _ Hr) as He. by destruct (readWord _) as [[] ?].
Qed.

Lemma updateMaxWidths_ends row : forall i ws, updateMaxWidths i row ws <> Diverge.
Proof. induction row as [|c row IH]; intros i ws; simpl; [done|]. case_match; [apply IH|done]. Qed.

Lemma updateAllWidths_ends rows : forall ws, updateAllWidths rows ws <> Diverge.
Proof.
  induction rows as [|r rows IH]; intros ws; simpl; [done|].
  apply outcome_bind_ends; [apply updateMaxWidths_ends|exact IH].
Qed.

Lemma Tag_ends e : ends_always (Tag e).
Proof. intros [mains sigs]. unfold Tag. case_match; [by destruct (LookupMainTag _ _)|by destruct (LookupSignatureTag _ _)]. Qed.

Lemma dump_rows_ends n es : ends_always (dump_rows n es).
Proof.
  induction es as [|e es IH]; cbn [dump_rows]; [by ending|]. apply always_bind; [|by ending].
  unfold dump_row. apply always_bind; [apply Tag_ends|]. intros t.
  apply always_bind; [apply always_lift, PayloadAsPrettyString_ends|by ending].
Qed.

Lemma DumpIndexEntries_ends n compact h : ends_always (DumpIndexEntries n compact h).
Proof.
  unfold DumpIndexEntries. apply always_bind; [apply dump_rows_ends|]. intros rows. cbv zeta.
  apply always_bind; [apply always_lift, updateMaxWidths_ends|]. intros ws.
  apply always_bind; [apply always_lift, updateAllWidths_ends|by ending].
Qed.

(** ** The program *)

Section Client.
Context `{OS} `{KeyFormat} `{!Responsive} `{Hashes} `{Runtime} `{NetURL} {F B : Type} `{FallibleIOReader F} `{FallibleIOReader B}.
Context `{!FileReader F} `{!LawfulFile F}.
Context (http_Get : string -> outcome (Z * B)).
Context {Body : Type} `{FallibleReader Body} (Do : URL -> list Z -> outcome (Z * Body)).
Context (range : gset SignatureVersion -> list SignatureVersion) (env_token AppVersion GitRef : string) (now : Z).

(** The libraries and the network return. *)
Record responding : Prop := {
  rs_check keys data sig : graceful (CheckDetachedSignature keys data sig);
  rs_keyring content : ReadArmoredKeyRing content <> Diverge;
  rs_url s : url_Parse s <> Diverge;
  rs_get url : http_Get url <> Diverge;
  rs_do url header : match Do url header with Ok (_, body) => usable body | o => o <> Diverge end;
}.
Hypothesis Hnet : responding.

(** *** Input *)

Definition input_size (path : string) (fs : filemap) : nat :=
  match fs !! path with Some content => length content | None => 0 end +
  match http_Get path with Ok (_, body) => length (io_pending body) | _ => 0 end.

(** A reader that has just been opened, with the files [m]. *)
Definition fresh (path : string) (m : filemap) (r : SeekableReaderImpl F B) : Prop :=
  (exists content, r = file_reader path content /\ is_url path = false /\ m !! path = Some content) \/
  (exists body, r = NewSeekableReader (NewIOReaderWithOffset (inr body))).

Lemma OpenFileOrUrl_ends path w :
  match OpenFileOrUrl http_Get path w with
  | (Ok r, w') => files w' = files w /\ fresh path (files w) r /\ (length (pending r) <= input_size path (files w))%nat
  | (o, w') => o <> Diverge
  end.
Proof.
  unfold OpenFileOrUrl, DownloadFile, input_size, fresh. destruct (is_url path).
  - pose proof (rs_get Hnet path). destruct (http_Get path) as [[code body]|e|x|]; try done. simpl.
    destruct (negb _); [done|]. split; [done|]. split; [by right; eexists|]. simpl. lia.
  - rewrite os_Open_run. destruct (fault (clock w)) as [[e n]|]; [done|].
    destruct (files w !! path) as [content|]; [|done]. split; [done|]. split; [by left; eexists|].
    simpl. rewrite rest_File. lia.
Qed.

Lemma SeekRelativeToStart_ends off path m r :
  fresh path m r ->
  match SeekRelativeToStart off r with
  | (Ok _, r') => usable r' /\ (length (pending r') <= length (pending r))%nat
  | (o, _) => o <> Diverge
  end.
Proof.
  intros [(content & -> & _)|[body ->]]; unfold SeekRelativeToStart; simpl.
  - destruct (off <? 0); [done|]. split; [done|]. simpl. rewrite rest_Seek, rest_File, length_drop. lia.
  - destruct (off <? 0); [done|]. set (r := NewSeekableReader _).
    assert (at_most (length (pending r)) r) as Hr by by split.
    pose proof (ends_FillBuffer (fun _ => True) (Z.to_nat off) _ r Hr) as He.
    destruct (FillBuffer (Z.to_nat off) r) as [[bs|e|x|] r']; try done.
    destruct He as (_ & _ & Hv & Hl). split; [done|]. simpl in Hl |- *. lia.
Qed.

Lemma LoadPublicKeys_ends names : forall ring w,
  (LoadPublicKeysLoop names ring w).1 <> Diverge /\ files (LoadPublicKeysLoop names ring w).2 = files w.
Proof.
  induction names as [|name names IH]; intros ring w; [done|]. cbn [LoadPublicKeysLoop].
  unfold mbind at 1 3, M_bind at 1 3. rewrite os_Open_run. destruct (fault (clock w)) as [[e n]|]; [done|].
  destruct (files w !! name) as [content|]; [|done]. unfold mbind, M_bind, lift, LoadPublicKey.
  pose proof (rs_keyring Hnet content). destruct (ReadArmoredKeyRing content) as [keys|e|x|]; try done.
  apply (IH (ring ++ keys) (after (files w) w)).
Qed.

(** *** Steps that leave the files alone *)

(** From [c], [m] ends, and if the program goes on the files are what they were. *)
Definition calm {A} (m : M Client A) (c : Client) : Prop :=
  match m c with (Ok _, c') => files (c_world c') = files (c_world c) | (o, _) => o <> Diverge end.

Lemma calm_bind {A B'} (m : M Client A) (k : A -> M Client B') c :
  calm m c -> (forall a c', files (c_world c') = files (c_world c) -> calm (k a) c') -> calm (m ≫= k) c.
Proof.
  unfold calm, mbind, M_bind. intros Hm Hk. destruct (m c) as [[a|e|x|] c']; try done. specialize (Hk a c' Hm).
  rewrite <- Hm. exact Hk.
Qed.

Lemma calm_then {A B'} (m : M Client A) (k : A -> M Client B') c :
  calm m c -> (forall a c', files (c_world c') = files (c_world c) -> (k a c').1 <> Diverge) -> ((m ≫= k) c).1 <> Diverge.
Proof. unfold calm, mbind, M_bind. intros Hm Hk. destruct (m c) as [[a|e|x|] c']; try done. by apply Hk. Qed.

Lemma calm_say fmt args c : calm (say fmt args) c.
Proof. done. Qed.

Lemma calm_when_verbose o fmt args c : calm (when_verbose o (say fmt args)) c.
Proof. unfold when_verbose. by case_match. Qed.

Lemma calm_exit_on_error {A} msg (m : M World A) c :
  match m (c_world c) with (Ok _, w) => files w = files (c_world c) | (o, _) => o <> Diverge end ->
  calm (exit_on_error msg m) c.
Proof. unfold calm, exit_on_error, in_world, wrap_err. by destruct (m (c_world c)) as [[] w]. Qed.

Lemma calm_LoadPrivateKey msg name passphrase c : calm (exit_on_error msg (LoadPrivateKeyFromFile name passphrase)) c.
Proof.
  apply calm_exit_on_error. pose proof (LoadPrivateKeyFromFile_ends name passphrase (c_world c)) as He.
  assert (files (LoadPrivateKeyFromFile name passphrase (c_world c)).2 = files (c_world c)) as Hf
    by by rewrite LoadPrivateKeyFromFile_run.
  by destruct (LoadPrivateKeyFromFile name passphrase (c_world c)) as [[] w].
Qed.

(** *** Verification *)

Section Fuel.
Context (fuel : nat).

Definition small (v : SignatureVerifierImpl (P := SeekableReaderImpl F B)) : Prop :=
  (length (src (mainHeaderData v)) + 1 < fuel)%nat.

Definition readable_payload (v : SignatureVerifierImpl (P := SeekableReaderImpl F B)) : Prop :=
  usable (payloadReader v) /\ (length (pending (payloadReader v)) + 1 < fuel)%nat.

Lemma verify_versions_calm o present versions : forall v c,
  NoDup versions -> small v -> (SIGNATURE_VERSION_V3 ∈ versions -> SIGNATURE_VERSION_V3 ∈ present -> readable_payload v) ->
  calm (verify_versions fuel o present versions v) c.
Proof.
  induction versions as [|version versions IH]; intros v c Hnd Hs Hp; [done|]. apply NoDup_cons in Hnd as [Hno Hnd].
  assert (forall (m : M Client unit) v', calm m c -> small v' ->
    (SIGNATURE_VERSION_V3 ∈ versions -> SIGNATURE_VERSION_V3 ∈ present -> readable_payload v') ->
    calm (_ ← m; verify_versions fuel o present versions v') c) as Hnext.
  { intros m v' Hm Hs' Hp'. apply calm_bind; [done|]. intros _ c' _. by apply IH. }
  cbn [verify_versions]. cbv zeta. destruct (GoSet.Contains version present) eqn:Hpres;
    [|apply Hnext; [apply calm_when_verbose|done|]; intros Hin; apply Hp; by apply list_elem_of_further].
  unfold GoSet.Contains in Hpres. apply bool_decide_eq_true in Hpres.
  assert (exists res v', verify_version fuel version v = (res, v') /\ graceful res /\ small v' /\
    (SIGNATURE_VERSION_V3 ∈ versions -> SIGNATURE_VERSION_V3 ∈ present -> readable_payload v'))
    as (res & v' & Hrun & Hg & Hs' & Hp').
  { unfold verify_version. case_bool_decide as H3'.
    - subst version. destruct (Hp (list_elem_of_here _ _) Hpres) as [Hv Hf].
      destruct (VerifyV3_graceful (rs_check Hnet) fuel v Hs Hf Hv) as [Hg (_ & _ & Hsrc)].
      eexists _, _. split; [apply surjective_pairing|].
      split; [done|]. split; [unfold small; by rewrite Hsrc|done].
    - assert (SIGNATURE_VERSION_V3 ∈ versions -> SIGNATURE_VERSION_V3 ∈ present -> readable_payload v) as Hp'
        by (intros Hin; apply Hp; by apply list_elem_of_further).
      case_bool_decide; [|by case_bool_decide; eexists _, v].
      pose proof (VerifyV4_graceful (rs_check Hnet) fuel v Hs) as Hg.
      destruct (VerifyV4_run fuel v Hs) as (_ & (_ & _ & Hsrc) & Hpay). eexists _, _. split; [apply surjective_pairing|].
      split; [done|]. split; [unfold small; by rewrite Hsrc|]. unfold readable_payload. by rewrite Hpay. }
  rewrite Hrun. destruct res as [u|e|x|]; try done; by apply Hnext; [first [apply calm_when_verbose|apply calm_say]|..].
Qed.

(** A step of [main] on the files. *)
Lemma exit_on_error_ends {A} msg (m : M World A) c :
  (m (c_world c)).1 <> Diverge -> (exit_on_error msg m c).1 <> Diverge.
Proof. intros Hm. unfold exit_on_error, in_world, wrap_err. by destruct (m (c_world c)) as [[] ?]. Qed.

Lemma when_verbose_ends o fmt args c :
  exists c', when_verbose o (say fmt args) c = (Ok tt, c') /\ c_world c' = c_world c.
Proof. unfold when_verbose. case_match; by eexists. Qed.

Definition header_fits (f : RpmFile) : Prop :=
  match GetData_ (MainHeader f) with Ok d => (length d + 1 < fuel)%nat | _ => True end.

Lemma GetData_ends h : GetData_ h <> Diverge.
Proof.
  unfold GetData_. pose proof (Write_ends h false (NewOffsetTrackingWriter NewArrayWriter)) as Hw.
  by destruct (Write_ h false _) as [[] ?].
Qed.

Lemma open_payload_ends o f c :
  (input_size (rpmFilePath o) (files (c_world c)) + 1 < fuel)%nat ->
  match open_payload http_Get o f c with
  | (Ok r, c') => files (c_world c') = files (c_world c) /\
      (SIGNATURE_VERSION_V3 ∈ GetSignatureVersions f -> usable r /\ (length (pending r) + 1 < fuel)%nat)
  | (o, _) => o <> Diverge
  end.
Proof.
  intros Hf. unfold open_payload, GoSet.Contains. case_bool_decide; [|by split].
  unfold mbind, M_bind, exit_on_error, in_world, wrap_err.
  pose proof (OpenFileOrUrl_ends (rpmFilePath o) (c_world c)) as Ho.
  destruct (OpenFileOrUrl _ _ _) as [[r|e|x|] w]; try done. destruct Ho as (Hw & Hfresh & Hlen).
  pose proof (SeekRelativeToStart_ends (signed 64 (PayloadStartOffset f)) _ _ r Hfresh) as Hs.
  destruct (SeekRelativeToStart _ r) as [[u|e|x|] r']; try done. destruct Hs as [Hv Hl]. split; [done|].
  intros _. split; [done|lia].
Qed.

Lemma verify_calm o f c :
  (input_size (rpmFilePath o) (files (c_world c)) + 1 < fuel)%nat -> header_fits f ->
  calm (verify http_Get fuel o f) c.
Proof.
  intros Hf Hh. unfold verify. case_match; [done|].
  apply calm_bind; [apply calm_when_verbose|]. intros _ c1 Hc1. rewrite <- Hc1 in Hf.
  apply calm_bind.
  { apply calm_exit_on_error. destruct (LoadPublicKeys_ends (gpgPublicFiles o) [] (c_world c1)) as [Hk Hfiles].
    unfold LoadPublicKeys. by destruct (LoadPublicKeysLoop _ _ _) as [[] w]. }
  intros keys c2 Hc2. rewrite <- Hc2 in Hf. pose proof (open_payload_ends o f c2 Hf) as Hp.
  unfold calm, mbind at 1, M_bind at 1. destruct (open_payload _ _ _ c2) as [[r|e|x|] c3]; try done.
  destruct Hp as [<- Hp]. unfold mbind, M_bind, lift, NewSignatureVerifier.
  pose proof (GetData_ends (MainHeader f)). unfold header_fits in Hh.
  destruct (GetData_ (MainHeader f)) as [d|e|x|]; try done. cbn [mbind outcome_bind mret outcome_ret].
  apply (verify_versions_calm o _ AllSignatureVersions); [apply (bool_decide_unpack _); by vm_compute|exact Hh|].
  intros _ Hin. by apply Hp.
Qed.

Lemma verify_if_signed_calm o f c :
  (input_size (rpmFilePath o) (files (c_world c)) + 1 < fuel)%nat -> header_fits f ->
  calm (verify_if_signed http_Get fuel o f) c.
Proof. intros Hf Hh. unfold verify_if_signed. case_match; [by apply verify_calm|]. by case_match. Qed.

(** *** Signing *)

Lemma sign_generic_ends o (r : SeekableReaderImpl F B) c :
  usable r -> (length (pending r) + 1 < fuel)%nat -> (sign_generic fuel now o r c).1 <> Diverge.
Proof.
  intros Hv Hf. unfold sign_generic. apply calm_then; [apply calm_LoadPrivateKey|]. intros key c1 _. any_state c1.
  apply always_bind.
  { intros c2. unfold wrap_err, run_local, lift. pose proof (SignGeneric_cases fuel now key r Hv Hf) as Hs.
    destruct (SignGeneric fuel now key r) as [res r']. cbn [fst] in *.
    destruct Hs as [->|[[e ->] _]]; [|done]. pose proof (armored_signature_ends now key (pending r)).
    by destruct (armored_signature now key (pending r)). }
  intros sig. apply always_bind; [|intros _; intros c2; unfold when_verbose; by case_match].
  intros c2. apply exit_on_error_ends, WriteFileAtomically_ends.
Qed.

(** What a server answers to a signing request fits into the fuel. *)
Definition reply_fits (o : Options) (header : list Z) : Prop :=
  forall token, token = env_token \/ token = signServerToken o ->
  match post_header Do (signServerUrl o) token header with
  | Ok (_, body) => (length (pending body) + 1 < fuel)%nat
  | _ => True
  end.

Lemma post_header_ends base token header :
  match post_header Do base token header with Ok (_, body) => usable body | o => o <> Diverge end.
Proof.
  unfold post_header, createSigningUrl. pose proof (rs_url Hnet base). destruct (url_Parse base) as [url|e|x|]; try done.
  destruct (String.eqb _ _); [done|]. simpl. pose proof (rs_url Hnet (url_String (signing_url token url))).
  destruct (url_Parse (url_String _)) as [u|e|x|]; try done. simpl.
  pose proof (rs_do Hnet u header). by destruct (Do u header) as [[code body]|e|x|].
Qed.

Lemma sign_rpm_ends {P} `{FallibleReader P} `{shares : !Shares OsFile P} o f
    (capture : option (headerCapturingReader (SeekableReaderImpl F B))) (p : P) c :
  usable p -> (length (pending p) + 1 < fuel)%nat ->
  protected (files (c_world c)) (destinationFileName o) (overwriteDestinationFile o) p ->
  match capture with Some h => reply_fits o (Bytes h) | None => True end ->
  (sign_rpm Do env_token fuel now o f capture p c).1 <> Diverge.
Proof.
  intros Hv Hf Hprot Hreply. unfold sign_rpm. destruct (negb _); [done|]. cbv zeta.
  assert (forall m k : M Client unit, (m c).1 <> Diverge -> ends_always k -> ((_ ← m; k) c).1 <> Diverge) as Hlast.
  { intros m k Hm Hk. unfold mbind, M_bind. by destruct (m c) as [[u|e|x|] c']. }
  apply Hlast; [|done]. clear Hlast. destruct capture as [h|].
  - apply calm_then; [apply calm_when_verbose|]. intros _ c1 Hc1.
    rewrite (surjective_pairing (if IsEmpty _ then _ else _)). set (token := (if IsEmpty _ then _ else _).1).
    assert (token = env_token \/ token = signServerToken o) as Ht by (unfold token; case_match; auto).
    apply calm_then; [case_match; [apply calm_when_verbose|done]|]. intros _ c2 Hc2. rewrite <- Hc1, <- Hc2 in Hprot.
    apply exit_on_error_ends.
    pose proof (signRpmRemotely_ends Do fuel (signServerUrl o) token (Bytes h) (destinationFileName o)
      (overwriteDestinationFile o) (c_world c2) p) as He.
    specialize (Hreply token Ht). pose proof (post_header_ends (signServerUrl o) token (Bytes h)) as Hp.
    destruct (post_header Do (signServerUrl o) token (Bytes h)) as [[code body]|e|x|];
      (specialize (He ltac:(done) Hv Hf Hprot); by destruct (signRpmRemotely _ _ _ _ _ _ _ _) as [o' [w' p']]).
  - destruct (negb _); [done|]. apply calm_then; [apply calm_LoadPrivateKey|]. intros key c1 Hc1. rewrite <- Hc1 in Hprot.
    apply exit_on_error_ends.
    pose proof (SignRpmAndWriteToFile_ends fuel f (destinationFileName o) (overwriteDestinationFile o) now key (c_world c1) p
      Hv Hf Hprot) as He.
    by destruct (SignRpmAndWriteToFile _ _ _ _ _ _ _) as [o' [w' p']].
Qed.
End Fuel.

(** *** The whole program *)

(** Ends, and leaves the files alone. *)
Definition prints {A} (m : M Client A) : Prop := forall c, (m c).1 <> Diverge /\ c_world (m c).2 = c_world c.

Lemma prints_bind {A B'} (m : M Client A) (k : A -> M Client B') : prints m -> (forall a, prints (k a)) -> prints (m ≫= k).
Proof.
  intros Hm Hk c. destruct (Hm c) as [Hd Hw]. unfold mbind, M_bind. destruct (m c) as [[a|e|x|] c']; try done.
  simpl in Hw. rewrite <- Hw. apply Hk.
Qed.

Lemma prints_lift {A} (o : outcome A) : o <> Diverge -> prints (lift o).
Proof. by intros Ho c. Qed.

Lemma prints_log f : prints (in_log f).
Proof. by intros c. Qed.

Lemma prints_if (b : bool) (m : M Client unit) : prints m -> prints (if b then m else mret tt).
Proof. intros Hm. destruct b; [done|]. by intros c. Qed.

Lemma print_info_prints f : prints (print_info range f).
Proof.
  unfold print_info. cbv zeta. apply prints_bind.
  { apply prints_lift. unfold GetRpmVersion. case_match; [apply StringValue_ends|done]. }
  intros v. apply prints_bind; [|intros v'; apply prints_log]. apply prints_lift. unfold GetFileFormatVersion.
  case_match; [|done]. by apply outcome_bind_ends; [apply Int32Value_ends|].
Qed.

Lemma dump_header_prints title h : prints (dump_header title h).
Proof.
  unfold dump_header. apply prints_bind; [apply prints_log|]. intros _. apply prints_bind; [|intros t; apply prints_log].
  intros c. unfold in_registries. pose proof (DumpIndexEntries_ends 25 true h (c_registries c)). by destruct (DumpIndexEntries _ _ _ _).
Qed.

Lemma report_prints o f : prints (_ ← (if printInfo o then print_info range f else mret tt); dump_headers o f).
Proof.
  apply prints_bind; [apply prints_if, print_info_prints|]. intros _. unfold dump_headers.
  apply prints_bind; [apply prints_if, dump_header_prints|]. intros _. apply prints_if, dump_header_prints.
Qed.

Lemma stop_capturing_rest (rd : IOReaderWithOffset (headerCapturingReader (SeekableReaderImpl F B) + SeekableReaderImpl F B)) :
  usable rd -> usable (stop_capturing rd).2 /\ pending (stop_capturing rd).2 = pending rd.
Proof. destruct rd as [[h|r] off]; by intros Hv. Qed.

(** Fuel for everything that is read after parsing. *)
Definition enough_fuel (o : Options) (f : RpmFile) (capture : option (headerCapturingReader (SeekableReaderImpl F B))) (size : nat) : nat :=
  let reply token :=
    match capture with
    | Some h => match post_header Do (signServerUrl o) token (Bytes h) with Ok (_, body) => length (pending body) | _ => 0%nat end
    | None => 0%nat
    end in
  (2 + size + match GetData_ (MainHeader f) with Ok d => length d | _ => 0 end + reply env_token + reply (signServerToken o))%nat.

Lemma after_parsing_ends {P} `{FallibleReader P} `{shares : !Shares OsFile P} fuel o f capture size (p : P) c :
  (enough_fuel o f capture size <= fuel)%nat -> (input_size (rpmFilePath o) (files (c_world c)) <= size)%nat ->
  usable p -> (length (pending p) <= size)%nat ->
  (signingMode o = SIGNING_MODE_RPM ->
     protected (files (c_world c)) (destinationFileName o) (overwriteDestinationFile o) p) ->
  ((_ ← (if printInfo o then print_info range f else mret tt);
    _ ← dump_headers o f;
    _ ← verify_if_signed http_Get fuel o f;
    if signingMode o =? SIGNING_MODE_RPM then sign_rpm Do env_token fuel now o f capture p else mret tt) c).1 <> Diverge.
Proof.
  unfold enough_fuel. cbv beta zeta. intros Hfuel Hin Hv Hp Hprot.
  rewrite <- (M_bind_assoc (if printInfo o then print_info range f else mret tt) (fun _ => dump_headers o f)).
  destruct (report_prints o f c) as [Hr Hw]. unfold mbind at 1, M_bind at 1.
  destruct ((_ ← (if printInfo o then _ else _); dump_headers o f) c) as [[u|e|x|] c1]; try done. simpl in Hw.
  rewrite <- Hw in Hin, Hprot. apply calm_then.
  { apply verify_if_signed_calm; [lia|]. unfold header_fits. destruct (GetData_ (MainHeader f)); [lia|done..]. }
  intros _ c2 Hc2. rewrite <- Hc2 in Hprot. destruct (Z.eqb_spec (signingMode o) SIGNING_MODE_RPM) as [Hmode|]; [|done].
  apply (sign_rpm_ends fuel o f capture p c2); [done|lia|by apply Hprot|]. destruct capture as [h|]; [|done].
  intros token [-> | ->].
  - destruct (post_header Do (signServerUrl o) env_token (Bytes h)) as [[code body]|e|x|]; [|done..]. lia.
  - destruct (post_header Do (signServerUrl o) (signServerToken o) (Bytes h)) as [[code body]|e|x|]; [|done..]. lia.
Qed.

(** A request to overwrite the package with its signed copy. *)
Definition in_place (o : Options) : Prop :=
  signingMode o = SIGNING_MODE_RPM /\ overwriteDestinationFile o = true /\
  is_url (rpmFilePath o) = false /\ destinationFileName o = rpmFilePath o.

(** What the parser reads from. *)
Definition source_over (o : Options) (r : SeekableReaderImpl F B)
    : IOReaderWithOffset (headerCapturingReader (SeekableReaderImpl F B) + SeekableReaderImpl F B) :=
  NewIOReaderWithOffset
    (if nonempty (signServerUrl o) && (signingMode o =? SIGNING_MODE_RPM) then inl (newHeaderCapturingReader r) else inr r).

(** Unless it is signed in place, the output does not reach the payload. *)
Lemma parsed_protected o m r :
  fresh (rpmFilePath o) m r -> (~ in_place o) -> signingMode o = SIGNING_MODE_RPM ->
  protected m (destinationFileName o) (overwriteDestinationFile o) (stop_capturing (ParseRPM false (source_over o r)).2).2.
Proof.
  intros Hfresh Hno Hmode. set (rd := (ParseRPM false (source_over o r)).2).
  destruct Hfresh as [(content & -> & Hu & Hm)|[body ->]].
  - assert (stands (rpmFilePath o) content rd) as Hst.
    { apply (maintains_ParseRPM (stands (rpmFilePath o) content)); [intros n s; apply stands_read|]. intros fl.
      destruct (file_opened (F:=F) (rpmFilePath o) content) as (Hn & Hc & _). unfold source_over.
      destruct (_ && _); by intros [= <-]. }
    destruct (decide (destinationFileName o = rpmFilePath o)) as [Hd|Hd].
    + right. rewrite Hd. split; [|by exists content]. destruct (overwriteDestinationFile o) eqn:Eo; [|done].
      destruct Hno. by split_and!.
    + left. apply (stands_separate m _ (rpmFilePath o) content); [|by split]. unfold stands. by rewrite file_behind_stop.
  - assert (file_behind rd = None) as Hnone.
    { apply (maintains_ParseRPM (fun r => file_behind r = None)); [|unfold source_over; by destruct (_ && _)].
      intros n s Hs. pose proof (file_behind_read n s) as Hr. by rewrite Hs in Hr. }
    left. apply (stands_separate m _ "" []); unfold stands; rewrite file_behind_stop, Hnone; done.
Qed.

Lemma run_ends o c :
  ~ in_place o -> exists N, forall fuel, (N <= fuel)%nat -> (run http_Get Do range env_token fuel now o c).1 <> Diverge.
Proof.
  intros Hno. unfold run.
  destruct (when_verbose_ends o (str "Reading input file %s" ++ [10]) [Text (str (rpmFilePath o))] c) as (c1 & Hw & Hc1).
  pose proof (OpenFileOrUrl_ends (rpmFilePath o) (c_world c1)) as Ho.
  set (size := input_size (rpmFilePath o) (files (c_world c1))) in *.
  destruct (OpenFileOrUrl http_Get (rpmFilePath o) (c_world c1)) as [or w] eqn:Eopen.
  exists (match or with
          | Ok r => size + 2 + match ParseRPM false (source_over o r) with
                               | (Ok f, rd) => enough_fuel o f (stop_capturing rd).1 size | _ => 0 end
          | _ => 0 end)%nat.
  intros fuel Hfuel. rewrite (M_bind_ok _ _ _ _ _ Hw). unfold mbind at 1, M_bind at 1, exit_on_error, in_world, wrap_err at 1.
  rewrite Eopen. destruct or as [r|e|x|]; try done. destruct Ho as (Hfiles & Hfresh & Hlen).
  assert (usable r) as Hvr by (by destruct Hfresh as [(content & -> & _)|[body ->]]).
  set (c2 := mkClient w _ _). destruct (signingMode o =? SIGNING_MODE_GENERIC).
  { apply sign_generic_ends; [done|]. lia. }
  cbv zeta. fold (source_over o r). unfold ParseRPMFromReader.
  assert (at_most size (source_over o r)) as Hs by (split; [done|]; unfold source_over; by destruct (_ && _)).
  pose proof (ends_ParseRPM false size (source_over o r) Hs) as Hparse.
  pose proof (parsed_protected o (files w) r) as Hprot. rewrite Hfiles in Hprot. specialize (Hprot Hfresh Hno).
  destruct (ParseRPM false (source_over o r)) as [[f|e|x|] rd]; try done. destruct Hparse as [Hv Hl].
  erewrite M_bind_ok by reflexivity. rewrite (surjective_pairing (stop_capturing rd)).
  destruct (stop_capturing_rest rd Hv) as [Hv' Hr']. apply (after_parsing_ends fuel o f _ size);
    [lia|by subst c2; simpl; rewrite Hfiles|done|by rewrite Hr'|]. subst c2. simpl. by rewrite Hfiles.
Qed.
End Client.

(** *** The command line *)

Lemma failIfNotUnique_ends opt o : failIfNotUnique opt o <> Diverge.
Proof. unfold failIfNotUnique. by case_match. Qed.

Lemma parseArgs_ends n : forall args o, (length args <= n)%nat -> parseArgs args o <> Diverge.
Proof.
  induction n as [|n IH]; intros [|arg args] o Hn; try done; [simpl in Hn; lia|]. simpl in Hn. cbn [parseArgs]. cbv zeta.
  assert (forall k : Options -> Options, (o' ← failIfNotUnique arg o; parseArgs args (k o')) <> Diverge) as Hflag.
  { intros k. apply outcome_bind_ends; [apply failIfNotUnique_ends|]. intros o'. apply IH. lia. }
  assert (forall k : string -> outcome Options, (forall value, k value <> Diverge) ->
    match args with
    | [] => Err (arg +:+ " option requires an argument")
    | value :: rest => o' ← k value; parseArgs rest o'
    end <> Diverge) as Hargument.
  { intros k Hk. destruct args as [|value rest]; [done|]. apply outcome_bind_ends; [apply Hk|]. intros o'. apply IH.
    simpl in Hn. lia. }
  assert (forall k : Options -> outcome Options, (forall o', k o' <> Diverge) -> (o' ← failIfNotUnique arg o; k o') <> Diverge)
    as Honce by (intros k Hk; apply outcome_bind_ends; [apply failIfNotUnique_ends|exact Hk]).
  repeat match goal with |- (if ?b then _ else _) <> _ => destruct b end; try apply Hflag; try (by apply IH; lia);
    try done; apply Hargument; intros value; try apply Honce; intros; try destruct (_ <? _)%nat; done.
Qed.

Lemma parse_command_line_ends args : parse_command_line args <> Diverge.
Proof.
  unfold parse_command_line. apply outcome_bind_ends; [by eapply parseArgs_ends|]. intros [o|]; [|done].
  apply outcome_bind_ends; [|done]. unfold checkOptions.
  by repeat match goal with |- (if ?b then _ else _) <> _ => destruct b end.
Qed.

(** ** The property *)

(** C8. The client ends on every command line that does not sign a local package in place
    (the case of C20): whatever the arguments, the files, the registries and the log are,
    whichever system calls and reads fail, of the input as of the network, and whatever
    the input contains and the server answers, [main] returns or exits with a message,
    once the fuel of its reading loops exceeds what there is to read. Without [-f] the
    output may also be the input: it is refused then. *)
Theorem main_ends `{OS} `{KeyFormat} `{!Responsive} `{Hashes} `{Runtime} `{NetURL} {F B : Type}
    `{FallibleIOReader F} `{FallibleIOReader B} `{!FileReader F} `{!LawfulFile F} (http_Get : string -> outcome (Z * B))
    {Body : Type} `{FallibleReader Body} (Do : URL -> list Z -> outcome (Z * Body)) range env_token AppVersion GitRef now args c :
  responding http_Get Do -> (forall o, parse_command_line args = Ok (Some o) -> ~ in_place o) ->
  exists enough, forall fuel, (enough <= fuel)%nat ->
  (main (F:=F) http_Get Do range env_token AppVersion GitRef fuel now args c).1 <> Diverge.
Proof.
  intros Hnet Hno. unfold main. pose proof (parse_command_line_ends args) as Hp.
  destruct (parse_command_line args) as [[o|]|e|x|]; try (by exists 0%nat).
  set (c' := (in_log (fun l => if debugLogging o then SetCurrentLogLevel LOG_LEVEL_DEBUG l else l) c).2).
  destruct (run_ends http_Get Do range env_token now Hnet o c' (Hno o eq_refl)) as [enough Henough]. by exists enough.
Qed.

(** ** A witness *)

Section Witness.
#[local] Existing Instance reliable_os.
#[local] Existing Instance checksums.
#[local] Existing Instance doubling.
#[local] Existing Instance checksum_pgp.
#[local] Existing Instance sample_keyformat.
#[local] Existing Instance sample_neturl.
#[local] Existing Instance sample_read.
#[local] Existing Instance sample_read_lawful.
#[local] Existing Instance sample_file_reader.
#[local] Existing Instance sample_file_lawful.
#[local] Existing Instance sample_responsive.

(** A network without web servers, and a server that answers with what it gets, but
    breaks off after 100 bytes. *)
Definition no_web (url : string) : outcome (Z * DiskFile) := Err "no such host".
Definition broken_echo (url : URL) (header : list Z) : outcome (Z * IOReaderWithOffset connection) :=
  Ok (200, NewIOReaderWithOffset (mkConnection (mkChunked 6 header) (Some 100%nat))).

Lemma sample_responding : responding no_web broken_echo.
Proof.
  split; try done.
  - intros keys data sig. simpl. by case_bool_decide.
  - intros content. simpl. by repeat case_match.
Qed.

(** The crafted file for which the parser panics, as the input. *)
Definition crafted_home : Client :=
  mkClient (mkWorld {[ "in.rpm" := crafted; "my.key" := [1] ]} []) rootLogger (tagsById, signatureTagsByID).

(** The package as its own output, without [-f]. *)
Definition refused_args : list string := ["-s"; "--priv-key"; "my.key"; "-o"; "in.rpm"; "in.rpm"].

Lemma not_in_place args : overwriteDestinationFile (options_of args) = false ->
  forall o, parse_command_line args = Ok (Some o) -> ~ in_place o.
Proof. unfold options_of. intros Ho o Hp (_ & Hover & _). rewrite Hp in Ho. congruence. Qed.

Lemma main_ends_witness :
  responding no_web broken_echo /\
  (exists enough, forall fuel, (enough <= fuel)%nat ->
    (main (F:=DiskFile) no_web broken_echo elements "" "" "" fuel 0 sign_args crafted_home).1 <> Diverge) /\
  (exists enough, forall fuel, (enough <= fuel)%nat ->
    (main (F:=DiskFile) no_web broken_echo elements "" "" "" fuel 0 remote_args sample_home).1 <> Diverge) /\
  (exists enough, forall fuel, (enough <= fuel)%nat ->
    (main (F:=DiskFile) no_web broken_echo elements "" "" "" fuel 0 refused_args sample_home).1 <> Diverge).
Proof.
  split; [exact sample_responding|].
  split; [|split].
  - refine (main_ends (F:=DiskFile) no_web broken_echo elements "" "" "" 0 sign_args crafted_home sample_responding _).
    apply not_in_place. vm_compute. reflexivity.
  - refine (main_ends (F:=DiskFile) no_web broken_echo elements "" "" "" 0 remote_args sample_home sample_responding _).
    apply not_in_place. vm_compute. reflexivity.
  - refine (main_ends (F:=DiskFile) no_web broken_echo elements "" "" "" 0 refused_args sample_home sample_responding _).
    apply not_in_place. vm_compute. reflexivity.
Defined.
End Witness.
